(* ===== verification/_CoqProject ===== *)
-Q . S2P
Prelude.v
JsString.v
Double.v
Division.v
JsNumber.v
Dom.v
Config.v
World.v
Events.v
Page.v
Navigation.v
Konami.v
Minecraft.v
VoiceChat.v
Animations.v
Counter.v
Social.v
Accessibility.v
Performance.v
App.v
EventLoop.v
Invariants.v
Liveness.v
Scenarios.v
