(* ===== verification/Prelude.v ===== *)
(** * BlackflameNova: a verification development of [src/Script.js]

    The repository is one browser script, [src/Script.js].  It defines seven
    module objects ([Navigation], [Animations], [Social], [Minecraft],
    [VoiceChat], [Accessibility], [Performance]) whose [init] methods wire
    listeners, observers and timers onto the page; a bootstrap
    ([BlackflameNova.init]) that calls the seven [init]s in order inside one
    [try]; a few [window] utilities; a Konami-code easter egg; and a
    [visibilitychange] handler.  The modules share nothing but the DOM,
    the event loop and [window].

    ** The model

    - [Prelude] (this file): the hint databases [bn] and [bn_rw], tactics
      and generic list lemmas ([last_n], the suffix that a bounded buffer
      keeps).
    - [JsString]: the JavaScript string built-ins the script calls
      ([parseInt], [replace], [split], [join], [match(/\d+/)], number to
      string), with the round trip [parseInt (show_N n) = n], the
      injectivity of [join(',')] on key codes and [split] at a separator.
    - [Double]: IEEE-754 binary64 doubles on the Standard Library's
      [SpecFloat] ([dmul], [dadd], the comparison [dgt], [Math.floor] as
      [js_floor], the draw [k / 2^53] as [of_draw]), with the correctness of
      their rounding: [round_aux_spec] and [round_aux_close] for the
      rounding step, [dmul_close] and [dadd_close] (the result is the exact
      one within a relative error of [2^-53], plus half the least
      subnormal), [dgt_spec], and [draw_times_floor]
      ([Math.floor(Math.random() * n)] lies in [[0, n)]).
    - [Division]: the script's [/] as [SFdiv] ([ddiv]): rounding a
      quotient with the location of its remainder is rounding an exact
      value four times finer ([round_aux_loc]), so [x / y] is within half
      an ulp of the exact quotient ([ddiv_close]).
    - [JsNumber]: [Number::toString] on doubles (the shortest decimal that
      rounds back, [shortest], laid out by [format_decimal] as plain,
      fractional or exponent notation) and a reader of CSS number tokens
      ([read_number]), with [shortest_spec] (digits are minimal) and
      [js_number_text_reads_back] (the printed text reads back to the same
      double).
    - [Dom]: the document as a store ([gmap] from node ids to element
      records with parent pointers and document order), selectors,
      [querySelector(All)], [contains], [createElement], [appendChild],
      [removeChild]; frame lemmas ([same_tree]), read-back functions
      ([has_cls], [style_of], [text_of], [attr_of]) and the document's
      well-formedness [doc_wf] (ids below [d_next]) and [classes_nodup]
      (a [classList] is a set).
    - [World]: the state of the page as one record ([world]: document,
      listeners, timers, observers, closure cells, console, clipboard,
      location, title, share sheets, the key buffer of the easter egg, ...),
      the closures the script creates, defunctionalised as the inductive
      [task], and a state and exception monad [M] ([Ok]/[Throw], a throw
      keeping the state reached so far, as JavaScript has no rollback).
    - [Events]: events, bubbling ([click] and [keydown] bubble to the
      document) and [dispatch], which runs the listeners of the target's
      path in order, each in its own [try] as the browser does, with a
      [defaultPrevented] flag per event; [fire_timer]; the closures are
      run through the class [TaskRunner], so each component's theorems are
      stated against the laws it needs of the event loop.
    - [Config] ([CONFIG], [getServerInfo]), [Navigation] (with the
      utilities [debounce] and [scrollTo]), [Konami], [Minecraft],
      [VoiceChat], [Animations], [Social], [Accessibility], [Performance]:
      one file per module of the script, each a Rocq [Module] with one
      definition per method, listener body and timer callback, named as in
      the source.
    - [Counter]: the numeric analysis of the counter animation of
      [Animations] ([counter_ticks], the value of [current] after each
      tick) and its theorems in the page.
    - [App]: the bootstrap, the [window] utilities, the visibility handler
      (with the object-literal lookup through [Object.prototype]) and the
      top-level statements of the script ([load_script]).
    - [EventLoop]: the event loop's [TaskRunner] (each [task] mapped to the
      definition it stands for, with [link.click()] dispatching a click),
      the proofs that it satisfies the components' law classes
      ([NavigationTasks], [KonamiTasks], [ToastTasks]), and the theorems
      that compose components through it.
    - [Invariants]: the event loop as a step relation [step] (dispatch an
      event, fire a timer, scroll, switch tabs), the predicate transformer
      [preserves] with its tactic [preserve] (driven by the hint database
      [wf]), and the invariant [wf] of every reachable page.
    - [Liveness]: what a visitor can always make happen, as reachability
      along [rtc step].
    - [Page]: a concrete [minecraft.html] page; [Scenarios] and the
      witnesses in [App] and [EventLoop] apply the theorems to it.

    ** The theorems

    - Bootstrap ([App]): it never lets an exception escape
      ([bootstrap_total]); when every module initialises the body gets
      [loaded] and the welcome message is logged; a
      channel capacity without digits makes [VoiceChat.init] throw, which
      aborts the bootstrap before [Accessibility] and [Performance]
      ([bootstrap_voicechat_abort]); loading the script
      ([load_script_spec]).  In a browser without [IntersectionObserver]
      the unguarded observer of [setupScrollAnimations] makes
      [Animations.init] throw a [ReferenceError] before it changes anything
      ([animations_init_without_io]).
    - Invariants: every reachable page keeps fresh node ids, unique timer
      ids, a Konami buffer of at most ten keys, listeners registered for
      the event type their closure handles, and duplicate-free class lists
      ([reachable_wf]).
    - Event loop: its fuel is never the limit ([event_loop_fuel_enough]);
      keyboard activation of a card follows its link
      ([card_key_follows_link]); the debounced header style catches up when
      its timeout fires ([header_scroll_settles]).
    - Liveness: the Konami sequence always turns the rainbow on, whatever
      was typed before ([konami_always_reachable]).
    - Navigation: the three menu listeners refine the two-state contract
      [menu_spec] ([menu_listeners_refine]); after [k] runs of
      [setupMobileMenu] a click on the toggle takes [k] toggle steps, so
      one run toggles once ([menu_click_toggles_once]) and two runs never
      open the menu ([double_init_menu_never_opens]); the active nav link
      ([setupActiveLinks_spec]) and the page-URL round trip
      ([page_url_roundtrip]); smooth scrolling ([smooth_scroll_spec]);
      a burst of debounced calls leaves one timeout ([debounce_burst]).
    - Counter (the counter animation of [Animations], on doubles): it
      runs once per element, shows [floor(k * target / 125)] or one less
      after [k <= 125] ticks, runs through the 124th tick and has shown the
      target and cleared its interval from the 126th
      ([counter_animation_spec]); a counter of 9 still shows 8 after 125
      ticks, 2 s, and needs a 126th ([counter_nine_overruns]); a number
      followed by a suffix ends as it was ([counter_keeps_suffix]), but
      every non-digit is moved behind the number ([counter_comma_moved]).
    - Animations: each particle of [createParticles]
      consumes four draws in the template's order and its inline style
      holds the four doubles of the template, printed as
      [Number::toString] prints them so that they read back
      ([create_particle_spec]).
    - Minecraft: the copy action on both paths
      ([copyToClipboard_success]; [copyToClipboard_fallback], where the
      textarea is selected and [execCommand('copy')] copies the selection,
      and the success toast is shown even when the browser refuses the
      copy); the toast's
      two timers remove it 3.3 s after it is shown ([toast_lifecycle]); the
      status check ([checkServerStatus_spec]), whose double test
      [Math.random() > 0.2] is the exact [k / 2^53 > 1/5]
      ([draw_gt_0_2_exact]); the ping's range, text and colour
      ([updatePing_spec]).
    - Konami: the egg fires exactly when they are the sequence
      ([konami_trigger_iff]); the listener's full effect
      ([konami_keydown_spec]: the buffer is the last ten keys).
    - VoiceChat: the occupancy's range ([occupancy_bounds]), the channel
      status line for capacities below [2^53] ([channel_status_spec]); the
      double test
      [currentUsers > maxUsers * 0.7] is the exact test of more than 70%
      except at exactly 70% ([crowded_exact]), where it depends on the
      rounding and a channel of 90 with 63 users is red
      ([channel_red_at_seventy_percent]); the TODAY badge, one more per call
      ([highlight_card_adds_badge]).
    - Social, Accessibility, Performance: the widget iframe, whose
      lower-case [frameborder] and [allowtransparency] never become
      attributes ([loadDiscordWidget_spec]); the keyboard shortcuts
      ([shortcuts_spec]); [loading="lazy"] ([optimizeImages_spec]).
    - App: the tab title ([visibility_title_spec]), and the restored title
      on a page named after an inherited property
      ([visibility_title_inherited]); [sharePage] with the share sheet
      ([sharePage_share_spec]) and without it, where it copies the URL but
      shows no toast ([sharePage_no_toast]).

    ** Bounds and fuel

    [Math.random()] is a stream of integers [k] in [[0, 2^53)] standing for
    the doubles [k / 2^53] it returns; every product, sum, comparison and
    floor the script applies to a draw is computed on doubles in [Double],
    so the model rounds where the browser rounds.  The bounds of the
    theorems on them are the ones the proofs need: operands below [2^53]
    (integers a double holds exactly) and capacities up to [2^40] in
    [crowded_exact], far above any channel's.  [Number::toString] searches
    at most 17 digits, enough for every double ([shortest_spec]).  [confirm]
    answers are a stream of booleans.  [ancestors] walks parent pointers
    with fuel equal to the number of nodes, enough for any acyclic
    store; the number printer [show_N] takes [size n + 1] steps, enough for
    every digit.  The event loop runs a task with fuel 4; the only nested
    dispatch is the keyless synthetic click of a card's keydown listener,
    so any fuel of at least 2 gives the same result
    ([event_loop_fuel_enough]).  The counter's theorems take targets up to
    [2^32]: its sums then stay within a relative [2^-45] of the exact ones
    over 126 ticks, which keeps the shown value within one of the
    interpolation; [Math.floor(current) + suffix] is written with the
    decimal digits of the integer, which is what [Number::toString] prints
    for integers below [10^21].  Timers fire at
    their due time ([fire_timer] sets the clock to it); the order in which
    due timers and events interleave is left to [step].

    ** Not modelled

    Layout and rendering (when an [IntersectionObserver] fires, scroll
    positions, CSS), the messages of [confirm] dialogs (only
    the answers matter to the script), the text nodes around the ping
    value (kept as its label's own text), the outcomes of the share sheet,
    the clipboard, [execCommand('copy')] and the service worker's
    registration promise (environment flags), [parseInt] and the text of
    numbers at [2^53] and above (the model reads digits exactly and prints
    them with [show_N]; the theorems that print a number bound it below
    [2^53]), the order of children ([insertBefore] is an append), and the
    HTML pages themselves, for which [Page]
    gives one concrete instance. *)

From Stdlib Require Import ZArith Lia.
From stdpp Require Import base list gmap strings.

(** ** Hint databases and tactics shared by every component *)

Create HintDb bn discriminated.
Create Rewrite HintDb bn_rw.

(** [invc H] inverts a hypothesis and cleans the context. *)
Ltac invc H := inversion H; subst; clear H.

(** [bool_cases] turns the boolean tests the model's definitions use into
    propositions and splits on them. *)
Ltac bool_cases :=
  repeat match goal with
  | |- context [bool_decide ?P] => case_bool_decide
  | H : context [bool_decide ?P] |- _ => case_bool_decide
  end.

(** ** Generic lemmas on lists and options *)

Section lists.
Context {A : Type}.

(** Dropping the head of a list that is one too long gives back the
    bound. *)
Lemma length_tail_le (l : list A) (n : nat) :
  length l <= S n -> length (tail l) <= n.
Proof. destruct l; simpl; lia. Qed.

(** [skipn] of a list is a suffix of it. *)
Lemma skipn_suffix (l : list A) (k : nat) :
  exists p, l = p ++ skipn k l.
Proof. exists (firstn k l). by rewrite firstn_skipn. Qed.

(** The last [n] elements of a list. *)
Definition last_n (n : nat) (l : list A) : list A :=
  skipn (length l - n) l.

Lemma length_last_n (n : nat) (l : list A) :
  length (last_n n l) = Nat.min n (length l).
Proof. unfold last_n. rewrite length_skipn. lia. Qed.

Lemma last_n_all (n : nat) (l : list A) :
  length l <= n -> last_n n l = l.
Proof.
  intros H. unfold last_n. replace (length l - n) with 0 by lia. done.
Qed.

(** Dropping a prefix no longer than the list commutes with appending
    at the end. *)
Lemma skipn_snoc (k : nat) (l : list A) (x : A) :
  k <= length l -> skipn k (l ++ [x]) = skipn k l ++ [x].
Proof.
  intros H. rewrite skipn_app. by replace (k - length l) with 0 by lia.
Qed.

Lemma tail_skipn (k : nat) (l : list A) :
  tail (skipn k l) = skipn (S k) l.
Proof. revert l. induction k; intros [|y l]; simpl; auto. Qed.
End lists.

#[export] Hint Resolve length_tail_le : bn.
#[export] Hint Rewrite @length_last_n : bn_rw.
