(* ===== verification/JsString.v ===== *)
(** * JsString: the JavaScript string and number conversions the script uses

    [String.prototype.replace] with a string pattern (first occurrence
    only) and with the global regular expressions [/\D/g] and [/\d/g];
    [String.prototype.split] on one character and [Array.prototype.pop];
    [String.prototype.match(/\d+/)]; the global [parseInt] (radix
    undefined); the decimal printing of a non-negative integer
    ([Number.prototype.toString]) and [Array.prototype.join].  Strings are
    Stdlib strings of bytes; the script's inputs are ASCII. *)

From Stdlib Require Import ZArith Lia Ascii.
From stdpp Require Import base list strings.
From S2P Require Import Prelude.

Local Open Scope char_scope.
Local Open Scope N_scope.

(** ** Characters *)

(** The character class [\d]. *)
Definition is_digit (c : ascii) : bool :=
  bool_decide (48 <= N_of_ascii c <= 57).

Definition digit_val (c : ascii) : N := N_of_ascii c - 48.

Definition digit_char (d : N) : ascii := ascii_of_N (48 + d).

(** Hexadecimal digits, for [parseInt]'s [0x] prefix. *)
Definition hex_val (c : ascii) : option N :=
  let n := N_of_ascii c in
  if bool_decide (48 <= n <= 57) then Some (n - 48)
  else if bool_decide (97 <= n <= 102) then Some (n - 87)
  else if bool_decide (65 <= n <= 70) then Some (n - 55)
  else None.

(** [StrWhiteSpaceChar] restricted to ASCII: tab, line feed, vertical
    tab, form feed, carriage return and space. *)
Definition is_js_space (c : ascii) : bool :=
  let n := N_of_ascii c in
  bool_decide (n = 9 \/ n = 10 \/ n = 11 \/ n = 12 \/ n = 13 \/ n = 32).

(** ** Searching and replacing *)

Fixpoint str_prefix (p s : string) : bool :=
  match p, s with
  | EmptyString, _ => true
  | String a p', String b s' => bool_decide (a = b) && str_prefix p' s'
  | String _ _, EmptyString => false
  end.

Fixpoint str_drop (n : nat) (s : string) : string :=
  match n, s with
  | O, _ => s
  | S n', String _ s' => str_drop n' s'
  | S _, EmptyString => EmptyString
  end.

(** [s.toLowerCase()] on ASCII letters. *)
Definition ascii_lower (c : ascii) : ascii :=
  let n := N_of_ascii c in
  if bool_decide (65 <= n <= 90) then ascii_of_N (n + 32) else c.

Fixpoint js_lower (s : string) : string :=
  match s with EmptyString => EmptyString | String c s' => String (ascii_lower c) (js_lower s') end.

(** [s.includes(sub)]. *)
Fixpoint str_contains (sub s : string) : bool :=
  str_prefix sub s ||
  match s with EmptyString => false | String _ s' => str_contains sub s' end.

(** [s.replace(pat, rep)] with a string [pat]: the first occurrence of
    [pat] is replaced; an empty [pat] matches at position 0. *)
Fixpoint js_replace (s pat rep : string) : string :=
  if str_prefix pat s then rep +:+ str_drop (String.length pat) s
  else match s with
       | EmptyString => EmptyString
       | String c s' => String c (js_replace s' pat rep)
       end.

(** [s.replace(/C/g, '')] for a character class [C]: every character of
    the class is removed. *)
Fixpoint js_remove_all (cls : ascii -> bool) (s : string) : string :=
  match s with
  | EmptyString => EmptyString
  | String c s' =>
      if cls c then js_remove_all cls s' else String c (js_remove_all cls s')
  end.

(** [s.replace(/\D/g, '')] keeps the digits, [s.replace(/\d/g, '')] the
    rest. *)
Definition strip_non_digits (s : string) : string :=
  js_remove_all (fun c => negb (is_digit c)) s.
Definition strip_digits (s : string) : string := js_remove_all is_digit s.

(** [s.split(sep)] for a one-character separator: never empty. *)
Fixpoint js_split (sep : ascii) (s : string) : list string :=
  match s with
  | EmptyString => [EmptyString]
  | String c s' =>
      let rest := js_split sep s' in
      if bool_decide (c = sep) then EmptyString :: rest
      else match rest with
           | [] => [String c EmptyString]
           | x :: xs => String c x :: xs
           end
  end.

(** [arr.pop()] as a value: the last element, [undefined] on []. *)
Definition js_pop (l : list string) : option string := last l.

(** The longest prefix of characters satisfying [p]. *)
Fixpoint take_while (p : ascii -> bool) (s : string) : string :=
  match s with
  | String c s' => if p c then String c (take_while p s') else EmptyString
  | EmptyString => EmptyString
  end.

(** [s.match(/\d+/)]: the first maximal run of digits, [null] (None)
    when there is none; [[0]] of the match array is its text. *)
Fixpoint js_match_digits (s : string) : option string :=
  match s with
  | EmptyString => None
  | String c s' =>
      if is_digit c then Some (take_while is_digit s) else js_match_digits s'
  end.

(** ** Numbers *)

(** Value of a digit string read left to right from an accumulator. *)
Fixpoint digits_acc (base : N) (acc : N) (ds : list N) : N :=
  match ds with
  | [] => acc
  | d :: ds' => digits_acc base (acc * base + d) ds'
  end.

Fixpoint skip_spaces (s : string) : string :=
  match s with
  | String c s' => if is_js_space c then skip_spaces s' else s
  | EmptyString => EmptyString
  end.

Fixpoint hex_digits (s : string) : list N :=
  match s with
  | String c s' => match hex_val c with Some d => d :: hex_digits s' | None => [] end
  | EmptyString => []
  end.

(** The values of the longest run of decimal digits at the start. *)
Fixpoint dec_digits (s : string) : list N :=
  match s with
  | String c s' => if is_digit c then digit_val c :: dec_digits s' else []
  | EmptyString => []
  end.

(** The number a run of digits denotes in [parseInt]. *)
Definition digits_number (base : N) (ds : list N) : option N :=
  match ds with [] => None | _ => Some (digits_acc base 0 ds) end.

(** The optional sign of [parseInt]. *)
Definition parse_sign (s : string) : Z * string :=
  match s with
  | String c r =>
      if bool_decide (c = "-") then ((-1)%Z, r)
      else if bool_decide (c = "+") then (1%Z, r) else (1%Z, s)
  | EmptyString => (1%Z, s)
  end.

(** The digits after the sign: a [0x]/[0X] prefix selects base 16. *)
Definition parse_magnitude (s : string) : option N :=
  match s with
  | String c (String x r) =>
      if bool_decide (c = "0" /\ (x = "x" \/ x = "X"))
      then digits_number 16 (hex_digits r)
      else digits_number 10 (dec_digits s)
  | _ => digits_number 10 (dec_digits s)
  end.

(** [parseInt(s)] with no radix: leading white space, an optional sign,
    then the longest run of digits; [NaN] (None) when the run is empty. *)
Definition js_parseInt (s : string) : option Z :=
  let '(sign, s2) := parse_sign (skip_spaces s) in
  option_map (fun n => (sign * Z.of_N n)%Z) (parse_magnitude s2).

(** [parseInt(x) || 0]: NaN (and 0) become 0. *)
Definition or_zero (v : option Z) : Z :=
  match v with Some z => z | None => 0%Z end.

(** Decimal printing of a non-negative integer, most significant digit
    first; the fuel [S (N.size_nat n)] exceeds the number of digits. *)
Fixpoint show_N_fuel (fuel : nat) (n : N) : string :=
  match fuel with
  | O => EmptyString
  | S f =>
      if bool_decide (n < 10) then String (digit_char n) EmptyString
      else show_N_fuel f (n / 10) +:+ String (digit_char (n mod 10)) EmptyString
  end.

Definition show_N (n : N) : string := show_N_fuel (S (N.size_nat n)) n.

(** [arr.join(sep)]. *)
Fixpoint js_join (sep : string) (l : list string) : string :=
  match l with
  | [] => EmptyString
  | [x] => x
  | x :: l' => x +:+ sep +:+ js_join sep l'
  end.

(** ** Lemmas *)

(** A string made of decimal digits only. *)
Fixpoint all_digits (s : string) : bool :=
  match s with
  | EmptyString => true
  | String c s' => is_digit c && all_digits s'
  end.

Lemma digit_char_spec (d : N) :
  d < 10 -> is_digit (digit_char d) = true /\ digit_val (digit_char d) = d.
Proof.
  intros Hd. unfold is_digit, digit_val, digit_char.
  rewrite N_ascii_embedding by lia. split; [apply bool_decide_eq_true; lia | lia].
Qed.

Lemma all_digits_app (s1 s2 : string) :
  all_digits (s1 +:+ s2) = all_digits s1 && all_digits s2.
Proof. induction s1; simpl; [done|]. by rewrite IHs1, andb_assoc. Qed.

Lemma dec_digits_app (s1 s2 : string) :
  all_digits s1 = true -> dec_digits (s1 +:+ s2) = dec_digits s1 ++ dec_digits s2.
Proof.
  induction s1 as [|c s1 IH]; simpl; [done|].
  intros [-> H]%andb_prop. by rewrite IH.
Qed.

Lemma digits_acc_app (b a : N) (l1 l2 : list N) :
  digits_acc b a (l1 ++ l2) = digits_acc b (digits_acc b a l1) l2.
Proof. revert a. induction l1; simpl; auto. Qed.

(** What the printer produces: a non-empty run of digits whose value is
    the number printed. *)
Definition prints (s : string) (n : N) : Prop :=
  all_digits s = true /\ s <> EmptyString /\ digits_acc 10 0 (dec_digits s) = n.

Lemma show_N_fuel_S (f : nat) (n : N) :
  show_N_fuel (S f) n =
  if bool_decide (n < 10) then String (digit_char n) EmptyString
  else show_N_fuel f (n / 10) +:+ String (digit_char (n mod 10)) EmptyString.
Proof. reflexivity. Qed.

Lemma show_N_fuel_prints (f : nat) (n : N) :
  n < 10 ^ N.of_nat (S f) -> prints (show_N_fuel (S f) n) n.
Proof.
  revert n. induction f as [|f IH]; intros n Hn; rewrite show_N_fuel_S;
    case_bool_decide as Hlt.
  1,3: destruct (digit_char_spec n Hlt) as [H1 H2];
       repeat split; simpl; [by rewrite H1|done|by rewrite H1, H2].
  - simpl in Hn. lia.
  - assert (Hq : n / 10 < 10 ^ N.of_nat (S f)).
    { apply N.Div0.div_lt_upper_bound.
      rewrite Nat2N.inj_succ, N.pow_succ_r' in Hn. lia. }
    destruct (IH _ Hq) as (Hd & Hne & Hv).
    destruct (digit_char_spec (n mod 10)) as [H1 H2]; [apply N.mod_lt; lia|].
    repeat split.
    + by rewrite all_digits_app, Hd; simpl; rewrite H1.
    + by destruct (show_N_fuel (S f) (n / 10)).
    + rewrite dec_digits_app by done. rewrite digits_acc_app, Hv.
      simpl. rewrite H1, H2. simpl. pose proof (N.div_mod n 10). lia.
Qed.

Lemma pos_size_bound (p : positive) :
  N.pos p < 2 ^ N.of_nat (Pos.size_nat p).
Proof.
  induction p; simpl Pos.size_nat; rewrite ?Nat2N.inj_succ, ?N.pow_succ_r'; try lia.
  all: change (N.pos p~1) with (2 * N.pos p + 1); change (N.pos p~0) with (2 * N.pos p); lia.
Qed.

Lemma show_N_prints (n : N) : prints (show_N n) n.
Proof.
  apply show_N_fuel_prints. rewrite Nat2N.inj_succ, N.pow_succ_r'.
  destruct n as [|p]; simpl; [lia|].
  pose proof (pos_size_bound p).
  pose proof (N.pow_le_mono_l 2 10 (N.of_nat (Pos.size_nat p)) ltac:(lia)). lia.
Qed.

#[export] Hint Resolve show_N_prints : bn.

(** ** [parseInt] reads back what the printer writes *)

Lemma digit_not_space (c : ascii) : is_digit c = true -> is_js_space c = false.
Proof.
  unfold is_digit, is_js_space. intros H%bool_decide_eq_true.
  apply bool_decide_eq_false. lia.
Qed.

Lemma digit_neq (c d : ascii) : is_digit c = true -> is_digit d = false -> c <> d.
Proof. intros ?? ->. congruence. Qed.

Lemma parseInt_all_digits (s : string) :
  all_digits s = true -> s <> EmptyString ->
  js_parseInt s = Some (Z.of_N (digits_acc 10 0 (dec_digits s))).
Proof.
  destruct s as [|c r]; [done|]. simpl all_digits.
  intros [Hc Hr]%andb_prop _. unfold js_parseInt.
  simpl skip_spaces. rewrite (digit_not_space c Hc).
  simpl parse_sign.
  rewrite !bool_decide_eq_false_2 by (apply digit_neq; auto).
  assert (Hm : parse_magnitude (String c r) = digits_number 10 (dec_digits (String c r))).
  { destruct r as [|x r']; [done|]. simpl parse_magnitude.
    simpl in Hr. apply andb_prop in Hr as [Hx _].
    rewrite bool_decide_eq_false_2; [done|].
    intros [_ [-> | ->]]; done. }
  rewrite Hm. simpl dec_digits. rewrite Hc. simpl. f_equal. lia.
Qed.

(** Round trip: [parseInt(String(n)) = n] for every non-negative integer. *)
Lemma parseInt_show_N (n : N) : js_parseInt (show_N n) = Some (Z.of_N n).
Proof.
  destruct (show_N_prints n) as (Hd & Hne & Hv).
  by rewrite parseInt_all_digits, Hv.
Qed.

(** ** [join(',')] of digit strings is injective *)

Lemma all_digits_comma (a r : string) :
  all_digits (a +:+ "," +:+ r) = false.
Proof. rewrite all_digits_app. simpl. by rewrite andb_false_r. Qed.

Lemma digits_comma_inj (a b r1 r2 : string) :
  all_digits a = true -> all_digits b = true ->
  a +:+ "," +:+ r1 = b +:+ "," +:+ r2 -> a = b /\ r1 = r2.
Proof.
  change ("," +:+ r1) with (String "," r1). change ("," +:+ r2) with (String "," r2).
  revert b. induction a as [|x a IH]; intros [|y b]; simpl.
  - intros _ _ H. by injection H.
  - intros _ [Hy _]%andb_prop H. injection H as <- _. done.
  - intros [Hx _]%andb_prop _ H. injection H as -> _. done.
  - intros [_ Ha]%andb_prop [_ Hb]%andb_prop H. injection H as -> H.
    destruct (IH b Ha Hb H) as [-> ->]. done.
Qed.

Definition digit_word (s : string) : Prop := all_digits s = true /\ s <> EmptyString.

Lemma js_join_nil_inv (l : list string) :
  Forall digit_word l -> js_join "," l = EmptyString -> l = [].
Proof.
  intros Hl H. destruct l as [|x [|y l]]; [done| |]; inversion Hl as [|? ? [_ Hx] _]; subst.
  - done.
  - simpl in H. destruct x; done.
Qed.

Lemma js_join_digits_inj (l1 l2 : list string) :
  Forall digit_word l1 -> Forall digit_word l2 ->
  js_join "," l1 = js_join "," l2 -> l1 = l2.
Proof.
  revert l2. induction l1 as [|x l1 IH]; intros l2 H1 H2 Hj.
  { symmetry. by apply js_join_nil_inv. }
  inversion H1 as [|? ? [Hx Hxne] H1']; subst.
  destruct l2 as [|y l2]; [by apply js_join_nil_inv in Hj|].
  inversion H2 as [|? ? [Hy Hyne] H2']; subst.
  destruct l1 as [|x' l1], l2 as [|y' l2]; simpl in Hj.
  - by subst.
  - exfalso. rewrite Hj, all_digits_comma in Hx. done.
  - exfalso. rewrite <- Hj, all_digits_comma in Hy. done.
  - destruct (digits_comma_inj _ _ _ _ Hx Hy Hj) as [-> Hr].
    f_equal. by apply IH.
Qed.

Lemma show_N_digit_words (l : list N) : Forall digit_word (map show_N l).
Proof.
  induction l as [|n l IH]; constructor; [|done].
  destruct (show_N_prints n) as (? & ? & _). split; auto.
Qed.

(** Two lists of numbers joined with commas give the same string only
    when they are equal: comparing [a.join(',')] strings decides list
    equality. *)
Lemma join_show_N_inj (l1 l2 : list N) :
  js_join "," (map show_N l1) = js_join "," (map show_N l2) -> l1 = l2.
Proof.
  intros H. apply js_join_digits_inj in H; try apply show_N_digit_words.
  revert l2 H. induction l1 as [|a l1 IH]; intros [|b l2] H; simplify_eq/=; [done|].
  f_equal; [|by apply IH].
  pose proof (parseInt_show_N a) as Ha. pose proof (parseInt_show_N b) as Hb.
  rewrite H in Ha. rewrite Ha in Hb. injection Hb. lia.
Qed.

(** ** The digit filters [replace(/\d/g, '')] and [replace(/\D/g, '')] *)

Lemma strip_digits_app (s1 s2 : string) :
  strip_digits (s1 +:+ s2) = strip_digits s1 +:+ strip_digits s2.
Proof.
  unfold strip_digits. induction s1 as [|c s1 IH]; simpl; [done|].
  destruct (is_digit c); by rewrite IH.
Qed.

Lemma strip_non_digits_app (s1 s2 : string) :
  strip_non_digits (s1 +:+ s2) = strip_non_digits s1 +:+ strip_non_digits s2.
Proof.
  unfold strip_non_digits. induction s1 as [|c s1 IH]; simpl; [done|].
  destruct (is_digit c); by rewrite IH.
Qed.

Lemma strip_digits_all_digits (s : string) : all_digits s = true -> strip_digits s = EmptyString.
Proof.
  unfold strip_digits. induction s as [|c s IH]; simpl; [done|].
  intros [-> ?]%andb_prop. auto.
Qed.

Lemma strip_non_digits_all_digits (s : string) : all_digits s = true -> strip_non_digits s = s.
Proof.
  unfold strip_non_digits. induction s as [|c s IH]; simpl; [done|].
  intros [-> ?]%andb_prop. simpl. by rewrite IH.
Qed.

(** A string without digits ([s.replace(/\D/g, '') === '']) is left as it
    is by [replace(/\d/g, '')]. *)
Lemma strip_digits_no_digits (s : string) : strip_non_digits s = EmptyString -> strip_digits s = s.
Proof.
  unfold strip_non_digits, strip_digits. induction s as [|c s IH]; simpl; [done|].
  destruct (is_digit c); simpl; [discriminate|]. intros H. by rewrite IH.
Qed.

Lemma strip_digits_idem (s : string) : strip_digits (strip_digits s) = strip_digits s.
Proof.
  unfold strip_digits. induction s as [|c s IH]; simpl; [done|].
  destruct (is_digit c) eqn:Hc; [done|]. simpl. by rewrite Hc, IH.
Qed.

(** Writing a number in front of a text does not change its non-digits. *)
Lemma strip_digits_show_N (n : N) (s : string) :
  strip_digits (show_N n +:+ s) = strip_digits s.
Proof.
  destruct (show_N_prints n) as [Hd _].
  by rewrite strip_digits_app, strip_digits_all_digits.
Qed.

#[export] Hint Rewrite strip_digits_show_N strip_digits_idem : bn_rw.

Lemma all_digits_strip_non_digits (s : string) : all_digits (strip_non_digits s) = true.
Proof.
  unfold strip_non_digits. induction s as [|c s IH]; simpl; [done|].
  destruct (is_digit c) eqn:Hc; simpl; [by rewrite Hc|done].
Qed.

(** [parseInt(s.replace(/\D/g, '')) || 0] is never negative. *)
Lemma or_zero_parseInt_digits_nonneg (s : string) :
  (0 <= or_zero (js_parseInt (strip_non_digits s)))%Z.
Proof.
  pose proof (all_digits_strip_non_digits s) as Hd.
  destruct (strip_non_digits s) as [|c s'] eqn:E; [vm_compute; discriminate|].
  rewrite parseInt_all_digits by done. simpl. lia.
Qed.

Lemma append_empty_r (s : string) : s +:+ EmptyString = s.
Proof.
  induction s as [|c s IH]; [done|].
  change (String c (s +:+ EmptyString) = String c s). by rewrite IH.
Qed.

(** [parseInt(s.replace(/\D/g, '')) || 0] of a printed number followed by a
    text without digits is that number. *)
Lemma or_zero_parseInt_show_N (n : N) (sfx : string) :
  strip_non_digits sfx = EmptyString ->
  or_zero (js_parseInt (strip_non_digits (show_N n +:+ sfx))) = Z.of_N n.
Proof.
  intros Hs. destruct (show_N_prints n) as [Hd _].
  rewrite strip_non_digits_app, strip_non_digits_all_digits, Hs, append_empty_r by done.
  by rewrite parseInt_show_N.
Qed.

Lemma js_split_nonempty (sep : ascii) (s : string) : js_split sep s <> [].
Proof.
  induction s as [|c s IH]; simpl; [done|].
  case_bool_decide; [done|]. by destruct (js_split sep s).
Qed.

(** Splitting at a separator concatenates the pieces of both sides. *)
Lemma js_split_app_sep (sep : ascii) (s1 s2 : string) :
  js_split sep (s1 +:+ String sep s2) = js_split sep s1 ++ js_split sep s2.
Proof.
  induction s1 as [|c s1 IH]; simpl.
  - by rewrite bool_decide_eq_true_2.
  - rewrite IH. case_bool_decide; [done|].
    destruct (js_split sep s1) eqn:E; [by apply js_split_nonempty in E|done].
Qed.
