(* ===== verification/Double.v ===== *)
(** * Double: binary64 arithmetic

    The doubles of JavaScript as the Standard Library's [spec_float] with
    [prec = 53] and [emax = 1024]: [Math.random()] as the double [k / 2^53]
    of a 53-bit draw [k], integer literals, and the [*] and [+] of the
    script as [SFmul] and [SFadd], which round to nearest, ties to even.

    The theorems show what the rounding of [SFmul] and [SFadd] computes:
    the significand is shifted right by [d] bits and rounded to nearest,
    ties to even ([rne_div]), the result is canonical, and it lies within
    half a unit in the last place of the exact value. *)

From Stdlib Require Import ZArith QArith Qpower Qround Lia Lqa.
From Stdlib Require Import SpecFloat.
From stdpp Require Import base list.
From S2P Require Import Prelude.

Local Open Scope Z_scope.

(** ** Binary64 values *)

Definition prec : Z := 53.
Definition emax : Z := 1024.

(** [Math.random()] returning the draw [k]: the double [k / 2^53]. *)
Definition of_draw (k : Z) : spec_float := binary_normalize prec emax k (-53) false.

(** An integer literal of the script. *)
Definition of_int (n : Z) : spec_float := binary_normalize prec emax n 0 false.

Definition dmul : spec_float -> spec_float -> spec_float := SFmul prec emax.
Definition dadd : spec_float -> spec_float -> spec_float := SFadd prec emax.

(** The value [m * 2^e] of a finite double, in [Q]. *)
Definition qpow2 (e : Z) : Q := Qpower (2 # 1) e.
Definition qval (m e : Z) : Q := (inject_Z m * qpow2 e)%Q.

(** The finite doubles: zeros and the finite ones, not the infinities
    and NaN. *)
Definition finite_double (x : spec_float) : bool :=
  match x with S754_zero _ | S754_finite _ _ _ => true | _ => false end.

(** The value of a double; the infinities and NaN are given 0. *)
Definition to_Q (x : spec_float) : Q :=
  match x with
  | S754_finite s m e => if s then (- qval (Zpos m) e)%Q else qval (Zpos m) e
  | _ => 0%Q
  end.

(** The integer nearest to [m / 2^n], ties to even: what shifting a
    significand right by [n] bits and rounding to nearest gives. *)
Definition rne_div (m n : Z) : Z :=
  let q := m / 2 ^ n in
  match Z.compare (2 * (m mod 2 ^ n)) (2 ^ n) with
  | Lt => q
  | Gt => q + 1
  | Eq => if Z.even q then q else q + 1
  end.

(** ** Lemmas *)

Lemma inject_Z_le (a b : Z) : a <= b -> (inject_Z a <= inject_Z b)%Q.
Proof. rewrite Zle_Qle. done. Qed.

Lemma inject_Z_sub (a b : Z) : inject_Z (a - b) = (inject_Z a - inject_Z b)%Q.
Proof. unfold Z.sub, Qminus. by rewrite inject_Z_plus, inject_Z_opp. Qed.

Lemma qpow2_add (a b : Z) : (qpow2 (a + b) == qpow2 a * qpow2 b)%Q.
Proof. unfold qpow2. apply Qpower_plus. discriminate. Qed.

Lemma qpow2_pos (a : Z) : (0 < qpow2 a)%Q.
Proof. apply Qpower_0_lt. reflexivity. Qed.

Lemma qval_pos (m e : Z) : 1 <= m -> (0 < qval m e)%Q.
Proof.
  intros Hm. unfold qval. pose proof (qpow2_pos e).
  assert (1 <= inject_Z m)%Q by (apply (inject_Z_le 1 m); lia). nra.
Qed.

Lemma digits2_pos_bound (m : positive) : Zpos m < 2 ^ Zpos (digits2_pos m).
Proof.
  induction m as [m IH|m IH|]; cbn [digits2_pos]; [| |reflexivity];
    rewrite Pos2Z.inj_succ, Z.pow_succ_r by lia; lia.
Qed.

(** A canonical double has a significand below [2^53]. *)
Lemma bounded_mantissa (m : positive) (e : Z) :
  bounded prec emax m e = true -> Zpos m < 2 ^ 53.
Proof.
  unfold bounded, canonical_mantissa, fexp. intros [Hc _]%andb_prop. apply Z.eqb_eq in Hc.
  pose proof (digits2_pos_bound m).
  assert (Zpos (digits2_pos m) <= 53) by (unfold prec in Hc; lia).
  pose proof (Z.pow_le_mono_r 2 _ _ ltac:(lia) H0). lia.
Qed.


(** ** The rounding of [binary_round_aux] *)

Lemma digits2_pos_log2 (m : positive) : Zpos (digits2_pos m) = Z.log2 (Zpos m) + 1.
Proof.
  induction m as [m IH|m IH|]; cbn [digits2_pos]; [| |reflexivity]; rewrite Pos2Z.inj_succ, IH.
  - rewrite Pos2Z.inj_xI, Z.log2_succ_double by lia. lia.
  - rewrite Pos2Z.inj_xO, Z.log2_double by lia. lia.
Qed.

Lemma digits2_pos_lower (m : positive) : 2 ^ (Zpos (digits2_pos m) - 1) <= Zpos m.
Proof.
  rewrite digits2_pos_log2. replace (Z.log2 (Zpos m) + 1 - 1) with (Z.log2 (Zpos m)) by lia.
  apply Z.log2_spec. lia.
Qed.

Lemma iter_pos_nat {A} (f : A -> A) (p : positive) (x : A) :
  @SpecFloat.iter_pos A f p x = Nat.iter (Pos.to_nat p) f x.
Proof.
  revert x. induction p as [p IH|p IH|]; intros x; cbn [SpecFloat.iter_pos].
  - rewrite !IH, Pos2Nat.inj_xI, <- Nat.iter_add, Nat.iter_succ_r. f_equal. lia.
  - rewrite !IH, Pos2Nat.inj_xO, <- Nat.iter_add. f_equal. lia.
  - done.
Qed.

Lemma shr_1_spec (q : Z) (r s : bool) :
  0 <= q ->
  shr_1 {| shr_m := q; shr_r := r; shr_s := s |} = {| shr_m := Z.div2 q; shr_r := Z.odd q; shr_s := r || s |}.
Proof. intros Hq. destruct q as [|[p|p|]|p]; try reflexivity. lia. Qed.

(** The remainder modulo [2^(n+1)] from the remainder modulo [2^n]. *)
Lemma mod_pow2_succ (m n : Z) :
  0 <= n -> m mod 2 ^ (n + 1) = m mod 2 ^ n + 2 ^ n * ((m / 2 ^ n) mod 2).
Proof.
  intros Hn. rewrite Z.pow_add_r by lia. change (2 ^ 1) with 2.
  apply Z.rem_mul_r; lia.
Qed.

(** Shifting [m] right by [n >= 1] bits keeps the quotient, whether the
    remainder reaches half of [2^n], and whether anything below that half
    is lost. *)
Lemma shr_iter_spec (m : Z) (n : nat) :
  0 <= m -> (1 <= n)%nat ->
  Nat.iter n shr_1 {| shr_m := m; shr_r := false; shr_s := false |} =
  {| shr_m := m / 2 ^ Z.of_nat n;
     shr_r := bool_decide (2 ^ (Z.of_nat n - 1) <= m mod 2 ^ Z.of_nat n);
     shr_s := bool_decide (m mod 2 ^ (Z.of_nat n - 1) <> 0) |}.
Proof.
  intros Hm Hn. induction n as [|n IH]; [lia|].
  rewrite Nat.iter_succ. destruct (Nat.eq_dec n 0%nat) as [->|Hn0].
  - change (Nat.iter 0 shr_1 ?x) with x. rewrite shr_1_spec, Z.div2_div by done. cbn -[Z.pow].
    pose proof (Zmod_odd m). pose proof (Z.mod_pos_bound m 2 ltac:(lia)).
    replace (Z.of_nat 1 - 1) with 0 by lia. replace (Z.of_nat 1) with 1 by lia.
    rewrite Z.pow_0_r, Z.pow_1_r. f_equal; [|rewrite Z.mod_1_r; symmetry; apply bool_decide_eq_false_2; lia].
    destruct (Z.odd m); symmetry; [apply bool_decide_eq_true_2|apply bool_decide_eq_false_2]; lia.
  - rewrite IH by lia. set (N := Z.of_nat n).
    assert (HN : 1 <= N) by lia.
    pose proof (Z.div_pos m (2 ^ N) Hm ltac:(lia)) as Hq.
    rewrite shr_1_spec, Z.div2_div by done.
    rewrite Nat2Z.inj_succ. fold N. replace (Z.succ N - 1) with N by lia.
    pose proof (mod_pow2_succ m N ltac:(lia)) as HS. replace (N + 1) with (Z.succ N) in HS by lia.
    pose proof (mod_pow2_succ m (N - 1) ltac:(lia)) as HP. replace (N - 1 + 1) with N in HP by lia.
    pose proof (Z.mod_pos_bound m (2 ^ N) ltac:(lia)).
    pose proof (Z.mod_pos_bound m (2 ^ (N - 1)) ltac:(lia)).
    pose proof (Z.mod_pos_bound (m / 2 ^ N) 2 ltac:(lia)).
    pose proof (Z.mod_pos_bound (m / 2 ^ (N - 1)) 2 ltac:(lia)).
    assert (Hpow : 2 ^ N = 2 * 2 ^ (N - 1)) by (rewrite <- Z.pow_succ_r by lia; f_equal; lia).
    f_equal.
    + rewrite Z.div_div, (Z.mul_comm (2 ^ N)), <- Z.pow_succ_r by lia. done.
    + pose proof (Zmod_odd (m / 2 ^ N)).
      destruct (Z.odd (m / 2 ^ N)); symmetry;
        [apply bool_decide_eq_true_2|apply bool_decide_eq_false_2]; nia.
    + rewrite <- bool_decide_or. apply bool_decide_ext.
      assert (Hb : (m / 2 ^ (N - 1)) mod 2 = 0 \/ (m / 2 ^ (N - 1)) mod 2 = 1) by lia.
      pose proof (Z.pow_pos_nonneg 2 (N - 1) ltac:(lia) ltac:(lia)).
      destruct Hb as [Hb|Hb]; rewrite Hb in HP; lia.
Qed.

(** [round_nearest_even] after a shift by [n] bits is [rne_div]. *)
Lemma round_shifted (m : Z) (n : nat) :
  0 <= m -> (1 <= n)%nat ->
  let mrs := Nat.iter n shr_1 {| shr_m := m; shr_r := false; shr_s := false |} in
  round_nearest_even (shr_m mrs) (loc_of_shr_record mrs) = rne_div m (Z.of_nat n).
Proof.
  intros Hm Hn mrs. unfold mrs. rewrite shr_iter_spec by done. cbn [shr_m].
  set (N := Z.of_nat n). assert (HN : 1 <= N) by lia.
  pose proof (mod_pow2_succ m (N - 1) ltac:(lia)) as HP. replace (N - 1 + 1) with N in HP by lia.
  pose proof (Z.mod_pos_bound m (2 ^ (N - 1)) ltac:(lia)).
  pose proof (Z.mod_pos_bound (m / 2 ^ (N - 1)) 2 ltac:(lia)).
  assert (Hpow : 2 ^ N = 2 * 2 ^ (N - 1)) by (rewrite <- Z.pow_succ_r by lia; f_equal; lia).
  assert (Hb : (m / 2 ^ (N - 1)) mod 2 = 0 \/ (m / 2 ^ (N - 1)) mod 2 = 1) by lia.
  pose proof (Z.pow_pos_nonneg 2 (N - 1) ltac:(lia) ltac:(lia)).
  unfold rne_div. cbn [loc_of_shr_record].
  destruct Hb as [Hb|Hb]; rewrite Hb in HP; repeat case_bool_decide; cbn [round_nearest_even];
    destruct (Z.compare_spec (2 * (m mod 2 ^ N)) (2 ^ N)); try reflexivity; exfalso; lia.
Qed.

Lemma shr_nonpos (mrs : shr_record) (e n : Z) : n <= 0 -> shr mrs e n = (mrs, e).
Proof. intros Hn. destruct n; [done|lia|done]. Qed.

Lemma shr_pos (m e n : Z) :
  0 < n ->
  shr {| shr_m := m; shr_r := false; shr_s := false |} e n =
  (Nat.iter (Z.to_nat n) shr_1 {| shr_m := m; shr_r := false; shr_s := false |}, e + n).
Proof. intros Hn. destruct n as [|p|p]; [lia| |lia]. cbn [shr]. by rewrite iter_pos_nat, Z2Nat.inj_pos. Qed.

Lemma rne_div_0 (m : Z) : rne_div m 0 = m.
Proof. unfold rne_div. rewrite Z.pow_0_r, Z.div_1_r, Z.mod_1_r. reflexivity. Qed.

(** [rne_div] stays between the quotient and the quotient plus one. *)
Lemma rne_div_bounds (m n : Z) : 0 <= n -> m / 2 ^ n <= rne_div m n <= m / 2 ^ n + 1.
Proof. intros Hn. unfold rne_div. destruct (Z.compare _ _); [destruct (Z.even _)|..]; lia. Qed.

(** The rounding error is at most half of [2^n]. *)
Lemma rne_div_error (m n : Z) : 0 <= n -> 2 * Z.abs (rne_div m n * 2 ^ n - m) <= 2 ^ n.
Proof.
  intros Hn. pose proof (Z.div_mod m (2 ^ n) ltac:(lia)).
  pose proof (Z.mod_pos_bound m (2 ^ n) ltac:(lia)). unfold rne_div.
  destruct (Z.compare_spec (2 * (m mod 2 ^ n)) (2 ^ n)); [destruct (Z.even _)|..]; lia.
Qed.

Lemma fexp_spec (z : Z) : fexp prec emax z = Z.max (z - 53) (-1074).
Proof. reflexivity. Qed.

Lemma pow2_lt_digits (m : positive) (k : Z) :
  0 <= k -> Zpos m < 2 ^ k -> Zpos (digits2_pos m) <= k.
Proof.
  intros Hk Hm. pose proof (digits2_pos_lower m).
  destruct (Z.le_gt_cases (Zpos (digits2_pos m)) k) as [?|Hgt]; [done|].
  pose proof (Z.pow_le_mono_r 2 k (Zpos (digits2_pos m) - 1) ltac:(lia) ltac:(lia)). lia.
Qed.

Lemma pow2_le_digits (m : positive) (k : Z) :
  0 <= k -> 2 ^ k <= Zpos m -> k + 1 <= Zpos (digits2_pos m).
Proof.
  intros Hk Hm. pose proof (digits2_pos_bound m).
  destruct (Z.le_gt_cases (k + 1) (Zpos (digits2_pos m))) as [?|Hgt]; [done|].
  pose proof (Z.pow_le_mono_r 2 (Zpos (digits2_pos m)) k ltac:(lia) ltac:(lia)). lia.
Qed.

(** After a shift that leaves at most 53 bits, the rounded significand is
    at most [2^53], and at least [2^52] when exactly 53 bits are left. *)
Lemma rne_div_digits (m0 : positive) (d : Z) :
  0 <= d -> Zpos (digits2_pos m0) - d <= 53 ->
  0 <= rne_div (Zpos m0) d <= 2 ^ 53 /\
  (Zpos (digits2_pos m0) - d = 53 -> 2 ^ 52 <= rne_div (Zpos m0) d).
Proof.
  intros Hd HD. set (D := Zpos (digits2_pos m0)) in *.
  pose proof (digits2_pos_bound m0) as Hup. pose proof (digits2_pos_lower m0) as Hlo. fold D in Hup, Hlo.
  pose proof (rne_div_bounds (Zpos m0) d Hd).
  assert (Hq : Zpos m0 / 2 ^ d < 2 ^ 53).
  { apply Z.div_lt_upper_bound; [lia|]. rewrite <- Z.pow_add_r by lia.
    pose proof (Z.pow_le_mono_r 2 D (d + 53) ltac:(lia) ltac:(lia)). lia. }
  split; [split; [pose proof (Z.div_pos (Zpos m0) (2 ^ d)); lia|lia]|].
  intros HD53. assert (2 ^ 52 <= Zpos m0 / 2 ^ d); [|lia].
  apply Z.div_le_lower_bound; [lia|]. rewrite <- Z.pow_add_r by lia.
  replace (d + 52) with (D - 1) by lia. done.
Qed.

(** What [binary_round_aux] computes from an exact significand [m0] and
    exponent [e0]: with [d] the shift to the canonical exponent, the
    significand rounded to nearest after the shift, [rne_div m0 d], at the
    exponent [e0 + d]: zero when it rounds to zero, otherwise a canonical
    double of that value, or an infinity past the largest exponent. *)
Theorem round_aux_spec (sx : bool) (m0 : positive) (e0 : Z) :
  let d := fexp prec emax (Zpos (digits2_pos m0) + e0) - e0 in
  0 <= d ->
  let q := rne_div (Zpos m0) d in
  (q = 0 /\ binary_round_aux prec emax sx (Zpos m0) e0 loc_Exact = S754_zero sx) \/
  (exists m e, 0 < q /\ (qval (Zpos m) e == inject_Z q * qpow2 (e0 + d))%Q /\
     e0 + d <= e <= e0 + d + 1 /\ canonical_mantissa prec emax m e = true /\
     binary_round_aux prec emax sx (Zpos m0) e0 loc_Exact =
       if e <=? emax - prec then S754_finite sx m e else S754_infinity sx).
Proof.
  intros d Hd q. set (D := Zpos (digits2_pos m0)) in *.
  assert (HE : e0 + d = Z.max (D + e0 - 53) (-1074)) by (unfold d; rewrite fexp_spec; lia).
  destruct (rne_div_digits m0 d Hd ltac:(lia)) as [Hq Hq52]. fold q in Hq, Hq52.
  (* the first shift and the rounding *)
  assert (H1 : (let '(mrs', e') := shr_fexp prec emax (Zpos m0) e0 loc_Exact in
                (round_nearest_even (shr_m mrs') (loc_of_shr_record mrs'), e')) = (q, e0 + d)).
  { unfold shr_fexp. cbn [shr_record_of_loc]. change (Zdigits2 (Zpos m0)) with D. fold d.
    destruct (Z.eq_dec d 0) as [H0|H0].
    - rewrite shr_nonpos by lia. unfold q. rewrite H0, rne_div_0, Z.add_0_r. done.
    - rewrite shr_pos by lia. rewrite round_shifted by lia. by rewrite Z2Nat.id by lia. }
  unfold binary_round_aux.
  destruct (shr_fexp prec emax (Zpos m0) e0 loc_Exact) as [mrs' e'].
  injection H1 as Hr He'. rewrite Hr, He'. clear Hr He' mrs' e'.
  set (E := e0 + d) in *.
  unfold shr_fexp. cbn [shr_record_of_loc].
  destruct (Z.eq_dec q 0) as [Hq0|Hq0].
  - left. split; [done|]. rewrite Hq0. cbn [Zdigits2].
    rewrite shr_nonpos by (rewrite fexp_spec; lia). done.
  - right. destruct q as [|qp|qp] eqn:Hqe; [done| |lia]. cbn [Zdigits2].
    destruct (Z.eq_dec (Zpos qp) (2 ^ 53)) as [H53|H53].
    + (* the rounding carried into a 54th bit: one more exact shift *)
      assert (Hqp : qp = 9007199254740992%positive) by (injection H53; done). subst qp.
      change (digits2_pos 9007199254740992) with 54%positive.
      assert (Hk : fexp prec emax (Zpos 54 + E) - E = 1) by (rewrite fexp_spec; lia).
      rewrite Hk, shr_pos by lia.
      change (Nat.iter (Z.to_nat 1) shr_1 ?x) with (shr_1 x). cbn [shr_1 shr_m].
      exists 4503599627370496%positive, (E + 1). split_and!; [lia| |lia|lia| |done].
      * unfold qval. rewrite qpow2_add. assert (qpow2 1 == 2)%Q as -> by reflexivity.
        rewrite (Qmult_comm (qpow2 E)), Qmult_assoc. reflexivity.
      * unfold canonical_mantissa. change (digits2_pos 4503599627370496) with 53%positive.
        rewrite fexp_spec. apply Z.eqb_eq. lia.
    + (* at most 53 bits *)
      assert (HD2 : Zpos (digits2_pos qp) <= 53) by (apply pow2_lt_digits; lia).
      rewrite shr_nonpos by (rewrite fexp_spec; lia). cbn [shr_m].
      exists qp, E. split_and!; [lia|reflexivity|lia|lia| |done].
      unfold canonical_mantissa. rewrite fexp_spec. apply Z.eqb_eq.
      destruct (Z.le_gt_cases (D + e0 - 53) (-1074)); [lia|].
      assert (53 <= Zpos (digits2_pos qp)) by (apply (pow2_le_digits qp 52); lia). lia.
Qed.

Lemma iter_xO_value (m p : positive) : Zpos (Pos.iter xO m p) = Zpos m * 2 ^ Zpos p.
Proof.
  induction p as [|p IH] using Pos.peano_ind; [simpl; lia|].
  rewrite Pos.iter_succ, Pos2Z.inj_succ, Z.pow_succ_r by lia.
  change (Zpos (xO (Pos.iter xO m p))) with (2 * Zpos (Pos.iter xO m p)). rewrite IH. lia.
Qed.

Lemma iter_xO_digits (m p : positive) :
  Zpos (digits2_pos (Pos.iter xO m p)) = Zpos (digits2_pos m) + Zpos p.
Proof.
  induction p as [|p IH] using Pos.peano_ind; [simpl; lia|].
  rewrite Pos.iter_succ. cbn [digits2_pos]. rewrite Pos2Z.inj_succ, IH. lia.
Qed.

(** [binary_round] first aligns the significand on the canonical exponent;
    this keeps the value and leaves a shift [d >= 0] to round. *)
Lemma shl_align_spec (m : positive) (e : Z) :
  let '(mz, ez) := shl_align m e (fexp prec emax (Zpos (digits2_pos m) + e)) in
  (qval (Zpos mz) ez == qval (Zpos m) e)%Q /\
  0 <= fexp prec emax (Zpos (digits2_pos mz) + ez) - ez /\
  Zpos (digits2_pos mz) + ez = Zpos (digits2_pos m) + e /\
  (fexp prec emax (Zpos (digits2_pos m) + e) <= e -> fexp prec emax (Zpos (digits2_pos mz) + ez) - ez = 0).
Proof.
  unfold shl_align. set (D := Zpos (digits2_pos m)).
  destruct (fexp prec emax (D + e) - e) as [|p|p] eqn:Hs; cbv beta iota zeta; fold D.
  - split_and!; [reflexivity|lia..].
  - split_and!; [reflexivity|lia..].
  - split_and!.
    + unfold qval. rewrite iter_xO_value, inject_Z_mult, <- Qmult_assoc.
      rewrite (Zpower_Qpower 2 (Zpos p)) by lia. change (inject_Z 2 ^ Zpos p)%Q with (qpow2 (Zpos p)).
      rewrite <- qpow2_add. do 2 f_equiv. lia.
    + rewrite iter_xO_digits. fold D.
      replace (D + Zpos p + fexp prec emax (D + e)) with (D + e) by lia. lia.
    + rewrite iter_xO_digits. fold D. lia.
    + rewrite iter_xO_digits. fold D.
      replace (D + Zpos p + fexp prec emax (D + e)) with (D + e) by lia. lia.
Qed.

Lemma q2_inject (j : Z) : 0 <= j -> (inject_Z (2 ^ j) == qpow2 j)%Q.
Proof. intros Hj. unfold qpow2. rewrite Zpower_Qpower by done. reflexivity. Qed.

(** The spacing [2^E] at the exponent of the rounded value is at most
    [2^-52] times the exact value, or the spacing of the subnormals. *)
Lemma grid_bound (m0 : positive) (e0 : Z) :
  let E := fexp prec emax (Zpos (digits2_pos m0) + e0) in
  (qpow2 E <= qval (Zpos m0) e0 * qpow2 (-52) + qpow2 (-1074))%Q.
Proof.
  intros E. unfold E. rewrite fexp_spec. set (D := Zpos (digits2_pos m0)).
  pose proof (qpow2_pos (-1074)). pose proof (qval_pos (Zpos m0) e0 ltac:(lia)).
  pose proof (qpow2_pos (-52)).
  destruct (Z.max_spec (D + e0 - 53) (-1074)) as [[_ ->]|[_ ->]]; [nra|].
  assert (qpow2 (D + e0 - 53) <= qval (Zpos m0) e0 * qpow2 (-52))%Q; [|lra].
  unfold qval. rewrite <- Qmult_assoc, <- qpow2_add.
  replace (D + e0 - 53) with ((D - 1) + (e0 + -52)) by lia. rewrite qpow2_add.
  apply Qmult_le_compat_r; [|apply Qlt_le_weak, qpow2_pos].
  rewrite <- q2_inject by lia. apply inject_Z_le, digits2_pos_lower.
Qed.

(** The rounding of an exact positive value [x = m0 * 2^e0] that is below
    [2^1024]: a valid finite double, not negative, within half the bound of
    [grid_bound] of [x]. *)
Theorem round_aux_close (m0 : positive) (e0 : Z) :
  0 <= fexp prec emax (Zpos (digits2_pos m0) + e0) - e0 ->
  Zpos (digits2_pos m0) + e0 <= 1023 ->
  let r := binary_round_aux prec emax false (Zpos m0) e0 loc_Exact in
  let x := qval (Zpos m0) e0 in
  valid_binary prec emax r = true /\ finite_double r = true /\ (0 <= to_Q r)%Q /\
  (2 * (to_Q r - x) <= x * qpow2 (-52) + qpow2 (-1074))%Q /\
  (2 * (x - to_Q r) <= x * qpow2 (-52) + qpow2 (-1074))%Q.
Proof.
  intros Hd Hov r x. pose proof (grid_bound m0 e0) as Hg. cbv zeta in Hg. fold x in Hg.
  set (d := fexp prec emax (Zpos (digits2_pos m0) + e0) - e0) in *.
  set (q := rne_div (Zpos m0) d).
  assert (HE : fexp prec emax (Zpos (digits2_pos m0) + e0) = e0 + d) by (unfold d; lia).
  rewrite HE in Hg.
  (* the error of the significand, scaled by 2^e0 *)
  pose proof (rne_div_error (Zpos m0) d Hd) as Herr. fold q in Herr.
  assert (Hs : (2 * (inject_Z q * qpow2 (e0 + d) - x) <= qpow2 (e0 + d) /\
                2 * (x - inject_Z q * qpow2 (e0 + d)) <= qpow2 (e0 + d))%Q).
  { assert (H1 : (inject_Z (2 * (q * 2 ^ d - Zpos m0)) <= inject_Z (2 ^ d))%Q) by (apply inject_Z_le; lia).
    assert (H2 : (inject_Z (2 * (Zpos m0 - q * 2 ^ d)) <= inject_Z (2 ^ d))%Q) by (apply inject_Z_le; lia).
    rewrite q2_inject in H1, H2 by lia.
    assert (E1 : (inject_Z (2 * (q * 2 ^ d - Zpos m0)) == 2 * (inject_Z q * qpow2 d - inject_Z (Zpos m0)))%Q).
    { rewrite <- q2_inject by lia. unfold Z.sub.
      rewrite !inject_Z_mult, inject_Z_plus, inject_Z_opp, inject_Z_mult. ring. }
    assert (E2 : (inject_Z (2 * (Zpos m0 - q * 2 ^ d)) == 2 * (inject_Z (Zpos m0) - inject_Z q * qpow2 d))%Q).
    { rewrite <- q2_inject by lia. unfold Z.sub.
      rewrite !inject_Z_mult, inject_Z_plus, inject_Z_opp, inject_Z_mult. ring. }
    rewrite E1 in H1. rewrite E2 in H2.
    pose proof (qpow2_pos e0) as He0.
    apply (Qmult_le_compat_r _ _ (qpow2 e0)) in H1; [|lra].
    apply (Qmult_le_compat_r _ _ (qpow2 e0)) in H2; [|lra].
    unfold x, qval. rewrite (Z.add_comm e0 d), qpow2_add. split; nra. }
  destruct (round_aux_spec false m0 e0 Hd) as [[Hq0 Hr]|(m & e & Hq & Hv & He & Hc & Hr)];
    unfold r; rewrite Hr.
  - fold d in Hq0. fold q in Hq0. rewrite Hq0 in Hs. change (inject_Z 0) with 0%Q in Hs. cbn [to_Q].
    pose proof (qval_pos (Zpos m0) e0 ltac:(lia)) as Hx0. fold x in Hx0. pose proof (qpow2_pos (-52)).
    pose proof (qpow2_pos (-1074)). split_and!; try done; nra.
  - fold d in Hq, Hv, He. fold q in Hq, Hv.
    assert ((e <=? emax - prec) = true) as -> by (apply Z.leb_le; rewrite fexp_spec in HE; unfold emax, prec; lia).
    cbn [to_Q valid_binary bounded finite_double]. unfold bounded. rewrite Hc.
    split_and!; [apply Z.leb_le; rewrite fexp_spec in HE; unfold emax, prec; lia|done| |rewrite Hv; lra|rewrite Hv; lra].
    rewrite Hv. pose proof (qpow2_pos (e0 + d)).
    assert (0 <= inject_Z q)%Q by (apply (inject_Z_le 0); lia). nra.
Qed.

(** The doubles that are [+0] or positive. *)
Definition nonneg_double (x : spec_float) : bool :=
  match x with S754_zero false | S754_finite false _ _ => true | _ => false end.

(** A double that is valid, finite and not negative. *)
Definition good (x : spec_float) : Prop :=
  valid_binary prec emax x = true /\ finite_double x = true /\ nonneg_double x = true.

Lemma good_to_Q_nonneg (x : spec_float) : good x -> (0 <= to_Q x)%Q.
Proof.
  intros (_ & _ & Hn). destruct x as [[]|[]| |[] m e]; try discriminate. cbn [to_Q].
  apply Qlt_le_weak, qval_pos. lia.
Qed.

Lemma round_aux_sign (m0 : positive) (e0 : Z) :
  0 <= fexp prec emax (Zpos (digits2_pos m0) + e0) - e0 ->
  nonneg_double (binary_round_aux prec emax false (Zpos m0) e0 loc_Exact) = true \/
  finite_double (binary_round_aux prec emax false (Zpos m0) e0 loc_Exact) = false.
Proof.
  intros Hd. destruct (round_aux_spec false m0 e0 Hd) as [[_ Hr]|(m & e & _ & _ & _ & _ & Hr)];
    rewrite Hr; [by left|]. destruct (e <=? emax - prec); [by left|by right].
Qed.

(** Rounding a positive exact value below [2^1024] gives a good double
    within half an ulp. *)
Definition close (r : spec_float) (x : Q) : Prop :=
  good r /\ (2 * (to_Q r - x) <= x * qpow2 (-52) + qpow2 (-1074))%Q /\
  (2 * (x - to_Q r) <= x * qpow2 (-52) + qpow2 (-1074))%Q.

#[export] Instance close_proper : Proper (eq ==> Qeq ==> iff) close.
Proof. intros r ? <- x y Hxy. unfold close. by rewrite Hxy. Qed.

Lemma round_aux_close' (m0 : positive) (e0 : Z) :
  0 <= fexp prec emax (Zpos (digits2_pos m0) + e0) - e0 ->
  Zpos (digits2_pos m0) + e0 <= 1023 ->
  close (binary_round_aux prec emax false (Zpos m0) e0 loc_Exact) (qval (Zpos m0) e0).
Proof.
  intros Hd Hov. destruct (round_aux_close m0 e0 Hd Hov) as (Hv & Hf & _ & H1 & H2).
  split_and!; try done. by destruct (round_aux_sign m0 e0 Hd) as [?|Hf']; [|rewrite Hf in Hf'].
Qed.

(** A shift of [d = 0] rounds nothing: the value is exact. *)
Lemma round_aux_exact (m0 : positive) (e0 : Z) :
  fexp prec emax (Zpos (digits2_pos m0) + e0) - e0 = 0 ->
  Zpos (digits2_pos m0) + e0 <= 1023 ->
  (to_Q (binary_round_aux prec emax false (Zpos m0) e0 loc_Exact) == qval (Zpos m0) e0)%Q.
Proof.
  intros Hd Hov. assert (Hd' : 0 <= fexp prec emax (Zpos (digits2_pos m0) + e0) - e0) by lia.
  destruct (round_aux_spec false m0 e0 Hd') as [[Hq _]|(m & e & _ & Hv & He & _ & ->)];
    rewrite Hd, ?rne_div_0 in *; [lia|].
  assert ((e <=? emax - prec) = true) as -> by (apply Z.leb_le; rewrite fexp_spec in Hd; unfold emax, prec; lia).
  cbn [to_Q]. rewrite Hv, Z.add_0_r. reflexivity.
Qed.

(** [binary_normalize] of a positive exact value below [2^1024]. *)
Lemma normalize_close (m : positive) (e : Z) (sz : bool) :
  Zpos (digits2_pos m) + e <= 1023 ->
  close (binary_normalize prec emax (Zpos m) e sz) (qval (Zpos m) e).
Proof.
  intros Hov. cbn [binary_normalize]. unfold binary_round.
  pose proof (shl_align_spec m e) as Hs.
  destruct (shl_align m e _) as [mz ez]. destruct Hs as (Hv & Hd & HD & _).
  rewrite <- Hv. apply round_aux_close'; lia.
Qed.

(** ... and exactly that value when it is a double. *)
Lemma normalize_exact (m : positive) (e : Z) (sz : bool) :
  Zpos (digits2_pos m) + e <= 1023 -> fexp prec emax (Zpos (digits2_pos m) + e) <= e ->
  (to_Q (binary_normalize prec emax (Zpos m) e sz) == qval (Zpos m) e)%Q.
Proof.
  intros Hov Hrep. cbn [binary_normalize]. unfold binary_round.
  pose proof (shl_align_spec m e) as Hs.
  destruct (shl_align m e _) as [mz ez]. destruct Hs as (Hv & Hd & HD & Hx).
  rewrite <- Hv. apply round_aux_exact; [by apply Hx|lia].
Qed.


Lemma qpow2_le_mono (a b : Z) : a <= b -> (qpow2 a <= qpow2 b)%Q.
Proof.
  intros Hab. replace b with (a + (b - a)) by lia. rewrite qpow2_add.
  rewrite <- (q2_inject (b - a)) by lia. pose proof (qpow2_pos a).
  assert (1 <= inject_Z (2 ^ (b - a)))%Q by (apply (inject_Z_le 1); pose proof (Z.pow_pos_nonneg 2 (b - a)); lia).
  nra.
Qed.

(** A value below [2^K] has its leading bit below [K]. *)
Lemma value_digits_bound (p : positive) (e K : Z) :
  (qval (Zpos p) e < qpow2 K)%Q -> Zpos (digits2_pos p) + e <= K.
Proof.
  intros Hv. set (D := Zpos (digits2_pos p)).
  assert (Hlo : (qpow2 (D - 1 + e) <= qval (Zpos p) e)%Q).
  { unfold qval. rewrite qpow2_add. apply Qmult_le_compat_r; [|apply Qlt_le_weak, qpow2_pos].
    rewrite <- q2_inject by lia. apply inject_Z_le, digits2_pos_lower. }
  destruct (Z.le_gt_cases (D + e) K) as [?|Hgt]; [done|].
  pose proof (qpow2_le_mono K (D - 1 + e) ltac:(lia)). lra.
Qed.

Lemma close_exact (r : spec_float) (x : Q) :
  good r -> (to_Q r == x)%Q -> (0 <= x)%Q -> close r x.
Proof.
  intros Hg Hr Hx. split; [done|]. rewrite Hr. pose proof (qpow2_pos (-52)). pose proof (qpow2_pos (-1074)).
  split; nra.
Qed.

Lemma good_zero : good (S754_zero false).
Proof. done. Qed.

(** [Math.random()] returning the draw [k]: exactly [k / 2^53]. *)
Lemma of_draw_spec (k : Z) :
  0 <= k < 2 ^ 53 -> good (of_draw k) /\ (to_Q (of_draw k) == qval k (-53))%Q.
Proof.
  intros Hk. destruct k as [|p|p]; [split; [done|reflexivity]| |lia].
  assert (HD : Zpos (digits2_pos p) <= 53) by (apply pow2_lt_digits; lia).
  split.
  - apply (normalize_close p (-53) false). lia.
  - apply normalize_exact; [lia|]. rewrite fexp_spec. lia.
Qed.

(** An integer literal below [2^53] is exact. *)
Lemma of_int_spec (n : Z) :
  0 <= n < 2 ^ 53 -> good (of_int n) /\ (to_Q (of_int n) == inject_Z n)%Q.
Proof.
  intros Hn. destruct n as [|p|p]; [split; [done|reflexivity]| |lia].
  assert (HD : Zpos (digits2_pos p) <= 53) by (apply pow2_lt_digits; lia).
  assert (Hq : (qval (Zpos p) 0 == inject_Z (Zpos p))%Q) by (unfold qval; rewrite Qmult_1_r; reflexivity).
  split.
  - apply (normalize_close p 0 false). lia.
  - rewrite <- Hq. apply normalize_exact; [lia|]. rewrite fexp_spec. lia.
Qed.

(** The product of two canonical significands needs no shift to the left:
    the exponent of the exact product is at most the canonical one. *)
Lemma mul_shift_nonneg (mx my : positive) (ex ey : Z) :
  canonical_mantissa prec emax mx ex = true -> canonical_mantissa prec emax my ey = true ->
  0 <= fexp prec emax (Zpos (digits2_pos (mx * my)) + (ex + ey)) - (ex + ey).
Proof.
  unfold canonical_mantissa. rewrite !fexp_spec. intros Hx%Z.eqb_eq Hy%Z.eqb_eq.
  assert ((Zpos (digits2_pos mx) - 1) + (Zpos (digits2_pos my) - 1) + 1 <= Zpos (digits2_pos (mx * my))).
  { apply pow2_le_digits; [lia|]. rewrite Pos2Z.inj_mul.
    rewrite Z.pow_add_r by lia. apply Z.mul_le_mono_nonneg; try apply digits2_pos_lower; lia. }
  lia.
Qed.

Lemma close_zero_mul (y : Q) : close (S754_zero false) (0 * y).
Proof. apply close_exact; [done|cbn; ring|]. rewrite Qmult_0_l. apply Qle_refl. Qed.

(** [x * y] on good doubles whose exact product is below [2^1022]. *)
Theorem dmul_close (x y : spec_float) :
  good x -> good y -> (to_Q x * to_Q y < qpow2 1022)%Q -> close (dmul x y) (to_Q x * to_Q y).
Proof.
  intros Hx Hy Hb. destruct Hx as (Vx & Fx & Nx), Hy as (Vy & Fy & Ny).
  destruct x as [[]|[]| |[] mx ex]; try discriminate; destruct y as [[]|[]| |[] my ey]; try discriminate.
  - apply close_zero_mul.
  - apply close_zero_mul.
  - rewrite Qmult_comm. apply close_zero_mul.
  - cbn [to_Q] in *. assert (Hv : (qval (Zpos mx) ex * qval (Zpos my) ey == qval (Zpos (mx * my)) (ex + ey))%Q).
    { unfold qval. rewrite qpow2_add, Pos2Z.inj_mul, inject_Z_mult. ring. }
    rewrite Hv in Hb |- *. apply value_digits_bound in Hb.
    apply andb_prop in Vx as [Cx _], Vy as [Cy _].
    apply round_aux_close'; [by apply mul_shift_nonneg|lia].
Qed.

(** Aligning a significand on a lower exponent keeps its value. *)
Lemma shl_align_value (mx : positive) (ex ez : Z) :
  ez <= ex -> (qval (Zpos (fst (shl_align mx ex ez))) ez == qval (Zpos mx) ex)%Q.
Proof.
  intros Hle. unfold shl_align. destruct (ez - ex) as [|p|p] eqn:Hs; cbn [fst].
  - by replace ez with ex by lia.
  - lia.
  - unfold qval. rewrite iter_xO_value, inject_Z_mult, <- Qmult_assoc, q2_inject by lia.
    rewrite <- qpow2_add. do 2 f_equiv. lia.
Qed.

(** [x + y] on good doubles whose exact sum is below [2^1022]. *)
Theorem dadd_close (x y : spec_float) :
  good x -> good y -> (to_Q x + to_Q y < qpow2 1022)%Q -> close (dadd x y) (to_Q x + to_Q y).
Proof.
  intros Hx Hy Hb. pose proof (good_to_Q_nonneg x Hx). pose proof (good_to_Q_nonneg y Hy).
  destruct Hx as (Vx & Fx & Nx), Hy as (Vy & Fy & Ny).
  destruct x as [[]|[]| |[] mx ex]; try discriminate; destruct y as [[]|[]| |[] my ey]; try discriminate.
  - apply close_exact; [done|cbn; ring|cbn; lra].
  - apply close_exact; [done|cbn [dadd SFadd to_Q]; ring|lra].
  - apply close_exact; [done|cbn [dadd SFadd to_Q]; ring|lra].
  - unfold dadd, SFadd. cbn [cond_Zopp to_Q] in *.
    set (ez := Z.min ex ey).
    pose proof (shl_align_value mx ex ez ltac:(lia)) as Ha.
    pose proof (shl_align_value my ey ez ltac:(lia)) as Hb'.
    destruct (shl_align mx ex ez) as [a ea], (shl_align my ey ez) as [b eb]. cbn [fst] in *.
    change (Zpos a + Zpos b) with (Zpos (a + b)).
    assert (Hv : (qval (Zpos mx) ex + qval (Zpos my) ey == qval (Zpos (a + b)) ez)%Q).
    { rewrite <- Ha, <- Hb'. unfold qval. rewrite Pos2Z.inj_add, inject_Z_plus. ring. }
    rewrite Hv in Hb |- *. apply value_digits_bound in Hb.
    apply normalize_close. lia.
Qed.

(** ** The operations of the script on doubles *)

(** [Math.floor(x)] of a finite double, as an integer. *)
Definition js_floor (x : spec_float) : Z := Qfloor (to_Q x).

(** [x > y]: false when either is NaN. *)
Definition dgt (x y : spec_float) : bool :=
  match SFcompare x y with Some Gt => true | _ => false end.

(** [x >= y]: false when either is NaN. *)
Definition dge (x y : spec_float) : bool :=
  match SFcompare x y with Some Gt | Some Eq => true | _ => false end.

Lemma canonical_normal (m : positive) (e : Z) :
  canonical_mantissa prec emax m e = true -> -1074 < e -> 2 ^ 52 <= Zpos m.
Proof.
  unfold canonical_mantissa. rewrite fexp_spec. intros Hc%Z.eqb_eq He.
  pose proof (digits2_pos_lower m). assert (Zpos (digits2_pos m) = 53) as HD by lia.
  rewrite HD in H. done.
Qed.

(** Of two canonical positive doubles, the one with the larger exponent is
    the larger: this is why [SFcompare] may compare exponents first. *)
Lemma qval_exp_lt (m1 m2 : positive) (e1 e2 : Z) :
  bounded prec emax m1 e1 = true -> canonical_mantissa prec emax m2 e2 = true -> e1 < e2 ->
  (qval (Zpos m1) e1 < qval (Zpos m2) e2)%Q.
Proof.
  intros H1 H2 Hlt. pose proof (bounded_mantissa m1 e1 H1) as Hm1.
  apply andb_prop in H1 as [C1 _]. unfold canonical_mantissa in C1. rewrite fexp_spec in C1.
  apply Z.eqb_eq in C1. pose proof (canonical_normal m2 e2 H2 ltac:(lia)) as Hm2.
  apply (Qlt_le_trans _ (qval (2 ^ 52) e2)).
  - unfold qval. apply (Qlt_le_trans _ (inject_Z (2 ^ 53) * qpow2 e1)).
    + apply Qmult_lt_compat_r; [apply qpow2_pos|rewrite <- Zlt_Qlt; lia].
    + rewrite q2_inject, q2_inject, <- !qpow2_add by lia. apply qpow2_le_mono. lia.
  - unfold qval. apply Qmult_le_compat_r; [apply inject_Z_le; lia|apply Qlt_le_weak, qpow2_pos].
Qed.

Lemma Qcompare_lt (a b : Q) : (a < b)%Q -> (a ?= b)%Q = Lt.
Proof. by rewrite Qlt_alt. Qed.

Lemma Qcompare_gt (a b : Q) : (b < a)%Q -> (a ?= b)%Q = Gt.
Proof. rewrite Qgt_alt. done. Qed.

Lemma Qcompare_eq (a b : Q) : (a == b)%Q -> (a ?= b)%Q = Eq.
Proof. by rewrite Qeq_alt. Qed.

(** [SFcompare] on good doubles compares their values. *)
Lemma SFcompare_good (x y : spec_float) :
  good x -> good y -> SFcompare x y = Some (Qcompare (to_Q x) (to_Q y)).
Proof.
  intros (Vx & Fx & Nx) (Vy & Fy & Ny).
  destruct x as [[]|[]| |[] m1 e1]; try discriminate; destruct y as [[]|[]| |[] m2 e2]; try discriminate;
    cbn [SFcompare to_Q]; f_equal.
  - symmetry. apply Qcompare_lt, qval_pos. lia.
  - symmetry. apply Qcompare_gt, qval_pos. lia.
  - cbn [valid_binary] in Vx, Vy. pose proof Vy as Cy. apply andb_prop in Cy as [Cy _].
    pose proof Vx as Cx. apply andb_prop in Cx as [Cx _].
    destruct (Z.compare_spec e1 e2) as [<-|Hlt|Hgt].
    + change (Pos.compare_cont Eq m1 m2) with (Pos.compare m1 m2).
      destruct (Pos.compare_spec m1 m2) as [<-|Hm|Hm]; symmetry.
      * apply Qcompare_eq. reflexivity.
      * apply Qcompare_lt. unfold qval. apply Qmult_lt_compat_r; [apply qpow2_pos|rewrite <- Zlt_Qlt; lia].
      * apply Qcompare_gt. unfold qval. apply Qmult_lt_compat_r; [apply qpow2_pos|rewrite <- Zlt_Qlt; lia].
    + symmetry. by apply Qcompare_lt, qval_exp_lt.
    + symmetry. by apply Qcompare_gt, qval_exp_lt.
Qed.

Lemma dgt_spec (x y : spec_float) : good x -> good y -> dgt x y = true <-> (to_Q y < to_Q x)%Q.
Proof.
  intros Hx Hy. unfold dgt. rewrite (SFcompare_good x y Hx Hy), Qgt_alt.
  destruct (to_Q x ?= to_Q y)%Q; split; congruence.
Qed.

Lemma dge_spec (x y : spec_float) : good x -> good y -> dge x y = true <-> (to_Q y <= to_Q x)%Q.
Proof.
  intros Hx Hy. unfold dge. rewrite (SFcompare_good x y Hx Hy), Qge_alt.
  destruct (to_Q x ?= to_Q y)%Q; split; congruence.
Qed.

Lemma js_floor_of_int (n : Z) : 0 <= n < 2 ^ 53 -> js_floor (of_int n) = n.
Proof. intros Hn. unfold js_floor. rewrite (Qfloor_comp _ _ (proj2 (of_int_spec n Hn))). apply Qfloor_Z. Qed.

Lemma qpow2_small : (0 < qpow2 (-1074) <= 1 # 1606938044258990275541962092341162602522202993782792835301376)%Q.
Proof.
  split; [apply qpow2_pos|]. assert (qpow2 (-200) == 1 # 1606938044258990275541962092341162602522202993782792835301376)%Q as <- by reflexivity.
  apply qpow2_le_mono. lia.
Qed.

(** [Math.random() * n] for an integer [0 < n < 2^53]: the product of a
    double below 1 by [n] rounds to a good double below [n]. *)
Lemma draw_times_lt (k n : Z) :
  0 <= k < 2 ^ 53 -> 0 < n < 2 ^ 53 ->
  good (dmul (of_draw k) (of_int n)) /\ (to_Q (dmul (of_draw k) (of_int n)) < inject_Z n)%Q.
Proof.
  intros Hk Hn. destruct (of_draw_spec k Hk) as [Gk Vk]. destruct (of_int_spec n ltac:(lia)) as [Gn Vn].
  assert (HK : (0 <= inject_Z k <= 9007199254740991)%Q) by (split; apply inject_Z_le; lia).
  assert (HN : (1 <= inject_Z n <= 9007199254740991)%Q) by (split; apply inject_Z_le; lia).
  assert (HX : (to_Q (of_draw k) * to_Q (of_int n) == (1 # 9007199254740992) * (inject_Z k * inject_Z n))%Q).
  { rewrite Vk, Vn. unfold qval. assert (qpow2 (-53) == 1 # 9007199254740992)%Q as -> by reflexivity. ring. }
  assert (HKN : (0 <= inject_Z k * inject_Z n <= 9007199254740991 * inject_Z n)%Q) by (split; nra).
  assert (Hb : (to_Q (of_draw k) * to_Q (of_int n) < qpow2 1022)%Q).
  { rewrite HX. assert (qpow2 60 == 1152921504606846976)%Q as E by reflexivity.
    apply (Qlt_le_trans _ (qpow2 60)); [rewrite E; lra|apply qpow2_le_mono; lia]. }
  destruct (dmul_close _ _ Gk Gn Hb) as (G & H1 & _). rewrite HX in H1.
  pose proof qpow2_small.
  assert (qpow2 (-52) == 1 # 4503599627370496)%Q as E52 by reflexivity. rewrite E52 in H1.
  split; [done|lra].
Qed.

(** [Math.floor(Math.random() * n)] for an integer [0 < n < 2^53] lies in
    [[0, n)]. *)
Theorem draw_times_floor (k n : Z) :
  0 <= k < 2 ^ 53 -> 0 < n < 2 ^ 53 -> 0 <= js_floor (dmul (of_draw k) (of_int n)) < n.
Proof.
  intros Hk Hn. destruct (draw_times_lt k n Hk Hn) as [G Hv].
  pose proof (good_to_Q_nonneg _ G) as H0. unfold js_floor. split.
  - change 0 with (Qfloor 0). apply Qfloor_resp_le. done.
  - rewrite Zlt_Qlt. eapply Qle_lt_trans; [apply Qfloor_le|done].
Qed.
