(* ===== verification/Division.v ===== *)
(** * Division: the [/] of the script on doubles

    [x / y] as the Standard Library's [SFdiv]: [SFdiv_core_binary] computes
    an integer quotient [q] at an exponent [e] below the canonical one and
    the location [l] of the remainder (zero, below, at or above half the
    divisor), then [binary_round_aux] rounds [q] at [e] with [l].

    The theorems reduce that rounding to the rounding of an exact value:
    rounding [q] with location [l] is rounding the integer [4q + c] at
    [e - 2], where [c] in [[0, 4)] codes [l] ([round_aux_loc]); the true
    quotient lies within one unit of [4q + c] on that finer grid, on the
    same side of every rounding boundary ([near], [round_aux_near]).  So
    [x / y] is within half an ulp of the exact quotient ([ddiv_close]). *)

From Stdlib Require Import ZArith QArith Qpower Qround Lia Lqa.
From Stdlib Require Import SpecFloat.
From stdpp Require Import base list.
From S2P Require Import Prelude Double.

Local Open Scope Z_scope.

Definition ddiv : spec_float -> spec_float -> spec_float := SFdiv prec emax.

(** The two bits [shr_record_of_loc] gives a location: the rounding bit
    and the sticky bit. *)
Definition loc_code (l : location) : Z :=
  match l with
  | loc_Exact => 0
  | loc_Inexact Lt => 1
  | loc_Inexact Eq => 2
  | loc_Inexact Gt => 3
  end.

(** [x] lies where an exact value [m * 2^e] would round: at it when [m]
    is even, strictly between its neighbours [(m - 1) * 2^e] and
    [(m + 1) * 2^e] when [m] is odd. *)
Definition near (m e : Z) (x : Q) : Prop :=
  (Z.even m = true -> (x == qval m e)%Q) /\
  (Z.even m = false -> (qval (m - 1) e < x < qval (m + 1) e)%Q).

#[export] Instance near_proper (m e : Z) : Proper (Qeq ==> iff) (near m e).
Proof. intros x y Hxy. unfold near. by rewrite Hxy. Qed.

(** ** Rounding with a location *)

Lemma loc_code_range (l : location) : 0 <= loc_code l < 4.
Proof. destruct l as [|[]]; cbn; lia. Qed.

Lemma digits_quad (p : positive) (l : location) :
  Zdigits2 (4 * Zpos p + loc_code l) = Zpos (digits2_pos p) + 2.
Proof.
  destruct l as [|[]]; cbn [loc_code];
    [change (4 * Zpos p + 0) with (Zpos p~0~0)|change (4 * Zpos p + 2) with (Zpos p~1~0)
    |change (4 * Zpos p + 1) with (Zpos p~0~1)|change (4 * Zpos p + 3) with (Zpos p~1~1)];
    cbn [Zdigits2 digits2_pos]; rewrite !Pos2Z.inj_succ; lia.
Qed.

Lemma shr2_quad (p : positive) (l : location) :
  Nat.iter 2 shr_1 {| shr_m := 4 * Zpos p + loc_code l; shr_r := false; shr_s := false |} =
  shr_record_of_loc (Zpos p) l.
Proof. by destruct l as [|[]]. Qed.

Lemma shr_iter (mrs : shr_record) (e n : Z) :
  0 <= n -> shr mrs e n = (Nat.iter (Z.to_nat n) shr_1 mrs, e + n).
Proof.
  intros Hn. destruct n as [|p|p]; [by rewrite Z.add_0_r|cbn [shr]|lia].
  by rewrite iter_pos_nat, Z2Nat.inj_pos.
Qed.

(** Rounding [q] at [e] with the location [l] is rounding [4q + c] at
    [e - 2] exactly: its two extra low bits are [l]'s rounding and sticky
    bits. *)
Theorem round_aux_loc (sx : bool) (p : positive) (e : Z) (l : location) :
  0 <= fexp prec emax (Zpos (digits2_pos p) + e) - e ->
  binary_round_aux prec emax sx (Zpos p) e l =
  binary_round_aux prec emax sx (4 * Zpos p + loc_code l) (e - 2) loc_Exact.
Proof.
  intros Hd. unfold binary_round_aux.
  assert (H : shr_fexp prec emax (Zpos p) e l = shr_fexp prec emax (4 * Zpos p + loc_code l) (e - 2) loc_Exact).
  { unfold shr_fexp. rewrite digits_quad. change (Zdigits2 (Zpos p)) with (Zpos (digits2_pos p)).
    replace (Zpos (digits2_pos p) + 2 + (e - 2)) with (Zpos (digits2_pos p) + e) by lia.
    set (d := fexp prec emax (Zpos (digits2_pos p) + e) - e) in *.
    replace (fexp prec emax (Zpos (digits2_pos p) + e) - (e - 2)) with (d + 2) by (unfold d; lia).
    rewrite !shr_iter by lia. cbn [shr_record_of_loc].
    rewrite Z2Nat.inj_add, Nat.iter_add, shr2_quad by lia. f_equal. lia. }
  by rewrite H.
Qed.

(** ** Rounding a value near an exact significand *)

(** Push [inject_Z] through sums, differences and products of a
    hypothesis, so that [lra] sees the integers as atoms. *)
Ltac push_inject_in H :=
  revert H; unfold Z.sub;
  repeat first [rewrite inject_Z_plus | rewrite inject_Z_mult | rewrite inject_Z_opp];
  try change (inject_Z 1) with 1%Q; try change (inject_Z (-1)) with (-1)%Q;
  try change (inject_Z 2) with 2%Q; intros H.

Lemma scale_le (a b : Z) (s : Q) : a <= b -> (0 <= s)%Q -> (inject_Z a * s <= inject_Z b * s)%Q.
Proof. intros Hab Hs. apply Qmult_le_compat_r; [by apply inject_Z_le|done]. Qed.

(** Rounding [m] on the grid [2^d] with [d >= 2]: the result is within
    half a step of any value [near] [m], as of [m] itself.  For an odd [m]
    the rounded value, a multiple of 4, is at an odd distance from [m], so
    strictly less than half a step away. *)
Lemma rne_near_error (m e d : Z) (x : Q) :
  2 <= d -> near m e x ->
  (2 * (inject_Z (rne_div m d) * qpow2 (e + d) - x) <= qpow2 (e + d) /\
   2 * (x - inject_Z (rne_div m d) * qpow2 (e + d)) <= qpow2 (e + d))%Q.
Proof.
  intros Hd [Hev Hod]. pose proof (rne_div_error m d ltac:(lia)) as Herr.
  set (R := rne_div m d) in *.
  assert (HP : 2 ^ d = 4 * 2 ^ (d - 2)) by (replace d with (2 + (d - 2)) at 1 by lia; by rewrite Z.pow_add_r by lia).
  pose proof (Z.pow_pos_nonneg 2 (d - 2) ltac:(lia) ltac:(lia)).
  rewrite qpow2_add, <- (q2_inject d) by lia. pose proof (qpow2_pos e) as He.
  destruct (Z.even m) eqn:Hm.
  - specialize (Hev eq_refl). rewrite Hev. unfold qval.
    pose proof (scale_le (2 * (R * 2 ^ d - m)) (2 ^ d) (qpow2 e) ltac:(lia) ltac:(lra)) as H1.
    pose proof (scale_le (2 * (m - R * 2 ^ d)) (2 ^ d) (qpow2 e) ltac:(lia) ltac:(lra)) as H2.
    push_inject_in H1; push_inject_in H2. split; lra.
  - destruct (Hod eq_refl) as [Hlo Hhi]. unfold qval in Hlo, Hhi.
    assert (Hodd : Z.odd m = true) by (rewrite <- Z.negb_even, Hm; done).
    apply Z.odd_spec in Hodd as [k Hk].
    rewrite HP in Herr. set (T := R * 2 ^ d - m).
    assert (HT : T = 4 * (R * 2 ^ (d - 2)) - 2 * k - 1) by (unfold T; rewrite HP, Hk; ring).
    pose proof (scale_le (2 * (R * 2 ^ d - m + 1)) (2 ^ d) (qpow2 e) ltac:(lia) ltac:(lra)) as H1.
    pose proof (scale_le (2 * (m + 1 - R * 2 ^ d)) (2 ^ d) (qpow2 e) ltac:(lia) ltac:(lra)) as H2.
    push_inject_in H1; push_inject_in H2; push_inject_in Hlo; push_inject_in Hhi. split; lra.
Qed.

Lemma near_nonneg (m : positive) (e : Z) (x : Q) : near (Zpos m) e x -> (0 <= x)%Q.
Proof.
  intros [Hev Hod]. destruct (Z.even (Zpos m)) eqn:Hm.
  - rewrite (Hev eq_refl). apply Qlt_le_weak, qval_pos. lia.
  - destruct (Hod eq_refl) as [Hlo _]. unfold qval in Hlo.
    pose proof (scale_le 0 (Zpos m - 1) (qpow2 e) ltac:(lia) (Qlt_le_weak _ _ (qpow2_pos e))) as H0.
    change (inject_Z 0) with 0%Q in H0. lra.
Qed.

(** The spacing [2^E] of the rounded value, for a value near a
    significand shifted by at least two bits: an odd significand is not
    the power of two below it, so the value is above that power. *)
Lemma grid_near (m0 : positive) (e0 : Z) (x : Q) :
  2 <= fexp prec emax (Zpos (digits2_pos m0) + e0) - e0 -> near (Zpos m0) e0 x ->
  (qpow2 (fexp prec emax (Zpos (digits2_pos m0) + e0)) <= x * qpow2 (-52) + qpow2 (-1074))%Q.
Proof.
  intros Hd Hn. pose proof (near_nonneg m0 e0 x Hn) as Hx. destruct Hn as [Hev Hod].
  rewrite fexp_spec in *. set (D := Zpos (digits2_pos m0)) in *.
  pose proof (qpow2_pos (-1074)). pose proof (qpow2_pos (-52)).
  destruct (Z.max_spec (D + e0 - 53) (-1074)) as [[_ E]|[Hge E]]; rewrite E in *; [nra|].
  pose proof (digits2_pos_lower m0) as Hlow. fold D in Hlow.
  assert (Hlow' : (qpow2 (D - 1 + e0) <= x)%Q).
  { rewrite qpow2_add, <- q2_inject by lia. pose proof (qpow2_pos e0).
    destruct (Z.even (Zpos m0)) eqn:Hm.
    - rewrite (Hev eq_refl). apply scale_le; [done|lra].
    - destruct (Hod eq_refl) as [Hlo _]. unfold qval in Hlo.
      assert (Hne : Zpos m0 <> 2 ^ (D - 1)).
      { intros Heq. rewrite Heq, Z.even_pow in Hm by lia. discriminate. }
      pose proof (scale_le (2 ^ (D - 1)) (Zpos m0 - 1) (qpow2 e0) ltac:(lia) ltac:(lra)). lra. }
  replace (D + e0 - 53) with ((D - 1 + e0) + -52) by lia. rewrite qpow2_add.
  pose proof (Qmult_le_compat_r _ _ (qpow2 (-52)) Hlow' ltac:(lra)). lra.
Qed.

(** Rounding the exact [m0 * 2^e0], shifted by at least two bits, is
    within half an ulp of any value [near] it. *)
Theorem round_aux_near (m0 : positive) (e0 : Z) (x : Q) :
  2 <= fexp prec emax (Zpos (digits2_pos m0) + e0) - e0 ->
  Zpos (digits2_pos m0) + e0 <= 1023 -> near (Zpos m0) e0 x ->
  close (binary_round_aux prec emax false (Zpos m0) e0 loc_Exact) x.
Proof.
  intros Hd Hov Hn. pose proof (grid_near m0 e0 x Hd Hn) as Hg. pose proof (near_nonneg m0 e0 x Hn) as Hx.
  set (d := fexp prec emax (Zpos (digits2_pos m0) + e0) - e0) in *.
  assert (HE : fexp prec emax (Zpos (digits2_pos m0) + e0) = e0 + d) by (unfold d; lia).
  rewrite HE in Hg. destruct (rne_near_error (Zpos m0) e0 d x Hd Hn) as [Hs1 Hs2].
  set (q := rne_div (Zpos m0) d) in *. pose proof (qpow2_pos (-52)). pose proof (qpow2_pos (-1074)).
  destruct (round_aux_spec false m0 e0 ltac:(lia)) as [[Hq0 Hr]|(m & e & Hq & Hv & He & Hc & Hr)];
    rewrite Hr.
  - fold d q in Hq0. rewrite Hq0 in Hs1, Hs2. change (inject_Z 0) with 0%Q in Hs1, Hs2.
    split; [done|]. cbn [to_Q]. split; nra.
  - fold d q in Hq, Hv, He.
    assert ((e <=? emax - prec) = true) as -> by (apply Z.leb_le; rewrite fexp_spec in HE; unfold emax, prec; lia).
    split; [|cbn [to_Q]; rewrite Hv; split; lra].
    split_and!; [|done|done]. cbn [valid_binary]. unfold bounded. rewrite Hc.
    apply Z.leb_le. rewrite fexp_spec in HE. unfold emax, prec. lia.
Qed.

(** ** The quotient and its location *)

(** [new_location M r] codes where the remainder [r] lies against half
    the divisor [M]. *)
Lemma new_location_code (M r : Z) :
  0 < M -> 0 <= r < M ->
  (r = 0 -> loc_code (new_location M r) = 0) /\
  (0 < r -> 2 * r < M -> loc_code (new_location M r) = 1) /\
  (2 * r = M -> loc_code (new_location M r) = 2) /\
  (M < 2 * r -> loc_code (new_location M r) = 3).
Proof.
  intros HM Hr. unfold new_location, new_location_even, new_location_odd.
  destruct (Z.even M) eqn:He.
  - destruct (Z.eqb_spec r 0); [split_and!; intros; cbn; lia|].
    destruct (Z.compare_spec (2 * r) M); cbn; split_and!; intros; lia.
  - assert (Ho : Z.odd M = true) by (rewrite <- Z.negb_even, He; done).
    apply Z.odd_spec in Ho as [j Hj].
    destruct (Z.eqb_spec r 0); [split_and!; intros; cbn; lia|].
    destruct (Z.compare_spec (2 * r + 1) M); cbn; split_and!; intros; lia.
Qed.

(** Comparing [k * 2^e] with [n / M * 2^e] is comparing [k * M] with [n]. *)
Lemma qval_cmp_div (k n M e : Z) :
  0 < M ->
  (k * M < n -> (qval k e < inject_Z n / inject_Z M * qpow2 e)%Q) /\
  (n < k * M -> (inject_Z n / inject_Z M * qpow2 e < qval k e)%Q) /\
  (n = k * M -> (qval k e == inject_Z n / inject_Z M * qpow2 e)%Q).
Proof.
  intros HM. unfold qval. pose proof (qpow2_pos e).
  assert (HM' : (0 < inject_Z M)%Q) by (rewrite <- (Zlt_Qlt 0); lia).
  split_and!; intros Hc.
  - apply Qmult_lt_compat_r; [done|]. apply Qlt_shift_div_l; [done|].
    rewrite <- inject_Z_mult. by rewrite <- Zlt_Qlt.
  - apply Qmult_lt_compat_r; [done|]. apply Qlt_shift_div_r; [done|].
    rewrite <- inject_Z_mult. by rewrite <- Zlt_Qlt.
  - subst n. rewrite inject_Z_mult. field. lra.
Qed.

(** The exact quotient [A / M * 2^e] is near [4q + c] at [e - 2], where
    [q] and [r] are the integer quotient and remainder and [c] codes the
    location of [r]. *)
Lemma near_quotient (A M e : Z) (x : Q) :
  0 < M -> 0 <= A -> (x == inject_Z A / inject_Z M * qpow2 e)%Q ->
  near (4 * (A / M) + loc_code (new_location M (A mod M))) (e - 2) x.
Proof.
  intros HM HA Hx. pose proof (Z.div_mod A M ltac:(lia)) as Hdm. pose proof (Z.mod_pos_bound A M HM) as Hr.
  set (q := A / M) in *. set (r := A mod M) in *.
  destruct (new_location_code M r HM Hr) as (C0 & C1 & C2 & C3).
  set (c := loc_code (new_location M r)) in *.
  assert (Hx' : (x == inject_Z (4 * A) / inject_Z M * qpow2 (e - 2))%Q).
  { rewrite Hx, inject_Z_mult. replace e with (2 + (e - 2)) at 1 by lia. rewrite qpow2_add.
    assert (qpow2 2 == 4)%Q as -> by reflexivity. change (inject_Z 4) with 4%Q.
    assert (HM' : ~ (inject_Z M == 0)%Q) by (change 0%Q with (inject_Z 0); rewrite inject_Z_injective; lia).
    field. done. }
  rewrite Hx'. replace (4 * q + c) with (c + 2 * (2 * q)) by lia. unfold near. rewrite Z.even_add_mul_2.
  replace (c + 2 * (2 * q)) with (4 * q + c) by lia.
  pose proof (fun k => qval_cmp_div k (4 * A) M (e - 2) HM) as Hcmp.
  destruct (Z.lt_trichotomy r 0) as [?|[Hr0|Hr0]]; [lia| |].
  - rewrite (C0 Hr0). cbn [Z.even]. split; [|done]. intros _.
    symmetry. apply (proj2 (proj2 (Hcmp _))). nia.
  - destruct (Z.lt_trichotomy (2 * r) M) as [Hh|[Hh|Hh]].
    + rewrite (C1 Hr0 Hh). cbn [Z.even]. split; [done|]. intros _.
      split; [apply (proj1 (Hcmp _))|apply (proj1 (proj2 (Hcmp _)))]; nia.
    + rewrite (C2 Hh). cbn [Z.even]. split; [|done]. intros _.
      symmetry. apply (proj2 (proj2 (Hcmp _))). nia.
    + rewrite (C3 Hh). cbn [Z.even]. split; [done|]. intros _.
      split; [apply (proj1 (Hcmp _))|apply (proj1 (proj2 (Hcmp _)))]; nia.
Qed.

(** The quotient of [SFdiv_core_binary] for a true quotient [X] of at
    least [2^-1074]: positive, at an exponent [ez] no higher than the
    canonical one, at most [X], and [X] is near [4q + c] at [ez - 2]. *)
Lemma div_core_spec (mx my : positive) (ex ey : Z) :
  let X := (qval (Zpos mx) ex / qval (Zpos my) ey)%Q in
  (qpow2 (-1074) <= X)%Q ->
  exists p ez lz, SFdiv_core_binary prec emax (Zpos mx) ex (Zpos my) ey = (Zpos p, ez, lz) /\
    0 <= fexp prec emax (Zpos (digits2_pos p) + ez) - ez /\
    (qval (Zpos p) ez <= X)%Q /\ near (4 * Zpos p + loc_code lz) (ez - 2) X.
Proof.
  intros X Hlow. unfold SFdiv_core_binary. cbv zeta.
  change (Zdigits2 (Zpos mx)) with (Zpos (digits2_pos mx)).
  change (Zdigits2 (Zpos my)) with (Zpos (digits2_pos my)).
  set (D1 := Zpos (digits2_pos mx)). set (D2 := Zpos (digits2_pos my)).
  set (F := fexp prec emax (D1 + ex - (D2 + ey))). set (e' := Z.min F (ex - ey)).
  assert (He' : e' = Z.min F (ex - ey)) by done.
  assert (HF : F = Z.max (D1 + ex - (D2 + ey) - 53) (-1074)) by apply fexp_spec.
  assert (Hs : 0 <= ex - ey - e') by lia.
  assert (Hm' : match ex - ey - e' with Zpos _ => Z.shiftl (Zpos mx) (ex - ey - e') | Z0 => Zpos mx
                | Zneg _ => 0 end = Zpos mx * 2 ^ (ex - ey - e')).
  { destruct (ex - ey - e'); [ring|apply Z.shiftl_mul_pow2; lia|lia]. }
  rewrite Hm'. set (s := ex - ey - e') in *. set (A := Zpos mx * 2 ^ s). set (M := Zpos my).
  assert (Hdiv : Z.div_eucl A M = (A / M, A mod M)).
  { unfold Z.div, Z.modulo. by destruct (Z.div_eucl A M). }
  rewrite Hdiv. cbn iota.
  pose proof (qpow2_pos ey). pose proof (qpow2_pos e').
  assert (HM : (0 < inject_Z M)%Q) by (rewrite <- (Zlt_Qlt 0); lia).
  assert (HX : (X == inject_Z A / inject_Z M * qpow2 e')%Q).
  { unfold X, qval, A. rewrite inject_Z_mult, q2_inject by lia.
    replace ex with (s + e' + ey) at 1 by lia. rewrite !qpow2_add. unfold M in *. field. split; lra. }
  pose proof (digits2_pos_lower mx) as Lx. pose proof (digits2_pos_bound my) as Ly. fold D1 D2 in Lx, Ly.
  assert (HA : 2 ^ (D1 - 1 + s) <= A).
  { unfold A. rewrite Z.pow_add_r by lia. apply Z.mul_le_mono_nonneg_r; lia. }
  (* the quotient is at least 1 *)
  assert (Hq1 : M <= A).
  { destruct (Z.le_gt_cases e' (-1074)) as [Hle|Hgt].
    - destruct (Z.le_gt_cases M A) as [?|Hlt]; [done|exfalso].
      pose proof (proj1 (proj2 (qval_cmp_div 1 A M e' ltac:(lia))) ltac:(lia)) as H1.
      pose proof (qpow2_le_mono e' (-1074) Hle). unfold qval in H1. change (inject_Z 1) with 1%Q in H1. lra.
    - pose proof (Z.pow_le_mono_r 2 D2 (D1 - 1 + s) ltac:(lia) ltac:(lia)). lia. }
  set (q := A / M). assert (Hq : 1 <= q) by (apply Z.div_le_lower_bound; lia).
  exists (Z.to_pos q), e', (new_location M (A mod M)). rewrite Z2Pos.id by lia.
  split; [done|]. split_and!.
  - (* the quotient has at least [D1 + s - D2] digits *)
    assert (Hdq : D1 + s - D2 <= Zpos (digits2_pos (Z.to_pos q))).
    { destruct (Z.le_gt_cases (D1 + s - D2 - 1) 0); [lia|].
      assert (Hk : 2 ^ (D1 + s - D2 - 1) <= q).
      { apply Z.div_le_lower_bound; [lia|].
        assert (E : 2 ^ D2 * 2 ^ (D1 + s - D2 - 1) = 2 ^ (D1 - 1 + s)) by (rewrite <- Z.pow_add_r by lia; f_equal; lia).
        pose proof (Z.pow_pos_nonneg 2 (D1 + s - D2 - 1) ltac:(lia) ltac:(lia)). nia. }
      pose proof (pow2_le_digits (Z.to_pos q) (D1 + s - D2 - 1) ltac:(lia) ltac:(lia)). lia. }
    rewrite fexp_spec. lia.
  - pose proof (Z.mul_div_le A M ltac:(lia)) as Hle. fold q in Hle. rewrite HX.
    destruct (proj1 (Z.lt_eq_cases _ _) Hle) as [Hlt|Heq].
    + apply Qlt_le_weak, (proj1 (qval_cmp_div q A M e' ltac:(lia))). lia.
    + apply Qle_lteq. right. apply (proj2 (proj2 (qval_cmp_div q A M e' ltac:(lia)))). lia.
  - apply near_quotient; [lia|lia|exact HX].
Qed.

(** ** Correct rounding of [x / y] *)

(** [x / y] on good doubles whose exact quotient lies in
    [[2^-1074, 2^1022)]: within half an ulp of the quotient. *)
Theorem ddiv_close (x y : spec_float) :
  good x -> good y -> (0 < to_Q y)%Q ->
  (qpow2 (-1074) * to_Q y <= to_Q x)%Q -> (to_Q x < qpow2 1022 * to_Q y)%Q ->
  close (ddiv x y) (to_Q x / to_Q y).
Proof.
  intros Hx Hy Hy0 Hlo Hhi. destruct Hx as (Vx & Fx & Nx), Hy as (Vy & Fy & Ny).
  pose proof (qpow2_pos (-1074)).
  destruct x as [[]|[]| |[] mx ex]; try discriminate; destruct y as [[]|[]| |[] my ey]; try discriminate;
    cbn [to_Q] in *; try lra.
  - pose proof (qval_pos (Zpos my) ey ltac:(lia)). nra.
  - unfold ddiv, SFdiv. set (X := (qval (Zpos mx) ex / qval (Zpos my) ey)%Q).
    assert (HXlo : (qpow2 (-1074) <= X)%Q) by (apply Qle_shift_div_l; done).
    assert (HXhi : (X < qpow2 1022)%Q) by (apply Qlt_shift_div_r; done).
    destruct (div_core_spec mx my ex ey HXlo) as (p & ez & lz & -> & Hd & Hle & Hn). cbn [xorb].
    rewrite round_aux_loc by done. pose proof (loc_code_range lz).
    fold X in Hle, Hn. pose proof (value_digits_bound p ez 1022 ltac:(lra)) as Hov.
    replace (4 * Zpos p + loc_code lz) with (Zpos (Z.to_pos (4 * Zpos p + loc_code lz))) in * by (rewrite Z2Pos.id; lia).
    set (P := Z.to_pos (4 * Zpos p + loc_code lz)) in *.
    assert (HD : Zpos (digits2_pos P) = Zpos (digits2_pos p) + 2).
    { change (Zpos (digits2_pos P)) with (Zdigits2 (Zpos P)). unfold P. rewrite Z2Pos.id by lia. apply digits_quad. }
    apply round_aux_near; [rewrite HD; replace (Zpos (digits2_pos p) + 2 + (ez - 2)) with (Zpos (digits2_pos p) + ez) by lia; lia
                          |lia|exact Hn].
Qed.
