(* ===== verification/JsNumber.v ===== *)
(** * JsNumber: binary64 doubles and their decimal text

    The arithmetic the script performs on [Math.random()] draws and the
    conversion [Number::toString] that a template literal [${x}] applies
    (ECMAScript 2023, 6.1.6.1.20).  Doubles are the Standard Library's
    [spec_float] with [prec = 53] and [emax = 1024]; [SFmul] and [SFadd]
    round to nearest, ties to even, as IEEE 754 does.  The printer picks the
    fewest digits [k] whose decimal [s * 10^(n-k)] reads back as the double
    (the closer candidate, then the even one, on a tie), then lays the digits
    out in one of the four forms of the standard.

    [shortest_spec] proves step 5 of the standard for every double with a
    53-bit significand: at most 17 digits, the decimal reads back, and no
    shorter grid of decimals has a member that reads back. *)

From Stdlib Require Import ZArith QArith Qpower Qround Lia Lqa Ascii String.
From Stdlib Require Import SpecFloat.
From stdpp Require Import base list strings.
From S2P Require Import Prelude JsString Double.

Local Open Scope Z_scope.

Definition q10 (q : Z) : Q := Qpower (10 # 1) q.

Definition qltb (a b : Q) : bool := match Qcompare a b with Lt => true | _ => false end.
Definition qleb (a b : Q) : bool := match Qcompare a b with Gt => false | _ => true end.

(** Half the distance to the neighbours of [m * 2^e]: the binade's lowest
    double of a normal binade has a neighbour below at half the spacing. *)
Definition half_below (m e : Z) : Q :=
  if (m =? 2 ^ 52) && (-1074 <? e) then qpow2 (e - 2) else qpow2 (e - 1).
Definition half_above (e : Z) : Q := qpow2 (e - 1).

(** [y] rounds to nearest, ties to even, to the double [m * 2^e]. *)
Definition rounds_to (y : Q) (m e : Z) : bool :=
  let x := qval m e in
  if Z.even m then qleb (x - half_below m e)%Q y && qleb y (x + half_above e)%Q
  else qltb (x - half_below m e)%Q y && qltb y (x + half_above e)%Q.

(** ** The decimal exponent *)

Fixpoint digits10_fuel (f : nat) (n : Z) : Z :=
  match f with
  | O => 1
  | S f' => if n <? 10 then 1 else 1 + digits10_fuel f' (n / 10)
  end.

(** The number of decimal digits of a positive integer. *)
Definition digits10 (n : Z) : Z := digits10_fuel (Z.to_nat (Z.log2 n + 1)) n.

(** [E] with [10^E <= x < 10^(E+1)], for a positive [x]. *)
Definition dec_exp (x : Q) : Z :=
  let t := digits10 (Qnum x) - digits10 (Zpos (Qden x)) in
  if qleb (q10 t) x then t else t - 1.

(** ** The shortest digits (ECMAScript Number::toString, step 5) *)

(** The [k]-digit decimal closest to [x] among those that read back as
    [x], if any: the candidates are the [k]-digit decimals just below and
    just above [x]; the closer wins, and a tie goes to the even one. *)
Definition pick (m e E k : Z) : option Z :=
  let x := qval m e in
  let q := E + 1 - k in
  let slo := Qfloor (x / q10 q)%Q in
  let shi := slo + 1 in
  let ylo := (inject_Z slo * q10 q)%Q in
  let yhi := (inject_Z shi * q10 q)%Q in
  match rounds_to ylo m e, rounds_to yhi m e with
  | true, true =>
      match Qcompare (x - ylo)%Q (yhi - x)%Q with
      | Lt => Some slo
      | Gt => Some shi
      | Eq => Some (if Z.even slo then slo else shi)
      end
  | true, false => Some slo
  | false, true => Some shi
  | false, false => None
  end.

Fixpoint search (fuel : nat) (m e E k : Z) : option (Z * Z) :=
  match fuel with
  | O => None
  | S f => match pick m e E k with Some s => Some (s, k) | None => search f m e E (k + 1) end
  end.

(** [(s, k, n)]: [s] has [k] digits and [x] reads as [s * 10^(n-k)]; 17
    digits always suffice ([pick_17]). *)
Definition shortest (m e : Z) : Z * Z * Z :=
  let E := dec_exp (qval m e) in
  match search 17 m e E 1 with
  | Some (s, k) => if s =? 10 ^ k then (1, 1, E + 2) else (s, k, E + 1)
  | None => (Qfloor (qval m e / q10 (E - 16))%Q, 17, E + 1)
  end.

(** ** The text (ECMAScript Number::toString, steps 6-10) *)

(** The [k] low decimal digits of [s], leading zeros included. *)
Fixpoint fixed_digits (k : nat) (s : Z) : string :=
  match k with
  | O => EmptyString
  | S k' => fixed_digits k' (s / 10) +:+ String (digit_char (Z.to_N (s mod 10))) EmptyString
  end.

Fixpoint zeros (n : nat) : string :=
  match n with O => EmptyString | S n' => String "0" (zeros n') end.

Definition exponent_text (e : Z) : string :=
  (if 0 <? e then "+" else "-") +:+ show_N (Z.to_N (Z.abs e)).

Definition format_decimal (s k n : Z) : string :=
  let ds := fixed_digits (Z.to_nat k) s in
  if (k <=? n) && (n <=? 21) then ds +:+ zeros (Z.to_nat (n - k))
  else if (0 <? n) && (n <=? 21) then
    substring 0 (Z.to_nat n) ds +:+ "." +:+ substring (Z.to_nat n) (Z.to_nat (k - n)) ds
  else if (-6 <? n) && (n <=? 0) then "0." +:+ zeros (Z.to_nat (- n)) +:+ ds
  else if k =? 1 then ds +:+ "e" +:+ exponent_text (n - 1)
  else substring 0 1 ds +:+ "." +:+ substring 1 (Z.to_nat (k - 1)) ds +:+ "e" +:+ exponent_text (n - 1).

(** [Number::toString(x)], which a template literal [${x}] calls. *)
Definition js_number_to_string (x : spec_float) : string :=
  match x with
  | S754_zero _ => "0"
  | S754_nan => "NaN"
  | S754_infinity false => "Infinity"
  | S754_infinity true => "-Infinity"
  | S754_finite sg m e =>
      let '(s, k, n) := shortest (Zpos m) e in
      (if sg then "-" else EmptyString) +:+ format_decimal s k n
  end.


(** ** Reading a number token back

    The CSS parser reads the declarations' values as number tokens: an
    optional minus sign, digits, an optional fraction and an optional
    exponent, followed by the unit.  [read_number] returns the value and
    the rest of the text. *)

Definition read_digits (t : string) : Z * nat * string :=
  let ds := dec_digits t in (Z.of_N (digits_acc 10 0 ds), length ds, str_drop (length ds) t).

Definition read_exponent (t : string) : Z * string :=
  match t with
  | String ("e" | "E") r =>
      let '(sg, r1) := match r with
                       | String "+" r' => (1, r') | String "-" r' => (-1, r') | _ => (1, r)
                       end in
      let '(v, nv, r2) := read_digits r1 in
      if (nv =? 0)%nat then (0, t) else (sg * v, r2)
  | _ => (0, t)
  end.

Definition read_fraction (t : string) : Z * nat * string :=
  match t with String "." t' => read_digits t' | _ => (0, 0%nat, t) end.

Definition read_unsigned (t : string) : option (Q * string) :=
  let '(ip, ni, t2) := read_digits t in
  let '(fp, nf, t3) := read_fraction t2 in
  let '(ex, t4) := read_exponent t3 in
  if (ni + nf =? 0)%nat then None
  else Some ((inject_Z (ip * 10 ^ Z.of_nat nf + fp) * q10 (ex - Z.of_nat nf))%Q, t4).

Definition read_number (t : string) : option (Q * string) :=
  match t with
  | String "-" t' => option_map (fun '(y, r) => ((- y)%Q, r)) (read_unsigned t')
  | _ => read_unsigned t
  end.

(** A unit after a number: no digit, decimal point or exponent marker. *)
Definition unit_start (u : string) : bool :=
  match u with
  | String c _ => negb (is_digit c) && negb (bool_decide (c = "."%char \/ c = "e"%char \/ c = "E"%char))
  | EmptyString => true
  end.

(** [y] reads back as the double [x]: rounding to nearest gives [x]. *)
Definition denotes (y : Q) (x : spec_float) : bool :=
  match x with
  | S754_zero _ => Qeq_bool y 0
  | S754_finite sg m e => rounds_to (if sg then (- y)%Q else y) (Zpos m) e
  | _ => false
  end.

(** ** Lemmas on the arithmetic *)

Lemma qltb_spec (a b : Q) : qltb a b = true <-> (a < b)%Q.
Proof. unfold qltb. rewrite Qlt_alt. destruct (a ?= b)%Q; split; congruence. Qed.

Lemma qleb_spec (a b : Q) : qleb a b = true <-> (a <= b)%Q.
Proof. unfold qleb. rewrite Qle_alt. destruct (a ?= b)%Q; split; congruence. Qed.

Lemma digits10_fuel_spec (f : nat) (n : Z) :
  1 <= n < 2 ^ Z.of_nat f ->
  10 ^ (digits10_fuel f n - 1) <= n < 10 ^ digits10_fuel f n.
Proof.
  revert n. induction f as [|f IH]; intros n Hn; [simpl in Hn; lia|].
  cbn [digits10_fuel]. destruct (Z.ltb_spec n 10) as [Hlt|Hge]; [simpl; lia|].
  assert (Hq : 1 <= n / 10 < 2 ^ Z.of_nat f).
  { split; [apply Z.div_le_lower_bound; lia|].
    rewrite Nat2Z.inj_succ, Z.pow_succ_r in Hn by lia.
    apply Z.div_lt_upper_bound; lia. }
  destruct (IH _ Hq) as [Hlo Hhi]. set (d := digits10_fuel f (n / 10)) in *.
  assert (Hd : 1 <= d).
  { destruct (Z.le_gt_cases 1 d) as [?|Hd]; [done|].
    destruct (Z.eq_dec d 0) as [->|?]; [simpl in Hhi; lia|].
    rewrite Z.pow_neg_r in Hhi by lia. lia. }
  replace (1 + d - 1) with d by lia. rewrite Z.pow_add_r by lia.
  replace d with ((d - 1) + 1) at 1 by lia. rewrite Z.pow_add_r by lia.
  pose proof (Z.mul_div_le n 10). pose proof (Z.mod_pos_bound n 10). pose proof (Z.div_mod n 10). lia.
Qed.

(** [digits10 n] is the number of decimal digits of [n]. *)
Lemma digits10_spec (n : Z) : 1 <= n -> 10 ^ (digits10 n - 1) <= n < 10 ^ digits10 n.
Proof.
  intros Hn. apply digits10_fuel_spec. rewrite Z2Nat.id by (pose proof (Z.log2_nonneg n); lia).
  split; [done|]. apply Z.log2_spec. lia.
Qed.

Lemma digits10_fuel_pos (f : nat) (n : Z) : 1 <= digits10_fuel f n.
Proof.
  revert n. induction f as [|f IH]; intros n; cbn [digits10_fuel]; [lia|].
  destruct (n <? 10); [lia|]. specialize (IH (n / 10)). lia.
Qed.

Lemma q10_add (a b : Z) : (q10 (a + b) == q10 a * q10 b)%Q.
Proof. unfold q10. apply Qpower_plus. discriminate. Qed.

Lemma q10_pos (a : Z) : (0 < q10 a)%Q.
Proof. apply Qpower_0_lt. reflexivity. Qed.

Lemma q10_inject (j : Z) : 0 <= j -> (inject_Z (10 ^ j) == q10 j)%Q.
Proof. intros Hj. unfold q10. rewrite Zpower_Qpower by done. reflexivity. Qed.

Lemma q10_le_inject (j n : Z) : 0 <= j -> 10 ^ j <= n -> (q10 j <= inject_Z n)%Q.
Proof. intros Hj Hn. rewrite <- q10_inject by done. rewrite <- Zle_Qle. done. Qed.

Lemma q10_gt_inject (j n : Z) : 0 <= j -> n < 10 ^ j -> (inject_Z n < q10 j)%Q.
Proof. intros Hj Hn. rewrite <- q10_inject by done. rewrite <- Zlt_Qlt. done. Qed.

(** [dec_exp x] is the decimal exponent of a positive [x]. *)
Lemma dec_exp_spec (x : Q) :
  (0 < x)%Q -> (q10 (dec_exp x) <= x < q10 (dec_exp x + 1))%Q.
Proof.
  intros Hx. destruct x as [n d]. unfold dec_exp. cbn [Qnum Qden].
  assert (Hn : 0 < n) by (unfold Qlt in Hx; simpl in Hx; lia).
  destruct (digits10_spec n) as [Hn1 Hn2]; [lia|].
  destruct (digits10_spec (Zpos d)) as [Hd1 Hd2]; [lia|].
  pose proof (digits10_fuel_pos (Z.to_nat (Z.log2 n + 1)) n) as Ha.
  pose proof (digits10_fuel_pos (Z.to_nat (Z.log2 (Zpos d) + 1)) (Zpos d)) as Hb.
  fold (digits10 n) in Ha. fold (digits10 (Zpos d)) in Hb.
  set (a := digits10 n) in *. set (b := digits10 (Zpos d)) in *.
  apply q10_le_inject in Hn1; [|lia]. apply q10_gt_inject in Hn2; [|lia].
  apply q10_le_inject in Hd1; [|lia]. apply q10_gt_inject in Hd2; [|lia].
  assert (Hx' : (Qmake n d * inject_Z (Zpos d) == inject_Z n)%Q).
  { rewrite Qmake_Qdiv. field. unfold inject_Z, Qeq. simpl. lia. }
  assert (E1 : (q10 (a - b - 1) * q10 b == q10 (a - 1))%Q).
  { rewrite <- q10_add. f_equiv. lia. }
  assert (E2 : (q10 (a - b + 1) * q10 (b - 1) == q10 a)%Q).
  { rewrite <- q10_add. f_equiv. lia. }
  pose proof (q10_pos (a - b - 1)). pose proof (q10_pos (a - b + 1)).
  pose proof (q10_pos (b - 1)). pose proof (q10_pos (a - b)).
  assert (Hlo : (q10 (a - b - 1) < Qmake n d)%Q) by nra.
  assert (Hhi : (Qmake n d < q10 (a - b + 1))%Q) by nra.
  destruct (qleb (q10 (a - b)) (Qmake n d)) eqn:Hc.
  - apply qleb_spec in Hc. split; [done|]. done.
  - assert (~ (q10 (a - b) <= Qmake n d)%Q) as Hc' by (rewrite <- qleb_spec; congruence).
    apply Qnot_le_lt in Hc'. replace (a - b - 1 + 1) with (a - b) by lia. split; [|done].
    apply Qlt_le_weak. done.
Qed.


(** A decimal strictly inside the rounding interval reads back as [m * 2^e],
    whatever the parity of [m]. *)
Lemma rounds_to_inside (y : Q) (m e : Z) :
  (qval m e - half_below m e < y < qval m e + half_above e)%Q -> rounds_to y m e = true.
Proof.
  intros [H1 H2]. unfold rounds_to.
  destruct (Z.even m); apply andb_true_intro; rewrite ?qleb_spec, ?qltb_spec;
    split; auto using Qlt_le_weak.
Qed.

(** The rounding interval of a double is wider than [2^-53] times its value
    on each side. *)
Lemma half_below_bound (m e : Z) :
  1 <= m < 2 ^ 53 -> (qval m e <= 18014398509481984 * half_below m e)%Q.
Proof.
  intros Hm. unfold half_below, qval.
  destruct ((m =? 2 ^ 52) && (-1074 <? e)) eqn:Hc.
  - apply andb_true_iff in Hc as [Hc _]. apply Z.eqb_eq in Hc. subst m.
    replace e with (e - 2 + 2) at 1 by lia. rewrite qpow2_add.
    assert (qpow2 2 == 4)%Q as -> by reflexivity. vm_compute (inject_Z _).
    pose proof (qpow2_pos (e - 2)). lra.
  - replace e with (e - 1 + 1) at 1 by lia. rewrite qpow2_add.
    assert (qpow2 1 == 2)%Q as -> by reflexivity.
    assert (inject_Z m <= 9007199254740991)%Q by (apply (inject_Z_le m 9007199254740991); lia).
    pose proof (qpow2_pos (e - 1)). nra.
Qed.

Lemma half_above_bound (m e : Z) :
  1 <= m < 2 ^ 53 -> (qval m e < 18014398509481984 * half_above e)%Q.
Proof.
  intros Hm. unfold half_above, qval.
  replace e with (e - 1 + 1) at 1 by lia. rewrite qpow2_add.
  assert (qpow2 1 == 2)%Q as -> by reflexivity.
  assert (inject_Z m <= 9007199254740991)%Q by (apply (inject_Z_le m 9007199254740991); lia).
  pose proof (qpow2_pos (e - 1)). nra.
Qed.

(** What [pick] returns reads back as the double. *)
Lemma pick_sound (m e E k s : Z) :
  pick m e E k = Some s -> rounds_to (inject_Z s * q10 (E + 1 - k)) m e = true.
Proof.
  unfold pick. cbv zeta.
  destruct (rounds_to (inject_Z (Qfloor _) * _) m e) eqn:H1,
           (rounds_to (inject_Z (Qfloor _ + 1) * _) m e) eqn:H2; intros Hs; try discriminate.
  - destruct (Qcompare _ _); injection Hs as <-; try done.
    destruct (Z.even _); done.
  - by injection Hs as <-.
  - by injection Hs as <-.
Qed.

(** The [k]-digit decimals below and above [x] bracket it. *)
Lemma floor_bracket (x T : Q) :
  (0 < T)%Q -> (inject_Z (Qfloor (x / T)) * T <= x < inject_Z (Qfloor (x / T) + 1) * T)%Q.
Proof.
  intros HT. pose proof (Qfloor_le (x / T)) as F1. pose proof (Qlt_floor (x / T)) as F2.
  assert (HX : (x / T * T == x)%Q) by (field; apply Qnot_eq_sym, Qlt_not_eq; done).
  set (X := (x / T)%Q) in *.
  apply (Qmult_le_compat_r _ _ T) in F1; [|lra].
  apply (Qmult_lt_compat_r _ _ T) in F2; [|done]. lra.
Qed.

(** If either neighbouring [k]-digit decimal reads back, [pick] returns. *)
Lemma pick_some (m e E k : Z) :
  let slo := Qfloor (qval m e / q10 (E + 1 - k))%Q in
  rounds_to (inject_Z slo * q10 (E + 1 - k)) m e = true \/
  rounds_to (inject_Z (slo + 1) * q10 (E + 1 - k)) m e = true ->
  is_Some (pick m e E k).
Proof.
  intros slo H. unfold pick. fold slo.
  destruct H as [H|H]; rewrite H; [|destruct (rounds_to (inject_Z slo * _) m e)];
    repeat case_match; eauto.
Qed.

(** Seventeen digits always suffice: [10^16 > 2^53], so the spacing of the
    17-digit decimals near [x] is below the spacing of the doubles there. *)
Lemma pick_17 (m e : Z) :
  1 <= m < 2 ^ 53 -> is_Some (pick m e (dec_exp (qval m e)) 17).
Proof.
  intros Hm. apply pick_some. cbv zeta.
  set (x := qval m e). set (E := dec_exp x). set (T := q10 (E + 1 - 17)).
  assert (Hx : (0 < x)%Q) by (apply qval_pos; lia).
  destruct (dec_exp_spec x Hx) as [HE _]. fold E in HE.
  assert (HT : (T * 10000000000000000 == q10 E)%Q).
  { unfold T. assert (10000000000000000 == q10 16)%Q as -> by reflexivity.
    rewrite <- q10_add. f_equiv. lia. }
  assert (HT0 : (0 < T)%Q) by apply q10_pos.
  pose proof (floor_bracket x T HT0) as Hlo.
  rewrite inject_Z_plus in Hlo |- *. change (inject_Z 1) with 1%Q in *.
  set (S := inject_Z (Qfloor (x / T))) in *.
  assert (HS : ((S + 1) * T == S * T + T)%Q) by ring.
  pose proof (half_below_bound m e Hm) as Hb. pose proof (half_above_bound m e Hm) as Ha.
  fold x in Hb. fold x in Ha.
  destruct (Qlt_le_dec (2 * (x - S * T)) T).
  - left. apply rounds_to_inside. fold x. lra.
  - right. apply rounds_to_inside. fold x. rewrite HS in Hlo |- *. lra.
Qed.

#[export] Instance qltb_proper : Proper (Qeq ==> Qeq ==> eq) qltb.
Proof. intros a a' Ha b b' Hb. unfold qltb. by rewrite (Qcompare_comp a a' Ha b b' Hb). Qed.

#[export] Instance qleb_proper : Proper (Qeq ==> Qeq ==> eq) qleb.
Proof. intros a a' Ha b b' Hb. unfold qleb. by rewrite (Qcompare_comp a a' Ha b b' Hb). Qed.

(** Reading back depends on the rational value only, not on its fraction. *)
#[export] Instance rounds_to_proper : Proper (Qeq ==> eq ==> eq ==> eq) rounds_to.
Proof. intros y y' Hy m ? <- e ? <-. unfold rounds_to. cbv zeta. by destruct (Z.even m); rewrite Hy. Qed.

(** The decimals that read back as a double form an interval. *)
Lemma rounds_to_between (y1 y y2 : Q) (m e : Z) :
  (y1 <= y <= y2)%Q -> rounds_to y1 m e = true -> rounds_to y2 m e = true ->
  rounds_to y m e = true.
Proof.
  intros [H1 H2]. unfold rounds_to. cbv zeta.
  destruct (Z.even m); rewrite !andb_true_iff, ?qleb_spec, ?qltb_spec;
    intros [? ?] [? ?]; split; eauto using Qle_trans, Qlt_le_trans, Qle_lt_trans.
Qed.

Lemma rounds_to_self (m e : Z) : 1 <= m < 2 ^ 53 -> rounds_to (qval m e) m e = true.
Proof.
  intros Hm. apply rounds_to_inside.
  pose proof (qval_pos m e ltac:(lia)). pose proof (half_below_bound m e Hm).
  pose proof (half_above_bound m e Hm). lra.
Qed.

Lemma search_sound (f : nat) (m e E k0 s k : Z) :
  search f m e E k0 = Some (s, k) ->
  pick m e E k = Some s /\ k0 <= k < k0 + Z.of_nat f /\
  (forall k', k0 <= k' < k -> pick m e E k' = None).
Proof.
  revert k0. induction f as [|f IH]; intros k0; cbn [search]; [discriminate|].
  destruct (pick m e E k0) eqn:Hp.
  - intros [= <- <-]. split_and!; [done|lia..].
  - intros Hs. destruct (IH _ Hs) as (? & ? & Hmin). split_and!; [done|lia|lia|].
    intros k' ?. destruct (Z.eq_dec k' k0) as [->|?]; [done|]. apply Hmin. lia.
Qed.

Lemma search_complete (f : nat) (m e E k0 : Z) :
  is_Some (pick m e E (k0 + Z.of_nat f)) -> is_Some (search (S f) m e E k0).
Proof.
  revert k0. induction f as [|f IH]; intros k0 Hp; cbn [search].
  - rewrite Z.add_0_r in Hp. destruct Hp as [s ->]. eauto.
  - destruct (pick m e E k0); [eauto|]. apply IH.
    by replace (k0 + 1 + Z.of_nat f) with (k0 + Z.of_nat (S f)) by lia.
Qed.

Lemma inject_Z_mul_le (a b : Z) (T : Q) :
  a <= b -> (0 < T)%Q -> (inject_Z a * T <= inject_Z b * T)%Q.
Proof. intros. apply Qmult_le_compat_r; [by apply inject_Z_le|by apply Qlt_le_weak]. Qed.

(** When [pick] finds nothing, no multiple of [10^(E+1-k)] reads back. *)
Lemma pick_none (m e E k s' : Z) :
  1 <= m < 2 ^ 53 -> pick m e E k = None ->
  rounds_to (inject_Z s' * q10 (E + 1 - k)) m e = false.
Proof.
  intros Hm Hp. unfold pick in Hp. cbv zeta in Hp.
  set (T := q10 (E + 1 - k)) in *. set (slo := Qfloor (qval m e / T)) in *.
  pose proof (q10_pos (E + 1 - k)) as HT. fold T in HT.
  destruct (rounds_to (inject_Z slo * T) m e) eqn:H1; [repeat case_match; discriminate|].
  destruct (rounds_to (inject_Z (slo + 1) * T) m e) eqn:H2; [discriminate|].
  destruct (rounds_to (inject_Z s' * T) m e) eqn:H3; [exfalso|done].
  destruct (floor_bracket (qval m e) T HT) as [B1 B2]. fold slo in B1, B2.
  pose proof (rounds_to_self m e Hm) as Hx.
  destruct (Z.le_gt_cases s' slo).
  - erewrite (rounds_to_between (inject_Z s' * T) _ (qval m e)) in H1; [done| |done|done].
    split; [by apply inject_Z_mul_le|done].
  - erewrite (rounds_to_between (qval m e) _ (inject_Z s' * T)) in H2; [done| |done|done].
    split; [by apply Qlt_le_weak|apply inject_Z_mul_le; [lia|done]].
Qed.

(** What [pick] returns has [k] digits, or is [10^k]. *)
Lemma pick_range (m e k s : Z) :
  1 <= m < 2 ^ 53 -> 1 <= k -> pick m e (dec_exp (qval m e)) k = Some s ->
  10 ^ (k - 1) <= s <= 10 ^ k.
Proof.
  intros Hm Hk Hp. set (x := qval m e) in *. set (E := dec_exp x) in *.
  assert (Hx : (0 < x)%Q) by (apply qval_pos; lia).
  destruct (dec_exp_spec x Hx) as [HE1 HE2]. fold E in HE1, HE2.
  set (T := q10 (E + 1 - k)). pose proof (q10_pos (E + 1 - k)) as HT. fold T in HT.
  set (slo := Qfloor (x / T)).
  assert (Hs : s = slo \/ s = slo + 1).
  { unfold pick in Hp. cbv zeta in Hp. fold x T slo in Hp.
    repeat case_match; simplify_eq; auto. }
  assert (Hlo : 10 ^ (k - 1) <= slo).
  { rewrite <- (Qfloor_Z (10 ^ (k - 1))). apply Qfloor_resp_le, Qle_shift_div_l; [done|].
    rewrite q10_inject by lia. unfold T. rewrite <- q10_add.
    by replace (k - 1 + (E + 1 - k)) with E by lia. }
  assert (Hhi : slo < 10 ^ k).
  { rewrite Zlt_Qlt. eapply Qle_lt_trans; [apply Qfloor_le|].
    apply Qlt_shift_div_r; [done|]. rewrite q10_inject by lia. unfold T. rewrite <- q10_add.
    by replace (k + (E + 1 - k)) with (E + 1) by lia. }
  lia.
Qed.

(** [shortest] meets step 5 of Number::toString: for a double [m * 2^e]
    with a 53-bit significand it returns [k <= 17] digits [s] and an
    exponent [n] with [s * 10^(n-k)] reading back as the double, and no
    multiple of [10^(n-k')] for a shorter [k'] reads back. *)
Theorem shortest_spec (m e : Z) :
  1 <= m < 2 ^ 53 ->
  let '(s, k, n) := shortest m e in
  1 <= k <= 17 /\ 10 ^ (k - 1) <= s < 10 ^ k /\
  rounds_to (inject_Z s * q10 (n - k)) m e = true /\
  (forall k' s', 1 <= k' < k -> rounds_to (inject_Z s' * q10 (n - k')) m e = false).
Proof.
  intros Hm. unfold shortest. set (E := dec_exp (qval m e)).
  destruct (search 17 m e E 1) as [[s k]|] eqn:Hs.
  2: { destruct (search_complete 16 m e E 1) as [? Hs']; [apply pick_17, Hm|congruence]. }
  destruct (search_sound _ _ _ _ _ _ _ Hs) as (Hp & Hk & Hmin).
  pose proof (pick_sound _ _ _ _ _ Hp) as Hr. pose proof (pick_range m e k s Hm ltac:(lia) Hp).
  destruct (Z.eqb_spec s (10 ^ k)) as [->|Hne]; cbv beta iota.
  - split_and!; [lia|lia|done|done| |intros; lia].
    rewrite <- Hr, q10_inject by lia. rewrite <- q10_add.
    assert (inject_Z 1 == 1)%Q as -> by reflexivity. rewrite Qmult_1_l.
    by replace (E + 2 - 1) with (k + (E + 1 - k)) by lia.
  - split_and!; [lia|lia|lia|lia|done|].
    intros k' s' Hk'. apply pick_none; [done|]. apply Hmin. lia.
Qed.


(** ** The reader inverts the layout *)

Lemma str_app_assoc (a b c : string) : (a +:+ b) +:+ c = a +:+ (b +:+ c).
Proof. induction a as [|x a IH]; [done|]. change (String x ((a +:+ b) +:+ c) = String x (a +:+ (b +:+ c))). by rewrite IH. Qed.

Lemma str_cons_app (c : ascii) (s : string) : String c EmptyString +:+ s = String c s.
Proof. done. Qed.

Lemma str_length_app (a b : string) :
  String.length (a +:+ b) = (String.length a + String.length b)%nat.
Proof. induction a as [|x a IH]; [done|]. simpl. by rewrite IH. Qed.

Lemma str_drop_app (a b : string) : str_drop (String.length a) (a +:+ b) = b.
Proof. by induction a. Qed.

Lemma substring_all (b : string) : substring 0 (String.length b) b = b.
Proof. induction b as [|x b IH]; [done|]. simpl. by rewrite IH. Qed.

Lemma substring_app_l (a b : string) : substring 0 (String.length a) (a +:+ b) = a.
Proof. induction a as [|x a IH]; [by destruct b|]. simpl. by rewrite IH. Qed.

Lemma substring_app_r (a b : string) :
  substring (String.length a) (String.length b) (a +:+ b) = b.
Proof. induction a as [|x a IH]; [apply substring_all|]. simpl. done. Qed.

Local Open Scope N_scope.
Lemma digits_acc_shift (a : N) (l : list N) :
  digits_acc 10 a l = a * 10 ^ N.of_nat (length l) + digits_acc 10 0 l.
Proof.
  revert a. induction l as [|d l IH]; intros a; cbn [digits_acc length]; [lia|].
  rewrite (IH (a * 10 + d)), (IH (0 * 10 + d)), Nat2N.inj_succ, N.pow_succ_r'. lia.
Qed.
Local Close Scope N_scope.

Lemma dec_digits_length (t : string) :
  all_digits t = true -> length (dec_digits t) = String.length t.
Proof.
  induction t as [|c t IH]; [done|]. simpl. intros [-> H]%andb_prop. simpl. by rewrite IH.
Qed.

(** The value of a run of digits. *)
Definition dval (t : string) : Z := Z.of_N (digits_acc 10 0 (dec_digits t)).

Lemma dval_app (a b : string) :
  all_digits a = true -> all_digits b = true ->
  dval (a +:+ b) = dval a * 10 ^ Z.of_nat (String.length b) + dval b.
Proof.
  intros Ha Hb. unfold dval. rewrite dec_digits_app, digits_acc_app by done.
  rewrite (digits_acc_shift (digits_acc 10 0 (dec_digits a))), dec_digits_length by done.
  rewrite N2Z.inj_add, N2Z.inj_mul, N2Z.inj_pow, nat_N_Z. done.
Qed.

Lemma unit_no_digits (u : string) : unit_start u = true -> dec_digits u = [].
Proof. destruct u as [|c u]; [done|]. simpl. by destruct (is_digit c). Qed.

Lemma read_digits_app (a b : string) :
  all_digits a = true -> dec_digits b = [] ->
  read_digits (a +:+ b) = (dval a, String.length a, b).
Proof.
  intros Ha Hb. unfold read_digits, dval.
  rewrite dec_digits_app, Hb, app_nil_r, dec_digits_length, str_drop_app by done. done.
Qed.

Lemma fixed_digits_spec (k : nat) (s : Z) :
  0 <= s ->
  all_digits (fixed_digits k s) = true /\ String.length (fixed_digits k s) = k /\
  dval (fixed_digits k s) = s mod 10 ^ Z.of_nat k.
Proof.
  revert s. induction k as [|k IH]; intros s Hs; [split_and!; simpl; [done|done|by rewrite Z.mod_1_r]|].
  destruct (IH (s / 10)) as (H1 & H2 & H3); [apply Z.div_pos; lia|].
  assert (Hd : (Z.to_N (s mod 10) < 10)%N) by (pose proof (Z.mod_pos_bound s 10); lia).
  destruct (digit_char_spec _ Hd) as [D1 D2].
  assert (Hc : all_digits (String (digit_char (Z.to_N (s mod 10))) EmptyString) = true)
    by (simpl; by rewrite D1).
  cbn [fixed_digits]. split_and!.
  - by rewrite all_digits_app, H1, Hc.
  - rewrite str_length_app, H2. simpl. lia.
  - rewrite dval_app, H3 by done. unfold dval. simpl. rewrite D1. simpl. rewrite D2.
    change (10 ^ Z.of_nat 1) with 10. rewrite N.mul_0_l, N.add_0_l, Z2N.id by (apply Z.mod_pos_bound; lia).
    rewrite (Nat2Z.inj_succ k), Z.pow_succ_r, Z.rem_mul_r by lia. lia.
Qed.

Lemma zeros_spec (j : nat) :
  all_digits (zeros j) = true /\ String.length (zeros j) = j /\ dval (zeros j) = 0.
Proof.
  induction j as [|j (H1 & H2 & H3)]; [done|]. cbn [zeros].
  change (String "0" (zeros j)) with ("0" +:+ zeros j).
  split_and!; [by rewrite all_digits_app, H1|by rewrite str_length_app, H2|].
  rewrite dval_app, H3 by done. done.
Qed.

(** The digits of [s] split at position [b] from the right. *)
Lemma fixed_digits_split (a b : nat) (s : Z) :
  fixed_digits (a + b) s = fixed_digits a (s / 10 ^ Z.of_nat b) +:+ fixed_digits b s.
Proof.
  revert s. induction b as [|b IH]; intros s.
  - by rewrite Nat.add_0_r, Z.pow_0_r, Z.div_1_r, append_empty_r.
  - rewrite Nat.add_succ_r. cbn [fixed_digits]. rewrite IH, str_app_assoc.
    rewrite Z.div_div, Nat2Z.inj_succ, Z.pow_succ_r by lia. by rewrite (Z.mul_comm 10).
Qed.

Lemma read_fraction_unit (u : string) : unit_start u = true -> read_fraction u = (0, 0%nat, u).
Proof.
  destruct u as [|c u]; [done|]. simpl. intros [_ H]%andb_prop.
  destruct (decide (c = "."%char)) as [->|?]; [done|]. by destruct c as [[][][][][][][][]].
Qed.

Lemma read_exponent_unit (u : string) : unit_start u = true -> read_exponent u = (0, u).
Proof.
  destruct u as [|c u]; [done|]. simpl. intros [_ H]%andb_prop.
  destruct (decide (c = "e"%char)) as [->|?]; [done|].
  destruct (decide (c = "E"%char)) as [->|?]; [done|]. by destruct c as [[][][][][][][][]].
Qed.

Lemma read_exponent_text (e : Z) (u : string) :
  unit_start u = true -> read_exponent ("e" +:+ (exponent_text e +:+ u)) = (e, u).
Proof.
  intros Hu. unfold exponent_text. rewrite str_app_assoc.
  destruct (show_N_prints (Z.to_N (Z.abs e))) as (H1 & H2 & H3).
  assert (Hr := read_digits_app _ _ H1 (unit_no_digits u Hu)).
  assert (Hl : String.length (show_N (Z.to_N (Z.abs e))) <> 0%nat)
    by (by destruct (show_N (Z.to_N (Z.abs e)))).
  unfold dval in Hr. rewrite H3, Z2N.id in Hr by lia.
  destruct (0 <? e) eqn:He; rewrite !str_cons_app; cbn [read_exponent]; rewrite Hr;
    destruct (Nat.eqb_spec (String.length (show_N (Z.to_N (Z.abs e)))) 0); try done; f_equal; lia.
Qed.

Lemma read_unsigned_parts (a r : string) (fp ex : Z) (nf : nat) (t3 t4 : string) :
  all_digits a = true -> a <> EmptyString -> dec_digits r = [] ->
  read_fraction r = (fp, nf, t3) -> read_exponent t3 = (ex, t4) ->
  read_unsigned (a +:+ r) =
  Some ((inject_Z (dval a * 10 ^ Z.of_nat nf + fp) * q10 (ex - Z.of_nat nf))%Q, t4).
Proof.
  intros Ha Hne Hr Hf He. unfold read_unsigned. rewrite read_digits_app, Hf, He by done.
  by destruct a.
Qed.

(** A token without a sign is read by [read_unsigned]: one that starts
    with a minus sign has no digits for it. *)
Lemma read_number_unsigned (t : string) (p : Q * string) :
  read_unsigned t = Some p -> read_number t = Some p.
Proof.
  destruct t as [|c t]; [done|]. destruct (decide (c = "-"%char)) as [->|Hm]; [done|].
  destruct c as [[][][][][][][][]]; try done; congruence.
Qed.

Lemma inject_Z_shift (a j : Z) : 0 <= j -> (inject_Z (a * 10 ^ j) == inject_Z a * q10 j)%Q.
Proof. intros Hj. by rewrite inject_Z_mult, q10_inject. Qed.

Lemma digits_split_value (s i j : Z) :
  0 <= i -> 0 <= j -> 0 <= s < 10 ^ (i + j) ->
  (s / 10 ^ j) mod 10 ^ i * 10 ^ j + s mod 10 ^ j = s.
Proof.
  intros Hi Hj Hs. rewrite Z.mod_small.
  - pose proof (Z.div_mod s (10 ^ j)). lia.
  - split; [apply Z.div_pos; lia|]. apply Z.div_lt_upper_bound; [lia|].
    rewrite <- Z.pow_add_r by lia. rewrite Z.add_comm. lia.
Qed.

Lemma substring_app_l' (a b : string) (n : nat) :
  String.length a = n -> substring 0 n (a +:+ b) = a.
Proof. intros <-. apply substring_app_l. Qed.

Lemma substring_app_r' (a b : string) (n m : nat) :
  String.length a = n -> String.length b = m -> substring n m (a +:+ b) = b.
Proof. intros <- <-. apply substring_app_r. Qed.

Lemma str_zero_point (x : string) : "0." +:+ x = "0" +:+ String "." x.
Proof. done. Qed.

(** The digits of [s] as a high part of [i] digits and a low part. *)
Lemma fixed_digits_parts (s k i : Z) :
  0 <= i <= k ->
  fixed_digits (Z.to_nat k) s =
  fixed_digits (Z.to_nat i) (s / 10 ^ (k - i)) +:+ fixed_digits (Z.to_nat (k - i)) s.
Proof.
  intros Hi. replace (Z.to_nat k) with (Z.to_nat i + Z.to_nat (k - i))%nat by lia.
  by rewrite fixed_digits_split, Z2Nat.id by lia.
Qed.

(** The text [format_decimal] lays out, followed by a unit, reads back as
    the decimal [s * 10^(n-k)] and leaves the unit. *)
Theorem read_format_decimal (s k n : Z) (u : string) :
  1 <= k -> 10 ^ (k - 1) <= s < 10 ^ k -> unit_start u = true ->
  exists y, read_unsigned (format_decimal s k n +:+ u) = Some (y, u) /\
            (y == inject_Z s * q10 (n - k))%Q.
Proof.
  intros Hk Hs Hu. pose proof (unit_no_digits u Hu) as Hu0.
  assert (Hs0 : 0 <= s) by (pose proof (Z.pow_nonneg 10 (k - 1)); lia).
  unfold format_decimal.
  destruct (fixed_digits_spec (Z.to_nat k) s Hs0) as (D1 & D2 & D3).
  rewrite Z2Nat.id, Z.mod_small in D3 by lia.
  assert (Dne : fixed_digits (Z.to_nat k) s <> EmptyString)
    by (intros E; rewrite E in D2; simpl in D2; lia).
  destruct ((k <=? n) && (n <=? 21)) eqn:C1;
    [|destruct ((0 <? n) && (n <=? 21)) eqn:C2;
      [|destruct ((-6 <? n) && (n <=? 0)) eqn:C3; [|destruct (k =? 1) eqn:C4]]];
    rewrite ?andb_true_iff, ?andb_false_iff, ?Z.leb_le, ?Z.ltb_lt, ?Z.leb_gt, ?Z.ltb_ge,
      ?Z.eqb_eq, ?Z.eqb_neq in *.
  - (* digits then zeros *)
    destruct (zeros_spec (Z.to_nat (n - k))) as (Z1 & Z2 & Z3).
    eexists. rewrite (read_unsigned_parts _ u 0 0 0%nat u u);
      [|by rewrite all_digits_app, D1, Z1|by destruct (fixed_digits _ _)|done
       |by apply read_fraction_unit|by apply read_exponent_unit].
    split; [done|]. rewrite dval_app, D3, Z3, Z2, Z2Nat.id by (done || lia).
    rewrite Z.mul_1_r, !Z.add_0_r, inject_Z_shift by lia. rewrite Qmult_1_r. done.
  - (* a decimal point inside the digits *)
    rewrite (fixed_digits_parts s k n) by lia.
    set (A := fixed_digits (Z.to_nat n) (s / 10 ^ (k - n))).
    set (B := fixed_digits (Z.to_nat (k - n)) s).
    destruct (fixed_digits_spec (Z.to_nat n) (s / 10 ^ (k - n))) as (A1 & A2 & A3);
      [apply Z.div_pos; lia|].
    destruct (fixed_digits_spec (Z.to_nat (k - n)) s) as (B1 & B2 & B3); [lia|].
    fold A B in A1, A2, A3, B1, B2, B3.
    rewrite substring_app_l', substring_app_r' by done.
    rewrite !str_app_assoc, (str_cons_app "."%char).
    eexists. rewrite (read_unsigned_parts A _ (dval B) 0 (Z.to_nat (k - n)) u u);
      [|done|by destruct A as [|? ?]; simpl in A2; [lia|]|done
       |cbv beta iota delta [read_fraction]; rewrite read_digits_app, B2 by done; done
       |by apply read_exponent_unit].
    split; [done|]. rewrite A3, B3, !Z2Nat.id by lia.
    rewrite (digits_split_value s n (k - n)) by (try replace (n + (k - n)) with k by lia; lia).
    by replace (0 - (k - n)) with (n - k) by lia.
  - (* leading zeros after 0. *)
    destruct (zeros_spec (Z.to_nat (- n))) as (Z1 & Z2 & Z3).
    rewrite !str_app_assoc, <- (str_app_assoc (zeros _) _ u), str_zero_point.
    eexists. rewrite (read_unsigned_parts "0" _ s 0 (Z.to_nat (- n) + Z.to_nat k) u u);
      [|done|done|done| |by apply read_exponent_unit].
    + split; [done|]. change (dval "0") with 0. rewrite Z.mul_0_l, Z.add_0_l.
      by replace (0 - Z.of_nat (Z.to_nat (- n) + Z.to_nat k)) with (n - k) by lia.
    + cbv beta iota delta [read_fraction]. rewrite read_digits_app by (rewrite ?all_digits_app; by rewrite ?Z1, ?D1).
      rewrite dval_app, Z3, D3, str_length_app, Z2, D2 by done. done.
  - (* one digit and an exponent *)
    subst k. rewrite !str_app_assoc.
    set (r := "e" +:+ (exponent_text (n - 1) +:+ u)).
    eexists. rewrite (read_unsigned_parts _ r 0 (n - 1) 0%nat r u);
      [|done|done|done|done|by apply read_exponent_text].
    split; [done|]. rewrite D3. rewrite Z.mul_1_r, !Z.add_0_r, Z.sub_0_r. done.
  - (* a decimal point after the first digit and an exponent *)
    rewrite (fixed_digits_parts s k 1) by lia.
    set (A := fixed_digits (Z.to_nat 1) (s / 10 ^ (k - 1))).
    set (B := fixed_digits (Z.to_nat (k - 1)) s).
    destruct (fixed_digits_spec (Z.to_nat 1) (s / 10 ^ (k - 1))) as (A1 & A2 & A3);
      [apply Z.div_pos; lia|].
    destruct (fixed_digits_spec (Z.to_nat (k - 1)) s) as (B1 & B2 & B3); [lia|].
    fold A B in A1, A2, A3, B1, B2, B3.
    rewrite substring_app_l', substring_app_r' by done.
    rewrite !str_app_assoc, (str_cons_app "."%char).
    set (r := "e" +:+ (exponent_text (n - 1) +:+ u)).
    eexists. rewrite (read_unsigned_parts A (String "." (B +:+ r)) (dval B) (n - 1) (Z.to_nat (k - 1)) r u);
      [|done|by destruct A as [|? ?]; simpl in A2; [lia|]|done
       |cbv beta iota delta [read_fraction]; rewrite read_digits_app, B2 by done; done
       |by apply read_exponent_text].
    split; [done|]. rewrite A3, B3, !Z2Nat.id by lia.
    rewrite (digits_split_value s 1 (k - 1)) by (try replace (1 + (k - 1)) with k by lia; lia).
    by replace (n - 1 - (k - 1)) with (n - k) by lia.
Qed.


(** The decimal text of a finite double, followed by a unit, reads back
    as that double. *)
Theorem js_number_text_reads_back (x : spec_float) (u : string) :
  valid_binary prec emax x = true -> finite_double x = true -> unit_start u = true ->
  exists y, read_number (js_number_to_string x +:+ u) = Some (y, u) /\ denotes y x = true.
Proof.
  intros Hv Hf Hu. destruct x as [sg| |[]|sg m e]; try discriminate.
  - eexists. split; [apply read_number_unsigned|].
    + apply (read_unsigned_parts "0" u 0 0 0%nat u u);
        [done|done|by apply unit_no_digits|by apply read_fraction_unit|by apply read_exponent_unit].
    + reflexivity.
  - pose proof (bounded_mantissa m e Hv) as Hm. cbn [js_number_to_string].
    pose proof (shortest_spec (Zpos m) e ltac:(lia)) as Hs.
    destruct (shortest (Zpos m) e) as [[s k] n].
    destruct Hs as (Hk & Hd & Hr & _).
    destruct (read_format_decimal s k n u) as (y & Hy & Hq); [lia|lia|done|].
    rewrite <- Hq in Hr. destruct sg; cbn [denotes].
    + exists (- y)%Q. rewrite str_app_assoc, (str_cons_app "-"%char). cbn [read_number].
      rewrite Hy. split; [done|]. by rewrite Qopp_involutive.
    + exists y. split; [by apply read_number_unsigned|done].
Qed.
