(* ===== verification/Dom.v ===== *)
(** * Dom: the live document the script reads and writes

    The browser's DOM as a store: every node has an id ([N]), a record of
    what the script reads or writes (tag, [id] attribute, class list, own
    text, style declarations, attributes, parent), and the document keeps
    the nodes in document order.  [querySelector] and
    [querySelectorAll] filter that order with the selectors the script
    uses; [classList], [style], [textContent], [setAttribute],
    [createElement], [appendChild] and [removeChild] are the operations
    below.  Every handler of the script works on this one shared store, so
    two handlers holding the same node see each other's writes. *)

From Stdlib Require Import ZArith Lia Ascii.
From stdpp Require Import base list gmap strings.
From S2P Require Import Prelude JsString.

Definition node_id := N.

(** ** Elements *)

Record element := mkElement {
  el_tag : string;                  (** lower-case tag name *)
  el_id : string;                   (** the [id] attribute, [""] if none *)
  el_classes : list string;         (** [classList], in order, no duplicates *)
  el_text : string;                 (** [textContent] of a leaf node *)
  el_style : gmap string string;    (** inline style, by CSS property name *)
  el_attrs : gmap string string;    (** attributes and reflected properties *)
  el_parent : option node_id;      (** [parentNode], [None] if detached *)
  el_offset_top : Z                 (** [offsetTop], from the page layout *)
}.

Definition new_element (tag : string) : element :=
  mkElement tag "" [] "" ∅ ∅ None 0%Z.

(** ** [classList] *)

Definition has_class (c : string) (e : element) : bool :=
  bool_decide (c ∈ el_classes e).

(** [classList.add(c)]: appended when absent. *)
Definition class_add (c : string) (cs : list string) : list string :=
  if bool_decide (c ∈ cs) then cs else cs ++ [c].

(** [classList.remove(c)]. *)
Definition class_remove (c : string) (cs : list string) : list string :=
  filter (fun x => x <> c) cs.

(** [classList.toggle(c)]: removes when present, adds otherwise. *)
Definition class_toggle (c : string) (cs : list string) : list string :=
  if bool_decide (c ∈ cs) then class_remove c cs else class_add c cs.

(** [el.style.p = v]; assigning [''] removes the declaration. *)
Definition style_set (p v : string) (st : gmap string string) : gmap string string :=
  if bool_decide (v = "") then delete p st else <[p := v]> st.

(** ** Selectors *)

(** The simple selectors that occur in the script: [.c], [#i], [tag],
    [tag[attr^="p"]] and [tag[attr]]. *)
Inductive simple_selector :=
  | SelClass (c : string)
  | SelId (i : string)
  | SelTag (t : string)
  | SelAttrPrefix (t a p : string)
  | SelTagAttr (t a : string).

(** A selector list [A, B, ...]. *)
Definition selector := list simple_selector.

Definition matches_simple (s : simple_selector) (e : element) : bool :=
  match s with
  | SelClass c => has_class c e
  | SelId i => bool_decide (el_id e = i /\ i <> "")
  | SelTag t => bool_decide (el_tag e = t)
  | SelAttrPrefix t a p =>
      bool_decide (el_tag e = t) &&
      match el_attrs e !! a with Some v => str_prefix p v | None => false end
  | SelTagAttr t a => bool_decide (el_tag e = t) && bool_decide (is_Some (el_attrs e !! a))
  end.

Definition matches (sel : selector) (e : element) : bool :=
  existsb (fun s => matches_simple s e) sel.

(** [document.querySelector(href)] for a string taken from the page: a
    fragment [#ident] is an id selector; the script only passes hrefs
    that start with [#], and any other form is reported as a
    [SyntaxError] (None). *)
Definition is_ident_char (c : Ascii.ascii) : bool :=
  let n := Ascii.N_of_ascii c in
  bool_decide ((65 <= n <= 90)%N \/ (97 <= n <= 122)%N \/ (48 <= n <= 57)%N \/ n = 45%N \/ n = 95%N).

Definition is_ident_start (c : Ascii.ascii) : bool :=
  is_ident_char c && negb (is_digit c).

Fixpoint all_chars (p : Ascii.ascii -> bool) (s : string) : bool :=
  match s with EmptyString => true | String c s' => p c && all_chars p s' end.

Definition parse_id_selector (s : string) : option selector :=
  match s with
  | String h (String c r) =>
      if bool_decide (h = "#"%char) && is_ident_start c && all_chars is_ident_char r
      then Some [SelId (String c r)] else None
  | _ => None
  end.

(** ** The document *)

(** [d_order] lists every node ever created, the markup's nodes first in
    document order and the script's [createElement] nodes after them in
    creation order; a node is in the document when its parent chain
    reaches [d_root] ([<html>]). *)
Record document := mkDocument {
  d_nodes : gmap node_id element;
  d_order : list node_id;
  d_next : node_id;
  d_root : node_id;
  d_head : node_id;
  d_body : node_id
}.

Definition get_el (d : document) (n : node_id) : option element := d_nodes d !! n.

Definition upd_el (n : node_id) (f : element -> element) (d : document) : document :=
  {| d with d_nodes := alter f n (d_nodes d) |}.

(** The parent chain of [n], nearest first; the fuel (one step per node
    of the store) bounds a chain that could otherwise be cyclic. *)
Fixpoint ancestors_fuel (fuel : nat) (d : document) (n : node_id) : list node_id :=
  match fuel with
  | O => []
  | S f =>
      match get_el d n with
      | Some e => match el_parent e with
                  | Some p => p :: ancestors_fuel f d p
                  | None => [] end
      | None => []
      end
  end.

Definition ancestors (d : document) (n : node_id) : list node_id :=
  ancestors_fuel (size (d_nodes d)) d n.

(** [a.contains(n)]: [n] is [a] or a descendant of [a]. *)
Definition contains (d : document) (a n : node_id) : bool :=
  bool_decide (a = n) || bool_decide (a ∈ ancestors d n).

Definition connected (d : document) (n : node_id) : bool := contains d (d_root d) n.

Definition node_matches (sel : selector) (d : document) (n : node_id) : bool :=
  match get_el d n with Some e => matches sel e | None => false end.

(** [document.querySelectorAll(sel)], in document order. *)
Definition query_all (sel : selector) (d : document) : list node_id :=
  List.filter (fun n => connected d n && node_matches sel d n) (d_order d).

(** [document.querySelector(sel)]: the first match, [null] as None. *)
Definition query (sel : selector) (d : document) : option node_id :=
  head (query_all sel d).

(** [el.querySelector(sel)]: the first matching descendant of [el]. *)
Definition query_in (root : node_id) (sel : selector) (d : document) : option node_id :=
  head (List.filter (fun n => bool_decide (root ∈ ancestors d n) && node_matches sel d n)
                    (d_order d)).

(** [document.createElement(tag)]: a fresh detached node. *)
Definition doc_add_node (tag : string) (d : document) : document :=
  {| d with d_nodes := <[d_next d := new_element tag]> (d_nodes d);
            d_order := d_order d ++ [d_next d];
            d_next := (d_next d + 1)%N |}.

Definition create_element (tag : string) (d : document) : node_id * document :=
  (d_next d, doc_add_node tag d).

(** [parent.appendChild(child)] and [parent.insertBefore(child, _)]. *)
Definition append_child (parent child : node_id) (d : document) : document :=
  upd_el child (fun e => {| e with el_parent := Some parent |}) d.

(** [parent.removeChild(child)]: a [NotFoundError] (None) when [child] is
    not a child of [parent]. *)
Definition remove_child (parent child : node_id) (d : document) : option document :=
  match get_el d child with
  | Some e => if bool_decide (el_parent e = Some parent)
              then Some (upd_el child (fun e => {| e with el_parent := None |}) d)
              else None
  | None => None
  end.

(** [el.remove()]: detaches the node, a no-op when it is detached. *)
Definition remove_node (n : node_id) (d : document) : document :=
  upd_el n (fun e => {| e with el_parent := None |}) d.

(** ** Lemmas on class lists *)

Lemma class_toggle_elem (c : string) (cs : list string) :
  c ∈ class_toggle c cs <-> c ∉ cs.
Proof.
  unfold class_toggle, class_remove, class_add. case_bool_decide as H.
  - rewrite list_elem_of_filter. naive_solver.
  - rewrite elem_of_app, list_elem_of_singleton. naive_solver.
Qed.

Lemma class_remove_not_elem (c : string) (cs : list string) : c ∉ class_remove c cs.
Proof. unfold class_remove. rewrite list_elem_of_filter. naive_solver. Qed.

Lemma class_add_elem (c : string) (cs : list string) : c ∈ class_add c cs.
Proof.
  unfold class_add. case_bool_decide; [done|].
  rewrite elem_of_app, list_elem_of_singleton. by right.
Qed.

#[export] Hint Resolve class_remove_not_elem class_add_elem : bn.

(** ** The tree shape: what event propagation depends on *)

(** The parent of every node of the store. *)
Definition skeleton (d : document) : gmap node_id (option node_id) := el_parent <$> d_nodes d.

(** Two documents with the same tree: same parents, root and order. *)
Definition same_tree (d1 d2 : document) : Prop :=
  skeleton d1 = skeleton d2 /\ d_root d1 = d_root d2 /\ d_order d1 = d_order d2 /\
  d_body d1 = d_body d2 /\ d_head d1 = d_head d2.

Lemma same_tree_refl (d : document) : same_tree d d.
Proof. repeat split. Qed.

Lemma same_tree_trans (d1 d2 d3 : document) :
  same_tree d1 d2 -> same_tree d2 d3 -> same_tree d1 d3.
Proof. unfold same_tree. intuition congruence. Qed.

Lemma same_tree_sym (d1 d2 : document) : same_tree d1 d2 -> same_tree d2 d1.
Proof. unfold same_tree. intuition congruence. Qed.

Lemma ancestors_fuel_skeleton (f : nat) (d1 d2 : document) (n : node_id) :
  skeleton d1 = skeleton d2 -> ancestors_fuel f d1 n = ancestors_fuel f d2 n.
Proof.
  intros Hs. revert n. induction f as [|f IH]; intros n; [done|]. simpl.
  assert (Hn : el_parent <$> get_el d1 n = el_parent <$> get_el d2 n).
  { unfold get_el. rewrite <- !lookup_fmap. unfold skeleton in Hs. by rewrite Hs. }
  destruct (get_el d1 n) as [e1|], (get_el d2 n) as [e2|]; simplify_eq/=; [|done].
  rewrite Hn. destruct (el_parent e2); [by rewrite IH | done].
Qed.

Lemma ancestors_same_tree (d1 d2 : document) (n : node_id) :
  same_tree d1 d2 -> ancestors d1 n = ancestors d2 n.
Proof.
  intros [Hs _]. unfold ancestors.
  assert (size (d_nodes d1) = size (d_nodes d2)) as ->.
  { rewrite <- (map_size_fmap el_parent (d_nodes d1)), <- (map_size_fmap el_parent (d_nodes d2)).
    unfold skeleton in Hs. by rewrite Hs. }
  by apply ancestors_fuel_skeleton.
Qed.

Lemma contains_same_tree (d1 d2 : document) (a n : node_id) :
  same_tree d1 d2 -> contains d1 a n = contains d2 a n.
Proof. intros H. unfold contains. by rewrite (ancestors_same_tree d1 d2 n H). Qed.

Lemma connected_same_tree (d1 d2 : document) (n : node_id) :
  same_tree d1 d2 -> connected d1 n = connected d2 n.
Proof.
  intros H. unfold connected. pose proof H as (_ & Hr & _).
  rewrite Hr. by apply contains_same_tree.
Qed.

(** An update that keeps the parent of the node keeps the tree. *)
Lemma upd_el_same_tree (n : node_id) (f : element -> element) (d : document) :
  (forall e, el_parent (f e) = el_parent e) -> same_tree d (upd_el n f d).
Proof.
  intros Hf. repeat split. unfold skeleton, upd_el. simpl.
  apply map_eq. intros i. rewrite !lookup_fmap, lookup_alter.
  case_decide; subst; [|done]. destruct (d_nodes d !! i); simpl; [by rewrite Hf|done].
Qed.

(** [a.contains(a)]. *)
Lemma contains_refl (d : document) (a : node_id) : contains d a a = true.
Proof. unfold contains. by rewrite bool_decide_eq_true_2. Qed.

(** ** Reading classes back *)

Definition has_cls (d : document) (n : node_id) (c : string) : bool :=
  match get_el d n with Some e => has_class c e | None => false end.

Lemma get_el_upd_same (n : node_id) (f : element -> element) (d : document) :
  get_el (upd_el n f d) n = f <$> get_el d n.
Proof. unfold get_el, upd_el. simpl. by rewrite lookup_alter_eq. Qed.

Lemma get_el_upd_other (n n' : node_id) (f : element -> element) (d : document) :
  n <> n' -> get_el (upd_el n f d) n' = get_el d n'.
Proof. intros H. unfold get_el, upd_el. simpl. by rewrite lookup_alter_ne. Qed.

#[export] Hint Resolve same_tree_refl contains_refl : bn.

Definition style_of (d : document) (n : node_id) (p : string) : option string :=
  match get_el d n with Some e => el_style e !! p | None => None end.

Lemma has_cls_upd_keep (n x : node_id) (f : element -> element) (d : document) (c : string) :
  (forall e, el_classes (f e) = el_classes e) -> has_cls (upd_el n f d) x c = has_cls d x c.
Proof.
  intros Hf. unfold has_cls, has_class. destruct (decide (n = x)) as [<-|Hne].
  - rewrite get_el_upd_same. destruct (get_el d n); simpl; [by rewrite Hf|done].
  - by rewrite get_el_upd_other.
Qed.

Lemma style_of_upd_keep (n x : node_id) (f : element -> element) (d : document) (p : string) :
  (forall e, el_style (f e) = el_style e) -> style_of (upd_el n f d) x p = style_of d x p.
Proof.
  intros Hf. unfold style_of. destruct (decide (n = x)) as [<-|Hne].
  - rewrite get_el_upd_same. destruct (get_el d n); simpl; [by rewrite Hf|done].
  - by rewrite get_el_upd_other.
Qed.

Lemma has_cls_upd_other (n x : node_id) (f : element -> element) (d : document) (c : string) :
  n <> x -> has_cls (upd_el n f d) x c = has_cls d x c.
Proof. intros Hne. unfold has_cls. by rewrite get_el_upd_other. Qed.

Lemma has_cls_upd_classes (n : node_id) (g : list string -> list string) (d : document)
    (c : string) (e : element) :
  get_el d n = Some e ->
  has_cls (upd_el n (fun e => {| e with el_classes := g (el_classes e) |}) d) n c =
  bool_decide (c ∈ g (el_classes e)).
Proof. intros He. unfold has_cls. by rewrite get_el_upd_same, He. Qed.

Lemma style_of_upd_style (n : node_id) (d : document) (p v : string) (e : element) :
  get_el d n = Some e ->
  style_of (upd_el n (fun e => {| e with el_style := style_set p v (el_style e) |}) d) n p =
  if bool_decide (v = "") then None else Some v.
Proof.
  intros He. unfold style_of. rewrite get_el_upd_same, He. simpl. unfold style_set.
  case_bool_decide; [apply lookup_delete_eq | apply lookup_insert_eq].
Qed.

Lemma has_cls_toggle (n : node_id) (d : document) (c : string) :
  is_Some (get_el d n) ->
  has_cls (upd_el n (fun e => {| e with el_classes := class_toggle c (el_classes e) |}) d) n c =
  negb (has_cls d n c).
Proof.
  intros [e He]. rewrite has_cls_upd_classes with (e := e) by done.
  unfold has_cls, has_class. rewrite He. simpl.
  pose proof (class_toggle_elem c (el_classes e)) as Ht.
  destruct (decide (c ∈ el_classes e)) as [H|H].
  - rewrite (bool_decide_eq_true_2 (c ∈ el_classes e)) by done.
    apply bool_decide_eq_false_2. rewrite Ht. tauto.
  - rewrite (bool_decide_eq_false_2 (c ∈ el_classes e)) by done.
    apply bool_decide_eq_true_2. by apply Ht.
Qed.

Lemma has_cls_remove (n : node_id) (d : document) (c : string) :
  is_Some (get_el d n) ->
  has_cls (upd_el n (fun e => {| e with el_classes := class_remove c (el_classes e) |}) d) n c = false.
Proof.
  intros [e He]. rewrite has_cls_upd_classes with (e := e) by done.
  apply bool_decide_eq_false_2, class_remove_not_elem.
Qed.

Lemma has_cls_add (n : node_id) (d : document) (c : string) :
  is_Some (get_el d n) ->
  has_cls (upd_el n (fun e => {| e with el_classes := class_add c (el_classes e) |}) d) n c = true.
Proof.
  intros [e He]. rewrite has_cls_upd_classes with (e := e) by done.
  apply bool_decide_eq_true_2, class_add_elem.
Qed.

Lemma get_el_upd_is_Some (n x : node_id) (f : element -> element) (d : document) :
  is_Some (get_el (upd_el n f d) x) <-> is_Some (get_el d x).
Proof.
  destruct (decide (n = x)) as [<-|]; [|by rewrite get_el_upd_other].
  rewrite get_el_upd_same. apply fmap_is_Some.
Qed.

#[export] Hint Rewrite has_cls_toggle has_cls_remove has_cls_add using done : bn_rw.

(** Chains of attribute, class and style updates keep the tree. *)
Ltac solve_same_tree :=
  repeat match goal with
  | |- same_tree ?d ?d => apply same_tree_refl
  | |- same_tree ?d (upd_el _ _ ?d') =>
      eapply same_tree_trans; [|apply upd_el_same_tree; reflexivity]
  end.

Lemma same_tree_is_Some (d1 d2 : document) (x : node_id) :
  same_tree d1 d2 -> is_Some (get_el d1 x) <-> is_Some (get_el d2 x).
Proof.
  intros [Hs _]. unfold get_el.
  rewrite <- (fmap_is_Some el_parent (d_nodes d1 !! x)), <- (fmap_is_Some el_parent (d_nodes d2 !! x)).
  rewrite <- !lookup_fmap. unfold skeleton in Hs. by rewrite Hs.
Qed.

(** A node [querySelector] returns is in the document and in the store. *)
Lemma query_found (sel : selector) (d : document) (n : node_id) :
  query sel d = Some n -> connected d n = true /\ is_Some (get_el d n).
Proof.
  unfold query, query_all. induction (d_order d) as [|x xs IH]; simpl; [done|].
  destruct (connected d x && node_matches sel d x) eqn:Hx; simpl.
  - intros [= <-]. apply andb_prop in Hx as [Hc Hm]. split; [done|].
    unfold node_matches in Hm. by destruct (get_el d x).
  - exact IH.
Qed.

Lemma style_of_set (d : document) (n : node_id) (p v : string) :
  is_Some (get_el d n) ->
  style_of (upd_el n (fun e => {| e with el_style := style_set p v (el_style e) |}) d) n p =
  if bool_decide (v = "") then None else Some v.
Proof. intros [e He]. by apply (style_of_upd_style _ _ _ _ e). Qed.

(** Setting one style property leaves the others alone. *)
Lemma style_of_set_other (d : document) (n x : node_id) (p q v : string) :
  p <> q ->
  style_of (upd_el n (fun e => {| e with el_style := style_set q v (el_style e) |}) d) x p =
  style_of d x p.
Proof.
  intros Hpq. unfold style_of. destruct (decide (n = x)) as [<-|Hne].
  - rewrite get_el_upd_same. destruct (get_el d n); simpl; [|done]. unfold style_set.
    case_bool_decide; [by rewrite lookup_delete_ne|by rewrite lookup_insert_ne].
  - by rewrite get_el_upd_other.
Qed.

(** Every node of the store has an id below the next fresh one. *)
Definition ids_below_next (d : document) : Prop :=
  forall n, is_Some (get_el d n) -> (n < d_next d)%N.

Lemma get_el_add_node_other (tag : string) (d : document) (n : node_id) :
  n <> d_next d -> get_el (doc_add_node tag d) n = get_el d n.
Proof. intros H. unfold get_el, doc_add_node. simpl. by rewrite lookup_insert_ne. Qed.

Lemma style_of_upd_other (n x : node_id) (f : element -> element) (d : document) (p : string) :
  n <> x -> style_of (upd_el n f d) x p = style_of d x p.
Proof. intros H. unfold style_of. by rewrite get_el_upd_other. Qed.

Lemma style_of_add_node_other (tag : string) (d : document) (x : node_id) (p : string) :
  x <> d_next d -> style_of (doc_add_node tag d) x p = style_of d x p.
Proof. intros H. unfold style_of. by rewrite get_el_add_node_other. Qed.

Lemma d_body_upd_el (n : node_id) (f : element -> element) (d : document) :
  d_body (upd_el n f d) = d_body d.
Proof. reflexivity. Qed.

Lemma d_body_add_node (tag : string) (d : document) : d_body (doc_add_node tag d) = d_body d.
Proof. reflexivity. Qed.

Lemma d_next_upd_el (n : node_id) (f : element -> element) (d : document) :
  d_next (upd_el n f d) = d_next d.
Proof. reflexivity. Qed.

Lemma d_head_upd_el (n : node_id) (f : element -> element) (d : document) :
  d_head (upd_el n f d) = d_head d.
Proof. reflexivity. Qed.

Lemma d_head_add_node (tag : string) (d : document) : d_head (doc_add_node tag d) = d_head d.
Proof. reflexivity. Qed.

#[export] Hint Rewrite d_body_upd_el d_body_add_node d_next_upd_el d_head_upd_el
  d_head_add_node : bn_rw.

Lemma below_next_neq (d : document) (n : node_id) :
  ids_below_next d -> is_Some (get_el d n) -> n <> d_next d.
Proof. intros Hd Hn ->. apply Hd in Hn. lia. Qed.

Lemma get_el_add_node_same (tag : string) (d : document) :
  get_el (doc_add_node tag d) (d_next d) = Some (new_element tag).
Proof. unfold get_el, doc_add_node. simpl. by rewrite lookup_insert_eq. Qed.

Lemma d_next_add_node (tag : string) (d : document) :
  d_next (doc_add_node tag d) = (d_next d + 1)%N.
Proof. reflexivity. Qed.
#[export] Hint Rewrite d_next_add_node : bn_rw.

(** Reading a node back through a chain of updates and creations. *)
Lemma get_el_add_node_fresh (tag : string) (d : document) (n : node_id) :
  n = d_next d -> get_el (doc_add_node tag d) n = Some (new_element tag).
Proof. intros ->. apply get_el_add_node_same. Qed.

Ltac get_el_simpl :=
  repeat first
    [ rewrite get_el_upd_same
    | rewrite get_el_upd_other by (repeat (rewrite d_next_add_node || rewrite d_next_upd_el); lia || congruence)
    | rewrite get_el_add_node_same
    | rewrite get_el_add_node_fresh by (repeat (rewrite d_next_add_node || rewrite d_next_upd_el); lia)
    | rewrite get_el_add_node_other by (repeat (rewrite d_next_add_node || rewrite d_next_upd_el); lia || congruence)
    | rewrite d_next_add_node
    | rewrite d_next_upd_el ].

Definition text_of (d : document) (n : node_id) : option string := el_text <$> get_el d n.

(** [parent.removeChild(child)] of an attached child detaches it. *)
Lemma remove_child_parent (p x : node_id) (e : element) (d : document) :
  get_el d x = Some e -> el_parent e = Some p -> remove_child p x d = Some (remove_node x d).
Proof. intros He Hp. unfold remove_child. rewrite He, Hp. by rewrite bool_decide_eq_true_2. Qed.


(** The body was created before any node the script creates. *)
Lemma body_below_next (d : document) :
  ids_below_next d -> is_Some (get_el d (d_body d)) -> (d_body d < d_next d)%N.
Proof. intros Hids Hb. by apply Hids. Qed.

(** ** Well-formed documents *)

(** Every node in document order has an id below [d_next]. *)
Definition order_below_next (d : document) : Prop := Forall (fun n => (n < d_next d)%N) (d_order d).

(** Node ids, in the store and in document order, are below [d_next]:
    a created node is new. *)
Definition doc_wf (d : document) : Prop := ids_below_next d /\ order_below_next d.

Lemma doc_wf_upd_el (n : node_id) (g : element -> element) (d : document) :
  doc_wf d -> doc_wf (upd_el n g d).
Proof.
  intros [Hi Ho]. split; [|exact Ho].
  intros x Hx. rewrite d_next_upd_el. apply Hi. by apply get_el_upd_is_Some in Hx.
Qed.

Lemma doc_wf_add_node (tag : string) (d : document) : doc_wf d -> doc_wf (doc_add_node tag d).
Proof.
  intros [Hi Ho]. split.
  - intros x Hx. rewrite d_next_add_node. destruct (decide (x = d_next d)) as [->|Hne]; [lia|].
    rewrite get_el_add_node_other in Hx by done. specialize (Hi x Hx). lia.
  - unfold order_below_next in *. simpl. apply Forall_app. split; [|constructor; [lia|constructor]].
    eapply Forall_impl; [exact Ho|]. simpl. lia.
Qed.

(** ** [classList] is a set *)

(** Every class list of the store is duplicate-free, as a [DOMTokenList]
    is. *)
Definition classes_nodup (d : document) : Prop :=
  map_Forall (fun _ e => NoDup (el_classes e)) (d_nodes d).

Lemma class_add_nodup (c : string) (cs : list string) : NoDup cs -> NoDup (class_add c cs).
Proof.
  unfold class_add. case_bool_decide as Hc; [done|]. intros Hcs.
  apply NoDup_app. split; [done|]. split; [|apply NoDup_singleton].
  intros x Hx ->%list_elem_of_singleton. done.
Qed.

Lemma class_remove_nodup (c : string) (cs : list string) : NoDup cs -> NoDup (class_remove c cs).
Proof. apply NoDup_filter. Qed.

Lemma class_toggle_nodup (c : string) (cs : list string) : NoDup cs -> NoDup (class_toggle c cs).
Proof.
  unfold class_toggle. case_bool_decide; [apply class_remove_nodup|apply class_add_nodup].
Qed.

Lemma classes_nodup_upd_el (n : node_id) (g : element -> element) (d : document) :
  (forall e, NoDup (el_classes e) -> NoDup (el_classes (g e))) ->
  classes_nodup d -> classes_nodup (upd_el n g d).
Proof.
  intros Hg Hd m e. cbn [upd_el d_nodes]. rewrite lookup_alter_Some.
  intros [(-> & e0 & He0 & ->)|(_ & He)]; [apply Hg|]; by eapply Hd.
Qed.

Lemma classes_nodup_add_node (tag : string) (d : document) :
  classes_nodup d -> classes_nodup (doc_add_node tag d).
Proof. intros Hd. apply map_Forall_insert_2; [constructor|done]. Qed.

(** ** Attributes *)

(** The attribute [a] of node [n]; [None] when it is absent or the node
    is missing. *)
Definition attr_of (d : document) (n : node_id) (a : string) : option string :=
  get_el d n ≫= fun e => el_attrs e !! a.

(** Every node [querySelectorAll] returns is in the store. *)
Lemma query_all_is_Some (sel : selector) (d : document) (n : node_id) :
  n ∈ query_all sel d -> is_Some (get_el d n).
Proof.
  unfold query_all. rewrite list_elem_of_In, filter_In. intros [_ [_ Hm]%andb_prop].
  unfold node_matches in Hm. destruct (get_el d n); [by eexists|done].
Qed.
