(* ===== verification/Config.v ===== *)
(** * Config: the script's configuration constants and [getServerInfo]

    [CONFIG] (lines 4-11 of [src/Script.js]) and the record
    [window.getServerInfo] returns (lines 806-821). *)

From Stdlib Require Import ZArith.
From stdpp Require Import base strings.
From S2P Require Import Prelude.

Record config := mkConfig {
  ANIMATION_DURATION : Z;
  SCROLL_OFFSET : Z;
  DISCORD_INVITE : string;
  MINECRAFT_IP : string;
  BEDROCK_IP : string;
  BEDROCK_PORT : string
}.

Definition CONFIG : config := {|
  ANIMATION_DURATION := 300;
  SCROLL_OFFSET := 80;
  DISCORD_INVITE := "https://discord.gg/your-invite-code";
  MINECRAFT_IP := "cat.fi.freemcserver.net:41600";
  BEDROCK_IP := "cat.fi.freemcserver.net";
  BEDROCK_PORT := "41600"
|}.

Record server_info := mkServerInfo {
  si_java : string;
  si_bedrock_ip : string;
  si_bedrock_port : string;
  si_discord : string;
  si_creator : string;
  si_owner : string
}.

(** [window.getServerInfo()]. *)
Definition getServerInfo : server_info := {|
  si_java := MINECRAFT_IP CONFIG;
  si_bedrock_ip := BEDROCK_IP CONFIG;
  si_bedrock_port := BEDROCK_PORT CONFIG;
  si_discord := DISCORD_INVITE CONFIG;
  si_creator := "Ahsan (purple.prime)";
  si_owner := "Tannej (unknown001010)"
|}.
