(* ===== verification/World.v ===== *)
(** * World: the browser state and the script's effects

    The state every handler of [src/Script.js] reads and writes: the
    document ([Dom]), the registered event listeners, the pending timers
    of [setTimeout]/[setInterval], the intersection observers, the
    variables captured by closures ("cells": the [timeout] of [debounce],
    the [current] of a counter animation), the console, the clipboard, the
    [window] globals the script installs, and the window's location,
    scroll position and title.  The script's closures are data ([task]):
    each constructor names one arrow function of the source with the
    variables it captures.  Computations are state passing with
    exceptions ([M]): a thrown error carries the state reached when it
    was thrown, since JavaScript does not roll effects back. *)

From Stdlib Require Import ZArith Lia Ascii SpecFloat.
From stdpp Require Import base list gmap strings.
From S2P Require Import Prelude JsString Dom.

(** ** Errors, targets, closures *)

Inductive js_error :=
  | TypeError (what : string)
  | SyntaxError (what : string)
  | NotFoundError (what : string)
  | ReferenceError (what : string)
  | ClipboardRejected
  | ShareAborted.

(** Where a listener is registered. *)
Inductive target := TgNode (n : node_id) | TgDocument | TgWindow.

(** The script's arrow functions, with the variables they capture. *)
Inductive task :=
  (* Navigation *)
  | KMenuToggle (toggle menu : node_id)
  | KNavLinkClose (toggle menu : node_id)
  | KOutsideClose (toggle menu : node_id)
  | KSmoothScroll (link : node_id)
  | KDebounced (cell : N) (wait : Z) (inner : task)
  | KHeaderScroll (header : node_id)
  (* Animations *)
  | KCardEnter (card : node_id) | KCardLeave (card : node_id)
  | KBtnEnter (btn : node_id) | KBtnLeave (btn : node_id)
  | KLogoPulse (logo : node_id) | KLogoReset (logo : node_id)
  | KCounterTick (el : node_id) (cell : N)
  (* Social *)
  | KSocialClick (btn : node_id) | KSocialRestore (btn : node_id)
  (* Minecraft *)
  | KStatusCheck | KPingUpdate
  | KCopyRestore (btn : node_id) (original : string)
  | KToastSlideOut (toast : node_id) | KToastRemove (toast : node_id)
  (* Accessibility *)
  | KCardKeydown (el : node_id) | KShortcuts
  | KSkipFocus (a : node_id) | KSkipBlur (a : node_id)
  (* Performance *)
  | KSwLoad
  (* top level *)
  | KKonami | KKonamiRestore (style : node_id) | KDomReady | KVisibility.

Record listener := mkListener { l_target : target; l_type : string; l_task : task }.

(** A pending timer: [t_period] is [Some p] for [setInterval(_, p)]. *)
Record timer := mkTimer { t_id : N; t_due : Z; t_period : option Z; t_task : task }.

(** The three [IntersectionObserver] callbacks of the script. *)
Inductive observer_kind := ObsReveal | ObsCounter | ObsImage.

Record observer := mkObserver { ob_kind : observer_kind; ob_targets : list node_id }.

(** Variables captured by closures. *)
Inductive cell :=
  | CellTimeout (pending : option N)
      (** the [timeout] of [debounce] *)
  | CellCounter (current : spec_float) (goal : Z) (step : spec_float) (timer : N).
      (** [current], [target], [step] and [timer] of [animateCounter] *)

(** The functions the script stores on [window]. *)
Inductive global_fn :=
  | GRedirectToDiscordUser | GRedirectToDiscord | GCopyToClipboard
  | GScrollToTop | GPrintPage | GSharePage | GGetServerInfo | GBlackflameNova.

Inductive log_entry := LogInfo (msg : string) | LogError (msg : string).

(** What the page's environment offers. *)
Record environment := mkEnv {
  env_reduced_motion : bool;    (** [(prefers-reduced-motion: reduce)] *)
  env_has_io : bool;            (** ['IntersectionObserver' in window] *)
  env_has_sw : bool;            (** ['serviceWorker' in navigator] *)
  env_has_share : bool;         (** [navigator.share] *)
  env_clipboard_ok : bool;      (** [clipboard.writeText] resolves *)
  env_sw_ok : bool;             (** [serviceWorker.register] resolves *)
  env_share_ok : bool;          (** [navigator.share] resolves (not dismissed) *)
  env_exec_copy_ok : bool       (** [document.execCommand('copy')] copies the selection *)
}.

Record world := mkWorld {
  w_doc : document;
  w_listeners : list listener;
  w_timers : list timer;
  w_next_timer : N;
  w_observers : gmap N observer;
  w_next_obs : N;
  w_cells : gmap N cell;
  w_next_cell : N;
  w_now : Z;                       (** milliseconds *)
  w_rand : list Z;                 (** [Math.random()] draws [k], read as [k / 2^53] *)
  w_answers : list bool;           (** the user's answers to [confirm] *)
  w_console : list log_entry;
  w_globals : gmap string global_fn;
  w_clipboard : string;
  w_env : environment;
  w_path : string;                 (** [location.pathname] *)
  w_href : string;                 (** [location.href] *)
  w_navigations : list string;     (** assignments to [location.href] *)
  w_opened : list (string * string); (** [window.open(url, target)] calls *)
  w_scroll_y : Z;
  w_scroll_requests : list Z;      (** [window.scrollTo({top})] calls *)
  w_title : string;
  w_hidden : bool;                 (** [document.hidden] *)
  w_weekday : nat;                 (** [new Date().getDay()] *)
  w_prevented : bool;              (** [defaultPrevented] of the current event *)
  w_konami : list N;               (** the script's [konamiCode] array *)
  w_prints : nat;                  (** [window.print()] calls *)
  w_shares : list (string * string * string);  (** [navigator.share] sheets: title, text, url *)
  w_selection : option node_id     (** the element whose text is selected *)
}.


(** ** Updating one part of the world

    Every effect goes through one of these named updates, so that a run
    of many effects is a chain of small terms. *)

Definition w_with_doc (d : document) (w : world) : world := {| w with w_doc := d |}.
Definition w_with_listeners (ls : list listener) (w : world) : world :=
  {| w with w_listeners := ls |}.
Definition w_with_timers (ts : list timer) (next : N) (w : world) : world :=
  {| w with w_timers := ts; w_next_timer := next |}.
Definition w_with_observers (os : gmap N observer) (next : N) (w : world) : world :=
  {| w with w_observers := os; w_next_obs := next |}.
Definition w_with_cells (cs : gmap N cell) (next : N) (w : world) : world :=
  {| w with w_cells := cs; w_next_cell := next |}.
Definition w_with_rand (rs : list Z) (w : world) : world := {| w with w_rand := rs |}.
Definition w_with_answers (bs : list bool) (w : world) : world := {| w with w_answers := bs |}.
Definition w_with_console (cs : list log_entry) (w : world) : world :=
  {| w with w_console := cs |}.
Definition w_with_globals (g : gmap string global_fn) (w : world) : world :=
  {| w with w_globals := g |}.
Definition w_with_clipboard (c : string) (w : world) : world := {| w with w_clipboard := c |}.
Definition w_with_selection (n : option node_id) (w : world) : world := {| w with w_selection := n |}.
Definition w_with_navigations (ns : list string) (w : world) : world :=
  {| w with w_navigations := ns |}.
Definition w_with_opened (os : list (string * string)) (w : world) : world :=
  {| w with w_opened := os |}.
Definition w_with_scroll_requests (rs : list Z) (w : world) : world :=
  {| w with w_scroll_requests := rs |}.
Definition w_with_title (t : string) (w : world) : world := {| w with w_title := t |}.
Definition w_with_prevented (b : bool) (w : world) : world := {| w with w_prevented := b |}.
Definition w_with_konami (k : list N) (w : world) : world := {| w with w_konami := k |}.
Definition w_with_prints (n : nat) (w : world) : world := {| w with w_prints := n |}.
Definition w_with_shares (ss : list (string * string * string)) (w : world) : world :=
  {| w with w_shares := ss |}.
Definition w_with_now (t : Z) (w : world) : world := {| w with w_now := t |}.
Definition w_with_scroll_y (y : Z) (w : world) : world := {| w with w_scroll_y := y |}.
Definition w_with_hidden (h : bool) (w : world) : world := {| w with w_hidden := h |}.
Definition w_with_path (p : string) (w : world) : world := {| w with w_path := p |}.

#[export] Instance target_eq_dec : EqDecision target.
Proof. solve_decision. Defined.
#[export] Instance task_eq_dec : EqDecision task.
Proof. solve_decision. Defined.
#[export] Instance observer_kind_eq_dec : EqDecision observer_kind.
Proof. solve_decision. Defined.
#[export] Instance global_fn_eq_dec : EqDecision global_fn.
Proof. solve_decision. Defined.
#[export] Instance log_entry_eq_dec : EqDecision log_entry.
Proof. solve_decision. Defined.

(** ** The state and exception monad *)

Inductive outcome (A : Type) :=
  | Ok (a : A) (w : world)
  | Throw (e : js_error) (w : world).
Arguments Ok {A}. Arguments Throw {A}.

Definition M (A : Type) : Type := world -> outcome A.

Definition ret {A} (a : A) : M A := fun w => Ok a w.

Definition bind {A B} (m : M A) (k : A -> M B) : M B :=
  fun w => match m w with Ok a w' => k a w' | Throw e w' => Throw e w' end.

Definition throw {A} (e : js_error) : M A := fun w => Throw e w.

(** [try { m } catch (e) { h e }]. *)
Definition catch {A} (m : M A) (h : js_error -> M A) : M A :=
  fun w => match m w with Ok a w' => Ok a w' | Throw e w' => h e w' end.

Definition gets {A} (f : world -> A) : M A := fun w => Ok (f w) w.
Definition modify (f : world -> world) : M unit := fun w => Ok tt (f w).

Declare Scope monad_bn_scope.
Notation "x <- m ;; k" := (bind m (fun x => k))
  (at level 100, m at next level, right associativity) : monad_bn_scope.
Notation "m ;; k" := (bind m (fun _ => k))
  (at level 100, right associativity) : monad_bn_scope.
Open Scope monad_bn_scope.

(** [xs.forEach(f)]. *)
Fixpoint for_each {A} (xs : list A) (f : A -> M unit) : M unit :=
  match xs with [] => ret tt | x :: xs' => f x ;; for_each xs' f end.

(** ** Effects on the document *)

Definition doc_read {A} (f : document -> A) : M A := gets (fun w => f (w_doc w)).
Definition doc_write (f : document -> document) : M unit :=
  modify (fun w => w_with_doc (f (w_doc w)) w).

(** [$(sel)], [$$(sel)] and [el.querySelector(sel)]. *)
Definition q (sel : selector) : M (option node_id) := doc_read (query sel).
Definition qa (sel : selector) : M (list node_id) := doc_read (query_all sel).
Definition q_in (root : node_id) (sel : selector) : M (option node_id) :=
  doc_read (query_in root sel).

Definition el_get {A} (n : node_id) (f : element -> A) (default : A) : M A :=
  doc_read (fun d => match get_el d n with Some e => f e | None => default end).
Definition upd_node (n : node_id) (f : element -> element) : M unit := doc_write (upd_el n f).

Definition add_class (n : node_id) (c : string) : M unit :=
  upd_node n (fun e => {| e with el_classes := class_add c (el_classes e) |}).
Definition remove_class (n : node_id) (c : string) : M unit :=
  upd_node n (fun e => {| e with el_classes := class_remove c (el_classes e) |}).
Definition toggle_class (n : node_id) (c : string) : M unit :=
  upd_node n (fun e => {| e with el_classes := class_toggle c (el_classes e) |}).
Definition has_class_m (n : node_id) (c : string) : M bool := el_get n (has_class c) false.

Definition set_style (n : node_id) (p v : string) : M unit :=
  upd_node n (fun e => {| e with el_style := style_set p v (el_style e) |}).

(** [el.style.cssText = ...]: the declarations replace the inline style. *)
Definition set_css_text (n : node_id) (decls : list (string * string)) : M unit :=
  upd_node n (fun e => {| e with el_style := list_to_map decls |}).
Definition get_style (n : node_id) (p : string) : M (option string) :=
  el_get n (fun e => el_style e !! p) None.

Definition get_text (n : node_id) : M string := el_get n el_text "".
Definition set_text (n : node_id) (t : string) : M unit :=
  upd_node n (fun e => {| e with el_text := t |}).
Definition set_attr (n : node_id) (a v : string) : M unit :=
  upd_node n (fun e => {| e with el_attrs := <[a := v]> (el_attrs e) |}).
Definition get_attr (n : node_id) (a : string) : M (option string) :=
  el_get n (fun e => el_attrs e !! a) None.
Definition set_id (n : node_id) (i : string) : M unit :=
  upd_node n (fun e => {| e with el_id := i |}).
Definition set_classes (n : node_id) (cs : list string) : M unit :=
  upd_node n (fun e => {| e with el_classes := cs |}).

Definition create (tag : string) : M node_id :=
  fun w => let '(n, d) := create_element tag (w_doc w) in Ok n (w_with_doc d w).
Definition append (parent child : node_id) : M unit := doc_write (append_child parent child).
Definition remove_child_m (parent child : node_id) : M unit :=
  fun w => match remove_child parent child (w_doc w) with
           | Some d => Ok tt (w_with_doc d w)
           | None => Throw (NotFoundError "removeChild") w
           end.
Definition remove_m (n : node_id) : M unit := doc_write (remove_node n).

Definition body : M node_id := doc_read d_body.
Definition head_el : M node_id := doc_read d_head.

(** ** Listeners, timers, observers, closure cells *)

Definition listen (tg : target) (ty : string) (k : task) : M unit :=
  modify (fun w => w_with_listeners (w_listeners w ++ [mkListener tg ty k]) w).

Definition add_timer (k : task) (delay : Z) (period : option Z) : M N :=
  fun w => let i := w_next_timer w in
    Ok i (w_with_timers (w_timers w ++ [mkTimer i (w_now w + Z.max 0 delay) period k])
                        (i + 1)%N w).
Definition set_timeout (k : task) (delay : Z) : M N := add_timer k delay None.
Definition set_interval (k : task) (period : Z) : M N := add_timer k period (Some period).

(** [clearTimeout(id)] and [clearInterval(id)]. *)
Definition clear_timer (i : N) : M unit :=
  modify (fun w => w_with_timers (List.filter (fun t => negb (bool_decide (t_id t = i))) (w_timers w))
                                 (w_next_timer w) w).

(** [new IntersectionObserver(callback)]: a [ReferenceError] in a browser
    without the constructor. *)
Definition new_observer (k : observer_kind) : M N :=
  fun w => if env_has_io (w_env w) then
    let i := w_next_obs w in
    Ok i (w_with_observers (<[i := mkObserver k []]> (w_observers w)) (i + 1)%N w)
  else Throw (ReferenceError "IntersectionObserver is not defined") w.
Definition observe (o : N) (n : node_id) : M unit :=
  modify (fun w => w_with_observers
    (alter (fun ob => {| ob with ob_targets := ob_targets ob ++ [n] |}) o (w_observers w))
    (w_next_obs w) w).
Definition unobserve (o : N) (n : node_id) : M unit :=
  modify (fun w => w_with_observers
    (alter (fun ob => {| ob with ob_targets := List.filter (fun x => negb (bool_decide (x = n))) (ob_targets ob) |})
           o (w_observers w))
    (w_next_obs w) w).

Definition new_cell (c : cell) : M N :=
  fun w => let i := w_next_cell w in
    Ok i (w_with_cells (<[i := c]> (w_cells w)) (i + 1)%N w).
Definition get_cell (i : N) : M (option cell) := gets (fun w => w_cells w !! i).
Definition set_cell (i : N) (c : cell) : M unit :=
  modify (fun w => w_with_cells (<[i := c]> (w_cells w)) (w_next_cell w) w).

(** ** The window *)

(** [Math.random()]: the next draw [k] of the run, standing for the
    double [k / 2^53]; a run that has used up its draws reads 0. *)
Definition random : M Z :=
  fun w => match w_rand w with
           | k :: ks => Ok k (w_with_rand ks w)
           | [] => Ok 0%Z w
           end.

(** [confirm(msg)]: the user's next answer; dismissing is [false]. *)
Definition confirm : M bool :=
  fun w => match w_answers w with
           | b :: bs => Ok b (w_with_answers bs w)
           | [] => Ok false w
           end.

Definition log_info (s : string) : M unit :=
  modify (fun w => w_with_console (w_console w ++ [LogInfo s]) w).
Definition log_error (s : string) : M unit :=
  modify (fun w => w_with_console (w_console w ++ [LogError s]) w).

Definition set_global (name : string) (f : global_fn) : M unit :=
  modify (fun w => w_with_globals (<[name := f]> (w_globals w)) w).

Definition prevent_default : M unit := modify (w_with_prevented true).

Definition scroll_to (top : Z) : M unit :=
  modify (fun w => w_with_scroll_requests (w_scroll_requests w ++ [top]) w).
Definition window_open (url tgt : string) : M unit :=
  modify (fun w => w_with_opened (w_opened w ++ [(url, tgt)]) w).
Definition navigate (url : string) : M unit :=
  modify (fun w => w_with_navigations (w_navigations w ++ [url]) w).
Definition env {A} (f : environment -> A) : M A := gets (fun w => f (w_env w)).

(** [el.select()]: the element's text becomes the selection. *)
Definition select_el (n : node_id) : M unit := modify (w_with_selection (Some n)).

(** [document.execCommand('copy')]: when the browser allows it, the value
    of the selected element is copied; with nothing selected, or when the
    browser refuses, the clipboard is unchanged. *)
Definition exec_copy : M unit :=
  ok <- env env_exec_copy_ok ;;
  sel <- gets w_selection ;;
  match sel with
  | Some n =>
      v <- doc_read (fun d => attr_of d n "value") ;;
      match v with
      | Some t => if ok then modify (w_with_clipboard t) else ret tt
      | None => ret tt
      end
  | None => ret tt
  end.
(** [await navigator.share({title, text, url})]: the share sheet opens
    with the data, and the promise rejects with an [AbortError] when the
    user dismisses it. *)
Definition navigator_share (title text url : string) : M unit :=
  modify (fun w => w_with_shares (w_shares w ++ [(title, text, url)]) w) ;;
  ok <- env env_share_ok ;;
  if ok then ret tt else throw ShareAborted.

(** ** Lemmas on the monad *)

(** A computation that leaves the listeners alone, whatever its outcome. *)
Definition keeps_listeners (m : M unit) : Prop :=
  forall w, match m w with
            | Ok _ w' | Throw _ w' => w_listeners w' = w_listeners w
            end.

Lemma for_each_app {A} (l1 l2 : list A) (f : A -> M unit) (w : world) :
  for_each (l1 ++ l2) f w = (for_each l1 f ;; for_each l2 f) w.
Proof.
  revert w. induction l1 as [|x l1 IH]; intros w; [reflexivity|].
  cbn [for_each app]. unfold bind. destruct (f x w) as [[] w1|e w1]; [|reflexivity].
  specialize (IH w1). unfold bind in IH. exact IH.
Qed.

Lemma for_each_listen {A} (xs : list A) (tg : A -> target) (ty : string) (k : A -> task) (w : world) :
  for_each xs (fun x => listen (tg x) ty (k x)) w =
  Ok tt (w_with_listeners (w_listeners w ++ map (fun x => mkListener (tg x) ty (k x)) xs) w).
Proof.
  revert w. induction xs as [|x xs IH]; intros w; simpl.
  - rewrite app_nil_r. by destruct w.
  - unfold bind, listen, modify. rewrite IH. unfold w_with_listeners. simpl.
    by rewrite <- app_assoc.
Qed.

(** Running a list of computations that each succeed and keep a
    predicate on the world. *)
Lemma for_each_ok {A} (xs : list A) (f : A -> M unit) (P : world -> Prop) (w : world) :
  P w ->
  (forall x w1, x ∈ xs -> P w1 -> exists w2, f x w1 = Ok tt w2 /\ P w2) ->
  exists w', for_each xs f w = Ok tt w' /\ P w'.
Proof.
  revert w. induction xs as [|x xs IH]; intros w Hw Hf; simpl.
  - by exists w.
  - destruct (Hf x w) as (w2 & Hx & Hw2); [left|done|].
    unfold bind. rewrite Hx. apply IH; [done|]. intros. apply Hf; [by right|done].
Qed.

(** The copy step of [exec_copy] once the selected value [t] is read. *)
Lemma copy_if_ok (b : bool) (t : string) (w : world) :
  (if b then (fun w0 => Ok tt (w_with_clipboard t w0)) else (fun w0 => Ok tt w0)) w =
  Ok tt (w_with_clipboard (if b then t else w_clipboard w) w).
Proof. destruct b; [done|by destruct w]. Qed.

(** [wsimpl] reduces the fields of a world built by the setters above,
    without unfolding anything else. *)
Ltac wsimpl :=
  cbn [w_doc w_listeners w_timers w_next_timer w_observers w_next_obs w_cells w_next_cell w_now
       w_rand w_answers w_console w_globals w_clipboard w_env w_path w_href w_navigations
       w_opened w_scroll_y w_scroll_requests w_title w_hidden w_weekday w_prevented w_konami
       w_prints w_shares w_selection
       w_with_doc w_with_listeners w_with_timers w_with_observers w_with_cells w_with_rand
       w_with_answers w_with_console w_with_globals w_with_clipboard w_with_navigations
       w_with_opened w_with_scroll_requests w_with_title w_with_prevented w_with_konami
       w_with_prints w_with_shares w_with_now w_with_scroll_y w_with_hidden w_with_path
       w_with_selection] in *.

(** Running a computation [k] times in a row (a module's [init] called
    again). *)
Fixpoint repeat_m (k : nat) (c : M unit) : M unit :=
  match k with O => ret tt | S k' => c ;; repeat_m k' c end.
