(* ===== verification/Events.v ===== *)
(** * Events: dispatching DOM events to the script's listeners

    An event has a type, a target and the keyboard fields the script
    reads.  Dispatch computes the propagation path once (the target, its
    ancestors, then [document] and [window] when the target is in the
    document; only the target for events that do not bubble), runs the
    listeners registered on each target of the path for the event's type
    in registration order, and reports an exception thrown by a listener
    without stopping the dispatch, as the browser does.  Each event has
    its own [defaultPrevented]: a dispatch nested in a listener restores
    the flag of the outer event when it ends.  [listener_typed] says
    which event type each closure is registered for.  What a listener
    does is the job of the interpreter of closures, which components see
    through the [TaskRunner] class.  [fire_timer] is the event loop
    firing a pending timer: the clock reaches its due time, a timeout is
    removed, an interval rescheduled, and the callback runs as a listener
    does. *)

From Stdlib Require Import ZArith Lia Ascii.
From stdpp Require Import base list gmap strings.
From S2P Require Import Prelude JsString Dom World.

Record event := mkEvent {
  ev_type : string;
  ev_target : target;
  ev_key : string;        (** [e.key] *)
  ev_key_code : N;        (** [e.keyCode] *)
  ev_ctrl : bool;         (** [e.ctrlKey] *)
  ev_meta : bool          (** [e.metaKey] *)
}.

Definition simple_event (ty : string) (tg : target) : event := mkEvent ty tg "" 0 false false.

(** The interpreter of the script's closures: running [k] on the event
    being dispatched. *)
Class TaskRunner := run_task : task -> event -> M unit.

(** The event type each listener closure of the script is registered
    for; [None] for the closures that only timers run. *)
Definition task_listens (k : task) : option string :=
  match k with
  | KMenuToggle _ _ | KNavLinkClose _ _ | KOutsideClose _ _ | KSmoothScroll _
  | KSocialClick _ => Some "click"
  | KDebounced _ _ _ => Some "scroll"
  | KCardEnter _ | KBtnEnter _ => Some "mouseenter"
  | KCardLeave _ | KBtnLeave _ => Some "mouseleave"
  | KCardKeydown _ | KShortcuts | KKonami => Some "keydown"
  | KSkipFocus _ => Some "focus"
  | KSkipBlur _ => Some "blur"
  | KSwLoad => Some "load"
  | KDomReady => Some "DOMContentLoaded"
  | KVisibility => Some "visibilitychange"
  | KHeaderScroll _ | KLogoPulse _ | KLogoReset _ | KCounterTick _ _ | KSocialRestore _
  | KStatusCheck | KPingUpdate | KCopyRestore _ _ | KToastSlideOut _ | KToastRemove _
  | KKonamiRestore _ => None
  end.

(** A listener is well typed when its closure handles its event type. *)
Definition listener_typed (l : listener) : bool :=
  bool_decide (task_listens (l_task l) = Some (l_type l)).

Definition listeners_typed (ls : list listener) : Prop :=
  Forall (fun l => listener_typed l = true) ls.

(** The event types of the script that bubble. *)
Definition bubbles (ty : string) : bool := bool_decide (ty = "click" \/ ty = "keydown").

Definition target_path (d : document) (tg : target) (bubbling : bool) : list target :=
  match tg with
  | TgNode n =>
      if bubbling then
        TgNode n :: map TgNode (ancestors d n) ++
          (if connected d n then [TgDocument; TgWindow] else [])
      else [TgNode n]
  | TgDocument => if bubbling then [TgDocument; TgWindow] else [TgDocument]
  | TgWindow => [TgWindow]
  end.

(** The listeners of type [ty] registered on [tg], in registration order. *)
Definition listeners_at (ls : list listener) (tg : target) (ty : string) : list task :=
  map l_task (List.filter (fun l => bool_decide (l_target l = tg /\ l_type l = ty)) ls).

Definition describe (e : js_error) : string :=
  match e with
  | TypeError s => "TypeError: " +:+ s
  | SyntaxError s => "SyntaxError: " +:+ s
  | NotFoundError s => "NotFoundError: " +:+ s
  | ReferenceError s => "ReferenceError: " +:+ s
  | ClipboardRejected => "NotAllowedError"
  | ShareAborted => "AbortError: Share canceled"
  end.

(** [e.target] is inside node [a] ([a.contains(e.target)]). *)
Definition target_within (d : document) (a : node_id) (tg : target) : bool :=
  match tg with TgNode n => contains d a n | _ => false end.

Section dispatch.
Context `{TaskRunner}.

(** An exception escaping a listener is reported and dispatch goes on. *)
Definition run_listener (ev : event) (k : task) : M unit :=
  catch (run_task k ev) (fun e => log_error ("Uncaught " +:+ describe e)).

Definition dispatch_at (ev : event) (tg : target) : M unit :=
  ks <- gets (fun w => listeners_at (w_listeners w) tg (ev_type ev)) ;;
  for_each ks (run_listener ev).

(** [target.dispatchEvent(ev)]: returns [defaultPrevented].  The flag
    belongs to the event: the flag of an event whose listener dispatches
    this one ([link.click()] in a keydown listener) is restored after it. *)
Definition dispatch (ev : event) : M bool :=
  outer <- gets w_prevented ;;
  modify (w_with_prevented false) ;;
  path <- doc_read (fun d => target_path d (ev_target ev) (bubbles (ev_type ev))) ;;
  for_each path (dispatch_at ev) ;;
  prevented <- gets w_prevented ;;
  modify (w_with_prevented outer) ;;
  ret prevented.

(** The event a timer's callback runs with: timer callbacks take no event. *)
Definition timer_event : event := simple_event "timeout" TgWindow.

(** The timer with id [i], if it is pending. *)
Definition find_timer (i : N) (ts : list timer) : option timer :=
  List.find (fun tm => bool_decide (t_id tm = i)) ts.

(** The event loop fires the pending timer [i]: the clock reaches its due
    time, a timeout is removed and an interval rescheduled one period
    later, and its callback runs, an escaping exception being reported as
    for listeners. *)
Definition fire_timer (i : N) : M unit :=
  ts <- gets w_timers ;;
  match find_timer i ts with
  | None => ret tt
  | Some tm =>
      modify (w_with_now (t_due tm)) ;;
      (match t_period tm with
       | None => clear_timer i
       | Some p =>
           modify (fun w => w_with_timers
             (map (fun t => if bool_decide (t_id t = i) then {| t with t_due := t_due tm + Z.max 0 p |} else t)
                  (w_timers w)) (w_next_timer w) w)
       end) ;;
      run_listener timer_event (t_task tm)
  end.
End dispatch.

(** ** Lemmas *)

Lemma listeners_at_app (l1 l2 : list listener) (tg : target) (ty : string) :
  listeners_at (l1 ++ l2) tg ty = listeners_at l1 tg ty ++ listeners_at l2 tg ty.
Proof. unfold listeners_at. by rewrite List.filter_app, map_app. Qed.

Lemma listeners_at_one (tg tg' : target) (ty ty' : string) (k : task) :
  listeners_at [mkListener tg' ty' k] tg ty = if bool_decide (tg' = tg /\ ty' = ty) then [k] else [].
Proof. unfold listeners_at. simpl. by case_bool_decide. Qed.

#[export] Hint Rewrite listeners_at_app listeners_at_one : bn_rw.

Section dispatch_lemmas.
Context `{TaskRunner}.

Lemma run_listener_ok (ev : event) (k : task) (w : world) :
  exists w', run_listener ev k w = Ok tt w' /\
    (keeps_listeners (run_task k ev) -> w_listeners w' = w_listeners w).
Proof.
  unfold run_listener, catch. specialize (fun Hk : keeps_listeners (run_task k ev) => Hk w).
  destruct (run_task k ev w) as [[] w1|e w1]; intros Hk.
  - eauto.
  - eexists. split; [reflexivity|]. intros Hk'. apply Hk in Hk'. simpl. done.
Qed.

Lemma run_all_ok (ev : event) (ks : list task) (w : world) :
  exists w', for_each ks (run_listener ev) w = Ok tt w' /\
    (Forall (fun k => keeps_listeners (run_task k ev)) ks -> w_listeners w' = w_listeners w).
Proof.
  revert w. induction ks as [|k ks IH]; intros w; simpl.
  - eexists; split; [reflexivity|done].
  - destruct (run_listener_ok ev k w) as (w1 & Hk & Hl1).
    destruct (IH w1) as (w2 & Hks & Hl2).
    exists w2. unfold bind. rewrite Hk. split; [done|].
    intros [Hk1 Hks1]%Forall_cons. rewrite Hl2, Hl1; done.
Qed.

(** Dispatch along a path runs, in order, the listeners registered on
    each target of the path when the dispatch starts, provided the
    listeners themselves do not register or remove listeners. *)
Lemma dispatch_path_flat (ev : event) (tgs : list target) (w : world) :
  let ks := flat_map (fun tg => listeners_at (w_listeners w) tg (ev_type ev)) tgs in
  Forall (fun k => keeps_listeners (run_task k ev)) ks ->
  for_each tgs (dispatch_at ev) w = for_each ks (run_listener ev) w.
Proof.
  revert w. induction tgs as [|tg tgs IH]; intros w ks Hks; [reflexivity|].
  subst ks. cbn [flat_map for_each] in *. apply Forall_app in Hks as [Hk1 Hk2].
  rewrite for_each_app.
  destruct (run_all_ok ev (listeners_at (w_listeners w) tg (ev_type ev)) w) as (w1 & Hrun & Hl).
  specialize (Hl Hk1).
  change ((dispatch_at ev tg ;; for_each tgs (dispatch_at ev)) w =
          (for_each (listeners_at (w_listeners w) tg (ev_type ev)) (run_listener ev) ;;
           for_each (flat_map (fun tg => listeners_at (w_listeners w) tg (ev_type ev)) tgs)
                    (run_listener ev)) w).
  unfold bind at 1 2. unfold dispatch_at, bind at 1, gets. rewrite Hrun.
  rewrite <- Hl in Hk2 |- *. by apply IH.
Qed.
(** A dispatch whose listeners leave the listener table alone: it runs
    them in path order with the event's flag cleared, then restores the
    outer flag and returns the event's. *)
Lemma dispatch_flat (ev : event) (w w' : world) :
  let w0 := w_with_prevented false w in
  let ks := flat_map (fun tg => listeners_at (w_listeners w0) tg (ev_type ev))
              (target_path (w_doc w0) (ev_target ev) (bubbles (ev_type ev))) in
  Forall (fun k => keeps_listeners (run_task k ev)) ks ->
  for_each ks (run_listener ev) w0 = Ok tt w' ->
  dispatch ev w = Ok (w_prevented w') (w_with_prevented (w_prevented w) w').
Proof.
  intros w0 ks Hk Hr. unfold dispatch, bind at 1, gets. unfold bind at 1, modify. fold w0.
  unfold bind at 1, doc_read, gets. unfold bind at 1.
  rewrite dispatch_path_flat by exact Hk. fold ks. by rewrite Hr.
Qed.
End dispatch_lemmas.

Lemma listeners_at_cons (l : listener) (ls : list listener) (tg : target) (ty : string) :
  listeners_at (l :: ls) tg ty = listeners_at [l] tg ty ++ listeners_at ls tg ty.
Proof. apply (listeners_at_app [l]). Qed.

Lemma listeners_at_concat (ls : list (list listener)) (tg : target) (ty : string) :
  listeners_at (concat ls) tg ty = concat (map (fun l => listeners_at l tg ty) ls).
Proof. induction ls as [|l ls IH]; simpl; [done|]. by rewrite listeners_at_app, IH. Qed.

Lemma listeners_at_map_other {A} (xs : list A) (f : A -> target) (ty' : string) (k : A -> task)
    (tg : target) (ty : string) :
  (forall x, x ∈ xs -> f x <> tg) ->
  listeners_at (map (fun x => mkListener (f x) ty' (k x)) xs) tg ty = [].
Proof.
  induction xs as [|x xs IH]; intros Hx; simpl; [done|].
  rewrite listeners_at_cons, listeners_at_one, bool_decide_eq_false_2.
  - apply IH. intros y Hy. apply Hx. by right.
  - intros [? _]. apply (Hx x); [left|]; done.
Qed.

(** No listener of type [ty] at all. *)
Definition no_listeners_of (ty : string) (ls : list listener) : Prop :=
  Forall (fun l => l_type l <> ty) ls.

Lemma listeners_at_none (ls : list listener) (tg : target) (ty : string) :
  no_listeners_of ty ls -> listeners_at ls tg ty = [].
Proof.
  induction 1 as [|l ls Hl _ IH]; [done|].
  rewrite listeners_at_cons, IH. destruct l. rewrite listeners_at_one.
  rewrite bool_decide_eq_false_2; [done|]. simpl in Hl. tauto.
Qed.

(** No listener of the event's type on any target of a path. *)
Lemma flat_listeners_none (ls : list listener) (tgs : list target) (ty : string) :
  no_listeners_of ty ls -> flat_map (fun tg => listeners_at ls tg ty) tgs = [].
Proof. intros Hn. induction tgs as [|tg tgs IH]; simpl; [done|]. by rewrite listeners_at_none, IH. Qed.

Section run_lemmas.
Context `{TaskRunner}.

Lemma run_listener_of_ok (ev : event) (k : task) (w w' : world) :
  run_task k ev w = Ok tt w' -> run_listener ev k w = Ok tt w'.
Proof. intros Hk. unfold run_listener, catch. by rewrite Hk. Qed.
End run_lemmas.

(** ** Timers *)

(** Timer ids are below the next id, so ids are unique. *)
Definition timers_below_next (w : world) : Prop :=
  Forall (fun tm => (t_id tm < w_next_timer w)%N) (w_timers w).

Lemma find_timer_fresh (ts : list timer) (n : N) (tm : timer) :
  Forall (fun t => (t_id t < n)%N) ts -> t_id tm = n -> find_timer n (ts ++ [tm]) = Some tm.
Proof.
  intros Hts Hid. induction Hts as [|t ts Ht _ IH]; simpl.
  - by rewrite bool_decide_eq_true_2.
  - rewrite bool_decide_eq_false_2 by lia. exact IH.
Qed.

Lemma timers_below_filter (ts : list timer) (n : N) (p : timer -> bool) :
  Forall (fun t => (t_id t < n)%N) ts -> Forall (fun t => (t_id t < n)%N) (List.filter p ts).
Proof. intros H. induction H; simpl; [constructor|]. destruct (p x); auto. Qed.

(** Firing a pending timeout: the clock reaches its due time, the timer is
    removed and its callback runs. *)
Lemma fire_timer_timeout `{TaskRunner} (i : N) (due : Z) (k : task) (w : world) :
  find_timer i (w_timers w) = Some (mkTimer i due None k) ->
  fire_timer i w =
  run_listener timer_event k
    (w_with_timers (List.filter (fun t => negb (bool_decide (t_id t = i))) (w_timers w))
                   (w_next_timer w) (w_with_now due w)).
Proof. intros Hf. unfold fire_timer, bind at 1, gets. by rewrite Hf. Qed.


(** A fired timeout is no longer pending. *)
Lemma find_timer_removed (i : N) (ts : list timer) :
  find_timer i (List.filter (fun t => negb (bool_decide (t_id t = i))) ts) = None.
Proof.
  induction ts as [|t ts IH]; simpl; [done|]. case_bool_decide; simpl; [done|].
  by rewrite bool_decide_eq_false_2.
Qed.

(** Arming a timer with the next id keeps the ids below the next one. *)
Lemma timers_below_add (w : world) (tm : timer) :
  timers_below_next w -> t_id tm = w_next_timer w ->
  Forall (fun t => (t_id t < w_next_timer w + 1)%N) (w_timers w ++ [tm]).
Proof.
  intros Ht Hid. apply Forall_app. split; [eapply Forall_impl; [exact Ht|]; simpl; lia|].
  constructor; [lia|constructor].
Qed.
