(* ===== verification/Page.v ===== *)
(** * Page: a concrete page of the site, as the script sees it

    A model of [minecraft.html] with the markup the script queries: the
    header with the mobile toggle and the nav menu, an in-page anchor,
    the server-info block with the status dot and text, an address with
    its copy button, a statistic counter, a voice-channel card and a
    schedule card.  The theorems of the components are applied to this
    world in their witnesses. *)

From Stdlib Require Import ZArith Lia Ascii.
From stdpp Require Import base list gmap strings.
From S2P Require Import Prelude JsString Dom World.

Definition mk_el (tag id : string) (classes : list string) (text : string)
    (parent : option node_id) (attrs : list (string * string)) (top : Z) : element :=
  mkElement tag id classes text ∅ (list_to_map attrs) parent top.

(** The nodes of the page in document order. *)
Definition page_nodes : list (node_id * element) := [
  (0, mk_el "html" "" [] "" None [] 0);
  (1, mk_el "head" "" [] "" (Some 0) [] 0);
  (2, mk_el "body" "" [] "" (Some 0) [] 0);
  (3, mk_el "header" "" ["header"] "" (Some 2) [] 0);
  (4, mk_el "button" "" ["mobile-toggle"] "" (Some 3) [] 0);
  (5, mk_el "ul" "" ["nav-menu"] "" (Some 3) [] 0);
  (6, mk_el "a" "" ["nav-link"] "Home" (Some 5) [("href", "index.html")] 0);
  (7, mk_el "a" "" ["nav-link"] "Minecraft" (Some 5) [("href", "minecraft.html")] 0);
  (8, mk_el "a" "" ["btn"] "Server info" (Some 2) [("href", "#server-info")] 0);
  (9, mk_el "section" "server-info" ["server-info-content"] "" (Some 2) [] 640);
  (10, mk_el "span" "" ["status-dot"] "" (Some 9) [] 0);
  (11, mk_el "span" "" ["status-text"] "CHECKING..." (Some 9) [] 0);
  (12, mk_el "div" "" ["ip-box"] "" (Some 9) [] 0);
  (13, mk_el "code" "java-ip" [] "cat.fi.freemcserver.net:41600" (Some 12) [] 0);
  (14, mk_el "button" "" ["copy-btn"] "Copy" (Some 12) [] 0);
  (15, mk_el "div" "" ["stat-card"] "" (Some 2) [] 0);
  (16, mk_el "span" "" ["stat-number"] "1234+" (Some 15) [] 0);
  (17, mk_el "div" "" ["channel-info"] "" (Some 2) [] 0);
  (18, mk_el "span" "" ["channel-capacity"] "Max 25 users" (Some 17) [] 0);
  (19, mk_el "div" "" ["schedule-card"] "" (Some 2) [] 0);
  (20, mk_el "h4" "" ["schedule-day"] "Monday" (Some 19) [] 0)
]%N.

Definition page_doc : document := {|
  d_nodes := list_to_map page_nodes;
  d_order := map fst page_nodes;
  d_next := 21%N;
  d_root := 0%N;
  d_head := 1%N;
  d_body := 2%N
|}.

Definition page_env : environment := mkEnv false true true false true true true true.

(** The page right after loading, before [DOMContentLoaded]: the draws of
    [Math.random()] and the answers to [confirm] of the run are fixed. *)
Definition page_world : world := {|
  w_doc := page_doc;
  w_listeners := [];
  w_timers := [];
  w_next_timer := 1%N;
  w_observers := ∅;
  w_next_obs := 0%N;
  w_cells := ∅;
  w_next_cell := 0%N;
  w_now := 0%Z;
  w_rand := [6000000000000000; 123456789012345; 4503599627370496]%Z;
  w_answers := [true];
  w_console := [];
  w_globals := ∅;
  w_clipboard := "";
  w_env := page_env;
  w_path := "/minecraft.html";
  w_href := "https://blackflame-nova.example/minecraft.html";
  w_navigations := [];
  w_opened := [];
  w_scroll_y := 0%Z;
  w_scroll_requests := [];
  w_title := "Minecraft Server - BLACKFLAME NOVA";
  w_hidden := false;
  w_weekday := 1;
  w_prevented := false;
  w_konami := [];
  w_prints := 0;
  w_shares := [];
  w_selection := None
|}.

(** The same page with a [.channel-capacity] that states no number. *)
Definition page_no_capacity : world :=
  w_with_doc (upd_el 18%N (fun e => {| e with el_text := "Unlimited" |}) page_doc) page_world.

(** Every node of the sample page has an id below [d_next]. *)
Lemma page_ids_below_next : ids_below_next page_doc.
Proof.
  intros n [e He]. unfold get_el in He. apply elem_of_list_to_map_2 in He. unfold page_nodes in He.
  repeat (apply elem_of_cons in He as [He|He]; [injection He as -> _; vm_compute; reflexivity|]).
  by apply elem_of_nil in He.
Qed.

(** The sample page is a well-formed document. *)
Lemma page_doc_wf : doc_wf page_doc.
Proof. split; [exact page_ids_below_next|]. unfold order_below_next. simpl. repeat constructor. Qed.

(** The sample page's class lists have no duplicates. *)
Lemma page_classes_nodup : classes_nodup page_doc.
Proof. unfold classes_nodup. apply (bool_decide_unpack _). vm_compute. reflexivity. Qed.
