(* ===== verification/Navigation.v ===== *)
(** * Navigation: the [Navigation] object of [src/Script.js] (lines 30-115)

    With the helpers it uses: [debounce] (lines 17-23) and [scrollTo]
    (lines 25-28).  [setupMobileMenu] registers three kinds of click
    listeners (on the toggle button, on every [.nav-link], on the
    document); their bodies are [menu_toggle], [close_menu] and
    [outside_close].  [setupSmoothScrolling] registers [smooth_scroll] on
    every in-page anchor; [setupActiveLinks] marks the link of the current
    page; [setupScrollEffects] registers a debounced [header_scroll] on
    window scrolls.  The menu's observable state is [menu_state]: whether
    the toggle and the menu carry [active], and the body's [overflow]. *)

From Stdlib Require Import ZArith Lia Ascii.
From stdpp Require Import base list gmap strings.
From S2P Require Import Prelude JsString Dom Config World Events.

(** ** Helpers *)

(** The call of the function [debounce(func, wait)] returns: clear the
    pending timeout kept in the closure's [timeout] variable ([cell]),
    then schedule [func] after [wait] ms and remember the new id. *)
Definition debounced_call (cell : N) (wait : Z) (inner : task) : M unit :=
  c <- get_cell cell ;;
  (match c with Some (CellTimeout (Some t)) => clear_timer t | _ => ret tt end) ;;
  t <- set_timeout inner wait ;;
  set_cell cell (CellTimeout (Some t)).

(** [scrollTo(element, offset = CONFIG.SCROLL_OFFSET)]. *)
Definition scroll_to_element (n : node_id) (offset : Z) : M unit :=
  top <- el_get n el_offset_top 0%Z ;;
  scroll_to (top - offset).

Module Navigation.

(** ** setupMobileMenu (lines 39-68) *)

Definition close_menu (t m : node_id) : M unit :=
  remove_class t "active" ;;
  remove_class m "active" ;;
  b <- body ;;
  set_style b "overflow" "".

(** The toggle button's click listener (lines 45-49). *)
Definition menu_toggle (t m : node_id) : M unit :=
  toggle_class t "active" ;;
  toggle_class m "active" ;;
  b <- body ;;
  open <- has_class_m m "active" ;;
  set_style b "overflow" (if open then "hidden" else "").

(** A nav link's click listener (lines 53-57). *)
Definition nav_link_close (t m : node_id) : M unit := close_menu t m.

(** The document's click listener (lines 61-67). *)
Definition outside_close (t m : node_id) (tg : target) : M unit :=
  inside <- doc_read (fun d => target_within d t tg || target_within d m tg) ;;
  if inside then ret tt else close_menu t m.

Definition setupMobileMenu : M unit :=
  toggle <- q [SelClass "mobile-toggle"] ;;
  menu <- q [SelClass "nav-menu"] ;;
  match toggle, menu with
  | Some t, Some m =>
      listen (TgNode t) "click" (KMenuToggle t m) ;;
      links <- qa [SelClass "nav-link"] ;;
      for_each links (fun l => listen (TgNode l) "click" (KNavLinkClose t m)) ;;
      listen TgDocument "click" (KOutsideClose t m)
  | _, _ => ret tt
  end.

(** ** setupSmoothScrolling (lines 70-83) *)

(** An anchor's click listener: ['#'] alone does nothing; otherwise
    [$(href)] (a [SyntaxError] for an href that is not a selector) and,
    when it finds an element, the default jump is cancelled and the
    window scrolls to the element less [SCROLL_OFFSET]. *)
Definition smooth_scroll (link : node_id) : M unit :=
  href <- get_attr link "href" ;;
  match href with
  | Some h =>
      if bool_decide (h = "#") then ret tt else
      match parse_id_selector h with
      | None => throw (SyntaxError h)
      | Some sel =>
          tgt <- q sel ;;
          match tgt with
          | Some n => prevent_default ;; scroll_to_element n (SCROLL_OFFSET CONFIG)
          | None => ret tt
          end
      end
  | None =>
      (* [$(null)] looks for a [<null>] element *)
      tgt <- q [SelTag "null"] ;;
      match tgt with
      | Some n => prevent_default ;; scroll_to_element n (SCROLL_OFFSET CONFIG)
      | None => ret tt
      end
  end.

Definition setupSmoothScrolling : M unit :=
  links <- qa [SelAttrPrefix "a" "href" "#"] ;;
  for_each links (fun l => listen (TgNode l) "click" (KSmoothScroll l)).

(** ** setupActiveLinks (lines 85-97) *)

(** [pathname.split('/').pop().replace('.html', '') || 'index'];
    [None] stands for the [TypeError] of calling [replace] on
    [undefined]. *)
Definition current_page (path : string) : option string :=
  match js_pop (js_split "/" path) with
  | Some last =>
      let p := js_replace last ".html" "" in
      Some (if bool_decide (p = "") then "index" else p)
  | None => None
  end.

Definition link_page (href : string) : string :=
  js_replace (js_replace href ".html" "") "./" "".

Definition is_current_link (cur href : string) : bool :=
  bool_decide (link_page href = cur \/ (cur = "index" /\ link_page href = "")).

(** The body of the [forEach] over nav links (lines 88-95). *)
Definition mark_active (cur : string) (l : node_id) : M unit :=
  href <- get_attr l "href" ;;
  match href with
  | Some h => if bool_decide (h <> "") && is_current_link cur h
              then add_class l "active" else ret tt
  | None => ret tt
  end.

Definition setupActiveLinks : M unit :=
  path <- gets w_path ;;
  match current_page path with
  | None => throw (TypeError "pop() is undefined")
  | Some cur =>
      links <- qa [SelClass "nav-link"] ;;
      for_each links (mark_active cur)
  end.

(** ** setupScrollEffects (lines 99-114) *)

(** The function given to [debounce] (lines 103-111). *)
Definition header_scroll (h : node_id) : M unit :=
  y <- gets w_scroll_y ;;
  if bool_decide (50 < y)%Z then
    set_style h "background" "rgba(26, 31, 58, 0.98)" ;;
    set_style h "box-shadow" "0 4px 20px rgba(0, 0, 0, 0.3)"
  else
    set_style h "background" "rgba(26, 31, 58, 0.95)" ;;
    set_style h "box-shadow" "none".

Definition setupScrollEffects : M unit :=
  header <- q [SelClass "header"] ;;
  match header with
  | None => ret tt
  | Some h =>
      c <- new_cell (CellTimeout None) ;;
      listen TgWindow "scroll" (KDebounced c 100 (KHeaderScroll h))
  end.

(** [Navigation.init()] (lines 32-37). *)
Definition init : M unit :=
  setupMobileMenu ;;
  setupSmoothScrolling ;;
  setupActiveLinks ;;
  setupScrollEffects.

End Navigation.

(** ** The mobile menu as a two-state machine *)

Record menu_view := mkMenuView {
  mv_toggle : bool;              (** the toggle carries [active] *)
  mv_menu : bool;                (** the menu carries [active] *)
  mv_overflow : option string    (** [document.body.style.overflow] *)
}.

Inductive menu_input := MenuToggle | MenuClose.

(** The contract of the menu: a toggle flips both classes and locks the
    page's scrolling exactly when the menu opens; a close clears both. *)
Definition menu_spec (i : menu_input) (s : menu_view) : menu_view :=
  match i with
  | MenuToggle =>
      mkMenuView (negb (mv_toggle s)) (negb (mv_menu s))
                 (if negb (mv_menu s) then Some "hidden" else None)
  | MenuClose => mkMenuView false false None
  end.

Definition menu_state (t m : node_id) (w : world) : menu_view :=
  mkMenuView (has_cls (w_doc w) t "active") (has_cls (w_doc w) m "active")
             (style_of (w_doc w) (d_body (w_doc w)) "overflow").

(** What a class or style handler may change: the document, not its tree. *)
Definition doc_frame (w w' : world) : Prop :=
  w' = w_with_doc (w_doc w') w /\ same_tree (w_doc w) (w_doc w').

(** The elements the menu handlers touch exist, and are two elements. *)
Definition menu_nodes (t m : node_id) (d : document) : Prop :=
  t <> m /\ is_Some (get_el d t) /\ is_Some (get_el d m) /\ is_Some (get_el d (d_body d)).

Lemma doc_frame_trans (w1 w2 w3 : world) :
  doc_frame w1 w2 -> doc_frame w2 w3 -> doc_frame w1 w3.
Proof.
  intros [H12 T12] [H23 T23]. split; [|by eapply same_tree_trans].
  rewrite H23, H12. done.
Qed.

Lemma menu_nodes_frame (t m : node_id) (w w' : world) :
  doc_frame w w' -> menu_nodes t m (w_doc w) -> menu_nodes t m (w_doc w').
Proof.
  intros [_ Ht] (? & ? & ? & ?). pose proof Ht as (_ & _ & _ & Hb & _).
  unfold menu_nodes. rewrite <- Hb, <- !(same_tree_is_Some _ _ _ Ht). done.
Qed.

(** Reading the menu's view back through class and style updates. *)
Ltac menu_reads :=
  repeat first
    [ rewrite has_cls_upd_keep by reflexivity
    | rewrite style_of_upd_keep by reflexivity
    | rewrite has_cls_toggle by (rewrite ?get_el_upd_is_Some; done)
    | rewrite has_cls_remove by (rewrite ?get_el_upd_is_Some; done)
    | rewrite has_cls_upd_other by congruence ].


Lemma menu_toggle_refines (t m : node_id) (w : world) :
  menu_nodes t m (w_doc w) ->
  exists w', Navigation.menu_toggle t m w = Ok tt w' /\
    menu_state t m w' = menu_spec MenuToggle (menu_state t m w) /\ doc_frame w w'.
Proof.
  intros (Htm & Ht & Hm & Hb). eexists. split; [reflexivity|]. split.
  - unfold menu_state, menu_spec. cbn -[upd_el has_cls style_of].
    rewrite style_of_set by (rewrite !get_el_upd_is_Some; done).
    menu_reads. f_equal.
    change (match get_el ?d m with Some e => has_class "active" e | None => false end)
      with (has_cls d m "active").
    menu_reads. by destruct (has_cls (w_doc w) m "active").
  - split; [reflexivity|]. simpl. solve_same_tree.
Qed.

Lemma close_menu_refines (t m : node_id) (w : world) :
  menu_nodes t m (w_doc w) ->
  exists w', Navigation.close_menu t m w = Ok tt w' /\
    menu_state t m w' = menu_spec MenuClose (menu_state t m w) /\ doc_frame w w'.
Proof.
  intros (Htm & Ht & Hm & Hb). eexists. split; [reflexivity|]. split.
  - unfold menu_state, menu_spec. cbn -[upd_el has_cls style_of].
    rewrite style_of_set by (rewrite !get_el_upd_is_Some; done).
    menu_reads. done.
  - split; [reflexivity|]. simpl. solve_same_tree.
Qed.

(** A click whose target is inside the toggle or the menu is ignored by
    the document's listener; any other click closes the menu. *)
Lemma outside_close_inside (t m : node_id) (tg : target) (w : world) :
  target_within (w_doc w) t tg || target_within (w_doc w) m tg = true ->
  Navigation.outside_close t m tg w = Ok tt w.
Proof. intros H. unfold Navigation.outside_close, bind, doc_read, gets. by rewrite H. Qed.

Lemma outside_close_outside (t m : node_id) (tg : target) (w : world) :
  menu_nodes t m (w_doc w) ->
  target_within (w_doc w) t tg || target_within (w_doc w) m tg = false ->
  exists w', Navigation.outside_close t m tg w = Ok tt w' /\
    menu_state t m w' = menu_spec MenuClose (menu_state t m w) /\ doc_frame w w'.
Proof.
  intros Hn H. unfold Navigation.outside_close, bind at 1, doc_read, gets. rewrite H.
  by apply close_menu_refines.
Qed.

(** ** What the event loop promises the menu *)

(** The interpreter of closures runs the Navigation listeners as their
    bodies. *)
Class NavigationTasks `{TaskRunner} := {
  run_KMenuToggle t m ev : run_task (KMenuToggle t m) ev = Navigation.menu_toggle t m;
  run_KNavLinkClose t m ev : run_task (KNavLinkClose t m) ev = Navigation.nav_link_close t m;
  run_KOutsideClose t m ev :
    run_task (KOutsideClose t m) ev = Navigation.outside_close t m (ev_target ev);
  run_KSmoothScroll l ev : run_task (KSmoothScroll l) ev = Navigation.smooth_scroll l;
  run_KHeaderScroll h ev : run_task (KHeaderScroll h) ev = Navigation.header_scroll h;
  run_KDebounced c wait k ev : run_task (KDebounced c wait k) ev = debounced_call c wait k
}.

(** The listeners one run of [setupMobileMenu] registers. *)
Definition menu_listeners (t m : node_id) (ls : list node_id) : list listener :=
  mkListener (TgNode t) "click" (KMenuToggle t m) ::
  map (fun l => mkListener (TgNode l) "click" (KNavLinkClose t m)) ls ++
  [mkListener TgDocument "click" (KOutsideClose t m)].

Lemma setupMobileMenu_run (t m : node_id) (w : world) :
  query [SelClass "mobile-toggle"] (w_doc w) = Some t ->
  query [SelClass "nav-menu"] (w_doc w) = Some m ->
  Navigation.setupMobileMenu w =
  Ok tt (w_with_listeners (w_listeners w ++
             menu_listeners t m (query_all [SelClass "nav-link"] (w_doc w))) w).
Proof.
  intros Ht Hm. unfold Navigation.setupMobileMenu, bind at 1, q, doc_read, gets.
  rewrite Ht. unfold bind at 1. rewrite Hm.
  unfold bind, qa, doc_read, gets. simpl.
  rewrite for_each_listen. unfold listen, modify, menu_listeners. simpl.
  by rewrite <- !app_assoc.
Qed.

Lemma setupMobileMenu_repeat (k : nat) (t m : node_id) (w : world) :
  query [SelClass "mobile-toggle"] (w_doc w) = Some t ->
  query [SelClass "nav-menu"] (w_doc w) = Some m ->
  repeat_m k Navigation.setupMobileMenu w =
  Ok tt (w_with_listeners (w_listeners w ++
             concat (replicate k (menu_listeners t m (query_all [SelClass "nav-link"] (w_doc w))))) w).
Proof.
  revert w. induction k as [|k IH]; intros w Ht Hm; simpl.
  - rewrite app_nil_r. by destruct w.
  - unfold bind. rewrite (setupMobileMenu_run t m w Ht Hm). rewrite IH; [|done|done].
    simpl. by rewrite <- app_assoc.
Qed.

Lemma listeners_at_menu (t m : node_id) (ls : list node_id) (tg : target) :
  (forall l, l ∈ ls -> TgNode l <> tg) ->
  listeners_at (menu_listeners t m ls) tg "click" =
  (if bool_decide (tg = TgNode t) then [KMenuToggle t m] else []) ++
  (if bool_decide (tg = TgDocument) then [KOutsideClose t m] else []).
Proof.
  intros Hl. unfold menu_listeners. rewrite listeners_at_cons, listeners_at_app.
  rewrite (listeners_at_map_other ls TgNode) by done. rewrite !listeners_at_one.
  repeat case_bool_decide; naive_solver.
Qed.

Lemma concat_replicate_nil {A} (k : nat) : concat (replicate k (@nil A)) = [].
Proof. induction k; simpl; auto. Qed.

Lemma concat_replicate_one {A} (k : nat) (x : A) : concat (replicate k [x]) = replicate k x.
Proof. induction k; simpl; [done|]. by f_equal. Qed.

Lemma concat_map_replicate {A B} (f : A -> list B) (k : nat) (x : A) :
  concat (map f (replicate k x)) = concat (replicate k (f x)).
Proof. induction k; simpl; [done|]. by f_equal. Qed.

Lemma flat_map_map_nil {A B C} (f : B -> list C) (g : A -> B) (l : list A) :
  (forall a, a ∈ l -> f (g a) = []) -> flat_map f (map g l) = [].
Proof.
  induction l as [|a l IH]; intros H; simpl; [done|].
  rewrite H by by left. apply IH. intros b Hb. apply H. by right.
Qed.

(** The click listeners met on the way from the toggle to the window,
    after [k] runs of [setupMobileMenu] on a page with no other click
    listener, when neither the toggle nor its ancestors are nav links. *)
Lemma menu_click_tasks (k : nat) (t m : node_id) (ls : list node_id) (L0 : list listener)
    (d : document) :
  no_listeners_of "click" L0 -> connected d t = true ->
  t ∉ ancestors d t -> (forall a, a ∈ t :: ancestors d t -> a ∉ ls) ->
  flat_map (fun tg => listeners_at (L0 ++ concat (replicate k (menu_listeners t m ls))) tg "click")
           (target_path d (TgNode t) true) =
  replicate k (KMenuToggle t m) ++ replicate k (KOutsideClose t m).
Proof.
  intros H0 Hc Hacy Hls. cbn [target_path]. rewrite Hc. cbn [flat_map].
  assert (Hat : forall tg, (forall l, l ∈ ls -> TgNode l <> tg) ->
    listeners_at (L0 ++ concat (replicate k (menu_listeners t m ls))) tg "click" =
    concat (replicate k ((if bool_decide (tg = TgNode t) then [KMenuToggle t m] else []) ++
      (if bool_decide (tg = TgDocument) then [KOutsideClose t m] else [])))).
  { intros tg Htg. rewrite listeners_at_app, listeners_at_none by done.
    rewrite listeners_at_concat, concat_map_replicate, listeners_at_menu by done. done. }
  rewrite flat_map_app. cbn [flat_map].
  rewrite (Hat (TgNode t)); [|intros l Hl [= ->]; by apply (Hls t); [left|]].
  rewrite (Hat TgDocument), (Hat TgWindow) by done.
  rewrite !bool_decide_eq_true_2 by done.
  rewrite (bool_decide_eq_false_2 (TgNode t = TgDocument)),
          (bool_decide_eq_false_2 (TgDocument = TgNode t)),
          (bool_decide_eq_false_2 (TgWindow = TgNode t)),
          (bool_decide_eq_false_2 (TgWindow = TgDocument)) by done.
  simpl. rewrite !app_nil_r, !concat_replicate_one, concat_replicate_nil.
  assert (Hanc : flat_map (fun tg => listeners_at (L0 ++ concat (replicate k (menu_listeners t m ls))) tg "click")
                          (map TgNode (ancestors d t)) = []).
  { apply flat_map_map_nil. intros a Ha.
    assert (a <> t) by (intros ->; done).
    assert (a ∉ ls) by (apply Hls; by right).
    rewrite Hat; [|intros l Hl [= ->]; done].
    rewrite !bool_decide_eq_false_2 by congruence. simpl. apply concat_replicate_nil. }
  by rewrite Hanc, app_nil_r.
Qed.

Lemma keeps_menu_toggle (t m : node_id) : keeps_listeners (Navigation.menu_toggle t m).
Proof. intros w. reflexivity. Qed.

Lemma keeps_outside_close (t m : node_id) (tg : target) :
  keeps_listeners (Navigation.outside_close t m tg).
Proof.
  intros w. unfold Navigation.outside_close, bind at 1, doc_read, gets.
  destruct (_ || _); reflexivity.
Qed.

Section menu_events.
Context `{NavigationTasks}.

Lemma run_menu_toggles (j : nat) (t m : node_id) (ev : event) (w : world) :
  menu_nodes t m (w_doc w) ->
  exists w', for_each (replicate j (KMenuToggle t m)) (run_listener ev) w = Ok tt w' /\
    menu_state t m w' = Nat.iter j (menu_spec MenuToggle) (menu_state t m w) /\
    doc_frame w w'.
Proof.
  revert w. induction j as [|j IH]; intros w Hn.
  - exists w. split; [done|]. split; [done|]. split; [by destruct w|apply same_tree_refl].
  - destruct (menu_toggle_refines t m w Hn) as (w1 & Hrun & Hs1 & Hf1).
    destruct (IH w1) as (w2 & Hrun2 & Hs2 & Hf2); [by eapply menu_nodes_frame|].
    exists w2. cbn [replicate for_each]. unfold bind.
    rewrite (run_listener_of_ok ev _ w w1); [|by rewrite run_KMenuToggle].
    split; [done|]. split; [|by eapply doc_frame_trans].
    rewrite Hs2, Hs1. symmetry. apply Nat.iter_succ_r.
Qed.

Lemma run_outside_inside (j : nat) (t m : node_id) (ev : event) (w : world) :
  target_within (w_doc w) t (ev_target ev) = true ->
  for_each (replicate j (KOutsideClose t m)) (run_listener ev) w = Ok tt w.
Proof.
  intros Hin. induction j as [|j IH]; [done|]. cbn [replicate for_each]. unfold bind.
  rewrite (run_listener_of_ok ev _ w w); [done|].
  rewrite run_KOutsideClose. apply outside_close_inside. by rewrite Hin.
Qed.

(** After [k] runs of [setupMobileMenu], one click on the toggle runs
    its listener [k] times: the menu takes [k] toggle steps. *)
Lemma menu_click_after_inits (k : nat) (w : world) (t m : node_id) :
  query [SelClass "mobile-toggle"] (w_doc w) = Some t ->
  query [SelClass "nav-menu"] (w_doc w) = Some m ->
  menu_nodes t m (w_doc w) -> t ∉ ancestors (w_doc w) t ->
  Forall (fun a => a ∉ query_all [SelClass "nav-link"] (w_doc w)) (t :: ancestors (w_doc w) t) ->
  no_listeners_of "click" (w_listeners w) ->
  exists w1 w2, repeat_m k Navigation.setupMobileMenu w = Ok tt w1 /\
    dispatch (simple_event "click" (TgNode t)) w1 = Ok false w2 /\
    menu_state t m w2 = Nat.iter k (menu_spec MenuToggle) (menu_state t m w).
Proof.
  intros Ht Hm Hn Hacy Hls Hnone. rewrite Forall_forall in Hls.
  set (ev := simple_event "click" (TgNode t)).
  set (L := w_listeners w ++ concat (replicate k (menu_listeners t m
              (query_all [SelClass "nav-link"] (w_doc w))))).
  set (w1 := w_with_listeners L w).
  set (w1' := w_with_prevented false w1).
  destruct (run_menu_toggles k t m ev w1' Hn) as (w2 & Hrun & Hs & Hf).
  exists w1, (w_with_prevented (w_prevented w1) w2). split; [by apply setupMobileMenu_repeat|].
  assert (Hflat : flat_map (fun tg => listeners_at (w_listeners w1') tg (ev_type ev))
                    (target_path (w_doc w1') (ev_target ev) (bubbles (ev_type ev))) =
                  replicate k (KMenuToggle t m) ++ replicate k (KOutsideClose t m)).
  { apply menu_click_tasks; auto. by apply query_found in Ht as [? _]. }
  assert (Hkeeps : Forall (fun k0 => keeps_listeners (run_task k0 ev))
                     (replicate k (KMenuToggle t m) ++ replicate k (KOutsideClose t m))).
  { apply Forall_app. split; apply Forall_replicate.
    - rewrite run_KMenuToggle. apply keeps_menu_toggle.
    - rewrite run_KOutsideClose. apply keeps_outside_close. }
  split.
  - destruct Hf as [Hp Htr]. replace false with (w_prevented w2) by (rewrite Hp; reflexivity).
    apply dispatch_flat; fold w1'; rewrite Hflat; [exact Hkeeps|].
    rewrite for_each_app. unfold bind at 1. rewrite Hrun.
    apply run_outside_inside. simpl. rewrite <- (contains_same_tree _ _ _ _ Htr).
    apply contains_refl.
  - change (menu_state t m w2 = Nat.iter k (menu_spec MenuToggle) (menu_state t m w)).
    rewrite Hs. done.
Qed.
(** C2: Running [setupMobileMenu] a second time (as a second bootstrap
    does) registers a second toggle listener: a click on the toggle
    then toggles twice, so a closed menu stays closed. *)
Theorem double_init_menu_never_opens (w : world) (t m : node_id) :
  query [SelClass "mobile-toggle"] (w_doc w) = Some t ->
  query [SelClass "nav-menu"] (w_doc w) = Some m ->
  menu_nodes t m (w_doc w) -> t ∉ ancestors (w_doc w) t ->
  Forall (fun a => a ∉ query_all [SelClass "nav-link"] (w_doc w)) (t :: ancestors (w_doc w) t) ->
  no_listeners_of "click" (w_listeners w) ->
  has_cls (w_doc w) m "active" = false ->
  exists w1 w2, repeat_m 2 Navigation.setupMobileMenu w = Ok tt w1 /\
    dispatch (simple_event "click" (TgNode t)) w1 = Ok false w2 /\
    has_cls (w_doc w2) m "active" = false /\
    has_cls (w_doc w2) t "active" = has_cls (w_doc w) t "active".
Proof.
  intros Ht Hm Hn Hacy Hls Hnone Hclosed.
  destruct (menu_click_after_inits 2 w t m Ht Hm Hn Hacy Hls Hnone) as (w1 & w2 & H1 & H2 & Hs).
  exists w1, w2. split; [done|]. split; [done|].
  unfold menu_state in Hs. simpl in Hs. injection Hs as Ht' Hm' _.
  rewrite Ht', Hm', Hclosed. by destruct (has_cls (w_doc w) t "active").
Qed.
(** C3: After one run of [setupMobileMenu], a click on the toggle takes
    exactly the contract's toggle step: both classes flip and the page's
    scrolling is locked exactly when the menu opens. *)
Theorem menu_click_toggles_once (w : world) (t m : node_id) :
  query [SelClass "mobile-toggle"] (w_doc w) = Some t ->
  query [SelClass "nav-menu"] (w_doc w) = Some m ->
  menu_nodes t m (w_doc w) -> t ∉ ancestors (w_doc w) t ->
  Forall (fun a => a ∉ query_all [SelClass "nav-link"] (w_doc w)) (t :: ancestors (w_doc w) t) ->
  no_listeners_of "click" (w_listeners w) ->
  exists w1 w2, Navigation.setupMobileMenu w = Ok tt w1 /\
    dispatch (simple_event "click" (TgNode t)) w1 = Ok false w2 /\
    menu_state t m w2 = menu_spec MenuToggle (menu_state t m w).
Proof.
  intros Ht Hm Hn Hacy Hls Hnone.
  destruct (menu_click_after_inits 1 w t m Ht Hm Hn Hacy Hls Hnone) as (w1 & w2 & H1 & H2 & Hs).
  exists w1, w2. split; [|by split].
  rewrite <- H1. simpl. unfold bind. destruct (Navigation.setupMobileMenu w); [|done].
  by destruct a.
Qed.
End menu_events.

(** C4: The three listeners [setupMobileMenu] registers implement the menu's
    contract: the toggle's listener takes the toggle step, a nav link's
    listener the close step, and the document's listener the close step
    for a click outside the toggle and the menu and no step for a click
    inside them; none changes more than the document's classes and
    styles. *)
Theorem menu_listeners_refine (t m : node_id) (tg : target) (w : world) :
  menu_nodes t m (w_doc w) ->
  (exists w', Navigation.menu_toggle t m w = Ok tt w' /\
     menu_state t m w' = menu_spec MenuToggle (menu_state t m w) /\ doc_frame w w') /\
  (exists w', Navigation.nav_link_close t m w = Ok tt w' /\
     menu_state t m w' = menu_spec MenuClose (menu_state t m w) /\ doc_frame w w') /\
  (exists w', Navigation.outside_close t m tg w = Ok tt w' /\ doc_frame w w' /\
     menu_state t m w' =
       if target_within (w_doc w) t tg || target_within (w_doc w) m tg
       then menu_state t m w else menu_spec MenuClose (menu_state t m w)).
Proof.
  intros Hn. split; [by apply menu_toggle_refines|]. split; [by apply close_menu_refines|].
  destruct (target_within (w_doc w) t tg || target_within (w_doc w) m tg) eqn:Hin.
  - exists w. rewrite outside_close_inside by done.
    split; [done|]. split; [|done]. split; [by destruct w|apply same_tree_refl].
  - destruct (outside_close_outside t m tg w Hn Hin) as (w' & ? & ? & ?). eauto.
Qed.


(** ** The active link *)

(** The nav link [l] points to the current page [cur]: its [href] is not
    empty and names [cur]. *)
Definition href_current (cur : string) (d : document) (l : node_id) : bool :=
  match get_el d l with
  | Some e => match el_attrs e !! "href" with
              | Some h => bool_decide (h <> "") && Navigation.is_current_link cur h
              | None => false
              end
  | None => false
  end.

Lemma href_current_upd_classes (cur : string) (d : document) (n l : node_id) (g : list string -> list string) :
  href_current cur (upd_el n (fun e => {| e with el_classes := g (el_classes e) |}) d) l = href_current cur d l.
Proof.
  unfold href_current. destruct (decide (n = l)) as [->|Hne]; get_el_simpl; [|done].
  by destruct (get_el d l).
Qed.

(** Marking is a no-op for a link that does not point to the page. *)
Lemma mark_active_none (cur : string) (l0 : node_id) (w : world) :
  href_current cur (w_doc w) l0 = false ->
  forall l, has_cls (w_doc w) l "active" =
            has_cls (w_doc w) l "active" || bool_decide (l = l0) && href_current cur (w_doc w) l.
Proof. intros H l. case_bool_decide; subst; [by rewrite H, orb_false_r|by rewrite orb_false_r]. Qed.

Lemma mark_active_spec (cur : string) (l0 : node_id) (w : world) :
  exists w', Navigation.mark_active cur l0 w = Ok tt w' /\ same_tree (w_doc w) (w_doc w') /\
    (forall l, has_cls (w_doc w') l "active" =
               has_cls (w_doc w) l "active" || bool_decide (l = l0) && href_current cur (w_doc w) l) /\
    (forall l, href_current cur (w_doc w') l = href_current cur (w_doc w) l).
Proof.
  unfold Navigation.mark_active, bind at 1, get_attr, el_get, doc_read, gets.
  destruct (href_current cur (w_doc w) l0) eqn:Hc; unfold href_current in Hc;
    destruct (get_el (w_doc w) l0) as [e|] eqn:He; try discriminate;
    try destruct (el_attrs e !! "href") as [h|] eqn:Hh; try discriminate; simpl; rewrite ?Hc;
    try (exists w; split; [done|]; split; [apply same_tree_refl|];
         split; [apply mark_active_none; unfold href_current; by rewrite ?He, ?Hh, ?Hc|done]).
  eexists. split; [reflexivity|]. wsimpl. split; [apply upd_el_same_tree; done|]. split.
  - intros l. destruct (decide (l = l0)) as [->|Hne].
    + rewrite has_cls_add by (rewrite He; by eexists). unfold href_current. rewrite He, Hh, Hc.
      by rewrite bool_decide_eq_true_2, orb_true_r.
    + rewrite has_cls_upd_other by congruence. by rewrite bool_decide_eq_false_2, orb_false_r.
  - intros l. apply href_current_upd_classes.
Qed.

(** The loop over the links marks, on top of what was marked, exactly the
    listed links that point to the page. *)
Lemma mark_active_loop (cur : string) (ls : list node_id) (w : world) :
  exists w', for_each ls (Navigation.mark_active cur) w = Ok tt w' /\ same_tree (w_doc w) (w_doc w') /\
    forall l, has_cls (w_doc w') l "active" =
              has_cls (w_doc w) l "active" || bool_decide (l ∈ ls) && href_current cur (w_doc w) l.
Proof.
  revert w. induction ls as [|l0 ls IH]; intros w.
  - exists w. split; [done|]. split; [apply same_tree_refl|]. intros l.
    rewrite bool_decide_eq_false_2 by (by intros ?%elem_of_nil). by rewrite orb_false_r.
  - destruct (mark_active_spec cur l0 w) as (w1 & H1 & Hs1 & Hc1 & Hh1).
    destruct (IH w1) as (w2 & H2 & Hs2 & Hc2). exists w2. simpl. unfold bind at 1. rewrite H1.
    split; [done|]. split; [by eapply same_tree_trans|]. intros l.
    rewrite Hc2, Hc1, Hh1. rewrite <- orb_assoc. f_equal.
    destruct (decide (l = l0)) as [->|Hne].
    + rewrite (bool_decide_eq_true_2 (l0 = l0)) by done.
      rewrite (bool_decide_eq_true_2 (l0 ∈ l0 :: ls)) by constructor.
      by destruct (href_current _ _ _), (bool_decide (l0 ∈ ls)).
    + rewrite (bool_decide_eq_false_2 (l = l0)) by done. simpl.
      replace (bool_decide (l ∈ l0 :: ls)) with (bool_decide (l ∈ ls)); [done|].
      apply bool_decide_ext. rewrite elem_of_cons. naive_solver.
Qed.

(** C32: [setupActiveLinks] on a page [cur]: a nav link gets the [active]
    class exactly when its [href] is not empty and names the current page
    ([x.html] or [./x.html] on page [x], an empty link on the index page);
    the links already marked stay marked and nothing else changes in the
    tree. *)
Theorem setupActiveLinks_spec (w : world) (cur : string) :
  Navigation.current_page (w_path w) = Some cur ->
  exists w', Navigation.setupActiveLinks w = Ok tt w' /\ same_tree (w_doc w) (w_doc w') /\
    forall l, has_cls (w_doc w') l "active" =
      has_cls (w_doc w) l "active" ||
      bool_decide (l ∈ query_all [SelClass "nav-link"] (w_doc w)) && href_current cur (w_doc w) l.
Proof.
  intros Hp. unfold Navigation.setupActiveLinks, bind at 1, gets. rewrite Hp.
  unfold bind, qa, doc_read, gets. apply mark_active_loop.
Qed.

(** ** Page URLs *)

(** A page name: no dot and no slash. *)
Fixpoint plain_name (s : string) : bool :=
  match s with
  | EmptyString => true
  | String c s' => bool_decide (c <> "."%char /\ c <> "/"%char) && plain_name s'
  end.

Lemma plain_name_split (p : string) : plain_name p = true -> js_split "/" (p +:+ ".html") = [p +:+ ".html"].
Proof.
  induction p as [|c p IH]; simpl; [done|].
  intros [Hc Hp]%andb_prop. apply bool_decide_eq_true in Hc as [Hc1 Hc2].
  rewrite IH by done. by rewrite bool_decide_eq_false_2.
Qed.

(** A replacement of a pattern starting with a dot skips a page name. *)
Lemma plain_name_replace (p s rest rep : string) :
  plain_name p = true ->
  js_replace (p +:+ s) (String "." rest) rep = p +:+ js_replace s (String "." rest) rep.
Proof.
  induction p as [|c p IH]; simpl; [done|].
  intros [Hc Hp]%andb_prop. apply bool_decide_eq_true in Hc as [Hc1 Hc2].
  rewrite bool_decide_eq_false_2 by congruence. simpl. by rewrite IH.
Qed.

(** Removing [.html] from [p.html] gives back a page name. *)
Lemma replace_html_plain (p : string) :
  plain_name p = true -> js_replace (p +:+ ".html") ".html" EmptyString = p.
Proof. intros Hp. rewrite plain_name_replace by done. simpl. by rewrite append_empty_r. Qed.

(** The page served at [dir/p.html] is named [p]. *)
Lemma current_page_url (dir p : string) :
  plain_name p = true -> p <> EmptyString ->
  Navigation.current_page (dir +:+ "/" +:+ p +:+ ".html") = Some p.
Proof.
  intros Hp Hne. unfold Navigation.current_page.
  change ("/" +:+ p +:+ ".html") with (String "/" (p +:+ ".html")).
  rewrite js_split_app_sep, plain_name_split by done. unfold js_pop.
  rewrite last_app. simpl. rewrite replace_html_plain by done. by rewrite bool_decide_eq_false_2.
Qed.

(** C33: Page URLs round-trip: for a page name [p] (no dot, no slash, not
    empty) the page served at [dir/p.html] is named [p] by
    [current_page], and the nav links [p.html] and [./p.html] both name
    [p] through [link_page], so each is recognised as the current link. *)
Theorem page_url_roundtrip (dir p : string) :
  plain_name p = true -> p <> EmptyString ->
  Navigation.current_page (dir +:+ "/" +:+ p +:+ ".html") = Some p /\
  Navigation.link_page (p +:+ ".html") = p /\ Navigation.link_page ("./" +:+ p +:+ ".html") = p.
Proof.
  intros Hp Hne. split; [by apply current_page_url|]. unfold Navigation.link_page. split.
  - rewrite replace_html_plain by done. rewrite <- (append_empty_r p) at 1.
    rewrite plain_name_replace by done. by rewrite append_empty_r.
  - change ("./" +:+ p +:+ ".html") with (String "." (String "/" (p +:+ ".html"))).
    simpl. rewrite replace_html_plain by done. simpl. done.
Qed.

(** ** In-page anchors *)

(** The [offsetTop] of a node, [0] for a missing one. *)
Definition offset_top (d : document) (n : node_id) : Z :=
  match get_el d n with Some e => el_offset_top e | None => 0%Z end.

(** C29: A click on an in-page anchor whose [href] names an element by id
    prevents the browser's jump and requests a smooth scroll to that
    element's [offsetTop] less the 80-pixel header offset; when no element
    has that id, the click is left to the browser. *)
Theorem smooth_scroll_spec (link : node_id) (e : element) (h : string) (sel : selector) (w : world) :
  get_el (w_doc w) link = Some e -> el_attrs e !! "href" = Some h -> h <> "#" ->
  parse_id_selector h = Some sel ->
  (forall n, query sel (w_doc w) = Some n ->
     Navigation.smooth_scroll link w =
     Ok tt (w_with_scroll_requests (w_scroll_requests w ++ [(offset_top (w_doc w) n - 80)%Z])
                                   (w_with_prevented true w))) /\
  (query sel (w_doc w) = None -> Navigation.smooth_scroll link w = Ok tt w).
Proof.
  intros He Hh Hne Hsel. split; [intros n Hq|intros Hq];
    unfold Navigation.smooth_scroll, bind at 1, get_attr, el_get, doc_read, gets;
    rewrite He, Hh, bool_decide_eq_false_2, Hsel by done;
    unfold bind at 1, q, doc_read, gets; pattern (query sel (w_doc w)); rewrite Hq; cbv beta; [|done].
  cbv [bind prevent_default modify scroll_to_element el_get doc_read gets scroll_to].
  wsimpl. unfold offset_top. by destruct (get_el (w_doc w) n).
Qed.

(** ** [debounce] *)

(** The pending timers after [clearTimeout(timeout)]. *)
Definition remove_timer (p : option N) (ts : list timer) : list timer :=
  match p with
  | Some t => List.filter (fun tm => negb (bool_decide (t_id tm = t))) ts
  | None => ts
  end.

Lemma remove_timer_last (L : list timer) (tm : timer) :
  Forall (fun x => (t_id x < t_id tm)%N) L -> remove_timer (Some (t_id tm)) (L ++ [tm]) = L.
Proof.
  intros HL. induction HL as [|x L Hx _ IH]; simpl.
  - by rewrite bool_decide_eq_true_2.
  - rewrite bool_decide_eq_false_2 by lia. simpl. by f_equal.
Qed.

(** One call of the debounced function: the pending timeout is cleared
    and the function is scheduled [wait] ms later. *)
Lemma debounced_call_spec (c : N) (wait : Z) (inner : task) (p : option N) (w : world) :
  w_cells w !! c = Some (CellTimeout p) ->
  exists w', debounced_call c wait inner w = Ok tt w' /\
    w_timers w' = remove_timer p (w_timers w) ++
                  [mkTimer (w_next_timer w) (w_now w + Z.max 0 wait) None inner] /\
    w_cells w' !! c = Some (CellTimeout (Some (w_next_timer w))) /\
    w_next_timer w' = (w_next_timer w + 1)%N /\ w_now w' = w_now w /\ w_doc w' = w_doc w.
Proof.
  intros Hc. unfold debounced_call, bind at 1, get_cell, gets. rewrite Hc.
  destruct p as [t|]; cbv [bind clear_timer modify set_timeout add_timer set_cell ret];
    eexists; (split; [reflexivity|]); wsimpl; rewrite lookup_insert_eq; by repeat split.
Qed.

(** C30: A burst of [k + 1] calls of a debounced function, with no time
    passing between them (a burst of [scroll] events), leaves exactly one
    pending timeout for it: the last one, due [wait] ms after the burst;
    the timeout pending before the burst and those of the burst's earlier
    calls are cleared, so the function runs once, after a quiet period. *)
Theorem debounce_burst (k : nat) (c : N) (wait : Z) (inner : task) (p : option N) (w : world) :
  w_cells w !! c = Some (CellTimeout p) -> timers_below_next w ->
  exists w', repeat_m (S k) (debounced_call c wait inner) w = Ok tt w' /\
    w_timers w' = remove_timer p (w_timers w) ++
      [mkTimer (w_next_timer w + N.of_nat k) (w_now w + Z.max 0 wait) None inner] /\
    w_cells w' !! c = Some (CellTimeout (Some (w_next_timer w + N.of_nat k)%N)) /\
    w_next_timer w' = (w_next_timer w + N.of_nat k + 1)%N /\ w_now w' = w_now w /\ w_doc w' = w_doc w.
Proof.
  revert p w. induction k as [|k IH]; intros p w Hc Ht;
    destruct (debounced_call_spec c wait inner p w Hc) as (w1 & H1 & Ht1 & Hc1 & Hn1 & Hnow1 & Hd1).
  - exists w1. simpl. unfold bind. rewrite H1. rewrite N.add_0_r. by repeat split.
  - assert (HL : Forall (fun x => (t_id x < w_next_timer w)%N) (remove_timer p (w_timers w))).
    { destruct p; [by apply timers_below_filter|exact Ht]. }
    assert (Ht1' : timers_below_next w1).
    { unfold timers_below_next. rewrite Ht1, Hn1. apply Forall_app. split; [|constructor; simpl; [lia|constructor]].
      eapply Forall_impl; [exact HL|]. simpl. lia. }
    destruct (IH _ w1 Hc1 Ht1') as (w2 & H2 & Ht2 & Hc2 & Hn2 & Hnow2 & Hd2).
    exists w2. change (repeat_m (S (S k)) (debounced_call c wait inner))
      with (debounced_call c wait inner ;; repeat_m (S k) (debounced_call c wait inner)).
    unfold bind at 1. rewrite H1. split; [done|].
    rewrite Ht2, Ht1, (remove_timer_last _ (mkTimer (w_next_timer w) _ None inner)) by exact HL.
    rewrite Hc2, Hn2, Hn1, Hnow2, Hnow1, Hd2, Hd1.
    replace (w_next_timer w + 1 + N.of_nat k)%N with (w_next_timer w + N.of_nat (S k))%N by lia.
    repeat split; f_equal; lia.
Qed.
