(* ===== verification/Konami.v ===== *)
(** * Konami: the keystroke easter egg of [src/Script.js] (lines 823-854)

    The module-level array [konamiCode] ([w_konami]) receives every
    [keyCode] of a keydown on the document; when it grows past the length
    of [konamiSequence] its oldest key is shifted out; when its
    [join(',')] equals the sequence's, the page is put in "rainbow mode"
    for ten seconds.  [konami_push] is the buffer update, [konami_matches]
    the comparison, [konami_keydown] the whole listener and
    [konami_restore] the timer callback that ends the mode. *)

From Stdlib Require Import ZArith Lia Ascii.
From stdpp Require Import base list gmap strings.
From S2P Require Import Prelude JsString Dom World Events.

(** [konamiSequence] (line 825): up up down down left right left right B A. *)
Definition konamiSequence : list N := [38; 38; 40; 40; 37; 39; 37; 39; 66; 65]%N.

(** [konamiCode.push(k)], then [shift()] when longer than the sequence
    (lines 828-832). *)
Definition konami_push (code : list N) (key : N) : list N :=
  let c := code ++ [key] in
  if bool_decide (length konamiSequence < length c) then tail c else c.

(** [konamiCode.join(',') === konamiSequence.join(',')] (line 834). *)
Definition konami_matches (code : list N) : bool :=
  bool_decide (js_join "," (map show_N code) = js_join "," (map show_N konamiSequence)).

Definition rainbow_css : string :=
  "
      @keyframes rainbow {
        0% { filter: hue-rotate(0deg); }
        100% { filter: hue-rotate(360deg); }
      }
    ".

(** The document's keydown listener (lines 827-854). *)
Definition konami_keydown (ev : event) : M unit :=
  code <- gets w_konami ;;
  let code' := konami_push code (ev_key_code ev) in
  modify (w_with_konami code') ;;
  if konami_matches code' then
    b <- body ;;
    set_style b "animation" "rainbow 2s infinite" ;;
    style <- create "style" ;;
    set_text style rainbow_css ;;
    h <- head_el ;;
    append h style ;;
    _ <- set_timeout (KKonamiRestore style) 10000 ;;
    log_info "🌈 BLACKFLAME NOVA RAINBOW MODE ACTIVATED! 🌈"
  else ret tt.

(** The timer callback (lines 847-850). *)
Definition konami_restore (style : node_id) : M unit :=
  b <- body ;;
  set_style b "animation" "" ;;
  remove_m style.

(** The buffer after a run of keys from the empty array of page load. *)
Definition konami_run (keys : list N) : list N := fold_left konami_push keys [].

(** What the event loop promises the easter egg. *)
Class KonamiTasks `{TaskRunner} := {
  run_KKonami ev : run_task KKonami ev = konami_keydown ev;
  run_KKonamiRestore s ev : run_task (KKonamiRestore s) ev = konami_restore s
}.

(** ** Lemmas *)

(** One push on the last ten keys gives the last ten keys. *)
Lemma konami_push_last_n (keys : list N) (k : N) :
  konami_push (last_n 10 keys) k = last_n 10 (keys ++ [k]).
Proof.
  unfold konami_push, last_n. change (length konamiSequence) with 10.
  rewrite length_app, length_skipn. simpl length.
  rewrite <- skipn_snoc by lia.
  case_bool_decide as H.
  - rewrite tail_skipn. f_equal. rewrite length_app. simpl. lia.
  - rewrite length_app. simpl. f_equal. lia.
Qed.

Lemma konami_run_app (keys : list N) (k : N) :
  konami_run (keys ++ [k]) = konami_push (konami_run keys) k.
Proof. unfold konami_run. by rewrite fold_left_app. Qed.

(** The buffer always holds the last ten keys pressed. *)
Lemma konami_run_last_n (keys : list N) : konami_run keys = last_n 10 keys.
Proof.
  induction keys as [|k keys IH] using rev_ind; [done|].
  by rewrite konami_run_app, IH, konami_push_last_n.
Qed.

(** Comparing the joined strings is comparing the arrays. *)
Lemma konami_matches_spec (code : list N) :
  konami_matches code = bool_decide (code = konamiSequence).
Proof.
  unfold konami_matches. apply bool_decide_ext. split; [apply join_show_N_inj|by intros ->].
Qed.

Definition rainbow_on (w : world) : Prop :=
  style_of (w_doc w) (d_body (w_doc w)) "animation" = Some "rainbow 2s infinite".

(** The listener when the buffer does not match: only the buffer changes. *)
Lemma konami_keydown_nomatch (ev : event) (w : world) :
  konami_matches (konami_push (w_konami w) (ev_key_code ev)) = false ->
  konami_keydown ev w = Ok tt (w_with_konami (konami_push (w_konami w) (ev_key_code ev)) w).
Proof. intros Hm. unfold konami_keydown, bind, gets, modify. by rewrite Hm. Qed.

(** The listener when the buffer matches: the body turns to the rainbow
    and the restore timer is armed. *)
Lemma konami_keydown_match (ev : event) (w : world) :
  konami_matches (konami_push (w_konami w) (ev_key_code ev)) = true ->
  ids_below_next (w_doc w) -> is_Some (get_el (w_doc w) (d_body (w_doc w))) ->
  exists w', konami_keydown ev w = Ok tt w' /\
    w_konami w' = konami_push (w_konami w) (ev_key_code ev) /\ rainbow_on w' /\
    mkTimer (w_next_timer w) (w_now w + 10000) None (KKonamiRestore (d_next (w_doc w))) ∈ w_timers w'.
Proof.
  intros Hm Hids Hb. unfold konami_keydown, bind at 1 2, gets, modify. rewrite Hm.
  eexists. split; [reflexivity|]. split; [done|]. split.
  - unfold rainbow_on. cbn [w_doc w_with_doc w_with_konami w_with_timers w_with_console].
    unfold append_child. autorewrite with bn_rw.
    pose proof (below_next_neq _ _ Hids Hb) as Hne.
    rewrite !style_of_upd_other by done.
    rewrite style_of_add_node_other by done.
    apply (style_of_set (w_doc w)). done.
  - simpl. apply elem_of_app. right. by left.
Qed.

(** C20: The keydown listener: the buffer becomes the last ten keys pressed;
    when they are the Konami sequence the body's animation is set to the
    rainbow and a timer is armed to end it 10 s later; otherwise nothing
    else changes. *)
Lemma konami_keydown_spec (keys : list N) (ev : event) (w : world) :
  w_konami w = konami_run keys ->
  ids_below_next (w_doc w) -> is_Some (get_el (w_doc w) (d_body (w_doc w))) ->
  let keys' := keys ++ [ev_key_code ev] in
  exists w', konami_keydown ev w = Ok tt w' /\ w_konami w' = last_n 10 keys' /\
    (last_n 10 keys' = konamiSequence ->
       rainbow_on w' /\
       mkTimer (w_next_timer w) (w_now w + 10000) None (KKonamiRestore (d_next (w_doc w)))
         ∈ w_timers w') /\
    (last_n 10 keys' <> konamiSequence -> w' = w_with_konami (last_n 10 keys') w).
Proof.
  intros Hk Hids Hb keys'. rewrite konami_run_last_n in Hk.
  assert (Hp : konami_push (w_konami w) (ev_key_code ev) = last_n 10 keys')
    by (rewrite Hk; apply konami_push_last_n).
  destruct (konami_matches (konami_push (w_konami w) (ev_key_code ev))) eqn:Hm.
  - destruct (konami_keydown_match ev w Hm Hids Hb) as (w' & Hrun & Hc & Hr & Ht).
    rewrite konami_matches_spec, Hp in Hm. apply bool_decide_eq_true in Hm.
    exists w'. rewrite Hc, Hp. naive_solver.
  - rewrite konami_keydown_nomatch by done. eexists. split; [reflexivity|].
    rewrite konami_matches_spec, Hp in Hm. apply bool_decide_eq_false in Hm.
    rewrite Hp. simpl. naive_solver.
Qed.

(** C19: From page load, after any sequence of keys, the easter egg fires on
    the last key exactly when the last ten keys pressed are
    up up down down left right left right B A. *)
Theorem konami_trigger_iff (keys : list N) :
  konami_matches (konami_run keys) = bool_decide (last_n 10 keys = konamiSequence).
Proof. by rewrite konami_matches_spec, konami_run_last_n. Qed.
