(* ===== verification/Minecraft.v ===== *)
(** * Minecraft: the [Minecraft] object of [src/Script.js] (lines 336-504)

    The simulated server status ([checkServerStatus], re-run every five
    minutes), the copy of a server address to the clipboard with its
    [execCommand] fallback ([copyToClipboard]; the fallback selects a
    textarea holding the text and copies the selection), the simulated ping
    ([updatePing], every ten seconds) and the toast notification
    ([showToast]) with its two timers.  A draw [k] of [Math.random()]
    stands for the double [k / 2^53]; [Math.random() * 100] is the double
    product of [Double] ([dmul]), floored, and [0.2] is the double
    [7205759403792794 / 2^55] nearest 1/5 ([lit_0_2]).  The status test
    [Math.random() > 0.2] is then the exact comparison of [k / 2^53] with
    1/5 ([draw_gt_0_2_exact]), and the ping lies in [[20, 120)] because
    the rounded product of a draw by 100 stays below 100
    ([draw_times_floor]).  The theorems at the end follow a copy on
    both of its paths and a toast through its two timers ([ToastTasks]
    states what the event loop runs for them). *)

From Stdlib Require Import ZArith QArith Lia Lqa Ascii SpecFloat.
From stdpp Require Import base list gmap strings.
From S2P Require Import Prelude JsString Double JsNumber Dom Config World Events.

Local Open Scope Z_scope.

(** The range of [Math.random()] draws: [0 <= k < 2^53]. *)
Definition two53 : Z := 2 ^ 53.

Definition valid_draw (k : Z) : Prop := 0 <= k < two53.

(** The literal [0.2]: the double nearest 1/5, [7205759403792794 / 2^55]
    ([lit_0_2_nearest]). *)
Definition lit_0_2 : spec_float := S754_finite false 7205759403792794 (-55).

(** [Math.random() > 0.2] (line 360). *)
Definition draw_gt_0_2 (k : Z) : bool := dgt (of_draw k) lit_0_2.

(** [Math.floor(Math.random() * 100) + 20] (line 447): the product is the
    double nearest the exact one, then floored. *)
Definition ping_of (k : Z) : Z := js_floor (dmul (of_draw k) (of_int 100)) + 20.

(** The colour bands of lines 451-457. *)
Definition ping_color (ping : Z) : string :=
  if bool_decide (ping < 50) then "#22c55e"
  else if bool_decide (ping < 100) then "#eab308"
  else "#ef4444".

Module Minecraft.

(** ** showToast (lines 461-503) *)

Definition toast_css (type : string) : list (string * string) :=
  [("position", "fixed"); ("top", "100px"); ("right", "20px");
   ("background", if bool_decide (type = "success") then "#22c55e" else "#3498db");
   ("color", "white"); ("padding", "1rem 1.5rem"); ("border-radius", "8px");
   ("font-family", "var(--font-pixel)"); ("z-index", "10000");
   ("animation", "slideIn 0.3s ease")].

Definition toast_keyframes : string :=
  "
        @keyframes slideIn {
          from { transform: translateX(100%); opacity: 0; }
          to { transform: translateX(0); opacity: 1; }
        }
        @keyframes slideOut {
          from { transform: translateX(0); opacity: 1; }
          to { transform: translateX(100%); opacity: 0; }
        }
      ".

Definition showToast (message type : string) : M unit :=
  toast <- create "div" ;;
  set_classes toast ["toast"; "toast-" +:+ type] ;;
  set_text toast message ;;
  set_css_text toast (toast_css type) ;;
  b <- body ;;
  append b toast ;;
  _ <- set_timeout (KToastSlideOut toast) 3000 ;;
  styles <- q [SelId "toast-styles"] ;;
  match styles with
  | Some _ => ret tt
  | None =>
      style <- create "style" ;;
      set_id style "toast-styles" ;;
      set_text style toast_keyframes ;;
      h <- head_el ;;
      append h style
  end.

(** The outer timer of a toast (lines 480-485). *)
Definition toast_slide_out (toast : node_id) : M unit :=
  set_style toast "animation" "slideOut 0.3s ease" ;;
  _ <- set_timeout (KToastRemove toast) 300 ;;
  ret tt.

(** The inner timer: [document.body.removeChild(toast)]. *)
Definition toast_remove (toast : node_id) : M unit :=
  b <- body ;;
  remove_child_m b toast.

(** ** checkServerStatus (lines 357-379) and setupServerStatus *)

Definition checkServerStatus : M unit :=
  catch
    (k <- random ;;
     let isOnline := draw_gt_0_2 k in
     dot <- q [SelClass "status-dot"] ;;
     text <- q [SelClass "status-text"] ;;
     match dot, text with
     | Some d, Some t =>
         if isOnline then
           set_classes d ["status-dot"; "online"] ;;
           set_text t "SERVER IS ONLINE!" ;;
           set_style t "color" "#22c55e"
         else
           set_classes d ["status-dot"; "offline"] ;;
           set_text t "SERVER IS OFFLINE" ;;
           set_style t "color" "#ef4444"
     | _, _ => ret tt
     end)
    (fun e => log_info ("Server status check failed: " +:+ describe e)).

Definition setupServerStatus : M unit :=
  indicator <- q [SelClass "status-dot"] ;;
  match indicator with
  | Some _ =>
      checkServerStatus ;;
      _ <- set_interval KStatusCheck 300000 ;;
      ret tt
  | None => ret tt
  end.

(** ** copyToClipboard (lines 382-418) *)

(** [await navigator.clipboard.writeText(text)]: the promise settles
    before any other event is handled. *)
Definition clipboard_write (text : string) : M unit :=
  ok <- env env_clipboard_ok ;;
  if ok then modify (w_with_clipboard text) else throw ClipboardRejected.

(** The [try] block after the write (lines 391-405). *)
Definition copy_feedback (el : node_id) : M unit :=
  parent <- el_get el el_parent None ;;
  match parent with
  | None => throw (TypeError "element.parentNode is null")
  | Some p =>
      btn <- q_in p [SelClass "copy-btn"] ;;
      (match btn with
       | Some b =>
           original <- get_text b ;;
           set_text b "✅ Copied!" ;;
           set_style b "background" "#22c55e" ;;
           _ <- set_timeout (KCopyRestore b original) 2000 ;;
           ret tt
       | None => ret tt
       end) ;;
      showToast "Server IP copied to clipboard!" "success"
  end.

(** The [catch] block: a hidden textarea selected and copied. *)
Definition copy_fallback (text : string) : M unit :=
  ta <- create "textarea" ;;
  set_attr ta "value" text ;;
  b <- body ;;
  append b ta ;;
  select_el ta ;;
  exec_copy ;;
  remove_child_m b ta ;;
  showToast "Server IP copied to clipboard!" "success".

Definition copyToClipboard (elementId : string) : M unit :=
  match parse_id_selector ("#" +:+ elementId) with
  | None => throw (SyntaxError ("#" +:+ elementId))
  | Some sel =>
      el <- q sel ;;
      match el with
      | None => ret tt
      | Some e =>
          text <- get_text e ;;
          catch (clipboard_write text ;; copy_feedback e) (fun _ => copy_fallback text)
      end
  end.

(** The timer that restores the copy button (lines 398-401). *)
Definition copy_restore (btn : node_id) (original : string) : M unit :=
  set_text btn original ;;
  set_style btn "background" "".

Definition setupCopyButtons : M unit := set_global "copyToClipboard" GCopyToClipboard.

(** ** updatePing (lines 443-459) and setupServerPing *)

Definition updatePing : M unit :=
  pv <- q [SelId "ping-value"] ;;
  match pv with
  | None => ret tt
  | Some n =>
      k <- random ;;
      let ping := ping_of k in
      set_text n (show_N (Z.to_N ping)) ;;
      set_style n "color" (ping_color ping)
  end.

(** The [style] attributes of the ping block's [innerHTML]. *)
Definition ping_box_css : list (string * string) :=
  [("text-align", "center"); ("margin-top", "1rem"); ("padding", "1rem");
   ("background", "rgba(52, 152, 219, 0.1)"); ("border-radius", "8px")].

Definition ping_label_css : list (string * string) :=
  [("color", "var(--accent-blue)"); ("font-family", "var(--font-pixel)")].

Definition setupServerPing : M unit :=
  info <- q [SelClass "server-info-content"] ;;
  path <- gets w_path ;;
  match info with
  | Some i =>
      if str_contains "minecraft" path then
        pe <- create "div" ;;
        set_classes pe ["server-ping"] ;;
        wrap <- create "div" ;;
        set_css_text wrap ping_box_css ;;
        append pe wrap ;;
        span <- create "span" ;;
        set_css_text span ping_label_css ;;
        append wrap span ;;
        set_text span "🏓 Server Ping: ms" ;;
        pv <- create "span" ;;
        set_id pv "ping-value" ;;
        set_text pv "..." ;;
        append span pv ;;
        append i pe ;;
        updatePing ;;
        _ <- set_interval KPingUpdate 10000 ;;
        ret tt
      else ret tt
  | None => ret tt
  end.

(** [Minecraft.init()] (lines 338-342). *)
Definition init : M unit :=
  setupServerStatus ;;
  setupCopyButtons ;;
  setupServerPing.

End Minecraft.

(** ** Lemmas on the simulated values *)

Lemma ping_of_bounds (k : Z) : valid_draw k -> 20 <= ping_of k < 120.
Proof.
  unfold valid_draw, ping_of, two53. intros Hk.
  pose proof (draw_times_floor k 100 Hk ltac:(lia)). lia.
Qed.

(** The literal is the double nearest 1/5. *)
Lemma lit_0_2_nearest : rounds_to (1 # 5) 7205759403792794 (-55) = true.
Proof. vm_compute. reflexivity. Qed.

Lemma lit_0_2_good : good lit_0_2.
Proof. split_and!; vm_compute; reflexivity. Qed.

(** On the double [k / 2^53], [> 0.2] compares [k] with half the
    significand of the literal. *)
Lemma draw_gt_0_2_int (k : Z) :
  valid_draw k -> draw_gt_0_2 k = bool_decide (3602879701896397 < 2 * k).
Proof.
  unfold valid_draw, two53. intros Hk. destruct (of_draw_spec k Hk) as [G V].
  unfold draw_gt_0_2. pose proof (dgt_spec _ _ G lit_0_2_good) as Hs. rewrite V in Hs.
  assert (E : (to_Q lit_0_2 == inject_Z 7205759403792794 * (1 # 36028797018963968))%Q) by reflexivity.
  assert (E' : (qval k (-53) == inject_Z k * (1 # 9007199254740992))%Q) by reflexivity.
  rewrite E, E' in Hs. change (inject_Z 7205759403792794) with 7205759403792794%Q in Hs.
  destruct (dgt (of_draw k) lit_0_2); symmetry; [apply bool_decide_eq_true_2|apply bool_decide_eq_false_2].
  - rewrite Zlt_Qlt, inject_Z_mult. change (inject_Z 3602879701896397) with 3602879701896397%Q.
    change (inject_Z 2) with 2%Q. destruct Hs as [Hs _]. specialize (Hs eq_refl). lra.
  - intros Hlt. rewrite Zlt_Qlt, inject_Z_mult in Hlt. change (inject_Z 3602879701896397) with 3602879701896397%Q in Hlt.
    change (inject_Z 2) with 2%Q in Hlt. destruct Hs as [_ Hs].
    enough (false = true) by done. apply Hs. lra.
Qed.

Lemma ping_color_bands (p : Z) :
  (p < 50 -> ping_color p = "#22c55e") /\
  (50 <= p < 100 -> ping_color p = "#eab308") /\
  (100 <= p -> ping_color p = "#ef4444").
Proof.
  unfold ping_color. repeat split; intros; repeat case_bool_decide; done || lia.
Qed.


(** ** The ping display *)

(** C23: [updatePing] writes a ping in [[20, 120)] that [parseInt] reads back
    from the element's text, coloured green below 50, yellow below 100
    and red from 100 on. *)
Lemma updatePing_spec (w : world) (n : node_id) (k : Z) (ks : list Z) :
  query [SelId "ping-value"] (w_doc w) = Some n -> w_rand w = k :: ks -> valid_draw k ->
  exists w', Minecraft.updatePing w = Ok tt w' /\
    20 <= ping_of k < 120 /\
    option_map js_parseInt (text_of (w_doc w') n) = Some (Some (ping_of k)) /\
    style_of (w_doc w') n "color" =
      Some (if bool_decide (ping_of k < 50) then "#22c55e"
            else if bool_decide (ping_of k < 100) then "#eab308" else "#ef4444").
Proof.
  intros Hq Hr Hk. pose proof (query_found _ _ _ Hq) as [_ [e He]].
  pose proof (ping_of_bounds k Hk) as Hb.
  unfold Minecraft.updatePing, bind at 1, q, doc_read, gets. rewrite Hq.
  unfold bind at 1, random. rewrite Hr.
  eexists. split; [reflexivity|]. split; [done|].
  cbn [w_doc w_with_doc w_with_rand]. split.
  - unfold text_of. get_el_simpl. rewrite He. simpl.
    rewrite parseInt_show_N. do 2 f_equal. lia.
  - unfold style_of. get_el_simpl. rewrite He. simpl. unfold style_set, ping_color.
    repeat case_bool_decide; simplify_eq/=; try by rewrite lookup_insert_eq.
Qed.

(** ** The toast *)

(** What the event loop runs for the toast's two timers. *)
Class ToastTasks `{TaskRunner} := {
  run_KToastSlideOut t ev : run_task (KToastSlideOut t) ev = Minecraft.toast_slide_out t;
  run_KToastRemove t ev : run_task (KToastRemove t) ev = Minecraft.toast_remove t
}.

(** A toast [x] showing [msg] is attached to the body and its slide-out
    timer [i] is pending, due at [due]. *)
Definition toast_shown (x : node_id) (msg : string) (i : N) (due : Z) (w : world) : Prop :=
  text_of (w_doc w) x = Some msg /\
  option_map el_parent (get_el (w_doc w) x) = Some (Some (d_body (w_doc w))) /\
  find_timer i (w_timers w) = Some (mkTimer i due None (KToastSlideOut x)).

(** [showToast] creates the toast as the next node, attaches it to the
    body and arms its slide-out timer three seconds later; it changes
    neither the clipboard nor the body. *)
Lemma showToast_spec (msg type : string) (w : world) :
  (d_body (w_doc w) < d_next (w_doc w))%N -> timers_below_next w ->
  exists w', Minecraft.showToast msg type w = Ok tt w' /\
    toast_shown (d_next (w_doc w)) msg (w_next_timer w) (w_now w + 3000) w' /\
    timers_below_next w' /\ w_clipboard w' = w_clipboard w /\
    d_body (w_doc w') = d_body (w_doc w) /\ w_now w' = w_now w /\
    (forall n, (n < d_next (w_doc w))%N -> get_el (w_doc w') n = get_el (w_doc w) n).
Proof.
  intros Hb Ht. unfold Minecraft.showToast.
  cbv [bind ret create create_element append set_classes set_text set_css_text upd_node doc_write
       modify body doc_read gets set_timeout add_timer q head_el set_id].
  match goal with |- context [query ?s ?d] => destruct (query s d) end.
  all: eexists; split; [reflexivity|].
  all: unfold toast_shown, text_of, timers_below_next in *;
       cbn [w_doc w_timers w_with_doc w_with_timers w_now w_next_timer w_clipboard].
  all: unfold append_child; get_el_simpl; autorewrite with bn_rw; simpl.
  all: rewrite find_timer_fresh by done.
  all: repeat split; try reflexivity.
  all: try (intros k Hk; by get_el_simpl).
  all: apply Forall_app; split; [eapply Forall_impl; [exact Ht|]; simpl; lia|].
  all: constructor; [simpl; lia|constructor].
Qed.

(** C17: The toast's lifecycle: when its slide-out timer fires, at three
    seconds, the toast gets the slide-out animation and stays attached,
    and a removal timer is armed 300 ms later; when that one fires the
    toast is detached from the page.  A toast shown at time [t] is thus
    gone at [t + 3300]. *)
Theorem toast_lifecycle `{ToastTasks} (x : node_id) (msg : string) (i : N) (due : Z) (w : world) :
  toast_shown x msg i due w -> timers_below_next w ->
  exists w1 w2, fire_timer i w = Ok tt w1 /\ w_now w1 = due /\
    style_of (w_doc w1) x "animation" = Some "slideOut 0.3s ease" /\
    option_map el_parent (get_el (w_doc w1) x) = Some (Some (d_body (w_doc w))) /\
    fire_timer (w_next_timer w) w1 = Ok tt w2 /\ w_now w2 = due + 300 /\
    option_map el_parent (get_el (w_doc w2) x) = Some None.
Proof.
  intros (Htx & Hpar & Hf) Ht.
  destruct (get_el (w_doc w) x) as [e|] eqn:He; simplify_eq/=.
  rewrite (fire_timer_timeout i due _ w Hf). unfold run_listener, catch. rewrite run_KToastSlideOut.
  cbv [Minecraft.toast_slide_out bind ret set_style upd_node doc_write modify set_timeout add_timer].
  eexists. eexists. split; [reflexivity|].
  cbn [w_now w_doc w_timers w_next_timer w_with_now w_with_doc w_with_timers].
  rewrite fire_timer_timeout with (due := due + 300) (k := KToastRemove x).
  2:{ cbn [w_timers w_with_timers w_with_doc w_with_now w_next_timer].
      apply find_timer_fresh; [apply timers_below_filter, Ht|reflexivity]. }
  unfold run_listener, catch. rewrite run_KToastRemove.
  cbv [Minecraft.toast_remove bind ret body doc_read gets remove_child_m].
  erewrite remove_child_parent; [| cbn [w_doc w_with_doc w_with_timers w_with_now]; rewrite get_el_upd_same, He; reflexivity | simpl; exact Hpar].
  split; [done|]. split; [by rewrite style_of_set by (get_el_simpl; rewrite He; by eexists)|].
  split; [by rewrite ?get_el_upd_same, ?He; simpl; rewrite Hpar|]. split; [reflexivity|]. split; [done|].
  wsimpl. unfold remove_node. get_el_simpl. by rewrite He.
Qed.


(** ** The copy action *)

(** C15: [copyToClipboard] when the clipboard accepts the write: the
    element's text is on the clipboard, and a toast reading "Server IP
    copied to clipboard!" is attached to the body, its slide-out timer due
    three seconds later. *)
Theorem copyToClipboard_success (id : string) (sel : selector) (el p : node_id) (e : element)
    (w : world) :
  env_clipboard_ok (w_env w) = true -> parse_id_selector ("#" +:+ id) = Some sel ->
  query sel (w_doc w) = Some el -> get_el (w_doc w) el = Some e -> el_parent e = Some p ->
  ids_below_next (w_doc w) -> is_Some (get_el (w_doc w) (d_body (w_doc w))) -> timers_below_next w ->
  exists w' i, Minecraft.copyToClipboard id w = Ok tt w' /\ w_clipboard w' = el_text e /\
    toast_shown (d_next (w_doc w)) "Server IP copied to clipboard!" i (w_now w + 3000) w' /\
    timers_below_next w'.
Proof.
  intros Hok Hsel Hq He Hp Hids Hb Ht. pose proof (body_below_next _ Hids Hb) as Hlt.
  unfold Minecraft.copyToClipboard. rewrite Hsel.
  cbv [bind q doc_read gets get_text el_get catch Minecraft.clipboard_write env modify
       Minecraft.copy_feedback q_in set_text set_style upd_node doc_write set_timeout add_timer ret].
  wsimpl. rewrite Hq, He, Hok. wsimpl. rewrite He, Hp. wsimpl.
  destruct (query_in p [SelClass "copy-btn"] (w_doc w)) as [b|].
  all: match goal with |- context [Minecraft.showToast ?m ?t ?W] =>
         destruct (showToast_spec m t W) as (w' & Hs & Hshown & Ht' & Hclip & Hbody & Hnow & Hframe);
         [..|rewrite Hs] end.
  all: wsimpl; autorewrite with bn_rw in *.
  all: try exact Hlt.
  all: try (unfold timers_below_next; wsimpl; first [exact Ht | apply timers_below_add; [exact Ht|reflexivity]]).
  all: eexists; eexists; split; [reflexivity|].
  all: split; [by rewrite Hclip|]. all: split; [exact Hshown|exact Ht'].
Qed.

(** C16: [copyToClipboard] when the clipboard rejects the write (or is
    missing): the fallback puts the text in a temporary textarea, selects
    it and copies the selection, so the clipboard holds the element's text
    when [execCommand('copy')] is allowed and is unchanged otherwise; the
    textarea is detached again, the same success toast is shown either
    way, and nothing is thrown. *)
Theorem copyToClipboard_fallback (id : string) (sel : selector) (el : node_id) (e : element)
    (w : world) :
  env_clipboard_ok (w_env w) = false -> parse_id_selector ("#" +:+ id) = Some sel ->
  query sel (w_doc w) = Some el -> get_el (w_doc w) el = Some e ->
  ids_below_next (w_doc w) -> is_Some (get_el (w_doc w) (d_body (w_doc w))) -> timers_below_next w ->
  exists w', Minecraft.copyToClipboard id w = Ok tt w' /\
    w_clipboard w' = (if env_exec_copy_ok (w_env w) then el_text e else w_clipboard w) /\
    option_map el_parent (get_el (w_doc w') (d_next (w_doc w))) = Some None /\
    toast_shown (d_next (w_doc w) + 1)%N "Server IP copied to clipboard!" (w_next_timer w) (w_now w + 3000) w' /\
    timers_below_next w'.
Proof.
  intros Hko Hsel Hq He Hids Hb Ht. pose proof (body_below_next _ Hids Hb) as Hlt.
  unfold Minecraft.copyToClipboard. rewrite Hsel.
  cbv [bind q doc_read gets get_text el_get catch Minecraft.clipboard_write env modify
       Minecraft.copy_fallback create create_element set_attr body append upd_node doc_write ret throw
       select_el exec_copy gets doc_read].
  wsimpl. rewrite Hq, He, Hko. wsimpl. unfold attr_of.
  match goal with |- context [get_el (append_child ?p ?c ?d) ?n ≫= ?f] =>
    assert (Hv : get_el (append_child p c d) n ≫= f = Some (el_text e)); [|rewrite Hv] end.
  { unfold append_child. get_el_simpl. simpl. by rewrite lookup_insert_eq. }
  rewrite copy_if_ok. cbv [remove_child_m]. wsimpl.
  erewrite remove_child_parent; [| unfold append_child; get_el_simpl; reflexivity | reflexivity].
  match goal with |- context [Minecraft.showToast ?m ?t ?W] =>
    destruct (showToast_spec m t W) as (w' & Hs & Hshown & Ht' & Hclip & Hbody & Hnow & Hframe);
    [..|rewrite Hs] end.
  all: wsimpl; unfold remove_node, append_child in *; autorewrite with bn_rw in *.
  - lia.
  - exact Ht.
  - exists w'. split; [reflexivity|]. split; [by rewrite Hclip|].
    split; [|split; [exact Hshown|exact Ht']].
    rewrite Hframe by lia. by get_el_simpl.
Qed.

(** ** The server status *)

(** C22: The test [Math.random() > 0.2], on the double [k / 2^53], agrees
    for every draw with the exact test [k / 2^53 > 1/5]: the server is
    reported online for exactly the draws above a fifth of the range,
    four fifths of them. *)
Theorem draw_gt_0_2_exact (k : Z) : valid_draw k -> draw_gt_0_2 k = bool_decide (two53 < 5 * k).
Proof.
  intros Hk. rewrite draw_gt_0_2_int by done. unfold two53. apply bool_decide_ext. lia.
Qed.

(** C21: [checkServerStatus] with both indicators present: one draw decides
    the status, written as the dot's class, the text and its colour. *)
Lemma checkServerStatus_spec (w : world) (d t : node_id) (k : Z) (ks : list Z) :
  query [SelClass "status-dot"] (w_doc w) = Some d ->
  query [SelClass "status-text"] (w_doc w) = Some t -> d <> t -> w_rand w = k :: ks ->
  exists w', Minecraft.checkServerStatus w = Ok tt w' /\ w_rand w' = ks /\
    option_map el_classes (get_el (w_doc w') d) =
      Some ["status-dot"; if draw_gt_0_2 k then "online" else "offline"] /\
    text_of (w_doc w') t = Some (if draw_gt_0_2 k then "SERVER IS ONLINE!" else "SERVER IS OFFLINE") /\
    style_of (w_doc w') t "color" = Some (if draw_gt_0_2 k then "#22c55e" else "#ef4444").
Proof.
  intros Hd Ht Hdt Hr. destruct (query_found _ _ _ Hd) as [_ [ed Hed]].
  destruct (query_found _ _ _ Ht) as [_ [et Het]].
  unfold Minecraft.checkServerStatus, catch, bind at 1, random. rewrite Hr.
  cbv [bind q doc_read gets set_classes set_text set_style upd_node doc_write modify].
  wsimpl. rewrite Hd, Ht.
  destruct (draw_gt_0_2 k); eexists; (split; [reflexivity|]); wsimpl; unfold text_of, style_of;
    get_el_simpl; rewrite ?Hed, ?Het; simpl; unfold style_set; simpl;
    rewrite ?lookup_insert_eq; repeat split.
Qed.
