(* ===== verification/VoiceChat.v ===== *)
(** * VoiceChat: the [VoiceChat] object of [src/Script.js] (lines 506-569)

    [setupEventSchedule] highlights the schedule card of today's weekday
    on the voice-chat page and appends a "TODAY" badge to it;
    [setupVoiceChannelStatus] reads the capacity stated in each channel
    card ([match(/\d+/)[0]]), draws a current occupancy below it and
    appends a status line, red when [currentUsers > maxUsers * 0.7].  The
    occupancy and the test are computed on doubles ([Double]): away from
    exactly 70% the test is the exact one ([crowded_exact]); at exactly
    70% it depends on how [maxUsers * 0.7] rounds, so a channel of 90 with
    63 users is red ([channel_red_at_seventy_percent]) while one of 10 with 7
    is green.  A capacity
    text without any digit makes [match] return [null], and reading [[0]]
    of it throws a [TypeError] out of [VoiceChat.init]. *)

From Stdlib Require Import ZArith QArith Lia Lqa Ascii SpecFloat.
From stdpp Require Import base list gmap strings.
From S2P Require Import Prelude JsString Double JsNumber Dom Config World Events Minecraft.

Local Open Scope Z_scope.

Module VoiceChat.

(** [days] (line 518). *)
Definition days : list string :=
  ["Sunday"; "Monday"; "Tuesday"; "Wednesday"; "Thursday"; "Friday"; "Saturday"].

Definition badge_css : list (string * string) :=
  [("position", "absolute"); ("top", "-10px"); ("right", "-10px");
   ("background", "#22c55e"); ("color", "white"); ("padding", "0.3rem 0.8rem");
   ("border-radius", "12px"); ("font-size", "0.7rem"); ("font-weight", "bold");
   ("font-family", "var(--font-pixel)")].

(** The body of the [forEach] over schedule cards (lines 521-545). *)
Definition highlight_card (currentDay : option string) (card : node_id) : M unit :=
  de <- q_in card [SelClass "schedule-day"] ;;
  match de with
  | None => ret tt
  | Some d =>
      txt <- get_text d ;;
      if bool_decide (Some txt = currentDay) then
        set_style card "border" "2px solid #22c55e" ;;
        set_style card "box-shadow" "0 0 20px rgba(34, 197, 94, 0.3)" ;;
        badge <- create "div" ;;
        set_text badge "TODAY" ;;
        set_css_text badge badge_css ;;
        set_style card "position" "relative" ;;
        append card badge
      else ret tt
  end.

Definition setupEventSchedule : M unit :=
  path <- gets w_path ;;
  if negb (str_contains "voice-chat" path) then ret tt else
  today <- gets w_weekday ;;
  let currentDay := nth_error days today in
  cards <- qa [SelClass "schedule-card"] ;;
  for_each cards (highlight_card currentDay).

(** [Math.floor(Math.random() * maxUsers)] for a draw [k] (line 554). *)
Definition occupancy (k maxUsers : Z) : Z := js_floor (dmul (of_draw k) (of_int maxUsers)).

(** The literal [0.7]: the double nearest 7/10, [6305039478318694 / 2^53]. *)
Definition lit_0_7 : spec_float := S754_finite false 6305039478318694 (-53).

(** [currentUsers > maxUsers * 0.7] (line 559), on doubles. *)
Definition crowded (currentUsers maxUsers : Z) : bool :=
  dgt (of_int currentUsers) (dmul (of_int maxUsers) lit_0_7).

Definition status_css (red : bool) : list (string * string) :=
  [("margin-top", "0.5rem"); ("color", if red then "#ef4444" else "#22c55e");
   ("font-size", "0.8rem"); ("font-family", "var(--font-pixel)")].

(** The body of the [forEach] over channel cards (lines 550-567). *)
Definition channel_status (info : node_id) : M unit :=
  cap <- q_in info [SelClass "channel-capacity"] ;;
  match cap with
  | None => ret tt
  | Some c =>
      txt <- get_text c ;;
      match js_match_digits txt with
      | None => throw (TypeError "Cannot read properties of null (reading '0')")
      | Some ds =>
          k <- random ;;
          st <- create "div" ;;
          (match js_parseInt ds with
           | Some maxUsers =>
               let cur := occupancy k maxUsers in
               set_css_text st (status_css (crowded cur maxUsers)) ;;
               set_text st ("🔊 " +:+ show_N (Z.to_N cur) +:+ "/" +:+
                            show_N (Z.to_N maxUsers) +:+ " users online")
           | None =>
               set_css_text st (status_css false) ;;
               set_text st "🔊 NaN/NaN users online"
           end) ;;
          append info st
      end
  end.

Definition setupVoiceChannelStatus : M unit :=
  infos <- qa [SelClass "channel-info"] ;;
  for_each infos channel_status.

(** [VoiceChat.init()] (lines 508-511). *)
Definition init : M unit :=
  setupEventSchedule ;;
  setupVoiceChannelStatus.

End VoiceChat.

(** ** Lemmas *)

(** C24: The simulated occupancy of a channel lies in [[0, capacity)]. *)
Lemma occupancy_bounds (k maxUsers : Z) :
  valid_draw k -> 0 < maxUsers < two53 -> 0 <= VoiceChat.occupancy k maxUsers < maxUsers.
Proof. unfold valid_draw, VoiceChat.occupancy, two53. intros Hk Hm. by apply draw_times_floor. Qed.

(** A capacity that states no number makes the channel's handler throw a
    [TypeError] before it changes anything. *)
Lemma channel_status_throws (info c : node_id) (txt : string) (w : world) :
  query_in info [SelClass "channel-capacity"] (w_doc w) = Some c ->
  text_of (w_doc w) c = Some txt -> js_match_digits txt = None ->
  VoiceChat.channel_status info w =
  Throw (TypeError "Cannot read properties of null (reading '0')") w.
Proof.
  intros Hq Ht Hm. unfold VoiceChat.channel_status, bind at 1, q_in, doc_read, gets.
  rewrite Hq. unfold bind at 1, get_text, el_get, doc_read, gets.
  unfold text_of in Ht. destruct (get_el (w_doc w) c) as [e|]; simplify_eq/=.
  by rewrite Hm.
Qed.

(** The first channel card without a number stops [setupVoiceChannelStatus]
    with that [TypeError]. *)
Lemma setupVoiceChannelStatus_throws (info c : node_id) (rest : list node_id) (txt : string)
    (w : world) :
  query_all [SelClass "channel-info"] (w_doc w) = info :: rest ->
  query_in info [SelClass "channel-capacity"] (w_doc w) = Some c ->
  text_of (w_doc w) c = Some txt -> js_match_digits txt = None ->
  VoiceChat.setupVoiceChannelStatus w =
  Throw (TypeError "Cannot read properties of null (reading '0')") w.
Proof.
  intros Hall Hq Ht Hm. unfold VoiceChat.setupVoiceChannelStatus, bind at 1, qa, doc_read, gets.
  rewrite Hall. simpl. unfold bind at 1. by rewrite (channel_status_throws info c txt w).
Qed.

(** The TODAY badges of a schedule card: its children reading "TODAY", in
    document order. *)
Definition today_badges (d : document) (card : node_id) : list node_id :=
  List.filter (fun n => match get_el d n with
                        | Some e => bool_decide (el_parent e = Some card /\ el_text e = "TODAY")
                        | None => false
                        end) (d_order d).

(** C28: The highlight of a schedule card is not idempotent: every run of
    it on a card whose day is today appends a new TODAY badge, whatever
    badges the card already has, so a second run of [setupEventSchedule]
    shows two badges. *)
Theorem highlight_card_adds_badge (cur : string) (card dd : node_id) (w : world) :
  doc_wf (w_doc w) -> is_Some (get_el (w_doc w) card) ->
  query_in card [SelClass "schedule-day"] (w_doc w) = Some dd -> text_of (w_doc w) dd = Some cur ->
  exists w', VoiceChat.highlight_card (Some cur) card w = Ok tt w' /\
    today_badges (w_doc w') card = today_badges (w_doc w) card ++ [d_next (w_doc w)] /\
    doc_wf (w_doc w').
Proof.
  intros [Hids Hord] Hc Hq Ht. pose proof (Hids card Hc) as Hcard.
  unfold text_of in Ht. destruct (get_el (w_doc w) dd) as [ed|] eqn:Hed; simplify_eq/=.
  unfold VoiceChat.highlight_card, bind at 1, q_in, doc_read, gets. rewrite Hq.
  unfold bind at 1, get_text, el_get, doc_read, gets. rewrite Hed.
  rewrite bool_decide_eq_true_2 by done.
  cbv [bind set_style upd_node doc_write modify create create_element set_text set_css_text append].
  eexists. split; [reflexivity|]. wsimpl. unfold append_child. autorewrite with bn_rw.
  split; [|repeat (apply doc_wf_upd_el || apply doc_wf_add_node); by split].
  unfold today_badges. simpl d_order. rewrite List.filter_app. f_equal.
  - apply filter_ext_in. intros n Hn%list_elem_of_In.
    assert (Hlt : (n < d_next (w_doc w))%N) by (unfold order_below_next in Hord; rewrite Forall_forall in Hord; auto).
    destruct (decide (n = card)) as [->|Hne]; get_el_simpl; [|done].
    by destruct (get_el (w_doc w) card).
  - simpl. get_el_simpl. simpl. by rewrite bool_decide_eq_true_2.
Qed.

(** The channel handler on a card with a numeric capacity: the status
    line it appends, for any capacity and draw. *)
Lemma channel_status_run (info c : node_id) (txt ds : string) (maxUsers k : Z) (ks : list Z) (w : world) :
  doc_wf (w_doc w) ->
  query_in info [SelClass "channel-capacity"] (w_doc w) = Some c -> text_of (w_doc w) c = Some txt ->
  js_match_digits txt = Some ds -> js_parseInt ds = Some maxUsers -> w_rand w = k :: ks ->
  let cur := VoiceChat.occupancy k maxUsers in
  exists w', VoiceChat.channel_status info w = Ok tt w' /\ w_rand w' = ks /\
    text_of (w_doc w') (d_next (w_doc w)) =
      Some ("🔊 " +:+ show_N (Z.to_N cur) +:+ "/" +:+ show_N (Z.to_N maxUsers) +:+ " users online") /\
    option_map el_parent (get_el (w_doc w') (d_next (w_doc w))) = Some (Some info) /\
    style_of (w_doc w') (d_next (w_doc w)) "color" =
      Some (if VoiceChat.crowded cur maxUsers then "#ef4444" else "#22c55e") /\
    doc_wf (w_doc w').
Proof.
  intros Hwf Hq Ht Hm Hp Hr cur.
  unfold text_of in Ht. destruct (get_el (w_doc w) c) as [ec|] eqn:Hec; simplify_eq/=.
  unfold VoiceChat.channel_status, bind at 1, q_in, doc_read, gets. rewrite Hq.
  unfold bind at 1, get_text, el_get, doc_read, gets. rewrite Hec, Hm.
  unfold bind at 1, random. rewrite Hr. rewrite Hp.
  cbv [bind create create_element set_css_text set_text upd_node doc_write modify append].
  eexists. split; [reflexivity|]. wsimpl. unfold append_child, text_of, style_of.
  get_el_simpl. simpl.
  split; [done|]. split; [done|]. split; [done|].
  split; [unfold VoiceChat.status_css; simpl; by destruct (VoiceChat.crowded _ _)|].
  repeat (apply doc_wf_upd_el || apply doc_wf_add_node). exact Hwf.
Qed.

(** C25: A channel card whose capacity [max] is a number below [2^53] (an
    integer a double holds exactly): one draw gives the occupancy
    [cur = floor(draw * max)], which lies in [[0, max)], and a new status
    line reading "🔊 cur/max users online" is appended to the card, red
    when the double test [cur > max * 0.7] holds and green otherwise. *)
Theorem channel_status_spec (info c : node_id) (txt ds : string) (maxUsers k : Z) (ks : list Z) (w : world) :
  doc_wf (w_doc w) ->
  query_in info [SelClass "channel-capacity"] (w_doc w) = Some c -> text_of (w_doc w) c = Some txt ->
  js_match_digits txt = Some ds -> js_parseInt ds = Some maxUsers -> 0 < maxUsers < two53 ->
  w_rand w = k :: ks -> valid_draw k ->
  let cur := VoiceChat.occupancy k maxUsers in
  0 <= cur < maxUsers /\
  exists w', VoiceChat.channel_status info w = Ok tt w' /\ w_rand w' = ks /\
    text_of (w_doc w') (d_next (w_doc w)) =
      Some ("🔊 " +:+ show_N (Z.to_N cur) +:+ "/" +:+ show_N (Z.to_N maxUsers) +:+ " users online") /\
    option_map el_parent (get_el (w_doc w') (d_next (w_doc w))) = Some (Some info) /\
    style_of (w_doc w') (d_next (w_doc w)) "color" =
      Some (if VoiceChat.crowded cur maxUsers then "#ef4444" else "#22c55e") /\
    doc_wf (w_doc w').
Proof.
  intros Hwf Hq Ht Hm Hp Hb Hr Hk cur. split.
  - unfold cur, VoiceChat.occupancy. unfold valid_draw, two53 in *. by apply draw_times_floor.
  - exact (channel_status_run info c txt ds maxUsers k ks w Hwf Hq Ht Hm Hp Hr).
Qed.

(** ** The 70% threshold *)

(** The literal is the double nearest 7/10. *)
Lemma lit_0_7_nearest : rounds_to (7 # 10) 6305039478318694 (-53) = true.
Proof. vm_compute. reflexivity. Qed.

Lemma lit_0_7_good : good VoiceChat.lit_0_7.
Proof. split_and!; vm_compute; reflexivity. Qed.

(** C26: For capacities up to [2^40], the double comparison
    [currentUsers > maxUsers * 0.7] agrees with the exact comparison
    [10 * currentUsers > 7 * maxUsers] whenever [currentUsers] is not
    exactly 70% of [maxUsers]: the double [0.7] and the rounding of the
    product move the threshold by far less than the [1/10] between it and
    any other integer. *)
Theorem crowded_exact (cur maxUsers : Z) :
  0 <= cur < two53 -> 0 < maxUsers <= 2 ^ 40 -> 10 * cur <> 7 * maxUsers ->
  VoiceChat.crowded cur maxUsers = bool_decide (7 * maxUsers < 10 * cur).
Proof.
  unfold two53. intros Hc Hm Hne.
  destruct (of_int_spec cur Hc) as [Gc Vc]. destruct (of_int_spec maxUsers ltac:(lia)) as [Gm Vm].
  assert (HL : (to_Q VoiceChat.lit_0_7 == 6305039478318694 * (1 # 9007199254740992))%Q) by reflexivity.
  assert (HM : (1 <= inject_Z maxUsers <= 1099511627776)%Q) by (split; apply inject_Z_le; lia).
  assert (HC : (0 <= inject_Z cur)%Q) by (apply (inject_Z_le 0); lia).
  assert (Hb : (to_Q (of_int maxUsers) * to_Q VoiceChat.lit_0_7 < qpow2 1022)%Q).
  { rewrite Vm, HL. assert (qpow2 60 == 1152921504606846976)%Q as E by reflexivity.
    apply (Qlt_le_trans _ (qpow2 60)); [rewrite E; lra|apply qpow2_le_mono; lia]. }
  destruct (dmul_close _ _ Gm lit_0_7_good Hb) as (G & H1 & H2). rewrite Vm, HL in H1, H2.
  pose proof qpow2_small. assert (qpow2 (-52) == 1 # 4503599627370496)%Q as E52 by reflexivity.
  rewrite E52 in H1, H2.
  unfold VoiceChat.crowded. pose proof (dgt_spec _ _ Gc G) as Hs. rewrite Vc in Hs.
  set (v := to_Q (dmul (of_int maxUsers) VoiceChat.lit_0_7)) in *.
  destruct (Z.lt_ge_cases (7 * maxUsers) (10 * cur)) as [Hlt|Hge].
  - rewrite bool_decide_eq_true_2 by done. apply Hs.
    assert (Hi : (7 * inject_Z maxUsers + 1 <= 10 * inject_Z cur)%Q).
    { change 7%Q with (inject_Z 7). change 10%Q with (inject_Z 10). change 1%Q with (inject_Z 1).
      rewrite <- !inject_Z_mult, <- inject_Z_plus. apply inject_Z_le. lia. }
    lra.
  - rewrite bool_decide_eq_false_2 by lia.
    destruct (dgt (of_int cur) (dmul (of_int maxUsers) VoiceChat.lit_0_7)); [|done].
    assert (Hi : (10 * inject_Z cur + 1 <= 7 * inject_Z maxUsers)%Q).
    { change 7%Q with (inject_Z 7). change 10%Q with (inject_Z 10). change 1%Q with (inject_Z 1).
      rewrite <- !inject_Z_mult, <- inject_Z_plus. apply inject_Z_le. lia. }
    destruct Hs as [Hs _]. specialize (Hs eq_refl). lra.
Qed.

(** C27: At exactly 70% the double threshold decides: on any page, a
    channel card stating a capacity of 90 whose draw gives 63 users
    online, exactly 70% of 90, gets the status line "🔊 63/90 users
    online" in red, because [90 * 0.7] is the double 62.99999999999999. *)
Theorem channel_red_at_seventy_percent (info c : node_id) (txt ds : string) (ks : list Z) (w : world) :
  doc_wf (w_doc w) ->
  query_in info [SelClass "channel-capacity"] (w_doc w) = Some c -> text_of (w_doc w) c = Some txt ->
  js_match_digits txt = Some ds -> js_parseInt ds = Some 90 -> w_rand w = 6305039478318695 :: ks ->
  exists w', VoiceChat.channel_status info w = Ok tt w' /\
    text_of (w_doc w') (d_next (w_doc w)) = Some "🔊 63/90 users online" /\
    style_of (w_doc w') (d_next (w_doc w)) "color" = Some "#ef4444".
Proof.
  intros Hwf Hq Ht Hm Hp Hr.
  destruct (channel_status_run info c txt ds 90 _ ks w Hwf Hq Ht Hm Hp Hr) as (w' & Hrun & _ & Htxt & _ & Hcol & _).
  exists w'. rewrite Htxt, Hcol. split_and!; [done|vm_compute; reflexivity|vm_compute; reflexivity].
Qed.
