(* ===== verification/Animations.v ===== *)
(** * Animations: the [Animations] object of [src/Script.js] (lines 117-263)

    The reveal of cards when they enter the viewport (an
    [IntersectionObserver] whose callback is [reveal_entry]), the hover
    transforms of cards and primary buttons, the logo pulse every three
    seconds, the decorative particles of hero sections, and the counter
    animation of statistics.  [animateCounter] parses the digits of the
    element's text, then every 16 ms adds [target / 125] to [current] and
    writes [Math.floor(current)] followed by the text's non-digits, until
    [current] reaches [target]; [step], [current] and the comparison are
    the doubles of the source ([counter_increment], [counter_step]), whose
    analysis is in Counter.v.  The particles' durations, positions and delays are the doubles the source
    computes from its draws, printed by [Number::toString] (JsNumber.v). *)

From Stdlib Require Import ZArith QArith Lia Lqa Ascii.
From stdpp Require Import base list gmap strings.
From Stdlib Require Import SpecFloat.
From S2P Require Import Prelude JsString Double Division JsNumber Dom Config World Events Minecraft.

Local Open Scope Z_scope.

Module Animations.

Definition reveal_selector : selector :=
  [SelClass "card"; SelClass "team-card"; SelClass "stat-card"; SelClass "social-card";
   SelClass "contact-card"; SelClass "schedule-card"].

Definition hover_selector : selector :=
  [SelClass "card"; SelClass "team-card"; SelClass "stat-card"; SelClass "social-card"].

(** ** setupScrollAnimations (lines 126-147) *)

(** The observer's callback on one entry (lines 129-133). *)
Definition reveal_entry (n : node_id) (intersecting : bool) : M unit :=
  if intersecting then
    set_style n "opacity" "1" ;;
    set_style n "transform" "translateY(0)" ;;
    add_class n "fade-in-up"
  else ret tt.

Definition setupScrollAnimations : M unit :=
  obs <- new_observer ObsReveal ;;
  els <- qa reveal_selector ;;
  for_each els (fun el =>
    set_style el "opacity" "0" ;;
    set_style el "transform" "translateY(30px)" ;;
    set_style el "transition" "opacity 0.6s ease, transform 0.6s ease" ;;
    observe obs el).

(** ** setupHoverEffects (lines 149-182) *)

Definition card_enter (c : node_id) : M unit := set_style c "transform" "translateY(-12px) scale(1.02)".
Definition card_leave (c : node_id) : M unit := set_style c "transform" "translateY(0) scale(1)".
Definition btn_enter (b : node_id) : M unit := set_style b "box-shadow" "0 8px 30px rgba(88, 101, 242, 0.4)".
Definition btn_leave (b : node_id) : M unit := set_style b "box-shadow" "".

(** The logo's interval callback and its inner timeout (lines 175-180). *)
Definition logo_pulse (l : node_id) : M unit :=
  set_style l "transform" "scale(1.1)" ;;
  _ <- set_timeout (KLogoReset l) 200 ;;
  ret tt.
Definition logo_reset (l : node_id) : M unit := set_style l "transform" "scale(1)".

Definition setupHoverEffects : M unit :=
  cards <- qa hover_selector ;;
  for_each cards (fun c =>
    listen (TgNode c) "mouseenter" (KCardEnter c) ;;
    listen (TgNode c) "mouseleave" (KCardLeave c)) ;;
  btns <- qa [SelClass "btn-primary"] ;;
  for_each btns (fun b =>
    listen (TgNode b) "mouseenter" (KBtnEnter b) ;;
    listen (TgNode b) "mouseleave" (KBtnLeave b)) ;;
  logo <- q [SelClass "logo-icon"] ;;
  match logo with
  | Some l => _ <- set_interval (KLogoPulse l) 3000 ;; ret tt
  | None => ret tt
  end.

(** ** Particles (lines 184-229) *)

(** [3 + Math.random() * 4] (line 205): the animation's duration. *)
Definition particle_duration (k : Z) : spec_float :=
  dadd (of_int 3) (dmul (of_draw k) (of_int 4)).

(** [Math.random() * 100] (lines 206-207): the particle's position. *)
Definition particle_percent (k : Z) : spec_float := dmul (of_draw k) (of_int 100).

(** [Math.random() * 2] (line 208): the animation's delay. *)
Definition particle_delay (k : Z) : spec_float := dmul (of_draw k) (of_int 2).

(** The declarations of the [cssText] template, each [${x}] printed by
    [Number::toString]. *)
Definition particle_css (k1 k2 k3 k4 : Z) : list (string * string) :=
  [("position", "absolute"); ("width", "2px"); ("height", "2px");
   ("background", "rgba(52, 152, 219, 0.6)"); ("border-radius", "50%");
   ("pointer-events", "none");
   ("animation", "float " +:+ js_number_to_string (particle_duration k1) +:+ "s ease-in-out infinite");
   ("left", js_number_to_string (particle_percent k2) +:+ "%");
   ("top", js_number_to_string (particle_percent k3) +:+ "%");
   ("animation-delay", js_number_to_string (particle_delay k4) +:+ "s")].

Definition particle_keyframes : string :=
  "
        @keyframes float {
          0%, 100% { transform: translateY(0px) rotate(0deg); opacity: 0.6; }
          50% { transform: translateY(-20px) rotate(180deg); opacity: 1; }
        }
        .particle {
          z-index: 1;
        }
      ".

(** One iteration of the loop of lines 195-212: the template literal
    evaluates its four [Math.random()] calls left to right. *)
Definition create_particle (container : node_id) : M unit :=
  p <- create "div" ;;
  set_classes p ["particle"] ;;
  k1 <- random ;; k2 <- random ;; k3 <- random ;; k4 <- random ;;
  set_css_text p (particle_css k1 k2 k3 k4) ;;
  append container p.

Definition createParticles (container : node_id) : M unit :=
  for_each (seq 0 20) (fun _ => create_particle container) ;;
  existing <- q [SelId "particle-styles"] ;;
  match existing with
  | Some _ => ret tt
  | None =>
      style <- create "style" ;;
      set_id style "particle-styles" ;;
      set_text style particle_keyframes ;;
      h <- head_el ;;
      append h style
  end.

Definition setupParticleEffects : M unit :=
  heroes <- qa [SelClass "hero"] ;;
  for_each heroes createParticles.

(** ** setupCounterAnimations (lines 231-262) *)

(** [parseInt(text.replace(/\D/g, '')) || 0] (line 235). *)
Definition counter_target (text : string) : Z := or_zero (js_parseInt (strip_non_digits text)).

(** [step = target / (duration / 16)] with [duration = 2000] (lines 236-237). *)
Definition counter_increment (target : Z) : spec_float :=
  ddiv (of_int target) (ddiv (of_int 2000) (of_int 16)).

(** [animateCounter(element)] (lines 234-250): the closure's [current]
    (the double [0] at first), [target], [step] and [timer] live in a
    cell. *)
Definition animateCounter (el : node_id) : M unit :=
  txt <- get_text el ;;
  let target := counter_target txt in
  let step := counter_increment target in
  c <- new_cell (CellCounter (S754_zero false) target step 0) ;;
  t <- set_interval (KCounterTick el c) 16 ;;
  set_cell c (CellCounter (S754_zero false) target step t).

(** [current += step; if (current >= target) current = target] (lines
    240-244), on doubles; the flag says whether the interval is cleared. *)
Definition counter_step (current : spec_float) (target : Z) (step : spec_float) : spec_float * bool :=
  let next := dadd current step in
  if dge next (of_int target) then (of_int target, true) else (next, false).

(** One run of the interval's callback (lines 239-249): the text becomes
    [Math.floor(current)] followed by the non-digits of the old text. *)
Definition counter_tick (el : node_id) (cell : N) : M unit :=
  c <- get_cell cell ;;
  match c with
  | Some (CellCounter cur target step t) =>
      let '(next, stop) := counter_step cur target step in
      (if stop then clear_timer t else ret tt) ;;
      set_cell cell (CellCounter next target step t) ;;
      txt <- get_text el ;;
      set_text el (show_N (Z.to_N (js_floor next)) +:+ strip_digits txt)
  | _ => ret tt
  end.

(** The counters' observer callback on one entry (lines 254-257). *)
Definition counter_entry (n : node_id) (intersecting : bool) : M unit :=
  animated <- get_attr n "data-animated" ;;
  if intersecting && bool_decide (animated = None \/ animated = Some "") then
    set_attr n "data-animated" "true" ;;
    animateCounter n
  else ret tt.

Definition setupCounterAnimations : M unit :=
  counters <- qa [SelClass "stat-number"; SelClass "cta-number"] ;;
  obs <- new_observer ObsCounter ;;
  for_each counters (observe obs).

(** [Animations.init()] (lines 119-124). *)
Definition init : M unit :=
  setupScrollAnimations ;;
  setupHoverEffects ;;
  setupParticleEffects ;;
  setupCounterAnimations.

End Animations.

(** ** The particles *)

(** The numbers of a particle are good doubles for any draws. *)
Lemma particle_percent_good (k : Z) : valid_draw k -> good (Animations.particle_percent k).
Proof. unfold valid_draw, two53. intros Hk. apply (draw_times_lt k 100); lia. Qed.

Lemma particle_delay_good (k : Z) : valid_draw k -> good (Animations.particle_delay k).
Proof. unfold valid_draw, two53. intros Hk. apply (draw_times_lt k 2); lia. Qed.

Lemma particle_duration_good (k : Z) : valid_draw k -> good (Animations.particle_duration k).
Proof.
  unfold valid_draw, two53. intros Hk. destruct (draw_times_lt k 4 Hk ltac:(lia)) as [G H4].
  destruct (of_int_spec 3 ltac:(lia)) as [G3 V3].
  pose proof (good_to_Q_nonneg _ G).
  assert (Hb : (to_Q (of_int 3) + to_Q (dmul (of_draw k) (of_int 4)) < qpow2 1022)%Q).
  { rewrite V3. assert (qpow2 3 == 8)%Q as E by reflexivity.
    change (inject_Z 4) with 4%Q in H4. change (inject_Z 3) with 3%Q.
    apply (Qlt_le_trans _ (qpow2 3)); [rewrite E; lra|apply qpow2_le_mono; lia]. }
  apply (dadd_close _ _ G3 G Hb).
Qed.

Lemma particle_css_keys (k1 k2 k3 k4 : Z) : NoDup (Animations.particle_css k1 k2 k3 k4).*1.
Proof. cbn. apply (bool_decide_unpack _). vm_compute. reflexivity. Qed.

(** C13: One iteration of the loop of [createParticles] consumes the
    next four draws in the order of the template and appends a new
    [.particle] div to the container whose inline style holds the four
    numbers of the template: each, read as a CSS number token, denotes the
    double the source computes ([3 + r1 * 4], [r2 * 100], [r3 * 100],
    [r4 * 2]) and is followed by its unit. *)
Theorem create_particle_spec (c : node_id) (k1 k2 k3 k4 : Z) (ks : list Z) (w : world) :
  w_rand w = k1 :: k2 :: k3 :: k4 :: ks ->
  valid_draw k1 -> valid_draw k2 -> valid_draw k3 -> valid_draw k4 ->
  exists w' e, Animations.create_particle c w = Ok tt w' /\ w_rand w' = ks /\
    get_el (w_doc w') (d_next (w_doc w)) = Some e /\ el_tag e = "div" /\
    el_classes e = ["particle"] /\ el_parent e = Some c /\
    forall p pre x u,
      In (p, pre, x, u)
        [("animation", "float ", dadd (of_int 3) (dmul (of_draw k1) (of_int 4)), "s ease-in-out infinite");
         ("left", EmptyString, dmul (of_draw k2) (of_int 100), "%");
         ("top", EmptyString, dmul (of_draw k3) (of_int 100), "%");
         ("animation-delay", EmptyString, dmul (of_draw k4) (of_int 2), "s")] ->
      exists t y, el_style e !! p = Some (pre +:+ t) /\ read_number t = Some (y, u) /\
                  denotes y x = true.
Proof.
  intros Hr H1 H2 H3 H4.
  unfold Animations.create_particle, bind, create, set_classes, upd_node, doc_write, modify,
    random, set_css_text, append.
  cbn [create_element]. wsimpl. rewrite Hr. wsimpl.
  do 2 eexists. split; [reflexivity|]. wsimpl.
  unfold append_child. get_el_simpl. cbn -[dadd dmul of_int of_draw js_number_to_string list_to_map Animations.particle_css]. split_and!; try reflexivity.
  intros p pre x u Hin.
  assert (Hg : good x /\ unit_start u = true).
  { cbn [In] in Hin. destruct Hin as [H|[H|[H|[H|[]]]]]; injection H as <- <- <- <-; (split; [|reflexivity]).
    - by apply particle_duration_good.
    - by apply particle_percent_good.
    - by apply particle_percent_good.
    - by apply particle_delay_good. }
  destruct Hg as ((Hv & Hf & _) & Hu).
  destruct (js_number_text_reads_back x u Hv Hf Hu) as (y & Hy & Hd).
  exists (js_number_to_string x +:+ u), y. split; [|done].
  apply elem_of_list_to_map_1; [apply particle_css_keys|]. apply list_elem_of_In.
  cbn [In] in Hin. destruct Hin as [H|[H|[H|[H|[]]]]]; injection H as <- <- <- <-;
    unfold Animations.particle_css; cbn [In]; tauto.
Qed.

(** ** Without [IntersectionObserver] *)

(** C6: In a browser without [IntersectionObserver], [Animations.init]
    throws a [ReferenceError] at its first statement, the observer of
    [setupScrollAnimations] (line 127), before it changes anything: the
    script constructs the observer without the check that
    [setupLazyLoading] makes. *)
Theorem animations_init_without_io (w : world) :
  env_has_io (w_env w) = false ->
  Animations.init w = Throw (ReferenceError "IntersectionObserver is not defined") w.
Proof.
  intros Hio. unfold Animations.init, Animations.setupScrollAnimations, bind, new_observer.
  by rewrite Hio.
Qed.
