(* ===== verification/Counter.v ===== *)
(** * Counter: the counter animation of [Animations], on doubles

    [animateCounter] (src/Script.js, lines 234-250) adds the double
    [step = target / 125] to the double [current] every 16 ms, writes
    [Math.floor(current)] and stops once [current >= target].  Exactly, 125
    steps make the target; on doubles the step and every sum round, so the
    counter may need a 126th tick, and a value it shows may be one below
    the exact [floor(i * target / 125)].

    [counter_ticks g i] is [current] after [i] ticks towards [g], and
    [counter_sum g i] the sum of [i] steps.  For targets up to [2^32] the
    sums stay within a relative [2^-45] of [i * step] ([counter_sum_error]),
    so the counter runs for at least 124 ticks, has stopped after 126
    ([counter_ticks_final]), and shows the exact interpolation or one
    less ([counter_ticks_floor]).  The world-level theorems follow one
    element from the observer's callback through the ticks of its
    interval. *)

From Stdlib Require Import ZArith QArith Qround Lia Lqa Ascii SpecFloat.
From stdpp Require Import base list gmap strings.
From S2P Require Import Prelude JsString Double Division Dom World Events Animations.

Local Open Scope Z_scope.

(** ** The values of [current] *)

(** [current] after [i] ticks towards [g], and whether the last tick
    cleared the interval. *)
Fixpoint counter_ticks (g : Z) (i : nat) : spec_float * bool :=
  match i with
  | O => (S754_zero false, false)
  | S j => Animations.counter_step (fst (counter_ticks g j)) g (Animations.counter_increment g)
  end.

(** The sum of [i] steps, as the doubles add them. *)
Fixpoint counter_sum (g : Z) (i : nat) : spec_float :=
  match i with
  | O => S754_zero false
  | S j => dadd (counter_sum g j) (Animations.counter_increment g)
  end.

(** Whether one of the first [i] ticks cleared the interval. *)
Fixpoint counter_stopped (g : Z) (i : nat) : bool :=
  match i with
  | O => false
  | S j => counter_stopped g j || snd (counter_ticks g i)
  end.

Lemma counter_sum_S (g : Z) (i : nat) :
  counter_sum g (S i) = dadd (counter_sum g i) (Animations.counter_increment g).
Proof. reflexivity. Qed.

Lemma counter_ticks_S (g : Z) (i : nat) :
  counter_ticks g (S i) = Animations.counter_step (fst (counter_ticks g i)) g (Animations.counter_increment g).
Proof. reflexivity. Qed.

(** [Math.floor(s)] for [125 s] within 1 of the integer [a]: the floor of
    [a / 125] or one less. *)
Lemma floor_near (s : Q) (a : Z) :
  (inject_Z a - 1 < 125 * s)%Q -> (125 * s < inject_Z a + 1)%Q -> a / 125 - 1 <= Qfloor s <= a / 125.
Proof.
  intros H1 H2. pose proof (Z.div_mod a 125 ltac:(lia)) as Ha. pose proof (Z.mod_pos_bound a 125 ltac:(lia)).
  set (F := a / 125) in *. set (R := a mod 125) in *.
  assert (HA : (inject_Z a == 125 * inject_Z F + inject_Z R)%Q) by (rewrite Ha, inject_Z_plus, inject_Z_mult; reflexivity).
  assert (HR : (0 <= inject_Z R <= 124)%Q) by (split; apply inject_Z_le; lia).
  split.
  - assert (Hl : (inject_Z (F - 1) <= s)%Q) by (rewrite inject_Z_sub; change (inject_Z 1) with 1%Q; lra).
    apply Qfloor_resp_le in Hl. by rewrite Qfloor_Z in Hl.
  - assert (Hu : (s < inject_Z (F + 1))%Q) by (rewrite inject_Z_plus; change (inject_Z 1) with 1%Q; lra).
    pose proof (Qfloor_le s). assert (Hf : (inject_Z (Qfloor s) < inject_Z (F + 1))%Q) by lra.
    rewrite <- Zlt_Qlt in Hf. lia.
Qed.

(** ** The error of the sums *)

(** Constants of the bounds, as rationals. *)
Lemma qpow2_consts :
  (qpow2 (-52) == 1 # 4503599627370496 /\ qpow2 (-45) == 1 # 35184372088832 /\
   qpow2 60 == 1152921504606846976 /\ qpow2 (-1074) <= 1 # 1267650600228229401496703205376)%Q.
Proof.
  split_and!; try reflexivity. pose proof qpow2_small as [_ H]. eapply Qle_trans; [exact H|]. done.
Qed.

Section Bounds.
Context (g : Z) (Hg : 1 <= g <= 2 ^ 32).

Local Abbreviation step := (Animations.counter_increment g).
Local Abbreviation t := (to_Q (Animations.counter_increment g)).
Local Abbreviation G := (inject_Z g).

Ltac consts := destruct qpow2_consts as (E52 & E45 & E60 & Esm);
  pose proof (qpow2_pos (-1074)); rewrite ?E52, ?E45 in *.

(** [step = target / 125] is within half an ulp of [g / 125]. *)
Lemma increment_close : close step (G * (1 # 125)).
Proof.
  unfold Animations.counter_increment.
  assert (E : ddiv (of_int 2000) (of_int 16) = of_int 125) by (vm_compute; reflexivity). rewrite E.
  destruct (of_int_spec g ltac:(lia)) as [Gg Vg]. destruct (of_int_spec 125 ltac:(lia)) as [G1 V1].
  change (G * (1 # 125))%Q with (G / inject_Z 125)%Q. rewrite <- Vg, <- V1.
  pose proof (qpow2_le_mono 60 1022 ltac:(lia)). consts.
  assert (HG : (1 <= G <= 4294967296)%Q) by (split; apply inject_Z_le; lia).
  apply ddiv_close; try done; rewrite Vg, V1; change (inject_Z 125) with 125%Q; lra.
Qed.

Lemma increment_bounds :
  good step /\ (G * (1 # 126) <= t)%Q /\
  (2 * (t - G * (1 # 125)) <= G * (1 # 125) * qpow2 (-52) + qpow2 (-1074))%Q /\
  (2 * (G * (1 # 125) - t) <= G * (1 # 125) * qpow2 (-52) + qpow2 (-1074))%Q.
Proof.
  destruct increment_close as (Gs & H1 & H2). split_and!; try done. consts.
  assert (HG : (1 <= G)%Q) by (apply (inject_Z_le 1); lia). lra.
Qed.

(** After [i <= 126] additions the sum is within a relative [2^-45] of
    [i * step]: each addition errs by at most [2^-53] of a sum below
    [127 * step]. *)
Lemma counter_sum_error (i : nat) :
  (i <= 126)%nat ->
  let iq := inject_Z (Z.of_nat i) in
  good (counter_sum g i) /\
  (to_Q (counter_sum g i) - iq * t <= iq * t * qpow2 (-45))%Q /\
  (iq * t - to_Q (counter_sum g i) <= iq * t * qpow2 (-45))%Q.
Proof.
  induction i as [|i IH]; intros Hi iq.
  - split; [apply good_zero|]. unfold iq. cbn [counter_sum to_Q]. change (inject_Z (Z.of_nat 0)) with 0%Q. split; lra.
  - destruct (IH ltac:(lia)) as (Gs & U & L). clear IH.
    destruct increment_bounds as (Gt & Ht & T1 & T2).
    set (q0 := inject_Z (Z.of_nat i)) in *.
    assert (HG : (1 <= G <= 4294967296)%Q) by (split; apply inject_Z_le; lia).
    assert (HI : (0 <= q0 <= 125)%Q) by (split; apply inject_Z_le; lia).
    assert (HIt : (q0 * t <= 125 * t)%Q) by (apply Qmult_le_compat_r; lra).
    assert (HIt0 : (0 <= q0 * t)%Q) by (apply Qmult_le_0_compat; lra).
    pose proof (qpow2_le_mono 60 1022 ltac:(lia)). consts.
    assert (Hb : (to_Q (counter_sum g i) + t < qpow2 1022)%Q) by lra.
    destruct (dadd_close _ _ Gs Gt Hb) as (G' & R1 & R2). rewrite E52 in R1, R2.
    cbn [counter_sum]. unfold iq. rewrite Nat2Z.inj_succ, <- Z.add_1_r, inject_Z_plus.
    change (inject_Z 1) with 1%Q. fold q0. split_and!; [done|lra|lra].
Qed.

Lemma counter_sum_below (i : nat) : (i <= 124)%nat -> (to_Q (counter_sum g i) < G)%Q.
Proof.
  intros Hi. destruct (counter_sum_error i ltac:(lia)) as (_ & U & _).
  destruct increment_bounds as (_ & Ht & T1 & _). set (q0 := inject_Z (Z.of_nat i)) in *.
  assert (HG : (1 <= G <= 4294967296)%Q) by (split; apply inject_Z_le; lia).
  assert (HI : (0 <= q0 <= 124)%Q) by (split; apply inject_Z_le; lia).
  assert (HIt : (q0 * t <= 124 * t)%Q) by (apply Qmult_le_compat_r; lra).
  consts. lra.
Qed.

Lemma counter_sum_126 : (G <= to_Q (counter_sum g 126))%Q.
Proof.
  destruct (counter_sum_error 126 ltac:(lia)) as (_ & _ & L).
  destruct increment_bounds as (_ & Ht & _ & T2).
  change (inject_Z (Z.of_nat 126)) with 126%Q in L.
  assert (HG : (1 <= G <= 4294967296)%Q) by (split; apply inject_Z_le; lia).
  consts. lra.
Qed.

(** Once [current] is the target, the next sum is not below it: a
    stopped counter stays at its target. *)
Lemma counter_stop_stays : Animations.counter_step (of_int g) g step = (of_int g, true).
Proof.
  destruct increment_bounds as (Gt & Ht & T1 & _). destruct (of_int_spec g ltac:(lia)) as [Gg Vg].
  assert (HG : (1 <= G <= 4294967296)%Q) by (split; apply inject_Z_le; lia).
  pose proof (qpow2_le_mono 60 1022 ltac:(lia)). consts.
  assert (Hb : (to_Q (of_int g) + t < qpow2 1022)%Q) by (rewrite Vg; lra).
  destruct (dadd_close _ _ Gg Gt Hb) as (G' & R1 & R2). rewrite E52, Vg in R2.
  unfold Animations.counter_step. rewrite (proj2 (dge_spec _ _ G' Gg)); [done|]. rewrite Vg. lra.
Qed.

(** The sum after [i <= 125] ticks, times 125, is within 1 of [i * g]. *)
Lemma counter_sum_floor (i : nat) :
  (i <= 125)%nat ->
  (inject_Z (Z.of_nat i * g) - 1 < 125 * to_Q (counter_sum g i) < inject_Z (Z.of_nat i * g) + 1)%Q.
Proof.
  intros Hi. destruct (counter_sum_error i ltac:(lia)) as (_ & U & L).
  destruct increment_bounds as (_ & Ht & T1 & T2). rewrite inject_Z_mult.
  set (q0 := inject_Z (Z.of_nat i)) in *.
  assert (HG : (1 <= G <= 4294967296)%Q) by (split; apply inject_Z_le; lia).
  assert (HI : (0 <= q0 <= 125)%Q) by (split; apply inject_Z_le; lia).
  assert (HIt : (q0 * t <= 125 * t)%Q) by (apply Qmult_le_compat_r; lra).
  assert (HIG : (q0 * G <= 125 * G)%Q) by (apply Qmult_le_compat_r; lra).
  consts.
  assert (HIe : (q0 * qpow2 (-1074) <= 125 * qpow2 (-1074))%Q) by (apply Qmult_le_compat_r; lra).
  pose proof (Qmult_le_compat_r _ _ q0 T1 (proj1 HI)) as M1.
  pose proof (Qmult_le_compat_r _ _ q0 T2 (proj1 HI)) as M2.
  split; lra.
Qed.

(** ** The ticks *)

(** The first 124 ticks add the step and do not reach the target. *)
Lemma counter_ticks_running (i : nat) : (i <= 124)%nat -> counter_ticks g i = (counter_sum g i, false).
Proof.
  induction i as [|i IH]; intros Hi; [done|].
  rewrite counter_ticks_S, IH by lia. cbn [fst]. unfold Animations.counter_step.
  rewrite <- counter_sum_S.
  destruct (counter_sum_error (S i) ltac:(lia)) as (Gs & _ & _). destruct (of_int_spec g ltac:(lia)) as [Gg Vg].
  destruct (dge (counter_sum g (S i)) (of_int g)) eqn:E; [|done].
  apply (dge_spec _ _ Gs Gg) in E. rewrite Vg in E. pose proof (counter_sum_below (S i) Hi). lra.
Qed.

(** The 125th tick reaches the target or falls short of it. *)
Lemma counter_ticks_125 :
  counter_ticks g 125 = (of_int g, true) \/ counter_ticks g 125 = (counter_sum g 125, false).
Proof.
  rewrite counter_ticks_S, counter_ticks_running by lia. cbn [fst]. unfold Animations.counter_step.
  rewrite <- (counter_sum_S g 124).
  destruct (dge _ _); [left|right]; done.
Qed.

(** From the 126th tick on, [current] is the target. *)
Lemma counter_ticks_final (i : nat) : (126 <= i)%nat -> counter_ticks g i = (of_int g, true).
Proof.
  induction i as [|i IH]; intros Hi; [lia|]. rewrite counter_ticks_S.
  destruct (Nat.eq_dec i 125%nat) as [->|Hne].
  - destruct counter_ticks_125 as [-> | ->]; cbn [fst]; [apply counter_stop_stays|].
    unfold Animations.counter_step. rewrite <- (counter_sum_S g 125).
    destruct (counter_sum_error 126 ltac:(lia)) as (Gs & _ & _). destruct (of_int_spec g ltac:(lia)) as [Gg Vg].
    rewrite (proj2 (dge_spec _ _ Gs Gg)); [done|]. rewrite Vg. apply counter_sum_126.
  - rewrite IH by lia. apply counter_stop_stays.
Qed.

(** What the first 125 ticks show: the exact interpolation or one less. *)
Lemma counter_ticks_floor (i : nat) :
  (i <= 125)%nat -> Z.of_nat i * g / 125 - 1 <= js_floor (fst (counter_ticks g i)) <= Z.of_nat i * g / 125.
Proof.
  intros Hi.
  assert (Hs : forall j, (j <= 125)%nat ->
            Z.of_nat j * g / 125 - 1 <= js_floor (counter_sum g j) <= Z.of_nat j * g / 125).
  { intros j Hj. destruct (counter_sum_floor j Hj). by apply floor_near. }
  destruct (Nat.eq_dec i 125%nat) as [->|Hne].
  - destruct counter_ticks_125 as [-> | ->]; cbn [fst]; [|by apply Hs].
    rewrite js_floor_of_int by lia. rewrite Z.mul_comm, Z.div_mul by lia. lia.
  - rewrite counter_ticks_running by lia. by apply Hs.
Qed.

Lemma counter_stopped_running (i : nat) : (i <= 124)%nat -> counter_stopped g i = false.
Proof.
  induction i as [|i IH]; intros Hi; [done|]. cbn [counter_stopped].
  by rewrite IH, counter_ticks_running by lia.
Qed.

Lemma counter_stopped_final (i : nat) : (126 <= i)%nat -> counter_stopped g i = true.
Proof.
  intros Hi. destruct i as [|i]; [lia|]. cbn [counter_stopped].
  rewrite counter_ticks_final by lia. apply orb_true_r.
Qed.

End Bounds.

(** A counter whose text has no digits, or only zeros, stops at the first
    tick. *)
Lemma counter_ticks_zero (i : nat) : (1 <= i)%nat -> counter_ticks 0 i = (of_int 0, true).
Proof.
  induction i as [|i IH]; intros Hi; [lia|]. rewrite counter_ticks_S.
  destruct (Nat.eq_dec i 0%nat) as [->|Hne]; [vm_compute; reflexivity|].
  rewrite IH by lia. vm_compute. reflexivity.
Qed.

Lemma counter_stopped_zero (i : nat) : (1 <= i)%nat -> counter_stopped 0 i = true.
Proof.
  intros Hi. destruct i as [|i]; [lia|]. cbn [counter_stopped].
  rewrite counter_ticks_zero by lia. apply orb_true_r.
Qed.

(** What the counter shows after [i >= 1] ticks towards [0 <= g <= 2^32]:
    the interpolation [floor(i * g / 125)] or one less up to the 125th
    tick; the target, with the interval cleared, from the 126th on. *)
Lemma counter_ticks_shown (g : Z) (i : nat) :
  0 <= g <= 2 ^ 32 -> (1 <= i)%nat ->
  ((i <= 125)%nat -> Z.of_nat i * g / 125 - 1 <= js_floor (fst (counter_ticks g i)) <= Z.of_nat i * g / 125) /\
  ((126 <= i)%nat -> js_floor (fst (counter_ticks g i)) = g /\ counter_stopped g i = true).
Proof.
  intros Hg Hi. destruct (Z.eq_dec g 0) as [->|Hg0].
  - rewrite counter_ticks_zero, counter_stopped_zero by done. cbn [fst].
    rewrite js_floor_of_int, Z.mul_0_r by lia. split; [intros; rewrite Z.div_0_l by lia; lia|done].
  - split; [apply counter_ticks_floor; lia|]. intros Hi'.
    rewrite counter_ticks_final, counter_stopped_final by lia. cbn [fst]. by rewrite js_floor_of_int by lia.
Qed.


(** ** One element's counter in the page *)

(** No pending timer has id [t]: the interval was cleared. *)
Definition timer_cleared (t : N) (w : world) : Prop := Forall (fun tm => t_id tm <> t) (w_timers w).

Lemma timer_cleared_clear (t : N) (w : world) :
  timer_cleared t (w_with_timers (List.filter (fun tm => negb (bool_decide (t_id tm = t))) (w_timers w))
                                 (w_next_timer w) w).
Proof.
  unfold timer_cleared. simpl. induction (w_timers w) as [|x ts IH]; simpl; [constructor|].
  case_bool_decide; simpl; [done|]. by constructor.
Qed.

(** One run of the interval's callback: the cell gets the next [current],
    the text its floor followed by the old text's non-digits; a stopping
    tick clears the interval, any other leaves the timers alone. *)
Lemma counter_tick_spec (el c t : N) (cur st : spec_float) (g : Z) (w : world) :
  w_cells w !! c = Some (CellCounter cur g st t) -> is_Some (get_el (w_doc w) el) ->
  exists w', Animations.counter_tick el c w = Ok tt w' /\
    w_cells w' !! c = Some (CellCounter (fst (Animations.counter_step cur g st)) g st t) /\
    text_of (w_doc w') el =
      (fun txt => show_N (Z.to_N (js_floor (fst (Animations.counter_step cur g st)))) +:+ strip_digits txt)
        <$> text_of (w_doc w) el /\
    is_Some (get_el (w_doc w') el) /\
    (snd (Animations.counter_step cur g st) = true -> timer_cleared t w') /\
    (snd (Animations.counter_step cur g st) = false -> w_timers w' = w_timers w).
Proof.
  intros Hc [e He]. unfold Animations.counter_tick, bind at 1, get_cell, gets. rewrite Hc.
  destruct (Animations.counter_step cur g st) as [next stop]. cbn [fst snd].
  destruct stop; eexists; (split; [reflexivity|]); unfold text_of;
    cbn [w_cells w_doc w_timers w_with_cells w_with_doc w_with_timers]; get_el_simpl;
    rewrite ?He; simpl; rewrite ?lookup_insert_eq; (split; [done|]); (split; [done|]);
    (split; [by eexists|]).
  - split; [intros _; apply timer_cleared_clear|discriminate].
  - split; [discriminate|done].
Qed.

(** The state of an animated counter after [i] ticks towards [g]: the
    closure's cell, the element, the non-digits [sfx] of its text, and the
    interval: cleared once a tick has stopped the counter, the timers [T]
    of the start until then. *)
Definition counter_at (el c t : N) (g : Z) (sfx : string) (T : list timer) (i : nat) (w : world) : Prop :=
  w_cells w !! c = Some (CellCounter (fst (counter_ticks g i)) g (Animations.counter_increment g) t) /\
  is_Some (get_el (w_doc w) el) /\ strip_digits <$> text_of (w_doc w) el = Some sfx /\
  (counter_stopped g i = true -> timer_cleared t w) /\ (counter_stopped g i = false -> w_timers w = T).

Lemma counter_tick_at (el c t : N) (g : Z) (sfx : string) (T : list timer) (i : nat) (w : world) :
  counter_at el c t g sfx T i w ->
  exists w', Animations.counter_tick el c w = Ok tt w' /\ counter_at el c t g sfx T (S i) w' /\
    text_of (w_doc w') el = Some (show_N (Z.to_N (js_floor (fst (counter_ticks g (S i))))) +:+ sfx).
Proof.
  intros (Hc & Hel & Hsfx & Hst & Hrun).
  destruct (counter_tick_spec el c t _ _ g w Hc Hel) as (w' & Hr & Hc' & Ht' & Hel' & Hstop & Hgo).
  rewrite <- counter_ticks_S in Hc', Ht', Hstop, Hgo.
  destruct (text_of (w_doc w) el) as [txt|]; simplify_eq/=.
  exists w'. split; [done|]. split; [|by rewrite Ht'].
  split_and!; [done|done| |intros Hs|intros Hs].
  - rewrite Ht'. simpl. by autorewrite with bn_rw.
  - cbn [counter_stopped] in Hs. destruct (snd (counter_ticks g (S i))) eqn:Es; [by apply Hstop|].
    rewrite orb_false_r in Hs. unfold timer_cleared. rewrite Hgo by done. by apply Hst.
  - cbn [counter_stopped] in Hs. apply orb_false_iff in Hs as [Hs Es].
    rewrite Hgo by done. by apply Hrun.
Qed.

(** [S n] further ticks from the state after [i] ticks. *)
Lemma counter_run (n : nat) (el c t : N) (g : Z) (sfx : string) (T : list timer) (i : nat) (w : world) :
  counter_at el c t g sfx T i w ->
  exists w', repeat_m (S n) (Animations.counter_tick el c) w = Ok tt w' /\
    counter_at el c t g sfx T (i + S n) w' /\
    text_of (w_doc w') el = Some (show_N (Z.to_N (js_floor (fst (counter_ticks g (i + S n))))) +:+ sfx).
Proof.
  revert i w. induction n as [|n IH]; intros i w Hat;
    destruct (counter_tick_at el c t g sfx T i w Hat) as (w1 & Hrun & Hat1 & Ht1).
  - exists w1. simpl repeat_m. unfold bind. rewrite Hrun. by replace (i + 1)%nat with (S i) by lia.
  - destruct (IH (S i) w1 Hat1) as (w' & Hrun' & Hat' & Ht').
    exists w'. change (repeat_m (S (S n)) (Animations.counter_tick el c))
      with (Animations.counter_tick el c ;; repeat_m (S n) (Animations.counter_tick el c)).
    unfold bind at 1. rewrite Hrun.
    by replace (i + S (S n))%nat with (S i + S n)%nat by lia.
Qed.

(** The counters' observer callback on a fresh element: it marks the
    element, and [animateCounter] stores the closure's state in a new cell
    and starts the 16 ms interval. *)
Lemma counter_entry_start (el : N) (e : element) (w : world) :
  get_el (w_doc w) el = Some e -> el_attrs e !! "data-animated" = None ->
  exists w1, Animations.counter_entry el true w = Ok tt w1 /\
    counter_at el (w_next_cell w) (w_next_timer w) (Animations.counter_target (el_text e))
               (strip_digits (el_text e)) (w_timers w1) 0 w1 /\
    mkTimer (w_next_timer w) (w_now w + 16) (Some 16) (KCounterTick el (w_next_cell w)) ∈ w_timers w1 /\
    (forall b, Animations.counter_entry el b w1 = Ok tt w1).
Proof.
  intros He Ha. unfold Animations.counter_entry, bind at 1, get_attr, el_get, doc_read, gets.
  rewrite He, Ha. simpl.
  cbv [set_attr upd_node doc_write modify Animations.animateCounter get_text el_get doc_read gets
       new_cell set_interval add_timer set_cell bind ret].
  eexists. split; [reflexivity|].
  unfold counter_at, text_of; cbn [w_cells w_doc w_timers w_next_cell w_next_timer w_now
    w_with_cells w_with_doc w_with_timers]; get_el_simpl; rewrite ?He; simpl.
  rewrite lookup_insert_eq. split; [split_and!; [done|by eexists|done|discriminate|done]|split].
  - apply elem_of_app. right. constructor.
  - intros b. rewrite lookup_insert_eq. rewrite bool_decide_eq_false_2; [by destruct b|].
    intros [?|?]; discriminate.
Qed.

Lemma counter_target_nonneg (txt : string) : 0 <= Animations.counter_target txt.
Proof. apply or_zero_parseInt_digits_nonneg. Qed.

(** The callback and [S n >= 126] ticks of the interval: the element shows
    the target followed by its text's non-digits, and the interval is
    cleared. *)
Lemma counter_final (el : N) (e : element) (w : world) (n : nat) :
  get_el (w_doc w) el = Some e -> el_attrs e !! "data-animated" = None ->
  Animations.counter_target (el_text e) <= 2 ^ 32 -> (125 <= n)%nat ->
  exists w1 w2, Animations.counter_entry el true w = Ok tt w1 /\
    repeat_m (S n) (Animations.counter_tick el (w_next_cell w)) w1 = Ok tt w2 /\
    text_of (w_doc w2) el =
      Some (show_N (Z.to_N (Animations.counter_target (el_text e))) +:+ strip_digits (el_text e)) /\
    timer_cleared (w_next_timer w) w2.
Proof.
  intros He Ha Hg Hn. destruct (counter_entry_start el e w He Ha) as (w1 & Hr1 & Hat & _).
  destruct (counter_run n _ _ _ _ _ _ 0 w1 Hat) as (w2 & Hr2 & (_ & _ & _ & Hclr & _) & Ht).
  pose proof (counter_target_nonneg (el_text e)).
  destruct (counter_ticks_shown (Animations.counter_target (el_text e)) (0 + S n) ltac:(lia) ltac:(lia))
    as [_ Hend].
  destruct (Hend ltac:(lia)) as [Hv Hs]. rewrite Hv in Ht.
  exists w1, w2. repeat split; [done..|]. by apply Hclr.
Qed.

(** ** The theorems *)

(** C11: The counter animation of an element entering the viewport for the
    first time, towards a target [g] up to [2^32]: the callback starts a
    16 ms interval and marks the element so that later callbacks do
    nothing; after [k <= 125] ticks the element shows [floor(k * g / 125)]
    or one less, followed by the non-digits of its text; the interval runs
    through the 124th tick; from the 126th tick on the element shows [g]
    and the interval is cleared. *)
Theorem counter_animation_spec (el : N) (e : element) (w : world) :
  get_el (w_doc w) el = Some e -> el_attrs e !! "data-animated" = None ->
  Animations.counter_target (el_text e) <= 2 ^ 32 ->
  let g := Animations.counter_target (el_text e) in
  exists w1, Animations.counter_entry el true w = Ok tt w1 /\
    mkTimer (w_next_timer w) (w_now w + 16) (Some 16) (KCounterTick el (w_next_cell w)) ∈ w_timers w1 /\
    (forall b, Animations.counter_entry el b w1 = Ok tt w1) /\
    forall n : nat, exists w2 v,
      repeat_m (S n) (Animations.counter_tick el (w_next_cell w)) w1 = Ok tt w2 /\
      text_of (w_doc w2) el = Some (show_N (Z.to_N v) +:+ strip_digits (el_text e)) /\
      ((n <= 124)%nat -> Z.of_nat (S n) * g / 125 - 1 <= v <= Z.of_nat (S n) * g / 125) /\
      ((n <= 123)%nat -> 1 <= g -> w_timers w2 = w_timers w1) /\
      ((125 <= n)%nat -> v = g /\ timer_cleared (w_next_timer w) w2).
Proof.
  intros He Ha Hg32 g. destruct (counter_entry_start el e w He Ha) as (w1 & Hr1 & Hat & Ht & Honce).
  exists w1. do 3 (split; [done|]). intros n. pose proof (counter_target_nonneg (el_text e)).
  destruct (counter_run n _ _ _ _ _ _ 0 w1 Hat) as (w2 & Hr2 & (_ & _ & _ & Hclr & Hrun) & Ht2).
  destruct (counter_ticks_shown g (S n) ltac:(unfold g; lia) ltac:(lia)) as [Hmid Hend].
  exists w2, (js_floor (fst (counter_ticks g (S n)))). split_and!; [done|done| | |].
  - intros. apply Hmid. lia.
  - intros Hn Hg1. apply Hrun, (counter_stopped_running g ltac:(unfold g; lia)). lia.
  - intros Hn. destruct (Hend ltac:(lia)) as [Hv Hs]. split; [done|by apply Hclr].
Qed.

(** C10: A counter whose text is a number up to [2^32] followed by a text
    without digits, such as "1234+", ends the animation (from the 126th
    tick on) showing exactly its original text, its interval cleared. *)
Theorem counter_keeps_suffix (el : N) (e : element) (w : world) (n : nat) (v : N) (sfx : string) :
  get_el (w_doc w) el = Some e -> el_attrs e !! "data-animated" = None ->
  el_text e = show_N v +:+ sfx -> strip_non_digits sfx = EmptyString -> Z.of_N v <= 2 ^ 32 ->
  (125 <= n)%nat ->
  exists w1 w2, Animations.counter_entry el true w = Ok tt w1 /\
    repeat_m (S n) (Animations.counter_tick el (w_next_cell w)) w1 = Ok tt w2 /\
    text_of (w_doc w2) el = Some (el_text e) /\ timer_cleared (w_next_timer w) w2.
Proof.
  intros He Ha Htxt Hs Hv Hn.
  assert (Hg : Animations.counter_target (el_text e) = Z.of_N v).
  { unfold Animations.counter_target. rewrite Htxt. by apply or_zero_parseInt_show_N. }
  destruct (counter_final el e w n He Ha ltac:(lia) Hn) as (w1 & w2 & H1 & H2 & Ht & Hc).
  exists w1, w2. rewrite Ht, Hg, N2Z.id, Htxt, strip_digits_show_N, strip_digits_no_digits by done. done.
Qed.

(** C14: The suffix the counter writes is every non-digit of the text, not
    the text after the number: a counter showing "1,234+" ends showing
    "1234,+", its interval cleared. *)
Theorem counter_comma_moved (el : N) (e : element) (w : world) (n : nat) :
  get_el (w_doc w) el = Some e -> el_attrs e !! "data-animated" = None ->
  el_text e = "1,234+" -> (125 <= n)%nat ->
  exists w1 w2, Animations.counter_entry el true w = Ok tt w1 /\
    repeat_m (S n) (Animations.counter_tick el (w_next_cell w)) w1 = Ok tt w2 /\
    text_of (w_doc w2) el = Some "1234,+" /\ timer_cleared (w_next_timer w) w2.
Proof.
  intros He Ha Htxt Hn.
  destruct (counter_final el e w n He Ha ltac:(rewrite Htxt; vm_compute; discriminate) Hn)
    as (w1 & w2 & H1 & H2 & Ht & Hc).
  exists w1, w2. rewrite Ht, Htxt. split_and!; [done|done| |done]. vm_compute. reflexivity.
Qed.

(** C12: The counter does not always end in 2 s: a counter reading "9"
    still shows 8 after its 125th tick (2 s), with its interval running,
    because the 125 doubles [9 / 125] add up to 8.999999999999995; the
    126th tick shows 9 and clears the interval. *)
Theorem counter_nine_overruns (el : N) (e : element) (w : world) :
  get_el (w_doc w) el = Some e -> el_attrs e !! "data-animated" = None -> el_text e = "9" ->
  exists w1 w2 w3, Animations.counter_entry el true w = Ok tt w1 /\
    repeat_m 125 (Animations.counter_tick el (w_next_cell w)) w1 = Ok tt w2 /\
    text_of (w_doc w2) el = Some "8" /\ w_timers w2 = w_timers w1 /\
    Animations.counter_tick el (w_next_cell w) w2 = Ok tt w3 /\
    text_of (w_doc w3) el = Some "9" /\ timer_cleared (w_next_timer w) w3.
Proof.
  intros He Ha Htxt. destruct (counter_entry_start el e w He Ha) as (w1 & Hr1 & Hat & _).
  rewrite Htxt in Hat. change (Animations.counter_target "9") with 9 in Hat.
  destruct (counter_run 124 _ _ _ _ _ _ 0 w1 Hat) as (w2 & Hr2 & Hat2 & Ht2).
  destruct (counter_tick_at _ _ _ _ _ _ _ w2 Hat2) as (w3 & Hr3 & (_ & _ & _ & Hclr & _) & Ht3).
  destruct Hat2 as (_ & _ & _ & _ & Hrun).
  exists w1, w2, w3. split_and!; try done.
  - apply Hrun. vm_compute. reflexivity.
  - apply Hclr. vm_compute. reflexivity.
Qed.
