(* ===== verification/Social.v ===== *)
(** * Social: the [Social] object of [src/Script.js] (lines 265-334)

    The Discord widget iframe, the two confirmation-guarded redirects the
    script stores on [window] ([redirectToDiscordUser],
    [redirectToDiscord]), and the click feedback of social buttons.  A
    redirect opens its URL in a new browsing context only when the user
    confirms; a declined [confirm] has no other effect.  The widget's
    [frameborder] and [allowtransparency] assignments are not attribute
    writes ([loadDiscordWidget_spec]). *)

From Stdlib Require Import ZArith Lia Ascii.
From stdpp Require Import base list gmap strings.
From S2P Require Import Prelude JsString Dom Config World Events.

Module Social.

(** [window.redirectToDiscordUser(username)] (lines 277-287). *)
Definition redirectToDiscordUser (username : string) : M unit :=
  let discordUrl := "https://discord.com/users/" +:+ username in
  confirmed <- confirm ;;
  if confirmed then window_open discordUrl "_blank" else ret tt.

(** [window.redirectToDiscord()] (lines 290-296). *)
Definition redirectToDiscord : M unit :=
  confirmed <- confirm ;;
  if confirmed then window_open (DISCORD_INVITE CONFIG) "_blank" else ret tt.

(** [loadDiscordWidget] (lines 299-317).  [src], [width], [height] and
    [sandbox] are reflected properties of an [<iframe>], so assigning
    them sets the attributes.  [allowtransparency] and [frameborder]
    (lines 311-312) are not properties of [HTMLIFrameElement] (the
    reflected one is [frameBorder]): the assignments add plain JavaScript
    properties to the element object and leave its attributes alone. *)
Definition widgetUrl : string := "https://discord.com/widget?id=YOUR_SERVER_ID&theme=dark".

Definition widget_sandbox : string :=
  "allow-popups allow-popups-to-escape-sandbox allow-same-origin allow-scripts".

Definition loadDiscordWidget : M unit :=
  wc <- q [SelId "discord-widget"] ;;
  match wc with
  | None => ret tt
  | Some c =>
      iframe <- create "iframe" ;;
      set_attr iframe "src" widgetUrl ;;
      set_attr iframe "width" "350" ;;
      set_attr iframe "height" "500" ;;
      set_attr iframe "sandbox" widget_sandbox ;;
      append c iframe
  end.

Definition setupDiscordIntegration : M unit :=
  loadDiscordWidget ;;
  set_global "redirectToDiscordUser" GRedirectToDiscordUser ;;
  set_global "redirectToDiscord" GRedirectToDiscord.

(** A social button's click listener (lines 322-331). *)
Definition social_click (b : node_id) : M unit :=
  txt <- get_text b ;;
  log_info ("Social click: " +:+ js_lower txt) ;;
  set_style b "transform" "scale(0.95)" ;;
  _ <- set_timeout (KSocialRestore b) 150 ;;
  ret tt.

Definition social_restore (b : node_id) : M unit := set_style b "transform" "".

Definition setupSocialButtons : M unit :=
  btns <- qa [SelClass "social-btn"; SelClass "discord-link"] ;;
  for_each btns (fun b => listen (TgNode b) "click" (KSocialClick b)).

(** [Social.init()] (lines 267-270). *)
Definition init : M unit :=
  setupDiscordIntegration ;;
  setupSocialButtons.

End Social.

(** ** Lemmas *)

(** The server redirect opens the invite exactly when the user confirms;
    a declined or dismissed dialog changes nothing but the consumed
    answer. *)
Lemma redirectToDiscord_spec (b : bool) (bs : list bool) (w : world) :
  w_answers w = b :: bs ->
  Social.redirectToDiscord w =
  Ok tt (if b then w_with_opened (w_opened w ++ [(DISCORD_INVITE CONFIG, "_blank")])
                                 (w_with_answers bs w)
         else w_with_answers bs w).
Proof.
  intros Hb. unfold Social.redirectToDiscord, bind at 1, confirm. rewrite Hb.
  by destruct b.
Qed.

(** C40: On a page with a [#discord-widget] container, [loadDiscordWidget]
    appends to it a new [<iframe>] whose [src] is the widget URL (with the
    placeholder server id) and whose [sandbox] is the script's token
    list, while the [frameborder] and [allowtransparency] the script
    assigns never become attributes: the frame keeps its default border. *)
Theorem loadDiscordWidget_spec (c : node_id) (w : world) :
  query [SelId "discord-widget"] (w_doc w) = Some c ->
  exists w', Social.loadDiscordWidget w = Ok tt w' /\
    option_map el_tag (get_el (w_doc w') (d_next (w_doc w))) = Some "iframe" /\
    option_map el_parent (get_el (w_doc w') (d_next (w_doc w))) = Some (Some c) /\
    attr_of (w_doc w') (d_next (w_doc w)) "src" = Some Social.widgetUrl /\
    attr_of (w_doc w') (d_next (w_doc w)) "sandbox" = Some Social.widget_sandbox /\
    attr_of (w_doc w') (d_next (w_doc w)) "frameborder" = None /\
    attr_of (w_doc w') (d_next (w_doc w)) "allowtransparency" = None.
Proof.
  intros Hq. unfold Social.loadDiscordWidget, bind at 1, q, doc_read, gets. rewrite Hq.
  cbv [bind create create_element set_attr upd_node doc_write modify append append_child]. wsimpl.
  eexists. split; [reflexivity|]. wsimpl. unfold attr_of. get_el_simpl.
  repeat split; vm_compute; reflexivity.
Qed.
