(* ===== verification/Accessibility.v ===== *)
(** * Accessibility: the [Accessibility] object of [src/Script.js] (lines 571-682)

    Cards made focusable and activatable from the keyboard (Enter or Space
    clicks the card's first link, else its first [.btn]), the global
    shortcuts Ctrl/Cmd+K (the Discord redirect stored on [window]) and
    Ctrl/Cmd+M (the Minecraft page), the focus-outline style sheet, the
    cards' ARIA labels with the skip link, and the reduced-motion style
    sheet.  A card's keydown listener calls [link.click()], which
    dispatches a new click event: the listener receives the function that
    performs that click from the event loop. *)

From Stdlib Require Import ZArith Lia Ascii.
From stdpp Require Import base list gmap strings.
From S2P Require Import Prelude JsString Dom Config World Events Animations Social.

Module Accessibility.

(** A card's keydown listener (lines 586-594); [click l] is
    [l.click()]. *)
Definition card_keydown (el : node_id) (ev : event) (click : node_id -> M unit) : M unit :=
  if bool_decide (ev_key ev = "Enter" \/ ev_key ev = " ") then
    prevent_default ;;
    a <- q_in el [SelTag "a"] ;;
    link <- (match a with Some l => ret (Some l) | None => q_in el [SelClass "btn"] end) ;;
    match link with Some l => click l | None => ret tt end
  else ret tt.

(** [window.redirectToDiscord()]: a [TypeError] when no function is
    stored under that name. *)
Definition call_redirectToDiscord : M unit :=
  g <- gets (fun w => w_globals w !! "redirectToDiscord") ;;
  match g with
  | Some GRedirectToDiscord => Social.redirectToDiscord
  | _ => throw (TypeError "window.redirectToDiscord is not a function")
  end.

(** The document's keydown listener for shortcuts (lines 598-610). *)
Definition shortcuts (ev : event) : M unit :=
  let modifier := ev_ctrl ev || ev_meta ev in
  (if modifier && bool_decide (ev_key ev = "k")
   then prevent_default ;; call_redirectToDiscord else ret tt) ;;
  (if modifier && bool_decide (ev_key ev = "m")
   then prevent_default ;; navigate "minecraft.html" else ret tt).

Definition setupKeyboardNavigation : M unit :=
  els <- qa Animations.hover_selector ;;
  for_each els (fun el =>
    set_attr el "tabindex" "0" ;;
    set_attr el "role" "button" ;;
    listen (TgNode el) "keydown" (KCardKeydown el)) ;;
  listen TgDocument "keydown" KShortcuts.

Definition focus_css : string :=
  "
      *:focus {
        outline: 3px solid var(--accent-blue) !important;
        outline-offset: 2px !important;
      }
      .nav-link:focus,
      .btn:focus {
        outline: 3px solid var(--accent-blue) !important;
        outline-offset: 2px !important;
      }
    ".

Definition add_style_sheet (css : string) : M unit :=
  style <- create "style" ;;
  set_text style css ;;
  h <- head_el ;;
  append h style.

Definition setupFocusManagement : M unit := add_style_sheet focus_css.

Definition skip_css : list (string * string) :=
  [("position", "absolute"); ("top", "-40px"); ("left", "6px");
   ("background", "var(--accent-blue)"); ("color", "white"); ("padding", "8px");
   ("text-decoration", "none"); ("border-radius", "4px"); ("z-index", "10001");
   ("transition", "top 0.3s"); ("font-family", "var(--font-pixel)")].

Definition skip_focus (a : node_id) : M unit := set_style a "top" "6px".
Definition skip_blur (a : node_id) : M unit := set_style a "top" "-40px".

Definition setupScreenReaderSupport : M unit :=
  cards <- qa [SelClass "card"] ;;
  for_each cards (fun c =>
    t <- q_in c [SelTag "h3"] ;;
    match t with
    | Some h => txt <- get_text h ;; set_attr c "aria-label" (txt +:+ " - Click to learn more")
    | None => ret tt
    end) ;;
  skip <- create "a" ;;
  set_attr skip "href" "#main-content" ;;
  set_text skip "Skip to main content" ;;
  set_css_text skip skip_css ;;
  listen (TgNode skip) "focus" (KSkipFocus skip) ;;
  listen (TgNode skip) "blur" (KSkipBlur skip) ;;
  b <- body ;;
  append b skip.

Definition reduced_motion_css : string :=
  "
        *, *::before, *::after {
          animation-duration: 0.01ms !important;
          animation-iteration-count: 1 !important;
          transition-duration: 0.01ms !important;
        }
      ".

Definition setupReducedMotion : M unit :=
  reduce <- env env_reduced_motion ;;
  if reduce then add_style_sheet reduced_motion_css else ret tt.

(** [Accessibility.init()] (lines 573-578). *)
Definition init : M unit :=
  setupKeyboardNavigation ;;
  setupFocusManagement ;;
  setupScreenReaderSupport ;;
  setupReducedMotion.

End Accessibility.

(** ** Lemmas *)

(** C34: The global shortcuts: without Ctrl or Cmd a keydown does nothing;
    Ctrl/Cmd+M prevents the default and navigates to [minecraft.html];
    Ctrl/Cmd+K prevents the default and runs the Discord confirmation,
    which opens the invite exactly when the user confirms. *)
Theorem shortcuts_spec (ev : event) (w : world) :
  (ev_ctrl ev || ev_meta ev = false -> Accessibility.shortcuts ev w = Ok tt w) /\
  (ev_ctrl ev || ev_meta ev = true -> ev_key ev = "m" ->
     Accessibility.shortcuts ev w =
     Ok tt (w_with_navigations (w_navigations w ++ ["minecraft.html"]) (w_with_prevented true w))) /\
  (ev_ctrl ev || ev_meta ev = true -> ev_key ev = "k" ->
     w_globals w !! "redirectToDiscord" = Some GRedirectToDiscord ->
     forall b bs, w_answers w = b :: bs ->
     Accessibility.shortcuts ev w =
     Ok tt (if b then w_with_opened (w_opened w ++ [(DISCORD_INVITE CONFIG, "_blank")])
                        (w_with_answers bs (w_with_prevented true w))
            else w_with_answers bs (w_with_prevented true w))).
Proof.
  unfold Accessibility.shortcuts. split; [|split].
  - intros Hm. by rewrite Hm.
  - intros Hm Hk. rewrite Hm, Hk. reflexivity.
  - intros Hm Hk Hg b bs Hb. rewrite Hm, Hk. simpl.
    cbv [bind prevent_default modify Accessibility.call_redirectToDiscord gets
         Social.redirectToDiscord confirm ret window_open].
    wsimpl. rewrite Hg. wsimpl. rewrite Hb. by destruct b.
Qed.
