(* ===== verification/Performance.v ===== *)
(** * Performance: the [Performance] object of [src/Script.js] (lines 684-735)

    Lazy loading of images that carry [data-src] through an
    [IntersectionObserver] (callback [image_entry]), [loading="lazy"] on
    every image without a [loading] attribute, and the registration of
    the service worker once the window has loaded.  [optimizeImages_spec]
    states exactly which attributes [optimizeImages] writes. *)

From Stdlib Require Import ZArith Lia Ascii.
From stdpp Require Import base list gmap strings.
From S2P Require Import Prelude JsString Dom Config World Events.

Module Performance.

(** The image observer's callback on one entry (lines 698-705). *)
Definition image_entry (obs : N) (img : node_id) (intersecting : bool) : M unit :=
  if intersecting then
    src <- get_attr img "data-src" ;;
    set_attr img "src" (default "undefined" src) ;;
    remove_class img "lazy" ;;
    unobserve obs img
  else ret tt.

Definition setupLazyLoading : M unit :=
  images <- qa [SelTagAttr "img" "data-src"] ;;
  io <- env env_has_io ;;
  if io && bool_decide (0 < length images) then
    obs <- new_observer ObsImage ;;
    for_each images (observe obs)
  else ret tt.

(** The body of the [forEach] of [optimizeImages] (lines 714-718). *)
Definition lazy_default (img : node_id) : M unit :=
  loading <- get_attr img "loading" ;;
  match loading with
  | None => set_attr img "loading" "lazy"
  | Some _ => ret tt
  end.

Definition optimizeImages : M unit :=
  images <- qa [SelTag "img"] ;;
  for_each images lazy_default.

(** The window's load listener (lines 724-732): the registration
    promise settles before the next event. *)
Definition sw_load : M unit :=
  ok <- env env_sw_ok ;;
  if ok then log_info "SW registered: [object ServiceWorkerRegistration]"
  else log_info "SW registration failed: [object Error]".

Definition setupServiceWorker : M unit :=
  sw <- env env_has_sw ;;
  if sw then listen TgWindow "load" KSwLoad else ret tt.

(** [Performance.init()] (lines 686-690). *)
Definition init : M unit :=
  setupLazyLoading ;;
  optimizeImages ;;
  setupServiceWorker.

End Performance.

(** ** [optimizeImages] *)

Lemma lazy_default_spec (img : node_id) (w : world) :
  is_Some (get_el (w_doc w) img) ->
  exists w', Performance.lazy_default img w = Ok tt w' /\ same_tree (w_doc w) (w_doc w') /\
    forall n a, attr_of (w_doc w') n a =
      if bool_decide (n = img /\ a = "loading") then Some (default "lazy" (attr_of (w_doc w) img "loading"))
      else attr_of (w_doc w) n a.
Proof.
  intros [e He]. unfold Performance.lazy_default, bind at 1, get_attr, el_get, doc_read, gets. rewrite He.
  destruct (el_attrs e !! "loading") as [v|] eqn:Hv.
  - exists w. split; [done|]. split; [apply same_tree_refl|]. intros n a.
    case_bool_decide as H; [|done]. destruct H as [-> ->]. unfold attr_of. by rewrite He; simpl; rewrite Hv.
  - eexists. split; [reflexivity|]. cbv [set_attr upd_node doc_write modify]. wsimpl.
    split; [by apply upd_el_same_tree|]. intros n a. unfold attr_of.
    destruct (decide (n = img)) as [->|Hne].
    + rewrite get_el_upd_same, He. simpl. case_bool_decide as H.
      * destruct H as [_ ->]. rewrite Hv. simpl. apply lookup_insert_eq.
      * rewrite lookup_insert_ne; [done|]. intros <-. naive_solver.
    + rewrite get_el_upd_other by congruence. rewrite bool_decide_eq_false_2; [done|naive_solver].
Qed.

Lemma lazy_default_loop (ls : list node_id) (w : world) :
  Forall (fun n => is_Some (get_el (w_doc w) n)) ls ->
  exists w', for_each ls Performance.lazy_default w = Ok tt w' /\ same_tree (w_doc w) (w_doc w') /\
    forall n a, attr_of (w_doc w') n a =
      if bool_decide (n ∈ ls /\ a = "loading") then Some (default "lazy" (attr_of (w_doc w) n "loading"))
      else attr_of (w_doc w) n a.
Proof.
  revert w. induction ls as [|l ls IH]; intros w Hls.
  - exists w. split; [done|]. split; [apply same_tree_refl|]. intros n a.
    rewrite bool_decide_eq_false_2; [done|]. intros [?%elem_of_nil _]. done.
  - apply Forall_cons in Hls as [Hl Hls].
    destruct (lazy_default_spec l w Hl) as (w1 & H1 & Ht1 & Ha1).
    destruct (IH w1) as (w2 & H2 & Ht2 & Ha2).
    { eapply Forall_impl; [exact Hls|]. intros n Hn. by apply (same_tree_is_Some _ _ n Ht1). }
    exists w2. cbn [for_each]. unfold bind at 1. rewrite H1. split; [done|].
    split; [by eapply same_tree_trans|]. intros n a. rewrite Ha2, !Ha1.
    destruct (decide (a = "loading")) as [->|Ha]; [|rewrite !bool_decide_eq_false_2; naive_solver].
    destruct (decide (n = l)) as [->|Hn].
    + rewrite (bool_decide_eq_true_2 (l = l /\ _)) by done.
      rewrite (bool_decide_eq_true_2 (l ∈ l :: ls /\ _)) by (split; [constructor|done]).
      by case_bool_decide.
    + rewrite (bool_decide_eq_false_2 (n = l /\ _)) by naive_solver.
      replace (bool_decide (n ∈ l :: ls /\ "loading" = "loading"))
        with (bool_decide (n ∈ ls /\ "loading" = "loading")); [done|].
      apply bool_decide_ext. rewrite elem_of_cons. naive_solver.
Qed.

(** C39: [optimizeImages] gives [loading="lazy"] exactly to the images of
    the page that have no [loading] attribute: an image's existing value
    is kept, no other attribute of any node changes, and the tree is
    untouched. *)
Theorem optimizeImages_spec (w : world) :
  exists w', Performance.optimizeImages w = Ok tt w' /\ same_tree (w_doc w) (w_doc w') /\
    forall n a, attr_of (w_doc w') n a =
      if bool_decide (n ∈ query_all [SelTag "img"] (w_doc w) /\ a = "loading")
      then Some (default "lazy" (attr_of (w_doc w) n "loading")) else attr_of (w_doc w) n a.
Proof.
  unfold Performance.optimizeImages, bind at 1, qa, doc_read, gets. apply lazy_default_loop.
  apply Forall_forall. intros n Hn. by apply (query_all_is_Some [SelTag "img"]).
Qed.
