(* ===== verification/App.v ===== *)
(** * App: the bootstrap and the top level of [src/Script.js] (lines 737-891)

    [BlackflameNova.init] calls the seven modules' [init] in a fixed order
    inside one [try]: an exception leaves the modules initialised so far
    in place, skips the others, the [loaded] class and the welcome
    message, and is logged.  Loading the script installs the [window]
    utilities, the Konami listener, the [DOMContentLoaded] listener that
    runs the bootstrap, and the [visibilitychange] listener that swaps the
    title.  That listener looks the page name up in an object literal, so
    the lookup follows JavaScript's prototype chain ([js_lookup]).
    [sharePage] has both of its branches: the share sheet, whose dismissal
    is logged, and the clipboard copy, whose toast call throws. *)

From Stdlib Require Import ZArith Lia Ascii.
From stdpp Require Import base list gmap strings.
From S2P Require Import Prelude JsString Dom Config World Events Page Navigation Konami Minecraft VoiceChat Animations Social Accessibility Performance.

(** ** Modules as components *)

(** The modules in the order of lines 742-748. *)
Definition modules : list (string * M unit) :=
  [("Navigation", Navigation.init); ("Animations", Animations.init);
   ("Social", Social.init); ("Minecraft", Minecraft.init);
   ("VoiceChat", VoiceChat.init); ("Accessibility", Accessibility.init);
   ("Performance", Performance.init)].

(** The template literal of lines 754-763, its line breaks and indentation
    written as single spaces. *)
Definition welcome_message : string :=
  "⚡ BLACKFLAME NOVA ⚡ Website loaded successfully! 🎮 Minecraft IP: " +:+ MINECRAFT_IP CONFIG +:+
  " 📱 Bedrock: " +:+ BEDROCK_IP CONFIG +:+ ":" +:+ BEDROCK_PORT CONFIG +:+
  " Created by Ahsan 🎨 | Owned by Tannej 👑 Made in Pakistan 🇵🇰".

(** The body of the [try] (lines 742-763), for a list of module inits. *)
Definition init_all (inits : list (M unit)) : M unit :=
  for_each inits (fun i => i) ;;
  b <- body ;;
  add_class b "loaded" ;;
  log_info welcome_message.

Definition bootstrap (inits : list (M unit)) : M unit :=
  catch (init_all inits)
        (fun e => log_error ("Error initializing BLACKFLAME NOVA: " +:+ describe e)).

Module BlackflameNova.
(** [BlackflameNova.init()] (lines 739-768). *)
Definition init : M unit := bootstrap (map snd modules).
End BlackflameNova.

(** ** The visibility handler (lines 862-877) *)

(** JavaScript values a property lookup can return. *)
Inductive js_value := JsStr (s : string) | JsFun (name : string) | JsObj.

(** The properties every object literal inherits from [Object.prototype]. *)
Definition object_prototype : list (string * js_value) :=
  [("constructor", JsFun "Object"); ("__proto__", JsObj);
   ("hasOwnProperty", JsFun "hasOwnProperty"); ("isPrototypeOf", JsFun "isPrototypeOf");
   ("propertyIsEnumerable", JsFun "propertyIsEnumerable");
   ("toLocaleString", JsFun "toLocaleString"); ("toString", JsFun "toString");
   ("valueOf", JsFun "valueOf"); ("__defineGetter__", JsFun "__defineGetter__");
   ("__defineSetter__", JsFun "__defineSetter__"); ("__lookupGetter__", JsFun "__lookupGetter__");
   ("__lookupSetter__", JsFun "__lookupSetter__")].

(** [obj[key]] for an object literal: own properties, then the prototype. *)
Definition js_lookup (own : list (string * js_value)) (key : string) : option js_value :=
  match list_to_map (M := gmap string js_value) own !! key with
  | Some v => Some v
  | None => list_to_map (M := gmap string js_value) object_prototype !! key
  end.

(** [String(v)] for the values above. *)
Definition js_to_string (v : js_value) : string :=
  match v with
  | JsStr s => s
  | JsFun n => "function " +:+ n +:+ "() { [native code] }"
  | JsObj => "[object Object]"
  end.

(** [v || d]: the empty string is the only falsy value here. *)
Definition js_or (v : option js_value) (d : string) : string :=
  match v with
  | Some (JsStr "") | None => d
  | Some v' => js_to_string v'
  end.

Definition pageTitles : list (string * js_value) :=
  [("index", JsStr "Top❶𝐁𝐋𝐀𝐂𝐊𝐅𝐋𝐀𝐌𝐄 𝐍𝐎𝐕𝐀 - Discord Server");
   ("minecraft", JsStr "Minecraft Server - BLACKFLAME NOVA");
   ("voice-chat", JsStr "Voice Chat Events - BLACKFLAME NOVA");
   ("social-media", JsStr "Social Media & Team - BLACKFLAME NOVA")].

Definition visibility_change : M unit :=
  hidden <- gets w_hidden ;;
  if hidden then modify (w_with_title "💤 Come back to BLACKFLAME NOVA!")
  else
    path <- gets w_path ;;
    match Navigation.current_page path with
    | None => throw (TypeError "pop() is undefined")
    | Some page => modify (w_with_title (js_or (js_lookup pageTitles page) "BLACKFLAME NOVA"))
    end.

(** ** The [window] utilities (lines 771-821) *)

Definition scrollToTop : M unit := scroll_to 0.

Definition printPage : M unit := modify (fun w => w_with_prints (S (w_prints w)) w).

(** [window.sharePage()] (lines 784-803).  With [navigator.share] the
    page's title, a fixed text and its URL are shared, and a dismissed
    share sheet is logged.  Without it the URL is written to the
    clipboard and then [Minecraft.prototype.showToast] is called;
    [Minecraft] is a plain object, so [Minecraft.prototype] is
    [undefined] and the call throws inside the [try]. *)
Definition share_text : string := "Check out BLACKFLAME NOVA Discord Server!".

Definition sharePage : M unit :=
  share <- env env_has_share ;;
  if share then
    catch (title <- gets w_title ;;
           href <- gets w_href ;;
           navigator_share title share_text href)
          (fun e => log_info ("Error sharing: " +:+ describe e))
  else
    catch (href <- gets w_href ;;
           Minecraft.clipboard_write href ;;
           throw (TypeError "Cannot read properties of undefined (reading 'showToast')"))
          (fun _ => log_info "Could not copy URL").

(** ** Loading the script *)

(** What the script does when it is evaluated (lines 774-891): the
    [window] functions, [konamiCode = []], the three listeners, the
    [window.BlackflameNova] export and the closing log line. *)
Definition load_script : M unit :=
  set_global "scrollToTop" GScrollToTop ;;
  set_global "printPage" GPrintPage ;;
  set_global "sharePage" GSharePage ;;
  set_global "getServerInfo" GGetServerInfo ;;
  modify (w_with_konami []) ;;
  listen TgDocument "keydown" KKonami ;;
  listen TgDocument "DOMContentLoaded" KDomReady ;;
  listen TgDocument "visibilitychange" KVisibility ;;
  set_global "BlackflameNova" GBlackflameNova ;;
  log_info "⚡ BLACKFLAME NOVA JavaScript loaded successfully! ⚡".

(** ** Lemmas *)

Definition init_error_entry (e : js_error) : log_entry :=
  LogError ("Error initializing BLACKFLAME NOVA: " +:+ describe e).

(** An exception in one module's [init] ends the bootstrap there: the
    modules after it never run, the body never gets [loaded], and the
    only further effect is the logged error. *)
Lemma bootstrap_abort (pre post : list (M unit)) (bad : M unit) (w w1 w2 : world) (e : js_error) :
  for_each pre (fun i => i) w = Ok tt w1 -> bad w1 = Throw e w2 ->
  bootstrap (pre ++ bad :: post) w =
  Ok tt (w_with_console (w_console w2 ++ [init_error_entry e]) w2).
Proof.
  intros Hpre Hbad. unfold bootstrap, catch, init_all, bind at 1.
  rewrite for_each_app. unfold bind at 1. rewrite Hpre. simpl. unfold bind at 1.
  by rewrite Hbad.
Qed.

(** C1: The bootstrap never lets an exception escape, whatever the modules
    do: it ends normally, either with every module initialised or with the
    error logged. *)
Theorem bootstrap_total (inits : list (M unit)) (w : world) :
  exists w', bootstrap inits w = Ok tt w' /\
    ((exists w1, for_each inits (fun i => i) w = Ok tt w1 /\ w_console w' = w_console w1 ++ [LogInfo welcome_message]) \/
     (exists e w1, init_all inits w = Throw e w1 /\ w' = w_with_console (w_console w1 ++ [init_error_entry e]) w1)).
Proof.
  destruct (for_each inits (fun i => i) w) as [[] w1|e w1] eqn:Hall.
  - eexists. unfold bootstrap, catch, init_all, bind at 1. rewrite Hall. split; [reflexivity|]. left. eauto.
  - exists (w_with_console (w_console w1 ++ [init_error_entry e]) w1). split; [|right; exists e, w1; split; [|done]].
    + unfold bootstrap, catch, init_all, bind at 1. by rewrite Hall.
    + unfold init_all, bind at 1. by rewrite Hall.
Qed.

(** When every module initialises, the body is marked [loaded] and the
    welcome message is logged. *)
Lemma bootstrap_complete (inits : list (M unit)) (w w1 : world) :
  for_each inits (fun i => i) w = Ok tt w1 ->
  bootstrap inits w =
  Ok tt (w_with_console (w_console w1 ++ [LogInfo welcome_message])
          (w_with_doc (upd_el (d_body (w_doc w1))
             (fun e => {| e with el_classes := class_add "loaded" (el_classes e) |}) (w_doc w1)) w1)).
Proof.
  intros Hall. unfold bootstrap, catch, init_all, bind at 1. rewrite Hall. reflexivity.
Qed.

(** C5: A channel card whose capacity states no number, met when the first
    four modules have initialised on a page other than the voice-chat
    page, aborts the bootstrap: Accessibility and Performance are never
    initialised and the page is never marked [loaded]. *)
Theorem bootstrap_voicechat_abort (w w4 : world) (info c : node_id) (rest : list node_id)
    (txt : string) :
  for_each [Navigation.init; Animations.init; Social.init; Minecraft.init] (fun i => i) w = Ok tt w4 ->
  str_contains "voice-chat" (w_path w4) = false ->
  query_all [SelClass "channel-info"] (w_doc w4) = info :: rest ->
  query_in info [SelClass "channel-capacity"] (w_doc w4) = Some c ->
  text_of (w_doc w4) c = Some txt -> js_match_digits txt = None ->
  BlackflameNova.init w =
  Ok tt (w_with_console (w_console w4 ++
           [init_error_entry (TypeError "Cannot read properties of null (reading '0')")]) w4).
Proof.
  intros Hpre Hpath Hall Hq Ht Hm. unfold BlackflameNova.init. simpl map.
  apply (bootstrap_abort [_; _; _; _] [_; _] _ w w4); [exact Hpre|].
  unfold VoiceChat.init, bind at 1, VoiceChat.setupEventSchedule, bind at 1, gets.
  rewrite Hpath. simpl. by apply (setupVoiceChannelStatus_throws info c rest txt).
Qed.

(** The state the sample page without a channel capacity reaches after
    the first four modules. *)
Definition page_no_capacity_w4 : world :=
  match for_each [Navigation.init; Animations.init; Social.init; Minecraft.init]
                 (fun i => i) page_no_capacity with
  | Ok _ w' => w'
  | Throw _ w' => w'
  end.

Lemma bootstrap_voicechat_abort_witness :
  BlackflameNova.init page_no_capacity =
  Ok tt (w_with_console (w_console page_no_capacity_w4 ++
           [init_error_entry (TypeError "Cannot read properties of null (reading '0')")])
         page_no_capacity_w4).
Proof.
  apply (bootstrap_voicechat_abort page_no_capacity page_no_capacity_w4 17%N 18%N [] "Unlimited");
    vm_compute; reflexivity.
Defined.

(** C38: On a page whose name is a property every object inherits (such as
    [/toString.html]), the title restored when the tab becomes visible
    again is the source text of a built-in function. *)
Theorem visibility_title_inherited (w : world) (page f : string) :
  w_hidden w = false -> Navigation.current_page (w_path w) = Some page ->
  (page, JsFun f) ∈ object_prototype ->
  visibility_change w = Ok tt (w_with_title ("function " +:+ f +:+ "() { [native code] }") w).
Proof.
  intros Hh Hp Hin. unfold visibility_change, bind at 1, gets. rewrite Hh.
  unfold bind at 1. rewrite Hp. unfold modify. do 2 f_equal.
  unfold object_prototype in Hin.
  repeat (apply elem_of_cons in Hin as [Hin|Hin];
          [solve [discriminate Hin | injection Hin as -> ->; vm_compute; reflexivity]|]).
  by apply elem_of_nil in Hin.
Qed.

Lemma visibility_title_inherited_witness :
  visibility_change (w_with_path "/toString.html" page_world) =
  Ok tt (w_with_title ("function " +:+ "toString" +:+ "() { [native code] }")
                      (w_with_path "/toString.html" page_world)).
Proof.
  apply (visibility_title_inherited _ "toString" "toString"); [reflexivity|vm_compute; reflexivity|].
  vm_compute. repeat (apply elem_of_cons; (left; reflexivity) || right).
Defined.

(** C35: [window.sharePage()] in a browser without [navigator.share]: the
    URL is copied, then calling [Minecraft.prototype.showToast] throws, so
    no toast appears and the page logs that the URL could not be copied. *)
Theorem sharePage_no_toast (w : world) :
  env_has_share (w_env w) = false -> env_clipboard_ok (w_env w) = true ->
  sharePage w = Ok tt (w_with_console (w_console w ++ [LogInfo "Could not copy URL"])
                                      (w_with_clipboard (w_href w) w)).
Proof.
  intros Hs Hc. unfold sharePage, bind at 1, env, gets. rewrite Hs.
  cbv [catch bind gets Minecraft.clipboard_write env modify throw log_info]. wsimpl.
  rewrite Hc. reflexivity.
Qed.

(** C36: [window.sharePage()] in a browser with [navigator.share]: the share
    sheet opens with the page's title, the fixed invitation text and the
    page's URL; nothing else happens when the visitor shares, and a
    dismissed sheet is caught and logged as an [AbortError]. *)
Theorem sharePage_share_spec (w : world) :
  env_has_share (w_env w) = true ->
  let w1 := w_with_shares (w_shares w ++ [(w_title w, share_text, w_href w)]) w in
  sharePage w =
    Ok tt (if env_share_ok (w_env w) then w1
           else w_with_console (w_console w1 ++ [LogInfo "Error sharing: AbortError: Share canceled"]) w1).
Proof.
  intros Hs w1. unfold sharePage, bind at 1, env, gets. rewrite Hs.
  cbv [catch bind gets navigator_share env modify throw ret log_info]. wsimpl.
  by destruct (env_share_ok (w_env w)).
Qed.

(** Loading the script changes nothing in the document: it stores the
    [window] functions and [window.BlackflameNova], empties the Konami
    buffer, registers the document's keydown, [DOMContentLoaded] and
    [visibilitychange] listeners in that order after any existing ones,
    and logs the loaded message last. *)
Theorem load_script_spec (w : world) :
  exists w', load_script w = Ok tt w' /\ w_doc w' = w_doc w /\ w_konami w' = [] /\
    w_listeners w' = w_listeners w ++
      [mkListener TgDocument "keydown" KKonami; mkListener TgDocument "DOMContentLoaded" KDomReady;
       mkListener TgDocument "visibilitychange" KVisibility] /\
    (forall f, f ∈ ["scrollToTop"; "printPage"; "sharePage"; "getServerInfo"; "BlackflameNova"] ->
       is_Some (w_globals w' !! f)) /\
    w_console w' = w_console w ++ [LogInfo "⚡ BLACKFLAME NOVA JavaScript loaded successfully! ⚡"].
Proof.
  eexists. split; [reflexivity|]. cbv [set_global modify log_info]. wsimpl.
  split; [done|]. split; [done|]. split; [by rewrite <- !app_assoc|]. split; [|done].
  intros f Hf. rewrite !lookup_insert_is_Some. set_solver.
Qed.

(** C37: The title on a tab switch, on a page served at [dir/p.html]: when
    the tab is hidden it invites the visitor back; when it is shown again
    it is the page's entry of [pageTitles] for the four pages of the site,
    and [BLACKFLAME NOVA] for a page with no entry that is not named after
    a property of [Object.prototype]. *)
Theorem visibility_title_spec (w : world) (dir p : string) :
  w_path w = dir +:+ "/" +:+ p +:+ ".html" -> plain_name p = true -> p <> EmptyString ->
  (w_hidden w = true ->
     visibility_change w = Ok tt (w_with_title "💤 Come back to BLACKFLAME NOVA!" w)) /\
  (forall t, w_hidden w = false -> (p, JsStr t) ∈ pageTitles ->
     visibility_change w = Ok tt (w_with_title t w)) /\
  (w_hidden w = false -> p ∉ pageTitles.*1 ++ object_prototype.*1 ->
     visibility_change w = Ok tt (w_with_title "BLACKFLAME NOVA" w)).
Proof.
  intros Hpath Hp Hne. unfold visibility_change, bind, gets. split; [|split].
  - intros Hh. by rewrite Hh.
  - intros t Hh Hin. rewrite Hh, Hpath, current_page_url by done.
    repeat (apply elem_of_cons in Hin as [Hin|Hin]; [injection Hin as -> ->; reflexivity|]).
    by apply elem_of_nil in Hin.
  - intros Hh Hout. rewrite Hh, Hpath, current_page_url by done.
    apply not_elem_of_app in Hout as [H1 H2]. unfold js_lookup.
    by rewrite !not_elem_of_list_to_map_1.
Qed.
