(* ===== verification/EventLoop.v ===== *)
(** * EventLoop: running the script's closures, events and timers

    [run_fuel] interprets every closure of the script ([task]) as the
    handler of its component.  The only closure that dispatches a new
    event while it runs is a card's keydown listener ([link.click()]);
    the fuel bounds that nesting, and [event_loop] gives it four levels;
    [event_loop_fuel_enough] shows that two already give the unbounded
    semantics.  A synthetic click dispatches the event and then performs
    an anchor's default action (following its [href]) unless a listener
    called [preventDefault].  [event_loop] discharges the interfaces the
    components' event-level theorems are stated against.  The theorems at
    the end compose components through the loop: a card activated from
    the keyboard follows its link ([card_key_follows_link]) and the
    debounced header style catches up with the scroll position when its
    timeout fires ([header_scroll_settles]). *)

From Stdlib Require Import ZArith Lia Ascii.
From stdpp Require Import base list gmap strings.
From S2P Require Import Prelude JsString Dom Config World Events Page Navigation Konami Minecraft VoiceChat Animations Social Accessibility Performance App.

(** The default action of a click on an element: an anchor follows its
    [href]. *)
Definition click_default (l : node_id) : M unit :=
  tag <- el_get l el_tag "" ;;
  href <- get_attr l "href" ;;
  match href with
  | Some h => if bool_decide (tag = "a") then navigate h else ret tt
  | None => ret tt
  end.

(** [l.click()] with a given interpreter of closures. *)
Definition click_with (run : TaskRunner) (l : node_id) : M unit :=
  prevented <- @dispatch run (simple_event "click" (TgNode l)) ;;
  if prevented then ret tt else click_default l.

Fixpoint run_fuel (fuel : nat) (k : task) (ev : event) : M unit :=
  match fuel with
  | O => ret tt
  | S f =>
      match k with
      | KMenuToggle t m => Navigation.menu_toggle t m
      | KNavLinkClose t m => Navigation.nav_link_close t m
      | KOutsideClose t m => Navigation.outside_close t m (ev_target ev)
      | KSmoothScroll l => Navigation.smooth_scroll l
      | KDebounced c wait inner => debounced_call c wait inner
      | KHeaderScroll h => Navigation.header_scroll h
      | KCardEnter c => Animations.card_enter c
      | KCardLeave c => Animations.card_leave c
      | KBtnEnter b => Animations.btn_enter b
      | KBtnLeave b => Animations.btn_leave b
      | KLogoPulse l => Animations.logo_pulse l
      | KLogoReset l => Animations.logo_reset l
      | KCounterTick el c => Animations.counter_tick el c
      | KSocialClick b => Social.social_click b
      | KSocialRestore b => Social.social_restore b
      | KStatusCheck => Minecraft.checkServerStatus
      | KPingUpdate => Minecraft.updatePing
      | KCopyRestore b o => Minecraft.copy_restore b o
      | KToastSlideOut t => Minecraft.toast_slide_out t
      | KToastRemove t => Minecraft.toast_remove t
      | KCardKeydown el => Accessibility.card_keydown el ev (click_with (run_fuel f))
      | KShortcuts => Accessibility.shortcuts ev
      | KSkipFocus a => Accessibility.skip_focus a
      | KSkipBlur a => Accessibility.skip_blur a
      | KSwLoad => Performance.sw_load
      | KKonami => konami_keydown ev
      | KKonamiRestore s => konami_restore s
      | KDomReady => BlackflameNova.init
      | KVisibility => visibility_change
      end
  end.

#[export] Instance event_loop : TaskRunner := run_fuel 4.

#[export] Instance event_loop_navigation : NavigationTasks.
Proof. split; reflexivity. Qed.

#[export] Instance event_loop_konami : KonamiTasks.
Proof. split; reflexivity. Qed.

#[export] Instance event_loop_toast : ToastTasks.
Proof. split; reflexivity. Qed.

(** C8: The fuel of the event loop is never the limit: with any fuel of
    at least two levels the interpreter runs every closure exactly as
    [event_loop] does.  The only nested dispatch is the synthetic click of
    a card's keydown listener, and a click carries no key, so the keydown
    listener it could reach again does nothing: the script's dispatches
    nest at most two deep and [event_loop] is the unbounded semantics. *)
Theorem event_loop_fuel_enough (n : nat) (k : task) (ev : event) :
  2 <= n -> run_fuel n k ev = event_loop k ev.
Proof. intros Hn. destruct n as [|[|f]]; [lia|lia|]. by destruct k. Qed.

(** A synthetic click when no click listener is registered: only the
    default action runs. *)
Lemma click_unheard (run : TaskRunner) (l : node_id) (w : world) :
  no_listeners_of "click" (w_listeners w) ->
  click_with run l w = click_default l w.
Proof.
  intros Hn. unfold click_with, bind at 1.
  rewrite (@dispatch_flat run _ w (w_with_prevented false w)).
  - cbn [w_prevented w_with_prevented]. by destruct w.
  - cbn [ev_type simple_event w_listeners w_with_prevented]. rewrite flat_listeners_none by done.
    constructor.
  - cbn [ev_type simple_event w_listeners w_with_prevented]. by rewrite flat_listeners_none.
Qed.

(** C9: Enter or Space on a card whose first link is an anchor with an
    [href] follows the link: the card's keydown listener prevents the
    key's default action and calls [link.click()], and the synthetic
    click, heard by no listener, navigates to the [href]. *)
Theorem card_key_follows_link (el l : node_id) (e : element) (h : string) (ev : event) (w : world) :
  ev_key ev = "Enter" \/ ev_key ev = " " ->
  query_in el [SelTag "a"] (w_doc w) = Some l ->
  get_el (w_doc w) l = Some e -> el_tag e = "a" -> el_attrs e !! "href" = Some h ->
  no_listeners_of "click" (w_listeners w) ->
  event_loop (KCardKeydown el) ev w =
    Ok tt (w_with_navigations (w_navigations w ++ [h]) (w_with_prevented true w)).
Proof.
  intros Hk Hq He Ht Hh Hn. cbn [event_loop run_fuel]. unfold Accessibility.card_keydown.
  rewrite bool_decide_eq_true_2 by done.
  unfold bind at 1, prevent_default, modify. unfold bind at 1, q_in, doc_read, gets. cbn [w_doc w_with_prevented].
  rewrite Hq. unfold bind at 1, ret.
  rewrite click_unheard by done.
  unfold click_default, bind, el_get, get_attr, el_get, doc_read, gets. cbn [w_doc w_with_prevented].
  rewrite He, Ht, Hh. by rewrite bool_decide_eq_true_2.
Qed.

(** C31: The header's scroll effect catches up with the page: when the
    debounce timeout armed by the last [scroll] event fires, the timer is
    gone and the header's background and shadow are the dark ones exactly
    when the page is scrolled more than 50 px at that moment. *)
Theorem header_scroll_settles (i : N) (due : Z) (h : node_id) (w : world) :
  find_timer i (w_timers w) = Some (mkTimer i due None (KHeaderScroll h)) ->
  is_Some (get_el (w_doc w) h) ->
  exists w', @fire_timer event_loop i w = Ok tt w' /\ w_now w' = due /\ find_timer i (w_timers w') = None /\
    style_of (w_doc w') h "background" =
      Some (if bool_decide (50 < w_scroll_y w)%Z then "rgba(26, 31, 58, 0.98)" else "rgba(26, 31, 58, 0.95)") /\
    style_of (w_doc w') h "box-shadow" =
      Some (if bool_decide (50 < w_scroll_y w)%Z then "0 4px 20px rgba(0, 0, 0, 0.3)" else "none").
Proof.
  intros Hf Hh. rewrite (fire_timer_timeout i due _ w Hf).
  unfold run_listener, run_task. cbn [event_loop run_fuel].
  unfold Navigation.header_scroll. cbv [catch bind gets set_style upd_node doc_write modify]. wsimpl.
  destruct (decide (50 < w_scroll_y w)%Z) as [Hy|Hy];
    [rewrite !bool_decide_eq_true_2 by done|rewrite !bool_decide_eq_false_2 by done];
    (eexists; split; [reflexivity|]); wsimpl;
    (split; [done|]); (split; [apply find_timer_removed|]).
  all: split; [rewrite style_of_set_other by done|].
  all: rewrite style_of_set; [reflexivity|]; rewrite ?get_el_upd_same, ?fmap_is_Some; done.
Qed.

(** ** The menu on the sample page *)

(** The hypotheses of the menu theorems hold on the sample page, whose
    toggle is node 4 and menu node 5. *)
Lemma page_menu_nodes : menu_nodes 4%N 5%N (w_doc page_world).
Proof. vm_compute. repeat split; [discriminate|eexists; reflexivity..]. Qed.

Lemma menu_click_toggles_once_witness :
  exists w1 w2, Navigation.setupMobileMenu page_world = Ok tt w1 /\
    dispatch (simple_event "click" (TgNode 4%N)) w1 = Ok false w2 /\
    menu_state 4%N 5%N w2 = menu_spec MenuToggle (menu_state 4%N 5%N page_world).
Proof.
  apply menu_click_toggles_once.
  - vm_compute. reflexivity.
  - vm_compute. reflexivity.
  - apply page_menu_nodes.
  - apply (bool_decide_unpack _). vm_compute. exact I.
  - apply (bool_decide_unpack _). vm_compute. exact I.
  - constructor.
Defined.

Lemma menu_listeners_refine_witness :
  let w := page_world in
  (exists w', Navigation.menu_toggle 4%N 5%N w = Ok tt w' /\
     menu_state 4%N 5%N w' = menu_spec MenuToggle (menu_state 4%N 5%N w) /\ doc_frame w w') /\
  (exists w', Navigation.nav_link_close 4%N 5%N w = Ok tt w' /\
     menu_state 4%N 5%N w' = menu_spec MenuClose (menu_state 4%N 5%N w) /\ doc_frame w w') /\
  (exists w', Navigation.outside_close 4%N 5%N (TgNode 9%N) w = Ok tt w' /\ doc_frame w w' /\
     menu_state 4%N 5%N w' =
       if target_within (w_doc w) 4%N (TgNode 9%N) || target_within (w_doc w) 5%N (TgNode 9%N)
       then menu_state 4%N 5%N w else menu_spec MenuClose (menu_state 4%N 5%N w)).
Proof. apply menu_listeners_refine. apply page_menu_nodes. Defined.

Lemma double_init_menu_never_opens_witness :
  exists w1 w2, repeat_m 2 Navigation.setupMobileMenu page_world = Ok tt w1 /\
    dispatch (simple_event "click" (TgNode 4%N)) w1 = Ok false w2 /\
    has_cls (w_doc w2) 5%N "active" = false /\
    has_cls (w_doc w2) 4%N "active" = has_cls (w_doc page_world) 4%N "active".
Proof.
  apply double_init_menu_never_opens.
  - vm_compute. reflexivity.
  - vm_compute. reflexivity.
  - apply page_menu_nodes.
  - apply (bool_decide_unpack _). vm_compute. exact I.
  - apply (bool_decide_unpack _). vm_compute. exact I.
  - constructor.
  - vm_compute. reflexivity.
Defined.

(** ** The Konami code on the sample page *)

Lemma konami_keydown_spec_witness :
  let keys := [38; 38; 40; 40; 37; 39; 37; 39; 66]%N in
  let ev := {| ev_type := "keydown"; ev_target := TgDocument; ev_key := "a";
               ev_key_code := 65%N; ev_ctrl := false; ev_meta := false |} in
  let w := w_with_konami (konami_run keys) page_world in
  let keys' := keys ++ [ev_key_code ev] in
  exists w', konami_keydown ev w = Ok tt w' /\ w_konami w' = last_n 10 keys' /\
    (last_n 10 keys' = konamiSequence ->
       rainbow_on w' /\
       mkTimer (w_next_timer w) (w_now w + 10000) None (KKonamiRestore (d_next (w_doc w)))
         ∈ w_timers w') /\
    (last_n 10 keys' <> konamiSequence -> w' = w_with_konami (last_n 10 keys') w).
Proof.
  apply konami_keydown_spec; [reflexivity|apply page_ids_below_next|].
  eexists. vm_compute. reflexivity.
Defined.
