(* ===== verification/Invariants.v ===== *)
(** * Invariants: the well-formedness of every page the script can reach

    The event loop is the step relation [step]: the browser dispatches
    an event or fires a pending timer.  [wf] is the well-formedness the
    components' theorems assume: node ids, in the store and in document
    order, below [d_next] (created nodes are new), timer ids below the next id (timer ids are unique) and the
    Konami buffer at most ten keys long, and every listener registered
    for the event type its closure handles ([listeners_typed]: a closure
    only ever runs on the events it is written for), and every class list
    duplicate-free ([classes_nodup]: a [classList] is a set of tokens).
    [preserves wf m] says that [m]
    keeps it whatever it returns or throws; it is proved for every effect,
    then for every handler of the script by the tactic [preserve], which
    follows the handler's structure, and finally for [step] by rule
    induction over [rtc step]. *)

From Stdlib Require Import ZArith Lia Ascii.
From stdpp Require Import base list gmap strings relations.
From S2P Require Import Prelude JsString Dom Config World Events Navigation Konami Minecraft VoiceChat Animations Social Accessibility Performance App EventLoop.

(** ** The invariant and the predicate transformer *)

Definition wf (w : world) : Prop :=
  doc_wf (w_doc w) /\ timers_below_next w /\ length (w_konami w) <= 10 /\
  listeners_typed (w_listeners w) /\ classes_nodup (w_doc w).

(** The world an outcome ends in, returned or thrown. *)
Definition final {A} (r : outcome A) : world := match r with Ok _ w | Throw _ w => w end.

(** [m] keeps [I], whether it returns or throws. *)
Definition preserves {A} (I : world -> Prop) (m : M A) : Prop := forall w, I w -> I (final (m w)).

Create HintDb wf discriminated.

(** Splits [wf] into its five parts. *)
Ltac wf_split := split; [|split; [|split; [|split]]].

Section combinators.
Context (I : world -> Prop).

Lemma preserves_ret {A} (a : A) : preserves I (ret a).
Proof. by intros w. Qed.

Lemma preserves_throw {A} (e : js_error) : preserves I (throw (A := A) e).
Proof. by intros w. Qed.

Lemma preserves_gets {A} (f : world -> A) : preserves I (gets f).
Proof. by intros w. Qed.

Lemma preserves_modify (f : world -> world) : (forall w, I w -> I (f w)) -> preserves I (modify f).
Proof. intros Hf w. apply Hf. Qed.

Lemma preserves_bind {A B} (m : M A) (k : A -> M B) :
  preserves I m -> (forall a, preserves I (k a)) -> preserves I (bind m k).
Proof.
  intros Hm Hk w Hw. specialize (Hm w Hw). unfold bind.
  destruct (m w) as [a w'|e w']; [by apply Hk|done].
Qed.

Lemma preserves_catch {A} (m : M A) (h : js_error -> M A) :
  preserves I m -> (forall e, preserves I (h e)) -> preserves I (catch m h).
Proof.
  intros Hm Hh w Hw. specialize (Hm w Hw). unfold catch.
  destruct (m w) as [a w'|e w']; [done|by apply Hh].
Qed.

Lemma preserves_for_each {A} (xs : list A) (f : A -> M unit) :
  (forall x, preserves I (f x)) -> preserves I (for_each xs f).
Proof.
  intros Hf. induction xs as [|x xs IH]; simpl; [apply preserves_ret|].
  by apply preserves_bind.
Qed.
End combinators.

#[export] Hint Resolve preserves_ret preserves_throw preserves_gets : wf.

(** ** The effects *)

(** An update of the fields [wf] does not read. *)
Lemma wf_other (f : world -> world) :
  (forall w, w_doc (f w) = w_doc w /\ w_timers (f w) = w_timers w /\
             w_next_timer (f w) = w_next_timer w /\ w_konami (f w) = w_konami w /\
             w_listeners (f w) = w_listeners w) ->
  preserves wf (modify f).
Proof.
  intros Hf. apply preserves_modify. intros w (H1 & H2 & H3 & H4 & H5).
  destruct (Hf w) as (E0 & E1 & E2 & E3 & E4). unfold wf, timers_below_next.
  by rewrite E0, E1, E2, E3, E4.
Qed.

Ltac wf_other := apply wf_other; intros; wsimpl; done.

Lemma wf_doc_write (f : document -> document) :
  (forall d, doc_wf d -> doc_wf (f d)) -> (forall d, classes_nodup d -> classes_nodup (f d)) ->
  preserves wf (doc_write f).
Proof. intros Hf Hc. apply preserves_modify. intros w (H1 & H2 & H3 & H4 & H5). wf_split; wsimpl; auto. Qed.

(** An element update that keeps class lists duplicate-free. *)
Definition keeps_class_sets (g : element -> element) : Prop :=
  forall e, NoDup (el_classes e) -> NoDup (el_classes (g e)).

Lemma wf_upd_node (n : node_id) (g : element -> element) :
  keeps_class_sets g -> preserves wf (upd_node n g).
Proof. intros Hg. apply wf_doc_write; intros; [by apply doc_wf_upd_el|by apply classes_nodup_upd_el]. Qed.

(** Updates of the other fields of an element. *)
Lemma keeps_class_sets_other (g : element -> element) :
  (forall e, el_classes (g e) = el_classes e) -> keeps_class_sets g.
Proof. intros Hg e. by rewrite Hg. Qed.

Lemma wf_append (p c : node_id) : preserves wf (append p c).
Proof. apply wf_upd_node, keeps_class_sets_other. done. Qed.

Lemma wf_remove_m (n : node_id) : preserves wf (remove_m n).
Proof. apply wf_upd_node, keeps_class_sets_other. done. Qed.

Lemma wf_create (tag : string) : preserves wf (create tag).
Proof.
  intros w (H1 & H2 & H3 & H4 & H5). wf_split; wsimpl; auto;
    [by apply doc_wf_add_node|by apply classes_nodup_add_node].
Qed.

Lemma wf_remove_child_m (p c : node_id) : preserves wf (remove_child_m p c).
Proof.
  intros w (H1 & H2 & H3 & H4 & H5). unfold remove_child_m, remove_child.
  destruct (get_el (w_doc w) c); [case_bool_decide|]; simpl; wf_split; auto;
    [by apply doc_wf_upd_el|by apply classes_nodup_upd_el].
Qed.

(** The class lists the script writes: [classList.add], [.remove],
    [.toggle], and the literal [className]s, whose tokens are distinct. *)
Ltac class_sets :=
  let e := fresh "e" in let He := fresh "He" in
  intros e He; cbn [el_classes];
  first [ exact He | apply class_add_nodup, He | apply class_remove_nodup, He
        | apply class_toggle_nodup, He
        | repeat (apply NoDup_cons; split; [rewrite ?elem_of_cons, ?elem_of_nil; simpl; intuition discriminate|]);
          apply NoDup_nil_2 ].

#[export] Hint Extern 1 (keeps_class_sets _) => class_sets : wf.

Lemma wf_add_timer (k : task) (delay : Z) (period : option Z) : preserves wf (add_timer k delay period).
Proof.
  intros w (H1 & H2 & H3 & H4 & H5). wf_split; wsimpl; auto.
  by apply timers_below_add.
Qed.

Lemma wf_clear_timer (i : N) : preserves wf (clear_timer i).
Proof.
  apply preserves_modify. intros w (H1 & H2 & H3 & H4 & H5). wf_split; wsimpl; auto.
  by apply timers_below_filter.
Qed.

Lemma wf_random : preserves wf random.
Proof. intros w Hw. unfold random. by destruct (w_rand w). Qed.

Lemma wf_confirm : preserves wf confirm.
Proof. intros w Hw. unfold confirm. by destruct (w_answers w). Qed.

Lemma wf_new_observer (k : observer_kind) : preserves wf (new_observer k).
Proof. intros w Hw. unfold new_observer. by destruct (env_has_io (w_env w)). Qed.

Lemma wf_new_cell (c : cell) : preserves wf (new_cell c).
Proof. by intros w Hw. Qed.

#[export] Hint Resolve wf_upd_node wf_append wf_remove_m wf_create wf_remove_child_m wf_add_timer
  wf_clear_timer wf_random wf_confirm wf_new_observer wf_new_cell : wf.

Lemma wf_konami_reset : preserves wf (modify (w_with_konami [])).
Proof. apply preserves_modify. intros w (H1 & H2 & H3 & H4 & H5). wf_split; wsimpl; auto; simpl; lia. Qed.

(** Registering a listener for the event type its closure handles. *)
Lemma wf_listen (tg : target) (ty : string) (k : task) :
  listener_typed (mkListener tg ty k) = true -> preserves wf (listen tg ty k).
Proof.
  intros Hk. apply preserves_modify. intros w (H1 & H2 & H3 & H4 & H5). wf_split; wsimpl; auto.
  apply Forall_app. by split; [|constructor].
Qed.

#[export] Hint Resolve wf_konami_reset wf_listen : wf.
#[export] Hint Extern 1 (listener_typed _ = true) => reflexivity : wf.

(** ** The tactic *)

(** Unfolds the head constant of the computation in the goal. *)
Ltac head_unfold :=
  match goal with
  | |- preserves _ ?m =>
      match m with
      | ?f _ _ _ _ _ => progress unfold f
      | ?f _ _ _ _ => progress unfold f
      | ?f _ _ _ => progress unfold f
      | ?f _ _ => progress unfold f
      | ?f _ => progress unfold f
      | ?f => progress unfold f
      end
  end.

(** Follows a handler's structure: the combinators, the effects' lemmas,
    a case analysis on each [match] and [if], and the definitions of the
    script unfolded on the way. *)
Ltac preserve_step :=
  first
  [ progress intros
  | progress cbv beta
  | solve [eauto with wf]
  | apply preserves_bind
  | apply preserves_catch
  | apply preserves_for_each
  | solve [apply wf_other; intros; wsimpl; repeat split]
  | match goal with |- preserves _ (match ?x with _ => _ end) => destruct x end
  | match goal with |- preserves _ (if ?b then _ else _) => destruct b end
  | head_unfold ].

Ltac preserve := repeat preserve_step.

(** ** The components *)

Lemma wf_navigation_init : preserves wf Navigation.init.
Proof. preserve. Qed.

Lemma wf_animations_init : preserves wf Animations.init.
Proof. preserve. Qed.

Lemma wf_social_init : preserves wf Social.init.
Proof. preserve. Qed.

Lemma wf_minecraft_init : preserves wf Minecraft.init.
Proof. preserve. Qed.

Lemma wf_voicechat_init : preserves wf VoiceChat.init.
Proof. preserve. Qed.

Lemma wf_accessibility_init : preserves wf Accessibility.init.
Proof. preserve. Qed.

Lemma wf_performance_init : preserves wf Performance.init.
Proof. preserve. Qed.

#[export] Hint Resolve wf_navigation_init wf_animations_init wf_social_init wf_minecraft_init
  wf_voicechat_init wf_accessibility_init wf_performance_init : wf.

Lemma wf_bootstrap : preserves wf BlackflameNova.init.
Proof. unfold BlackflameNova.init, bootstrap, init_all. cbn [map snd modules for_each]. preserve. Qed.

Lemma konami_push_length (c : list N) (k : N) : length c <= 10 -> length (konami_push c k) <= 10.
Proof.
  unfold konami_push. change (length konamiSequence) with 10. intros Hc.
  case_bool_decide; [apply length_tail_le; rewrite length_app; simpl; lia|lia].
Qed.

(** The Konami listener: the buffer it writes is at most ten keys long. *)
Lemma wf_konami_keydown (ev : event) : preserves wf (konami_keydown ev).
Proof.
  intros w (H1 & H2 & H3 & H4 & H5). unfold konami_keydown, bind at 1 2, gets, modify.
  match goal with |- wf (final (?m ?w1)) =>
    assert (Hm : preserves wf m) by preserve; apply Hm end.
  wf_split; wsimpl; auto. by apply konami_push_length.
Qed.

#[export] Hint Resolve wf_bootstrap wf_konami_keydown : wf.

(** The timers of a world with their ids kept. *)
Lemma wf_modify_timers (g : list timer -> list timer) :
  (forall n ts, Forall (fun t => (t_id t < n)%N) ts -> Forall (fun t => (t_id t < n)%N) (g ts)) ->
  preserves wf (modify (fun w => w_with_timers (g (w_timers w)) (w_next_timer w) w)).
Proof.
  intros Hg. apply preserves_modify. intros w (H1 & H2 & H3 & H4 & H5).
  wf_split; wsimpl; auto. by apply Hg.
Qed.

Lemma wf_dispatch `{TaskRunner} (ev : event) :
  (forall k ev', preserves wf (run_task k ev')) -> preserves wf (dispatch ev).
Proof. intros Hr. unfold dispatch. preserve. Qed.

Lemma wf_fire_timer `{TaskRunner} (i : N) :
  (forall k ev', preserves wf (run_task k ev')) -> preserves wf (fire_timer i).
Proof.
  intros Hr. unfold fire_timer. preserve.
  apply wf_modify_timers. intros n ts Hts.
  induction Hts; simpl; constructor; [case_bool_decide|]; auto.
Qed.

#[export] Hint Resolve wf_dispatch : wf.

Lemma wf_run_fuel (n : nat) : forall k ev, preserves wf (run_fuel n k ev).
Proof.
  induction n as [|n IH]; intros k ev; simpl; [apply preserves_ret|].
  destruct k; preserve.
Qed.

Lemma wf_load_script : preserves wf load_script.
Proof. unfold load_script. preserve. Qed.

(** ** The event loop as a step relation *)

(** One turn of the event loop: the browser dispatches an event (with the
    script's closures run by [event_loop]), fires a pending timer, or the
    user scrolls or switches tabs before the event that reports it. *)
Inductive step : world -> world -> Prop :=
  | step_event (ev : event) (b : bool) (w w' : world) :
      dispatch ev w = Ok b w' -> step w w'
  | step_timer (i : N) (w w' : world) :
      fire_timer i w = Ok tt w' -> step w w'
  | step_scroll (y : Z) (w : world) :
      step w (w_with_scroll_y y w)
  | step_visibility (h : bool) (w : world) :
      step w (w_with_hidden h w).

Lemma step_wf (w w' : world) : step w w' -> wf w -> wf w'.
Proof.
  intros Hs Hw. destruct Hs as [ev b w w' Hd|i w w' Hf|y w|h w].
  - pose proof (@wf_dispatch event_loop ev (wf_run_fuel 4) w Hw) as Hw'. by rewrite Hd in Hw'.
  - pose proof (@wf_fire_timer event_loop i (wf_run_fuel 4) w Hw) as Hw'. by rewrite Hf in Hw'.
  - destruct Hw as (H1 & H2 & H3 & H4 & H5). by wf_split.
  - destruct Hw as (H1 & H2 & H3 & H4 & H5). by wf_split.
Qed.

Lemma rtc_step_wf (w w' : world) : rtc step w w' -> wf w -> wf w'.
Proof. induction 1 as [|w w1 w2 Hs _ IH]; [done|]. intros Hw. apply IH. by apply (step_wf w). Qed.

(** C7: Every page the script can reach is well formed: from a parsed page
    whose node ids are below [d_next] and whose timer ids are below the
    next one, whose listeners (if any) are well typed and whose class
    lists have no duplicates, after the script
    is loaded and whatever events, timers, scrolling and tab switches
    follow, node ids stay fresh, timer ids stay unique, the Konami buffer
    never exceeds ten keys, every listener is registered for the event
    type its closure handles and no class list has a duplicate. *)
Theorem reachable_wf (w0 w1 w : world) :
  doc_wf (w_doc w0) -> timers_below_next w0 -> length (w_konami w0) <= 10 ->
  listeners_typed (w_listeners w0) -> classes_nodup (w_doc w0) ->
  load_script w0 = Ok tt w1 -> rtc step w1 w -> wf w.
Proof.
  intros H1 H2 H3 H4 H5 Hl Hr.
  pose proof (wf_load_script w0 (conj H1 (conj H2 (conj H3 (conj H4 H5))))) as Hw1.
  rewrite Hl in Hw1. by apply (rtc_step_wf w1).
Qed.

