(* ===== verification/Liveness.v ===== *)
(** * Liveness: what a visitor can always make happen

    Properties of the form "from every page of a given kind, some sequence
    of turns of the event loop ([rtc step]) reaches a page where something
    holds".  The Konami easter egg: on a page where the document's
    Konami listener ([konami_keydown], lines 827-854) is installed and the
    other keydown listeners met by a plain key are the shortcuts listener
    and the cards' listeners (which ignore it), the ten keys of the
    sequence always turn the rainbow on, whatever was typed before: the
    first nine keys only move the buffer ([konami_step_nomatch]) and the
    tenth completes it ([konami_step_match]). *)

From Stdlib Require Import ZArith Lia Ascii.
From stdpp Require Import base list gmap strings relations.
From S2P Require Import Prelude JsString Dom Config World Events Navigation Konami Minecraft VoiceChat Animations Social Accessibility Performance App EventLoop Invariants.

(** A key pressed without Ctrl or Cmd that is neither Enter nor Space,
    dispatched at [tg]. *)
Definition plain_key (tg : target) (ev : event) : Prop :=
  ev_type ev = "keydown" /\ ev_target ev = tg /\ ev_ctrl ev = false /\ ev_meta ev = false /\
  ev_key ev <> "Enter" /\ ev_key ev <> " ".

(** The keydown listeners that ignore such a key. *)
Definition idle_on_keys (k : task) : Prop := k = KShortcuts \/ exists el, k = KCardKeydown el.

(** The keydown listeners met on the way from [tg]: one Konami listener,
    the others idle. *)
Definition konami_listening (tg : target) (w : world) : Prop :=
  exists ks1 ks2,
    flat_map (fun t => listeners_at (w_listeners w) t "keydown") (target_path (w_doc w) tg true) =
      ks1 ++ KKonami :: ks2 /\
    Forall idle_on_keys (ks1 ++ ks2).

(** The [key] names of the sequence's keys. *)
Definition konami_key_names : list string :=
  ["ArrowUp"; "ArrowUp"; "ArrowDown"; "ArrowDown"; "ArrowLeft"; "ArrowRight";
   "ArrowLeft"; "ArrowRight"; "b"; "a"].

(** The ten keydown events of the sequence, typed with focus on [tg]. *)
Definition konami_keys (tg : target) : list event :=
  zip_with (fun code name => mkEvent "keydown" tg name code false false) konamiSequence konami_key_names.

Section plain_key.
Context (tg : target) (ev : event) (Hev : plain_key tg ev).

Lemma idle_task (k : task) (w : world) : idle_on_keys k -> run_task k ev w = Ok tt w.
Proof.
  destruct Hev as (_ & _ & Hc & Hm & He & Hs).
  intros [->|[el ->]]; cbn [run_task event_loop run_fuel].
  - unfold Accessibility.shortcuts. by rewrite Hc, Hm.
  - unfold Accessibility.card_keydown. rewrite bool_decide_eq_false_2; [done|tauto].
Qed.

Lemma idle_tasks (ks : list task) (w : world) :
  Forall idle_on_keys ks -> for_each ks (run_listener ev) w = Ok tt w.
Proof.
  intros Hks. induction Hks as [|k ks Hk _ IH]; [done|].
  cbn [for_each]. unfold bind. by rewrite (run_listener_of_ok _ _ _ _ (idle_task k w Hk)).
Qed.

Lemma keeps_konami_keydown : keeps_listeners (konami_keydown ev).
Proof. intros w. unfold konami_keydown, bind, gets, modify. by destruct (konami_matches _). Qed.

(** Dispatching the key runs the Konami listener alone. *)
Lemma konami_dispatch (w w' : world) :
  konami_listening tg w -> konami_keydown ev (w_with_prevented false w) = Ok tt w' ->
  dispatch ev w = Ok (w_prevented w') (w_with_prevented (w_prevented w) w').
Proof.
  intros (ks1 & ks2 & Hks & Hidle) Hk. destruct Hev as (Hty & Htg & _).
  apply Forall_app in Hidle as [H1 H2].
  apply dispatch_flat; cbn [w_listeners w_with_prevented w_doc]; rewrite Hty, Htg;
    change (bubbles "keydown") with true; rewrite Hks.
  - apply Forall_app. split; [|constructor].
    + eapply Forall_impl; [exact H1|]. intros k Hi w0. by rewrite idle_task.
    + exact keeps_konami_keydown.
    + eapply Forall_impl; [exact H2|]. intros k Hi w0. by rewrite idle_task.
  - rewrite for_each_app. unfold bind at 1. rewrite idle_tasks by done.
    cbn [for_each]. unfold bind at 1.
    rewrite (@run_listener_of_ok event_loop ev KKonami _ _ Hk). by rewrite idle_tasks.
Qed.

(** A key that does not complete the sequence only updates the buffer. *)
Lemma konami_step_nomatch (w : world) (l : list N) :
  konami_listening tg w -> w_konami w = last_n 10 l ->
  last_n 10 (l ++ [ev_key_code ev]) <> konamiSequence ->
  step w (w_with_konami (last_n 10 (l ++ [ev_key_code ev])) w).
Proof.
  intros Hl Hc Hne.
  replace (w_with_konami (last_n 10 (l ++ [ev_key_code ev])) w) with
    (w_with_prevented (w_prevented w)
       (w_with_konami (last_n 10 (l ++ [ev_key_code ev])) (w_with_prevented false w)))
    by (by destruct w).
  eapply step_event. apply konami_dispatch; [done|].
  rewrite konami_keydown_nomatch; cbn [w_konami w_with_prevented]; rewrite Hc, konami_push_last_n; [done|].
  rewrite konami_matches_spec. by apply bool_decide_eq_false_2.
Qed.

(** The key that completes the sequence turns the rainbow on. *)
Lemma konami_step_match (w : world) (l : list N) :
  konami_listening tg w -> w_konami w = last_n 10 l ->
  last_n 10 (l ++ [ev_key_code ev]) = konamiSequence ->
  ids_below_next (w_doc w) -> is_Some (get_el (w_doc w) (d_body (w_doc w))) ->
  exists w', step w w' /\ rainbow_on w' /\ w_konami w' = konamiSequence.
Proof.
  intros Hl Hc Heq Hids Hb.
  assert (Hp : konami_push (w_konami (w_with_prevented false w)) (ev_key_code ev) = konamiSequence)
    by (cbn [w_konami w_with_prevented]; by rewrite Hc, konami_push_last_n).
  destruct (konami_keydown_match ev (w_with_prevented false w)) as (w' & Hk & Hc' & Hr & _);
    [by rewrite Hp, konami_matches_spec, bool_decide_eq_true_2|done|done|].
  exists (w_with_prevented (w_prevented w) w').
  split; [eapply step_event; by apply konami_dispatch|]. split; [exact Hr|]. by rewrite <- Hp.
Qed.
End plain_key.

Lemma konami_listening_same (tg : target) (w w' : world) :
  w_doc w' = w_doc w -> w_listeners w' = w_listeners w ->
  konami_listening tg w -> konami_listening tg w'.
Proof. unfold konami_listening. by intros -> ->. Qed.

(** The last of ten kept keys is the last key pressed. *)
Lemma last_n_snoc_neq (l : list N) (k : N) :
  k <> 65%N -> last_n 10 (l ++ [k]) <> konamiSequence.
Proof.
  intros Hk Heq. unfold last_n in Heq. rewrite length_app in Heq. simpl length in Heq.
  rewrite skipn_app in Heq. replace (length l + 1 - 10 - length l) with 0 in Heq by lia.
  cbn [skipn] in Heq. apply (f_equal last) in Heq. rewrite last_snoc in Heq. simpl in Heq. congruence.
Qed.

Lemma last_n_app_exact (l s : list N) : length s = 10 -> last_n 10 (l ++ s) = s.
Proof.
  intros Hs. unfold last_n. rewrite length_app, Hs, skipn_app.
  replace (length l + 10 - 10 - length l) with 0 by lia. rewrite skipn_all2 by lia. done.
Qed.

(** Keys short of the sequence's last one lead to a page that differs
    only in the buffer. *)
Lemma konami_steps (tg : target) (evs : list event) (w : world) (l : list N) :
  Forall (fun ev => plain_key tg ev /\ ev_key_code ev <> 65%N) evs ->
  konami_listening tg w -> w_konami w = last_n 10 l ->
  exists w', rtc step w w' /\ w_doc w' = w_doc w /\ w_listeners w' = w_listeners w /\
    w_konami w' = last_n 10 (l ++ map ev_key_code evs).
Proof.
  intros Hevs. revert w l. induction Hevs as [|ev evs [Hp Hk] _ IH]; intros w l Hl Hc.
  - exists w. by rewrite app_nil_r.
  - pose proof (konami_step_nomatch tg ev Hp w l Hl Hc (last_n_snoc_neq l _ Hk)) as Hs.
    edestruct (IH (w_with_konami (last_n 10 (l ++ [ev_key_code ev])) w)
                  (l ++ [ev_key_code ev])) as (w' & Hr & Hd & Hls & Hc');
      [eapply konami_listening_same; [..|exact Hl]; done|done|].
    exists w'. split; [by eapply rtc_l|]. rewrite Hd, Hls, Hc', <- app_assoc. done.
Qed.


(** C18: The easter egg can always be reached: from any page where the
    Konami listener is the only keydown listener on the way from the
    focused target besides the shortcut and card listeners, whatever keys
    were typed before, the ten keydown events of the sequence lead through
    the event loop to a page in rainbow mode with the sequence in the
    buffer. *)
Theorem konami_always_reachable (tg : target) (w : world) :
  konami_listening tg w -> length (w_konami w) <= 10 ->
  ids_below_next (w_doc w) -> is_Some (get_el (w_doc w) (d_body (w_doc w))) ->
  exists w', rtc step w w' /\ rainbow_on w' /\ w_konami w' = konamiSequence.
Proof.
  intros Hl Hlen Hids Hb.
  destruct (konami_steps tg (take 9 (konami_keys tg)) w (w_konami w)) as (w1 & Hr1 & Hd & Hls & Hc);
    [repeat constructor; discriminate|done|by rewrite last_n_all|].
  destruct (konami_step_match tg (mkEvent "keydown" tg "a" 65 false false))
    with (w := w1) (l := w_konami w ++ map ev_key_code (take 9 (konami_keys tg)))
    as (w' & Hs & Hr & Hc'); [repeat split; discriminate|by eapply konami_listening_same|done|
      rewrite <- app_assoc; by apply last_n_app_exact|by rewrite Hd|by rewrite Hd|].
  exists w'. split; [|done]. eapply rtc_r; [exact Hr1|exact Hs].
Qed.
