(* ===== verification/Scenarios.v ===== *)
(** * Scenarios: the components' theorems applied to the sample page

    Runs of the script's handlers on [page_world] (a model of
    [minecraft.html], see [Page]) that instantiate the theorems of the
    components whose statements have hypotheses, with a few variants of
    the page: a channel capacity without digits, a browser without
    [navigator.share] or with a dismissed share sheet, a scrolled page, a
    Discord widget container, and the page after loading and booting. *)

From Stdlib Require Import ZArith Lia Ascii.
From stdpp Require Import base list gmap strings relations.
From Stdlib Require Import SpecFloat.
From S2P Require Import Prelude JsString Double JsNumber Dom Config World Events Page Navigation Konami Minecraft VoiceChat Animations Counter Social Accessibility Performance App EventLoop Invariants Liveness.

Local Open Scope Z_scope.

(** The sample page after [setupServerPing]: the [#ping-value] span is
    node 24 and the first draw has been used by the first [updatePing]. *)
Definition ping_world : world :=
  match Minecraft.setupServerPing page_world with Ok _ w | Throw _ w => w end.

Lemma updatePing_spec_witness :
  exists w', Minecraft.updatePing ping_world = Ok tt w' /\
    20 <= ping_of 123456789012345 < 120 /\
    option_map js_parseInt (text_of (w_doc w') 24%N) = Some (Some (ping_of 123456789012345)) /\
    style_of (w_doc w') 24%N "color" =
      Some (if bool_decide (ping_of 123456789012345 < 50) then "#22c55e"
            else if bool_decide (ping_of 123456789012345 < 100) then "#eab308" else "#ef4444").
Proof.
  apply (updatePing_spec ping_world 24%N 123456789012345 [4503599627370496]).
  - vm_compute. reflexivity.
  - vm_compute. reflexivity.
  - unfold valid_draw, two53. lia.
Defined.

Lemma occupancy_bounds_witness :
  0 <= VoiceChat.occupancy 123456789012345 25 < 25.
Proof. apply occupancy_bounds; unfold valid_draw, two53; lia. Defined.

(** The seven modules on the sample page, which has a numeric capacity. *)
Definition page_all_inits : world :=
  match for_each (map snd modules) (fun i => i) page_world with Ok _ w | Throw _ w => w end.

Lemma bootstrap_complete_example :
  bootstrap (map snd modules) page_world =
  Ok tt (w_with_console (w_console page_all_inits ++ [LogInfo welcome_message])
          (w_with_doc (upd_el (d_body (w_doc page_all_inits))
             (fun e => {| e with el_classes := class_add "loaded" (el_classes e) |})
             (w_doc page_all_inits)) page_all_inits)).
Proof. apply bootstrap_complete. vm_compute. reflexivity. Defined.

(** ** The statistic counter of the sample page (node 16, "1234+") *)

Definition stat_el : element := mk_el "span" "" ["stat-number"] "1234+" (Some 15%N) [] 0.

Lemma counter_animation_spec_witness :
  let g := Animations.counter_target (el_text stat_el) in
  g <= 2 ^ 32 /\
  exists w1, Animations.counter_entry 16%N true page_world = Ok tt w1 /\
    mkTimer (w_next_timer page_world) (w_now page_world + 16) (Some 16)
            (KCounterTick 16%N (w_next_cell page_world)) ∈ w_timers w1 /\
    (forall b, Animations.counter_entry 16%N b w1 = Ok tt w1) /\
    forall n : nat, exists w2 v,
      repeat_m (S n) (Animations.counter_tick 16%N (w_next_cell page_world)) w1 = Ok tt w2 /\
      text_of (w_doc w2) 16%N = Some (show_N (Z.to_N v) +:+ strip_digits (el_text stat_el)) /\
      ((n <= 124)%nat -> Z.of_nat (S n) * g / 125 - 1 <= v <= Z.of_nat (S n) * g / 125) /\
      ((n <= 123)%nat -> 1 <= g -> w_timers w2 = w_timers w1) /\
      ((125 <= n)%nat -> v = g /\ timer_cleared (w_next_timer page_world) w2).
Proof.
  split; [vm_compute; discriminate|].
  apply (counter_animation_spec 16%N stat_el page_world); [reflexivity|reflexivity|vm_compute; discriminate].
Defined.

Lemma counter_keeps_suffix_witness :
  exists w1 w2, Animations.counter_entry 16%N true page_world = Ok tt w1 /\
    repeat_m 126 (Animations.counter_tick 16%N (w_next_cell page_world)) w1 = Ok tt w2 /\
    text_of (w_doc w2) 16%N = Some (el_text stat_el) /\ timer_cleared (w_next_timer page_world) w2.
Proof.
  apply (counter_keeps_suffix 16%N stat_el page_world 125 1234%N "+"); reflexivity || lia.
Defined.

(** The same page whose counter reads "1,234+". *)
Definition page_comma : world :=
  w_with_doc (upd_el 16%N (fun e => {| e with el_text := "1,234+" |}) page_doc) page_world.

Lemma counter_comma_moved_witness :
  exists w1 w2, Animations.counter_entry 16%N true page_comma = Ok tt w1 /\
    repeat_m 126 (Animations.counter_tick 16%N (w_next_cell page_comma)) w1 = Ok tt w2 /\
    text_of (w_doc w2) 16%N = Some "1234,+" /\ timer_cleared (w_next_timer page_comma) w2.
Proof.
  apply (counter_comma_moved 16%N (mk_el "span" "" ["stat-number"] "1,234+" (Some 15%N) [] 0)
           page_comma 125); reflexivity || lia.
Defined.

(** The same page whose counter reads "9". *)
Definition page_nine : world :=
  w_with_doc (upd_el 16%N (fun e => {| e with el_text := "9" |}) page_doc) page_world.

Lemma counter_nine_overruns_witness :
  exists w1 w2 w3, Animations.counter_entry 16%N true page_nine = Ok tt w1 /\
    repeat_m 125 (Animations.counter_tick 16%N (w_next_cell page_nine)) w1 = Ok tt w2 /\
    text_of (w_doc w2) 16%N = Some "8" /\ w_timers w2 = w_timers w1 /\
    Animations.counter_tick 16%N (w_next_cell page_nine) w2 = Ok tt w3 /\
    text_of (w_doc w3) 16%N = Some "9" /\ timer_cleared (w_next_timer page_nine) w3.
Proof.
  apply (counter_nine_overruns 16%N (mk_el "span" "" ["stat-number"] "9" (Some 15%N) [] 0) page_nine);
    reflexivity.
Defined.

(** ** Copying the Java address of the sample page (node 13) *)

Definition java_ip_el : element :=
  mk_el "code" "java-ip" [] "cat.fi.freemcserver.net:41600" (Some 12%N) [] 0.

Lemma copyToClipboard_success_witness :
  exists w' i, Minecraft.copyToClipboard "java-ip" page_world = Ok tt w' /\
    w_clipboard w' = el_text java_ip_el /\
    toast_shown (d_next (w_doc page_world)) "Server IP copied to clipboard!" i
                (w_now page_world + 3000) w' /\ timers_below_next w'.
Proof.
  apply (copyToClipboard_success "java-ip" [SelId "java-ip"] 13%N 12%N java_ip_el page_world);
    try reflexivity.
  - exact page_ids_below_next.
  - by eexists.
  - constructor.
Defined.

(** The sample page in a browser whose clipboard rejects the write. *)
Definition page_no_clipboard : world :=
  {| page_world with w_env := mkEnv false true true false false true true true |}.

Lemma copyToClipboard_fallback_witness :
  exists w', Minecraft.copyToClipboard "java-ip" page_no_clipboard = Ok tt w' /\
    w_clipboard w' = el_text java_ip_el /\
    option_map el_parent (get_el (w_doc w') (d_next (w_doc page_no_clipboard))) = Some None /\
    toast_shown (d_next (w_doc page_no_clipboard) + 1)%N "Server IP copied to clipboard!"
                (w_next_timer page_no_clipboard) (w_now page_no_clipboard + 3000) w' /\
    timers_below_next w'.
Proof.
  apply (copyToClipboard_fallback "java-ip" [SelId "java-ip"] 13%N java_ip_el page_no_clipboard);
    try reflexivity.
  - exact page_ids_below_next.
  - by eexists.
  - constructor.
Defined.

(** The page after the copy: the toast is node 21 and its slide-out timer
    has id 2 (id 1 restores the copy button). *)
Definition copied_world : world :=
  match Minecraft.copyToClipboard "java-ip" page_world with Ok _ w | Throw _ w => w end.

Lemma toast_lifecycle_witness :
  exists w1 w2, fire_timer 2%N copied_world = Ok tt w1 /\ w_now w1 = 3000 /\
    style_of (w_doc w1) 21%N "animation" = Some "slideOut 0.3s ease" /\
    option_map el_parent (get_el (w_doc w1) 21%N) = Some (Some (d_body (w_doc copied_world))) /\
    fire_timer (w_next_timer copied_world) w1 = Ok tt w2 /\ w_now w2 = 3000 + 300 /\
    option_map el_parent (get_el (w_doc w2) 21%N) = Some None.
Proof.
  apply (toast_lifecycle 21%N "Server IP copied to clipboard!").
  - vm_compute. repeat split.
  - unfold copied_world, timers_below_next. vm_compute. repeat constructor.
Defined.

(** ** Server status, active links, sharing and shortcuts on the sample page *)

Lemma checkServerStatus_spec_witness :
  exists w', Minecraft.checkServerStatus page_world = Ok tt w' /\
    w_rand w' = [123456789012345; 4503599627370496] /\
    option_map el_classes (get_el (w_doc w') 10%N) =
      Some ["status-dot"; if draw_gt_0_2 6000000000000000 then "online" else "offline"] /\
    text_of (w_doc w') 11%N =
      Some (if draw_gt_0_2 6000000000000000 then "SERVER IS ONLINE!" else "SERVER IS OFFLINE") /\
    style_of (w_doc w') 11%N "color" =
      Some (if draw_gt_0_2 6000000000000000 then "#22c55e" else "#ef4444").
Proof. apply checkServerStatus_spec; (reflexivity || discriminate). Defined.

Lemma setupActiveLinks_spec_witness :
  exists w', Navigation.setupActiveLinks page_world = Ok tt w' /\
    same_tree (w_doc page_world) (w_doc w') /\
    forall l, has_cls (w_doc w') l "active" =
      has_cls (w_doc page_world) l "active" ||
      bool_decide (l ∈ query_all [SelClass "nav-link"] (w_doc page_world)) &&
      href_current "minecraft" (w_doc page_world) l.
Proof. apply setupActiveLinks_spec. reflexivity. Defined.

Lemma sharePage_no_toast_witness :
  sharePage page_world =
  Ok tt (w_with_console (w_console page_world ++ [LogInfo "Could not copy URL"])
                        (w_with_clipboard (w_href page_world) page_world)).
Proof. apply sharePage_no_toast; reflexivity. Defined.

(** Ctrl+M on the sample page. *)
Definition ctrl_m : event :=
  {| ev_type := "keydown"; ev_target := TgDocument; ev_key := "m"; ev_key_code := 77%N;
     ev_ctrl := true; ev_meta := false |}.

Lemma shortcuts_spec_witness :
  Accessibility.shortcuts ctrl_m page_world =
  Ok tt (w_with_navigations (w_navigations page_world ++ ["minecraft.html"])
                            (w_with_prevented true page_world)).
Proof. apply (proj1 (proj2 (shortcuts_spec ctrl_m page_world))); reflexivity. Defined.

(** ** A run of the sample page *)

Definition loaded_world : world := final (load_script page_world).

(** The page after the browser dispatches [DOMContentLoaded]. *)
Definition booted_world : world :=
  final (dispatch (simple_event "DOMContentLoaded" TgDocument) loaded_world).

Lemma reachable_wf_witness : wf booted_world.
Proof.
  apply (reachable_wf page_world loaded_world booted_world).
  - exact page_doc_wf.
  - constructor.
  - simpl. lia.
  - constructor.
  - exact page_classes_nodup.
  - vm_compute. reflexivity.
  - eapply rtc_l; [|apply rtc_refl].
    apply (step_event (simple_event "DOMContentLoaded" TgDocument) false). vm_compute. reflexivity.
Defined.

(** ** The anchor to [#server-info] and the debounced header *)

Definition anchor_el : element := mk_el "a" "" ["btn"] "Server info" (Some 2%N) [("href", "#server-info")] 0.

Lemma smooth_scroll_spec_witness :
  (forall n, query [SelId "server-info"] (w_doc page_world) = Some n ->
     Navigation.smooth_scroll 8%N page_world =
     Ok tt (w_with_scroll_requests (w_scroll_requests page_world ++ [(offset_top (w_doc page_world) n - 80)%Z])
                                   (w_with_prevented true page_world))) /\
  (query [SelId "server-info"] (w_doc page_world) = None ->
     Navigation.smooth_scroll 8%N page_world = Ok tt page_world).
Proof. apply (smooth_scroll_spec 8%N anchor_el "#server-info"); (reflexivity || discriminate). Defined.

(** The page after [setupScrollEffects]: the debounce cell is cell 0. *)
Definition scroll_world : world :=
  match Navigation.setupScrollEffects page_world with Ok _ w | Throw _ w => w end.

Lemma debounce_burst_witness :
  exists w', repeat_m 3 (debounced_call 0%N 100 (KHeaderScroll 3%N)) scroll_world = Ok tt w' /\
    w_timers w' = remove_timer None (w_timers scroll_world) ++
      [mkTimer (w_next_timer scroll_world + N.of_nat 2) (w_now scroll_world + Z.max 0 100) None
               (KHeaderScroll 3%N)] /\
    w_cells w' !! 0%N = Some (CellTimeout (Some (w_next_timer scroll_world + N.of_nat 2)%N)) /\
    w_next_timer w' = (w_next_timer scroll_world + N.of_nat 2 + 1)%N /\
    w_now w' = w_now scroll_world /\ w_doc w' = w_doc scroll_world.
Proof. apply debounce_burst; [vm_compute; reflexivity|constructor]. Defined.

(** ** The schedule on the voice-chat page *)

Definition voice_world : world := w_with_path "/voice-chat.html" page_world.

Lemma highlight_card_adds_badge_witness :
  exists w', VoiceChat.highlight_card (Some "Monday") 19%N voice_world = Ok tt w' /\
    today_badges (w_doc w') 19%N = today_badges (w_doc voice_world) 19%N ++ [d_next (w_doc voice_world)] /\
    doc_wf (w_doc w').
Proof.
  apply (highlight_card_adds_badge "Monday" 19%N 20%N).
  - exact page_doc_wf.
  - by eexists.
  - vm_compute. reflexivity.
  - reflexivity.
Defined.

Lemma channel_status_spec_witness :
  let cur := VoiceChat.occupancy 6000000000000000 25 in
  0 <= cur < 25 /\
  exists w', VoiceChat.channel_status 17%N page_world = Ok tt w' /\
    w_rand w' = [123456789012345; 4503599627370496] /\
    text_of (w_doc w') (d_next (w_doc page_world)) =
      Some ("🔊 " +:+ show_N (Z.to_N cur) +:+ "/" +:+ show_N (Z.to_N 25) +:+ " users online") /\
    option_map el_parent (get_el (w_doc w') (d_next (w_doc page_world))) = Some (Some 17%N) /\
    style_of (w_doc w') (d_next (w_doc page_world)) "color" =
      Some (if VoiceChat.crowded cur 25 then "#ef4444" else "#22c55e") /\
    doc_wf (w_doc w').
Proof.
  apply (channel_status_spec 17%N 18%N "Max 25 users" "25");
    [exact page_doc_wf|vm_compute; reflexivity..|unfold two53; lia|vm_compute; reflexivity|unfold valid_draw, two53; lia].
Defined.

(** The sample page with a channel of 90 and the draw that gives 63 users. *)
Definition page_ninety : world :=
  {| page_world with
     w_doc := upd_el 18%N (fun e => {| e with el_text := "Max 90 users" |}) page_doc;
     w_rand := [6305039478318695] |}.

Lemma channel_red_at_seventy_percent_witness :
  exists w', VoiceChat.channel_status 17%N page_ninety = Ok tt w' /\
    text_of (w_doc w') (d_next (w_doc page_ninety)) = Some "🔊 63/90 users online" /\
    style_of (w_doc w') (d_next (w_doc page_ninety)) "color" = Some "#ef4444".
Proof.
  apply (channel_red_at_seventy_percent 17%N 18%N "Max 90 users" "90" []);
    [apply doc_wf_upd_el, page_doc_wf|vm_compute; reflexivity..].
Defined.

Lemma event_loop_fuel_enough_witness :
  2 <= 7 /\ run_fuel 7 (KCardKeydown 3%N) (simple_event "keydown" (TgNode 3%N)) =
            event_loop (KCardKeydown 3%N) (simple_event "keydown" (TgNode 3%N)).
Proof. split; [lia|]. apply (event_loop_fuel_enough 7). lia. Defined.

Lemma page_url_roundtrip_witness :
  plain_name "voice-chat" = true /\ "voice-chat" <> EmptyString /\
  Navigation.current_page ("/blackflame" +:+ "/" +:+ "voice-chat" +:+ ".html") = Some "voice-chat" /\
  Navigation.link_page ("voice-chat" +:+ ".html") = "voice-chat" /\
  Navigation.link_page ("./" +:+ "voice-chat" +:+ ".html") = "voice-chat".
Proof.
  split; [reflexivity|]. split; [discriminate|].
  apply page_url_roundtrip; [reflexivity|discriminate].
Defined.

(** ** The Konami sequence on the booted sample page *)

Lemma page_wf : wf page_world.
Proof.
  split; [exact page_doc_wf|]. split; [constructor|]. split; [simpl; lia|].
  split; [constructor|exact page_classes_nodup].
Qed.

Lemma booted_wf : wf booted_world.
Proof.
  exact (@wf_dispatch event_loop (simple_event "DOMContentLoaded" TgDocument) (wf_run_fuel 4)
           loaded_world (wf_load_script page_world page_wf)).
Qed.

Lemma konami_always_reachable_witness :
  exists w', rtc step booted_world w' /\ rainbow_on w' /\ w_konami w' = konamiSequence.
Proof.
  apply (konami_always_reachable TgDocument booted_world).
  - exists [], [KShortcuts]. split; [vm_compute; reflexivity|repeat constructor].
  - vm_compute. lia.
  - destruct booted_wf as [[Hids _] _]. exact Hids.
  - vm_compute. eexists. reflexivity.
Defined.

(** ** Sharing from a browser with [navigator.share] *)

(** The sample page in a browser whose share sheet the visitor dismisses. *)
Definition share_world : world :=
  {| page_world with w_env := mkEnv false true true true true true false true |}.

Lemma sharePage_share_spec_witness :
  env_has_share (w_env share_world) = true /\
  sharePage share_world =
    Ok tt (w_with_console [LogInfo "Error sharing: AbortError: Share canceled"]
             (w_with_shares [("Minecraft Server - BLACKFLAME NOVA", share_text,
                              "https://blackflame-nova.example/minecraft.html")] share_world)).
Proof. split; [reflexivity|]. apply (sharePage_share_spec share_world). reflexivity. Defined.

(** ** The title when the tab is shown again *)

Lemma visibility_title_spec_witness :
  visibility_change page_world = Ok tt (w_with_title "Minecraft Server - BLACKFLAME NOVA" page_world).
Proof.
  apply (proj1 (proj2 (visibility_title_spec page_world EmptyString "minecraft"
                         eq_refl eq_refl ltac:(discriminate)))); [reflexivity|].
  right. left.
Defined.

(** ** Keyboard activation *)

Definition enter_key : event := mkEvent "keydown" (TgNode 3%N) "Enter" 13 false false.

Lemma card_key_follows_link_witness :
  event_loop (KCardKeydown 3%N) enter_key page_world =
    Ok tt (w_with_navigations (w_navigations page_world ++ ["index.html"]) (w_with_prevented true page_world)).
Proof.
  apply (card_key_follows_link 3%N 6%N
           (mk_el "a" "" ["nav-link"] "Home" (Some 5%N) [("href", "index.html")] 0)).
  - left. reflexivity.
  - vm_compute. reflexivity.
  - vm_compute. reflexivity.
  - reflexivity.
  - vm_compute. reflexivity.
  - constructor.
Defined.

(** ** The header after a scroll *)

(** The sample page scrolled to 120 px with the debounce timeout of the
    header pending. *)
Definition scrolled_world : world :=
  {| page_world with w_timers := [mkTimer 1 100 None (KHeaderScroll 3%N)]; w_next_timer := 2%N;
                     w_scroll_y := 120%Z |}.

Lemma header_scroll_settles_witness :
  exists w', fire_timer 1%N scrolled_world = Ok tt w' /\ w_now w' = 100%Z /\
    find_timer 1%N (w_timers w') = None /\
    style_of (w_doc w') 3%N "background" =
      Some (if bool_decide (50 < w_scroll_y scrolled_world)%Z then "rgba(26, 31, 58, 0.98)"
            else "rgba(26, 31, 58, 0.95)") /\
    style_of (w_doc w') 3%N "box-shadow" =
      Some (if bool_decide (50 < w_scroll_y scrolled_world)%Z then "0 4px 20px rgba(0, 0, 0, 0.3)"
            else "none").
Proof. apply header_scroll_settles; vm_compute; [reflexivity|eexists; reflexivity]. Defined.

(** ** The Discord widget *)

(** The sample page whose channel block is the widget container. *)
Definition widget_world : world :=
  w_with_doc (upd_el 17%N (fun e => {| e with el_id := "discord-widget" |}) page_doc) page_world.

Lemma loadDiscordWidget_spec_witness :
  exists w', Social.loadDiscordWidget widget_world = Ok tt w' /\
    option_map el_tag (get_el (w_doc w') (d_next (w_doc widget_world))) = Some "iframe" /\
    option_map el_parent (get_el (w_doc w') (d_next (w_doc widget_world))) = Some (Some 17%N) /\
    attr_of (w_doc w') (d_next (w_doc widget_world)) "src" = Some Social.widgetUrl /\
    attr_of (w_doc w') (d_next (w_doc widget_world)) "sandbox" = Some Social.widget_sandbox /\
    attr_of (w_doc w') (d_next (w_doc widget_world)) "frameborder" = None /\
    attr_of (w_doc w') (d_next (w_doc widget_world)) "allowtransparency" = None.
Proof. apply loadDiscordWidget_spec. vm_compute. reflexivity. Defined.


(** Four draws for one particle on the sample page: the duration, the
    left position (a fraction), the top position (an exponent form) and
    the delay (an integer). *)
Definition particle_world : world :=
  w_with_rand [3196577161300664; 6000000000000000; 1; 4503599627370496] page_world.

Lemma create_particle_spec_witness :
  Forall valid_draw [3196577161300664; 6000000000000000; 1; 4503599627370496] /\
  (exists w' e, Animations.create_particle 0%N particle_world = Ok tt w' /\ w_rand w' = [] /\
    get_el (w_doc w') (d_next (w_doc particle_world)) = Some e /\ el_tag e = "div" /\
    el_classes e = ["particle"] /\ el_parent e = Some 0%N /\
    forall p pre x u,
      In (p, pre, x, u)
        [("animation", "float ", dadd (of_int 3) (dmul (of_draw 3196577161300664) (of_int 4)), "s ease-in-out infinite");
         ("left", EmptyString, dmul (of_draw 6000000000000000) (of_int 100), "%");
         ("top", EmptyString, dmul (of_draw 1) (of_int 100), "%");
         ("animation-delay", EmptyString, dmul (of_draw 4503599627370496) (of_int 2), "s")] ->
      exists t y, el_style e !! p = Some (pre +:+ t) /\ read_number t = Some (y, u) /\
                  denotes y x = true) /\
  (match Animations.create_particle 0%N particle_world with
   | Ok _ w' => map (style_of (w_doc w') 21%N) ["animation"; "left"; "top"; "animation-delay"]
   | Throw _ _ => []
   end) =
  [Some "float 4.419565425786768s ease-in-out infinite"; Some "66.61338147750939%";
   Some "1.1102230246251565e-14%"; Some "1s"].
Proof.
  split_and!.
  - repeat constructor; unfold valid_draw, two53; lia.
  - apply (create_particle_spec 0%N 3196577161300664 6000000000000000 1 4503599627370496 []);
      [reflexivity|unfold valid_draw, two53; lia..].
  - vm_compute. reflexivity.
Defined.

Lemma draw_gt_0_2_exact_witness :
  valid_draw 1801439850948199 /\
  draw_gt_0_2 1801439850948199 = bool_decide (two53 < 5 * 1801439850948199).
Proof.
  assert (H : valid_draw 1801439850948199) by (unfold valid_draw, two53; lia).
  split; [exact H|apply (draw_gt_0_2_exact 1801439850948199 H)].
Defined.

(** 18 users of 25 is not 70%, so the double test agrees with the exact one. *)
Lemma crowded_exact_witness :
  VoiceChat.crowded 18 25 = bool_decide (7 * 25 < 10 * 18) /\ VoiceChat.crowded 18 25 = true.
Proof.
  split; [apply crowded_exact; unfold two53; lia|vm_compute; reflexivity].
Defined.

(** ** A browser without [IntersectionObserver] *)

Definition page_no_io : world :=
  {| page_world with w_env := mkEnv false false true false true true true true |}.

Lemma animations_init_without_io_witness :
  Animations.init page_no_io = Throw (ReferenceError "IntersectionObserver is not defined") page_no_io.
Proof. apply animations_init_without_io. reflexivity. Defined.

